(* ===== verification/_CoqProject ===== *)
-Q . S2P
Prelude.v
Kernel.v
StorageProto.v
Libtrusty.v
ProxyState.v
Ipc.v
Storage.v
Rpmb.v
Proxy.v
StorageSync.v
SyncRequests.v
ProxyAnswers.v
ProxyLoop.v
ProxyMain.v
StorageFiles.v
MemKernel.v
ProxyTheorems.v
Gatekeeper.v
Kmsetkey.v
ClientTheorems.v
KmLib.v
KmTipc.v
KmTipcSpec.v
BeanpodKeymaster.v
KmTheorems.v
KeyMint.v
KeyMintSpec.v
KeyMintOperation.v
KeyMintDevice.v
TeeiList.v
Daemon.v
DaemonTheorems.v
Teec.v
TeecMemory.v
TeecOps.v
TeecSession.v
TeecContext.v
TeecFrames.v
TeeKernel.v
TeecInout.v
TeecDirect.v
TeecTheorems.v
TeecClient.v
TeecCalls.v
Gatekeeper400.v
Gatekeeper400Spec.v
Gatekeeper400Theorems.v
Kmsetkey400.v
Kmsetkey400Spec.v
Kmsetkey400Theorems.v
KmTeec.v
KmTeecSpec.v
KmTeecConn.v
KmTeecTheorems.v
KeyMintDeviceTheorems.v
Trustlets.v
KmParams.v
Keymaster4Device.v
Keymaster41Device.v
Keymaster4Theorems.v
Keymaster4Claims.v
LiteDevice.v
Km400.v
Services.v
KmsetkeyModule.v
DaemonLog.v
DaemonLogTheorems.v
LogHelpers.v
KmBuffer.v
LogMacros.v
KmSim.v
KmService.v
KmAppService.v
KeyMintHal.v
KeyMintService.v
TeecApi.v
TeecLifetime.v
TeecLifetimeTheorems.v
