(* ===== verification/Prelude.v ===== *)
(** * Microtrust TEE user space: a verification library

    The repository holds the normal-world side of a trusted execution
    environment.  Its programs are C and C++ processes that talk to a Linux
    kernel driver and, through it, to services of the secure world:

    - lite/storage/proxy: storageproxyd, the daemon that stores the files and
      the RPMB partition of the secure storage service on its behalf;
    - lite/libtrusty: opening and closing a channel to a secure service;
    - lite/gatekeeper, lite/kmsetkey: clients of the password verification and
      of the key installation service;
    - lite/km4.1: the keymaster client, over such a channel, and the devices and
      services that offer it to the framework;
    - 400/teei_daemon: the daemon that initialises the secure world, unlocks it
      after decryption and sets system properties on its behalf;
    - 400/optee_client/libteec: the GlobalPlatform client library;
    - 400/gatekeeper, 400/km4.1/kmsetkey: password verification and key
      installation on top of that library;
    - 400/km4.1, 400/keymint1.0: keymaster and KeyMint on top of that library;
    - 400/libimsg_log: log output;
    - trustlets: identifiers and manifests of the trusted applications.

    (Paths are relative to src/common, the last one to src.)

    ** How programs are modelled

    [Kernel.v] gives the process model.  A program is a function on process
    states: static variables ([globals]), the state of the kernel ([world]),
    [errno] and the [trace] of the calls made so far.  The kernel and the secure
    world behind it are not in the repository: they are a parameter, the class
    [Kernel], that answers a call with a return value, an [errno] and data.
    What a theorem needs of it is a class of documented laws: [KernelSignals]
    (finitely many interruptions), [KernelBounds] (no call transfers more than
    was asked for, nor past the largest file offset), [KernelErrno] (a failure has a reason), [KernelFiles]
    (reads return what writes stored), [KernelStdFds] (a descriptor that is opened is
    not 0), [KernelDir] and [KernelWrite] (what [access], [rename] and [write]
    do).  [MemKernel.v] and [TeeKernel.v], and small worlds next to the
    theorems, are kernels that satisfy them, on which every theorem with a
    hypothesis is instantiated.  Stopping early is a value: [exit], a failed
    [assert], fuel that ran out, undefined behaviour.

    Integers are [Z] with the wrap-around of their C type written out; buffers
    are lists of byte values; structures that cross the channel are encoded to
    bytes and decoded again.  An access outside one of the storage daemon's
    arrays ([put_fd_state], [read_fd_state], [read_with_retry], the copies and
    the prints of [Rpmb.v]) and an overflow of an off_t ([off_add]) are
    undefined: that they do not happen is part of C1.

    The keymaster methods do not depend on how messages travel: they are
    written and proved against the class [KeymasterIpc] with the laws
    [KeymasterIpcLaws], which both transports implement ([tipc_ipc_laws] for
    the channel, [teec_ipc_laws] for the client library).  Over the
    client library a positive code of the application is taken for success and
    the local buffer, to which nothing was written, for its answer
    ([positive_code_is_success]); [heard] is what that transport takes for an
    answer, such a buffer included, and the results on KeyMint are about it, in
    the states a KeyMint process can reach from its start ([mint_state]).
    Messages of the keymaster library are not in the repository: a request is a
    [Serializable],
    a response an instance of [KeymasterResponse].  The devices of keymaster see
    them through [KeymasterWire], which writes and reads the fields of every
    command's messages, [KeymasterDefs], the library's parameters, and
    [ParamSet], its sets of them; a transport with a limit is
    [KeymasterIpcBounded].

    The secure keymaster itself is a state and a function from a command and a
    request to a new state and an answer.  The classes [TipcService] and
    [AppService] state how such a function is reached, over a channel and behind
    the driver of the client library; [direct_ipc] is the transport that calls it
    without either, and is what the HALs are compared with.

    ** The files

    Shared: [Prelude.v] (integers, buffers, encodings), [Kernel.v] (processes;
    the rules [wp], [keeps] and [wp_retry]), [MemKernel.v] (an in-memory kernel).

    Storage proxy.  [StorageProto.v]: interface/storage.h, the layout of
    messages.  [Libtrusty.v]: trusty.c.  [ProxyState.v], [Ipc.v], [Storage.v],
    [Rpmb.v], [Proxy.v]: the static variables and one definition per function
    of ipc.c, storage.c, rpmb.c and proxy.c.  [StorageSync.v] and
    [SyncRequests.v]: the dirty marks, what they promise, and that requests keep
    the promise.  [ProxyAnswers.v]: every handler answers once and returns.
    [ProxyLoop.v] and [ProxyMain.v]: the message loop, connection, privileges
    and [main].  [StorageFiles.v]: files as byte sequences.  [ProxyTheorems.v]:
    the results.

    Clients.  [Gatekeeper.v]: trusty_gatekeeper_ipc.c and
    trusty_gatekeeper.cpp.  [Kmsetkey.v]: kmsetkey_ipc.c and
    HalAdaptationLayer.cpp.  [ClientTheorems.v]: the results.
    [KmsetkeyModule.v]: module.c, the HAL module and the built-in keys, with its
    result.

    Keymaster over a channel.  [KmLib.v]: commands, error codes and the
    interfaces named above.  [KmTipc.v]: lite/km4.1/common/
    beanpod_keymaster_ipc.cpp; [KmTipcSpec.v]: its invariant and what a send
    does.  [BeanpodKeymaster.v]: BeanpodKeymaster.cpp.  [KmTheorems.v]: the
    results.

    Keymaster devices, the same for lite and 400.  [KmParams.v]: the conversion
    of key parameters of BeanpodKeymaster4Device.cpp.  [Keymaster4Device.v]: its
    methods.  [Keymaster41Device.v]: the two classes as interfaces,
    BeanpodKeymaster41Device, and the services' [main].
    [Keymaster4Theorems.v]: what each method promises.  [Keymaster4Claims.v]: the
    results.  [LiteDevice.v]: the devices linked as lite/km4.1 links them.
    [Km400.v]: 400/km4.1/common/BeanpodKeymaster.cpp and the services of that
    build.  [Services.v]: the [main] of the gatekeeper and KeyMint services.
    [KmBuffer.v]: ut_km_ioctl.cpp.  [KmSim.v]: two transports that agree give two
    devices that agree.  [KmService.v] and [KmAppService.v]: the lite and the 400
    HAL against a secure service, with the results.

    KeyMint.  [KeyMint.v]: 400/keymint1.0/common/BeanpodKeymaster.cpp, whose
    methods set up the secure side first.  [KeyMintSpec.v]: what the guard
    promises.  [KeyMintOperation.v]: BeanpodKeyMintOperation.cpp.
    [KeyMintDevice.v]: BeanpodKeyMintDevice.cpp and the companion services
    BeanpodSharedSecret.cpp, BeanpodSecureClock.cpp and
    BeanpodRemotelyProvisionedComponent.cpp.  [KeyMintDeviceTheorems.v]: the
    results.  [KeyMintHal.v]: the process of service.cpp, its four interfaces and
    its operation objects under any sequence of calls.  [KeyMintService.v]:
    that process over two transports and against a secure service, with the
    result.

    TEE daemon.  [TeeiList.v]: teei_list.h on an explicit heap, refined to
    sequences.  [Daemon.v]: main.c.  [DaemonTheorems.v]: the results.
    [DaemonLog.v] and [DaemonLogTheorems.v]: its log collector and the results
    on it.

    Client library.  [Teec.v]: tee_client_api.h, linux/tee.h and
    tee_client_api.cpp.  [TeecMemory.v]: what an operation may touch, and the
    accounting of mappings.  [TeecOps.v]: preparing, finishing and releasing
    parameters.  [TeecSession.v]: opening sessions and invoking commands.
    [TeecContext.v]: devices, contexts and the singleton's maps.
    [TeecFrames.v]: the argument buffer and UUIDs.  [TeecInout.v]: one temporary
    reference from mapping to copy-back.  [TeecDirect.v]: references to shared
    memory.  [TeeKernel.v]: a secure world for concrete runs.
    [TeecTheorems.v]: the results.  [TeecApi.v]: the exported functions, around
    the one object that keeps the registries.  [TeecLifetime.v] and
    [TeecLifetimeTheorems.v]: the rules for a client, and the library under any
    client that keeps to them.

    Clients of the library.  [TeecClient.v]: the frame all of them share, from
    context to context, and what it gives back.  [TeecCalls.v]: which calls the
    library makes.  [Gatekeeper400.v]: ut_gatekeeper.cpp and ut_gk_struct.h.
    [Kmsetkey400.v]: ut_km_tac.cpp, ut_kmsetkey.cpp, kmsetkey_ca.cpp and
    ut_km_ioctl.cpp.  [KmTeec.v]: the keymaster transport of 400/km4.1 and of
    400/keymint1.0, which differ in the size of their buffers and in whether a
    failed allocation ends the connection attempt (the parameter [stops]).  Each
    has a file with its specification ([Gatekeeper400Spec.v], [Kmsetkey400Spec.v], [KmTeecSpec.v]
    and [KmTeecConn.v]) and one with the results ([Gatekeeper400Theorems.v],
    [Kmsetkey400Theorems.v], [KmTeecTheorems.v]).

    [Trustlets.v]: the packages, with their result.  [LogHelpers.v]: imsg_log.c
    and teec_trace.cpp, with what they print.  [LogMacros.v]: imsg_log.h and
    teec_trace.h, the macros that call them.

    ** What is shown

    - The storage daemon's protocol (C1, C6, for a 64-bit size_t): every accepted
      request is handled to the end and answered exactly once, in order; no
      assertion can fail, no array is accessed outside its bounds, nothing else
      is undefined; the daemon can only end with failure.  A request flagged
      BATCH is answered at once too, which the interface does not say
      ([batch_answered_at_once]).  C24: privileges are dropped first.
    - Durability (C2, C3, C4): the dirty marks cover what is not yet on disk; as
      long as they do, a checkpoint that succeeds leaves nothing pending, and a
      request that asks for a checkpoint runs only after one.
      [failed_close_hides_change] shows the one request that breaks the promise.
    - File contents (C5, C23, [set_size_resizes]) and RPMB commands (C17, for a
      64-bit size_t; [rpmb_length_check_wraps] for 32 bits): reads, writes and
      resizes are those of a byte sequence, across short and interrupted calls.
    - The HALs as a whole (C7, C8): against any secure service that keeps to
      the protocol, clients of the lite device and of the 400 device get, for
      every sequence of calls, the replies of a process that calls the service's
      function directly.  Messages, buffers, sessions and shared memory do not
      show.  [keymint_refines_application] says so of a KeyMint process that
      is set up and has its session.
    - Keymaster and KeyMint (C9, C10, C13, C14, C18 to C22, C27 to C30): a
      send is a remote procedure call over either transport; the states of the
      transports are well formed and own exactly the descriptors they should, but
      for the one that is lost by connecting twice; a method that succeeds was
      answered by the secure side, under KeyMint after the secure side was set
      up, or took a positive code for success; keys, characteristics and
      operations are the secure side's, operations end once, and one whose
      request is too long is aborted; parameters and tokens survive their
      conversions; a service is registered only once the secure side accepted
      its configuration.
    - Gatekeepers and key installation (C15, C16, C25, C26, C38,
      [transfer400_restores], [long_password_equiv]): success is backed by an
      answer to exactly this request, resources are given back, and keys arrive
      complete and in order, each part only when the one before was accepted.
    - The TEE daemon (C31 to C36, C39): the property thread sets exactly the
      properties queued, in order, for the posts it is woken by; log files are
      bounded and hold what was read, and are rotated in order; the linked list
      implements a sequence; the UUID table that reaches the driver; the unlock
      order.
    - The client library (C11, C12, C37, C40): invocations are memory safe
      whatever the secure world answers, send exactly the marshalled operation
      and leave no mapping behind when the driver hands out identifiers; under
      any client that keeps to the rules no call faults and every descriptor is
      accounted for, to the last one when the process ends; a session is opened
      with exactly the request the client asked for and registered under the
      driver's number; a temporary reference is copied out and back.
      [invoke_values], [initialize_context_devices], [destroy_closes_all] and
      [allocate_release_script] are further results.
    - The packages ([packages_consistent]): names, structures and manifests agree.
    - The log output ([func_name_spec], [kernel_log_all_spec],
      [dump_loop_roundtrip]): names and messages are cut to their buffers, the
      kernel log is opened once, and a dump can be read back.

    Other theorems of the result files show faults of the code on concrete runs:
    [uuid_table_overflow], [empty_queue_undefined],
    [unprepared_release_closes_stdin], [finalize_context_faults],
    [retry_now_is_success],
    [long_keybox_overruns], [km41_connects_without_memory],
    [positive_code_is_success], [keymint_adds_no_date], [rename_failure_loses_log].

    ** Fuel and bounds

    Loops of the sources that retry an interrupted call or poll take fuel.  The
    retry loops are shown to return when the fuel exceeds the number of signals
    the process will still receive; the proxy's loops over buffers when it
    exceeds their length as well.  The reconnect loop and the device loop have
    their source bounds (six attempts, ten devices).  The message loops of the
    daemons run forever in the source: they are taken for a given number of
    messages, and the theorems hold for every number; the log collector likewise
    for every number of rounds (C31), and the property thread for every number of
    posts (C34).  Waiting for decryption (C36) need not end; its theorem speaks of
    every prefix of the run.  The loop that sends a keymaster request takes as many rounds as there are bytes,
    which is enough; the one that receives an answer ends only when the service
    says so, and C9 describes both cases for every amount of fuel; in C7 the
    service promises a bound on the messages of an answer and the fuel is at
    least that.  KeyMint's loops that wait for a property take fuel, and C14 is
    about calls that return.  C20 is about calls that return, of any number and in any order, and takes
    requests to fit the 32 bits in which the transports keep their size.
    size_t has 64 bits, except where a theorem says otherwise.

    ** What is not modelled

    The places that write log messages, and code under DEBUG (such as the dumps
    of AttestKey; print_buf of rpmb.c, which RPMB_DEBUG compiles in, is
    modelled); the functions that format and write them are in
    [LogHelpers.v], the macros in [LogMacros.v].  The threads of the
    TEE daemon are modelled one by one.  Its vfs command handler and property
    reader are in a library that is not in the repository; C34 is about the
    property thread between two additions to its list.
    C12 leaves out descriptor 0, which the library closes by mistake
    when an operation is refused half way.  Serialisation of gatekeeper and
    keymaster messages, the structures of key parameters and the conversions of
    KeyMintUtils.h belong to libraries and are parameters; so is
    hidlKeyParams2Km, which BeanpodKeymaster4Device.h declares and no file
    defines.  The generated classes that receive calls from the framework are
    represented by [call_device] and [call_mint].  Headers that only declare
    functions defined elsewhere have no definitions of their own.  The test client lite/libtrusty/tipc-test is
    not modelled; the tests under lite/storage/tests exercise a client library
    that is not in the repository. *)

From stdpp Require Export base gmap strings list.
From Stdlib Require Export ZArith Lia.

Open Scope Z_scope.

(** Buffers are lists of byte values; a C [char] array of length [n] is a
    list of length [n]. *)
Abbreviation bytes := (list Z).

(** ** Machine integers

    C integers are [Z]; a store into a narrower type applies the wrap-around
    function of that type. *)
Definition u8 (z : Z) : Z := z mod 2 ^ 8.
Definition u16 (z : Z) : Z := z mod 2 ^ 16.
Definition u32 (z : Z) : Z := z mod 2 ^ 32.
Definition u64 (z : Z) : Z := z mod 2 ^ 64.

(** Two's-complement reinterpretation at [w] bits. *)
Definition swrap (w z : Z) : Z := (z + 2 ^ (w - 1)) mod 2 ^ w - 2 ^ (w - 1).
Definition s32 (z : Z) : Z := swrap 32 z.
Definition s64 (z : Z) : Z := swrap 64 z.

Definition is_u8 (z : Z) : Prop := 0 <= z < 2 ^ 8.
Definition is_u32 (z : Z) : Prop := 0 <= z < 2 ^ 32.
Definition is_u64 (z : Z) : Prop := 0 <= z < 2 ^ 64.
Definition is_s32 (z : Z) : Prop := - 2 ^ 31 <= z < 2 ^ 31.

(** [x & f] used as a C truth value. *)
Definition has_flag (x f : Z) : bool := negb (Z.land x f =? 0).

(** ** Byte buffers *)

(** Bytes [off, off+len) of a buffer. *)
Definition slice (off len : Z) (b : bytes) : bytes :=
  take (Z.to_nat len) (drop (Z.to_nat off) b).

(** [memcpy(buf + off, data, len)] inside a buffer that is large enough. *)
Definition splice (buf : bytes) (off : Z) (data : bytes) : bytes :=
  take (Z.to_nat off) buf ++ data ++ drop (Z.to_nat off + length data) buf.

Definition zlen {A} (l : list A) : Z := Z.of_nat (length l).

(** [strlen(buf + off)]: [None] when no terminating zero lies inside the
    buffer, i.e. when the C function would run off its end. *)
Fixpoint strlen (b : bytes) : option Z :=
  match b with
  | [] => None
  | c :: b' => if c =? 0 then Some 0 else Z.succ <$> strlen b'
  end.

(** Bytes of a C string literal, without its terminating zero. *)
Fixpoint cstr (s : string) : bytes :=
  match s with
  | String.EmptyString => []
  | String.String c s' => Z.of_N (Ascii.N_of_ascii c) :: cstr s'
  end.

(** ** Little-endian integers *)

Fixpoint le_enc (n : nat) (z : Z) : bytes :=
  match n with
  | O => []
  | S n' => z mod 256 :: le_enc n' (z / 256)
  end.

Fixpoint le_dec (b : bytes) : Z :=
  match b with
  | [] => 0
  | x :: b' => x + 256 * le_dec b'
  end.

(** Fields of a struct at a byte offset. *)
Definition get_u8 (b : bytes) (off : Z) : Z := le_dec (slice off 1 b).
Definition get_u32 (b : bytes) (off : Z) : Z := le_dec (slice off 4 b).
Definition get_u64 (b : bytes) (off : Z) : Z := le_dec (slice off 8 b).
Definition get_s32 (b : bytes) (off : Z) : Z := s32 (get_u32 b off).

(** ** Automation *)

Create HintDb wide.
Create Rewrite HintDb len.

Ltac Zify.zify_post_hook ::= Z.div_mod_to_equations.

(** Replace the powers of two of the width predicates by numerals. *)
Ltac unfold_width :=
  unfold is_u8, is_u32, is_u64, is_s32, u8, u16, u32, u64, s32, s64, swrap, zlen in *;
  repeat match goal with
    | H : context [2 ^ ?k] |- _ =>
        lazymatch k with
        | Zpos _ => let v := eval vm_compute in (2 ^ k) in change (2 ^ k) with v in H
        | 32 - 1 => change (2 ^ (32 - 1)) with 2147483648 in H
        | 64 - 1 => change (2 ^ (64 - 1)) with 9223372036854775808 in H
        end
    | |- context [2 ^ ?k] =>
        lazymatch k with
        | Zpos _ => let v := eval vm_compute in (2 ^ k) in change (2 ^ k) with v
        | 32 - 1 => change (2 ^ (32 - 1)) with 2147483648
        | 64 - 1 => change (2 ^ (64 - 1)) with 9223372036854775808
        end
    end.

Ltac wide_lia := unfold_width; lia.

(** ** Integer lemmas *)

Lemma u32_range z : is_u32 (u32 z).
Proof. wide_lia. Qed.
Lemma u64_range z : is_u64 (u64 z).
Proof. wide_lia. Qed.
Lemma u32_small z : is_u32 z -> u32 z = z.
Proof. intros; unfold u32; apply Z.mod_small; wide_lia. Qed.
Lemma u64_small z : is_u64 z -> u64 z = z.
Proof. intros; unfold u64; apply Z.mod_small; wide_lia. Qed.
Lemma s32_range z : is_s32 (s32 z).
Proof. wide_lia. Qed.
Lemma s32_u32 z : is_s32 z -> s32 (u32 z) = z.
Proof. wide_lia. Qed.
Lemma s32_small z : is_s32 z -> s32 z = z.
Proof. wide_lia. Qed.
Lemma u32_s32 z : is_u32 z -> u32 (s32 z) = z.
Proof. wide_lia. Qed.
Lemma s32_zero z : is_u32 z -> s32 z = 0 -> z = 0.
Proof. intros H E. rewrite <- (u32_s32 z) by done. rewrite E. reflexivity. Qed.

#[export] Hint Resolve u32_range u64_range s32_range : wide.

(** ** Buffer lemmas *)

Lemma zlen_nonneg {A} (l : list A) : 0 <= zlen l.
Proof. unfold zlen; lia. Qed.

Lemma length_slice off len b :
  length (slice off len b) = Nat.min (Z.to_nat len) (length b - Z.to_nat off).
Proof. unfold slice. rewrite length_take, length_drop. lia. Qed.

Lemma zlen_slice off len b :
  0 <= off -> 0 <= len -> off + len <= zlen b -> zlen (slice off len b) = len.
Proof. unfold zlen. rewrite length_slice. lia. Qed.

Lemma slice_full b : slice 0 (zlen b) b = b.
Proof. unfold slice, zlen. rewrite Nat2Z.id. rewrite drop_0. apply take_ge. lia. Qed.

Lemma slice_app_l off len b c :
  0 <= off -> 0 <= len -> off + len <= zlen b -> slice off len (b ++ c) = slice off len b.
Proof.
  unfold slice, zlen; intros. rewrite drop_app_le by lia.
  rewrite take_app_le; [done|]. rewrite length_drop; lia.
Qed.

Lemma slice_app_r off len b c :
  zlen b <= off -> slice off len (b ++ c) = slice (off - zlen b) len c.
Proof.
  unfold slice, zlen; intros. rewrite drop_app_ge by lia.
  do 2 f_equal. lia.
Qed.

Lemma slice_slice o1 l1 o2 l2 b :
  0 <= o1 -> 0 <= o2 -> 0 <= l2 -> o2 + l2 <= l1 ->
  slice o2 l2 (slice o1 l1 b) = slice (o1 + o2) l2 b.
Proof.
  unfold slice; intros.
  rewrite skipn_firstn_comm, take_take, drop_drop.
  replace (Z.to_nat l2 `min` (Z.to_nat l1 - Z.to_nat o2))%nat with (Z.to_nat l2) by lia.
  do 2 f_equal. lia.
Qed.

Lemma slice_nil off len : slice off len [] = [].
Proof. unfold slice. by rewrite drop_nil, take_nil. Qed.

Lemma slice_0 off b : slice off 0 b = [].
Proof. reflexivity. Qed.

(** Consecutive slices concatenate. *)
Lemma slice_split off n m b :
  0 <= off -> 0 <= n -> 0 <= m ->
  slice off n b ++ slice (off + n) m b = slice off (n + m) b.
Proof.
  intros. unfold slice.
  replace (Z.to_nat (off + n)) with (Z.to_nat off + Z.to_nat n)%nat by lia.
  replace (Z.to_nat (n + m)) with (Z.to_nat n + Z.to_nat m)%nat by lia.
  rewrite <- drop_drop. generalize (drop (Z.to_nat off) b); intros l.
  apply take_take_drop.
Qed.

Lemma slice_join off n off' m k b :
  0 <= off -> 0 <= n -> 0 <= m -> off' = off + n -> k = n + m ->
  slice off n b ++ slice off' m b = slice off k b.
Proof. intros ??? -> ->. by apply slice_split. Qed.

Lemma length_splice buf off data :
  0 <= off -> off + zlen data <= zlen buf -> length (splice buf off data) = length buf.
Proof.
  unfold splice, zlen; intros.
  rewrite !length_app, length_take, length_drop. lia.
Qed.

Lemma splice_nil buf off : 0 <= off -> splice buf off [] = buf.
Proof.
  unfold splice; intros; simpl. rewrite Nat.add_0_r. apply take_drop.
Qed.

(** A slice that ends where the spliced data starts does not see it. *)
Lemma slice_splice_before buf off data o n :
  0 <= o -> 0 <= n -> o + n <= off -> off <= zlen buf ->
  slice o n (splice buf off data) = slice o n buf.
Proof.
  intros. unfold splice.
  rewrite slice_app_l; try lia.
  - unfold slice. rewrite skipn_firstn_comm, take_take. f_equal. lia.
  - unfold zlen in *. rewrite length_take. lia.
Qed.

(** The spliced data is read back. *)
Lemma slice_splice_here buf off data :
  0 <= off -> off <= zlen buf -> slice off (zlen data) (splice buf off data) = data.
Proof.
  intros. unfold splice.
  assert (zlen (take (Z.to_nat off) buf) = off) as Hl
    by (unfold zlen in *; rewrite length_take; lia).
  rewrite slice_app_r by lia. rewrite Hl, Z.sub_diag.
  rewrite slice_app_l by (pose proof (zlen_nonneg data); lia).
  apply slice_full.
Qed.

Lemma zlen_app {A} (l k : list A) : zlen (l ++ k) = zlen l + zlen k.
Proof. unfold zlen. rewrite length_app. lia. Qed.

Lemma zlen_nil {A} : zlen (@nil A) = 0.
Proof. reflexivity. Qed.

#[export] Hint Rewrite @zlen_app @zlen_nil @length_app @length_take @length_drop : len.

(** ** Little-endian lemmas *)

Lemma length_le_enc n z : length (le_enc n z) = n.
Proof. revert z; induction n; intros; simpl; auto. Qed.

Lemma zlen_le_enc n z : zlen (le_enc n z) = Z.of_nat n.
Proof. unfold zlen. by rewrite length_le_enc. Qed.

#[export] Hint Rewrite length_le_enc zlen_le_enc : len.

Lemma le_dec_enc n z : le_dec (le_enc n z) = z mod 256 ^ Z.of_nat n.
Proof.
  revert z; induction n as [|n IH]; intros; [by rewrite Z.mod_1_r|].
  cbn [le_enc le_dec]. rewrite IH, Nat2Z.inj_succ, Z.pow_succ_r by lia.
  rewrite Z.rem_mul_r by lia. reflexivity.
Qed.

Lemma le_enc_dec b : Forall is_u8 b -> le_enc (length b) (le_dec b) = b.
Proof.
  induction 1 as [|x b Hx Hb IH]; [done|]. cbn [length le_dec le_enc].
  replace ((x + 256 * le_dec b) / 256) with (le_dec b) by wide_lia.
  rewrite IH. f_equal. wide_lia.
Qed.

Lemma le_dec_bound b : Forall is_u8 b -> 0 <= le_dec b < 256 ^ zlen b.
Proof.
  induction 1 as [|x b Hx Hb IH]; [done|].
  unfold zlen in *; cbn [length le_dec]. rewrite Nat2Z.inj_succ, Z.pow_succ_r by lia.
  revert IH; generalize (256 ^ Z.of_nat (length b)); intros. wide_lia.
Qed.

Lemma le_enc_bytes n z : Forall is_u8 (le_enc n z).
Proof. revert z; induction n; intros; constructor; [wide_lia|auto]. Qed.

#[export] Hint Resolve le_enc_bytes : wide.

Lemma get_u32_enc z : is_u32 z -> le_dec (le_enc 4 z) = z.
Proof. intros. rewrite le_dec_enc. change (256 ^ Z.of_nat 4) with 4294967296. wide_lia. Qed.

Lemma get_u64_enc z : is_u64 z -> le_dec (le_enc 8 z) = z.
Proof.
  intros. rewrite le_dec_enc. change (256 ^ Z.of_nat 8) with 18446744073709551616. wide_lia.
Qed.

Lemma Forall_slice (P : Z -> Prop) off len b : Forall P b -> Forall P (slice off len b).
Proof. intros; unfold slice. by apply Forall_take, Forall_drop. Qed.

(** Decoding a field never leaves its width. *)
Lemma get_u32_range b off : Forall is_u8 b -> is_u32 (get_u32 b off).
Proof.
  intros H. unfold get_u32.
  pose proof (le_dec_bound _ (Forall_slice _ off 4 b H)) as Hb.
  assert (256 ^ zlen (slice off 4 b) <= 256 ^ 4) as Hp.
  { apply Z.pow_le_mono_r; [lia|]. unfold zlen; rewrite length_slice; lia. }
  change (256 ^ 4) with 4294967296 in Hp. wide_lia.
Qed.

Lemma get_u64_range b off : Forall is_u8 b -> is_u64 (get_u64 b off).
Proof.
  intros H. unfold get_u64.
  pose proof (le_dec_bound _ (Forall_slice _ off 8 b H)) as Hb.
  assert (256 ^ zlen (slice off 8 b) <= 256 ^ 8) as Hp.
  { apply Z.pow_le_mono_r; [lia|]. unfold zlen; rewrite length_slice; lia. }
  change (256 ^ 8) with 18446744073709551616 in Hp. wide_lia.
Qed.

(** ** Fields of encoded structures *)

Lemma get_u32_app_l z b : is_u32 z -> get_u32 (le_enc 4 z ++ b) 0 = z.
Proof.
  intros. unfold get_u32. rewrite slice_app_l by (autorewrite with len; lia).
  change 4 with (Z.of_nat 4) at 1. rewrite <- (zlen_le_enc 4 z), slice_full.
  by apply get_u32_enc.
Qed.

Lemma get_u64_app_l z b : is_u64 z -> get_u64 (le_enc 8 z ++ b) 0 = z.
Proof.
  intros. unfold get_u64. rewrite slice_app_l by (autorewrite with len; lia).
  change 8 with (Z.of_nat 8) at 1. rewrite <- (zlen_le_enc 8 z), slice_full.
  by apply get_u64_enc.
Qed.

Lemma get_u32_skip n z b off :
  Z.of_nat n <= off -> get_u32 (le_enc n z ++ b) off = get_u32 b (off - Z.of_nat n).
Proof.
  intros. unfold get_u32. rewrite slice_app_r by (autorewrite with len; lia).
  by autorewrite with len.
Qed.

Lemma get_u64_skip n z b off :
  Z.of_nat n <= off -> get_u64 (le_enc n z ++ b) off = get_u64 b (off - Z.of_nat n).
Proof.
  intros. unfold get_u64. rewrite slice_app_r by (autorewrite with len; lia).
  by autorewrite with len.
Qed.

(** Read the fields of an encoded structure. *)
Ltac fields :=
  repeat first
    [ rewrite get_u32_app_l by (auto with wide)
    | rewrite get_u64_app_l by (auto with wide)
    | rewrite get_u32_skip by (simpl; lia)
    | rewrite get_u64_skip by (simpl; lia)
    | progress simpl Z.of_nat | progress simpl Z.sub ].

(** Reading a part of a concatenation back. *)
Lemma slice_at b c d off len : off = zlen b -> len = zlen c -> slice off len (b ++ c ++ d) = c.
Proof.
  intros -> ->. rewrite slice_app_r by lia. rewrite Z.sub_diag, slice_app_l by (pose proof (zlen_nonneg c); lia).
  apply slice_full.
Qed.

(** Appending [d] behind the [sz] bytes already in [out]. *)
Lemma splice_part out sz d :
  0 <= sz -> sz + zlen d <= zlen out ->
  zlen (splice out sz d) = zlen out /\
  slice 0 (sz + zlen d) (splice out sz d) = slice 0 sz out ++ d.
Proof.
  intros H1 H2. pose proof (zlen_nonneg d).
  split; [unfold zlen; by rewrite length_splice|].
  rewrite <- (slice_splice_before out sz d 0 sz) by lia.
  rewrite <- (slice_splice_here out sz d) at 4 by lia. symmetry. apply slice_join; lia.
Qed.

(** Equality of a buffer with the encoding of the fields read from it. *)
Lemma enc_get_u32 b off :
  Forall is_u8 b -> 0 <= off -> off + 4 <= zlen b -> le_enc 4 (get_u32 b off) = slice off 4 b.
Proof.
  intros. unfold get_u32.
  assert (length (slice off 4 b) = 4%nat) as Hl
    by (unfold zlen in *; rewrite length_slice; lia).
  rewrite <- Hl at 1. apply le_enc_dec. by apply Forall_slice.
Qed.

Lemma enc_get_u64 b off :
  Forall is_u8 b -> 0 <= off -> off + 8 <= zlen b -> le_enc 8 (get_u64 b off) = slice off 8 b.
Proof.
  intros. unfold get_u64.
  assert (length (slice off 8 b) = 8%nat) as Hl
    by (unfold zlen in *; rewrite length_slice; lia).
  rewrite <- Hl at 1. apply le_enc_dec. by apply Forall_slice.
Qed.

(** ** C strings *)

(** A buffer that contains a zero byte has a string length, and it points at
    the first zero. *)
Lemma strlen_app_zero b c : exists n, strlen (b ++ 0 :: c) = Some n /\ 0 <= n <= zlen b.
Proof.
  unfold zlen. induction b as [|x b IH]; simpl.
  - exists 0; split; [done|lia].
  - destruct (x =? 0); [exists 0; split; [done|lia]|].
    destruct IH as (n & -> & ?). exists (Z.succ n). split; [done|lia].
Qed.

Lemma strlen_spec b n :
  strlen b = Some n ->
  0 <= n < zlen b /\ b !! Z.to_nat n = Some 0 /\ Forall (.≠ 0) (take (Z.to_nat n) b).
Proof.
  unfold zlen. revert n; induction b as [|x b IH]; intros n; [done|]. simpl.
  destruct (Z.eqb_spec x 0) as [->|Hx]; intros H.
  - simplify_eq. simpl. split_and!; [lia|lia|done|constructor].
  - destruct (strlen b) as [m|] eqn:E; simplify_eq/=.
    destruct (IH m eq_refl) as (? & Hl & Hf).
    rewrite Z2Nat.inj_succ by lia. simpl. split_and!; [lia|lia|done|by constructor].
Qed.

(** ** Filters *)

Lemma list_filter_all {A} (P : A -> Prop) `{!forall x, Decision (P x)} (l : list A) :
  (forall x, x ∈ l -> P x) -> filter P l = l.
Proof.
  induction l as [|x l IH]; intros Hl; [done|].
  rewrite filter_cons_True by (apply Hl; by left). f_equal. apply IH. intros. apply Hl. by right.
Qed.

Lemma list_filter_none {A} (P : A -> Prop) `{!forall x, Decision (P x)} (l : list A) :
  (forall x, x ∈ l -> ~ P x) -> filter P l = [].
Proof.
  induction l as [|x l IH]; intros Hl; [done|].
  rewrite filter_cons_False by (apply Hl; by left). apply IH. intros. apply Hl. by right.
Qed.

#[global] Arguments le_enc : simpl never.
#[global] Arguments le_dec : simpl never.
#[global] Arguments slice : simpl never.
#[global] Arguments splice : simpl never.
#[global] Arguments strlen : simpl never.
#[global] Arguments cstr : simpl never.
#[global] Arguments zlen : simpl never.
#[global] Arguments swrap : simpl never.
#[global] Arguments u32 : simpl never.
#[global] Arguments u64 : simpl never.
