(* ===== verification/Kernel.v ===== *)
(** * The process model: system calls, the kernel, the process monad

    Every program of the repository is a C process that talks to a kernel.
    A system call (or a C library call that can fail) is a value of [syscall];
    the kernel is a parameter, a function [kcall] that answers a call with a
    return value, an [errno], bytes written into the caller's buffer and a new
    kernel state.  A program is a function on process states ([M]): static
    variables, kernel state, [errno] and the trace of the calls made so far.
    The file also holds the reasoning principles the components share: [wp]
    (what a program establishes), [keeps] (what relates the states before and
    after it) and the [EINTR] retry loop. *)

From S2P Require Import Prelude.

(** ** Linux constants used by the sources *)

Definition EPERM := 1.
Definition ENOENT := 2.
Definition EINTR := 4.
Definition EIO := 5.
Definition EBADF := 9.
Definition ENOMEM := 12.
Definition EACCES := 13.
Definition EEXIST := 17.
Definition ENOTDIR := 20.
Definition EISDIR := 21.
Definition EINVAL := 22.
Definition ENAMETOOLONG := 36.

Definition O_RDONLY := 0.
Definition O_RDWR := 2.
Definition O_CREAT := 64.
Definition O_EXCL := 128.
Definition O_TRUNC := 512.
Definition O_SYNC := 1052672.

(** ** System calls

    Memory shared with the secure world belongs to the kernel's side: a copy
    out of a mapping or into it is a [Mem_load] or a [Mem_store]. *)

(** [struct mmc_ioc_cmd] of linux/mmc/ioctl.h, the fields the sources set;
    [mmc_data] is the buffer behind [data_ptr] for a write command. *)
Record mmc_ioc_cmd := MmcCmd {
  write_flag : Z; opcode : Z; mmc_flags : Z; blksz : Z; blocks : Z; mmc_data : bytes
}.

Inductive ioctl_arg :=
| Arg_int (z : Z)
| Arg_str (s : bytes)
| Arg_buf (b : bytes)
| Arg_mmc (cmds : list mmc_ioc_cmd).

Inductive syscall :=
| Sys_open (path : bytes) (flags mode : Z)
| Sys_close (fd : Z)
| Sys_unlink (path : bytes)
| Sys_mkdir (path : bytes) (mode : Z)
| Sys_access (path : bytes) (mode : Z)
| Sys_rename (from to : bytes)
| Sys_umask (mask : Z)
| Sys_pread (fd size off : Z)
| Sys_pwrite (fd : Z) (data : bytes) (off : Z)
| Sys_fsync (fd : Z)
| Sys_syncfs (fd : Z)
| Sys_fstat (fd : Z)
| Sys_ftruncate (fd size : Z)
| Sys_read (fd size : Z)
| Sys_write (fd : Z) (data : bytes)
| Sys_readv (fd : Z) (lens : list Z)
| Sys_writev (fd : Z) (iov : list bytes)
| Sys_ioctl (fd req : Z) (arg : ioctl_arg)
| Sys_prctl (op arg : Z)
| Sys_setgid (id : Z)
| Sys_setuid (id : Z)
| Sys_capset (permitted effective : list Z)
| Sys_sleep (secs : Z)
| Sys_usleep (usecs : Z)
| Sys_mmap (size fd : Z)
| Sys_munmap (addr size : Z)
| Mem_load (addr size : Z)
| Mem_store (addr : Z) (data : bytes)
| Lib_malloc (size : Z)
| Lib_asprintf (s : bytes)
| Lib_strdup (s : bytes)
| Lib_free
| Lib_property_set (key value : bytes)
| Lib_property_get (key : bytes)
| Lib_sem_init
| Lib_sem_wait
| Lib_mutex_init
| Lib_mutex_lock
| Lib_mutex_unlock
| Lib_pthread_create (start_routine : bytes)
| Lib_extern (name : bytes).

Record sysret := SysRet { sr_ret : Z; sr_errno : Z; sr_data : bytes }.

Record event := Ev { ev_call : syscall; ev_res : sysret }.

(** The kernel: not part of the repository, hence a parameter. *)
Class Kernel (W : Type) := kcall : syscall -> W -> sysret * W.

(** ** The process monad *)

(** How a process can stop before a function returns: [exit], a failed
    [assert], a loop that used up the fuel of the model, undefined behaviour. *)
Inductive stop := Exit (code : Z) | AssertFailed | OutOfFuel | Undefined.

Inductive outcome (A : Type) := Ret (a : A) | Stop (e : stop).
Arguments Ret {A} a.
Arguments Stop {A} e.

Record proc (W G : Type) := Proc {
  globals : G; world : W; errno : Z; trace : list event
}.
Arguments Proc {W G} globals world errno trace.
Arguments globals {W G} p.
Arguments world {W G} p.
Arguments errno {W G} p.
Arguments trace {W G} p.

Definition M (W G A : Type) : Type := proc W G -> outcome A * proc W G.

#[export] Instance M_ret {W G} : MRet (M W G) := fun A a s => (Ret a, s).
#[export] Instance M_bind {W G} : MBind (M W G) := fun A B f m s =>
  match m s with
  | (Ret a, s') => f a s'
  | (Stop e, s') => (Stop e, s')
  end.

Section Primitives.
Context {W G : Type} `{K : Kernel W}.

Definition halt {A} (e : stop) : M W G A := fun s => (Stop e, s).

(** Reading and writing the static variables. *)
Definition gets {A} (f : G -> A) : M W G A := fun s => (Ret (f (globals s)), s).
Definition modify (f : G -> G) : M W G unit := fun s =>
  (Ret tt, Proc (f (globals s)) (world s) (errno s) (trace s)).
Definition get_errno : M W G Z := fun s => (Ret (errno s), s).

(** The state after the kernel answered [c] with [r]: the trace grows by one
    event and a negative return value sets [errno]. *)
Definition after (s : proc W G) (c : syscall) (r : sysret) (w : W) : proc W G :=
  Proc (globals s) w (if sr_ret r <? 0 then sr_errno r else errno s)
       (trace s ++ [Ev c r]).

Definition sys (c : syscall) : M W G sysret := fun s =>
  let '(r, w) := kcall c (world s) in (Ret r, after s c r w).

(** [assert(b)] *)
Definition assert_ (b : bool) : M W G unit :=
  if b then mret tt else halt AssertFailed.

(** [TEMP_FAILURE_RETRY(c)]: repeat while the call is interrupted. *)
Fixpoint retry (fuel : nat) (c : syscall) : M W G sysret :=
  match fuel with
  | O => halt OutOfFuel
  | S fuel' =>
      r ← sys c;
      e ← get_errno;
      if (sr_ret r =? -1) && (e =? EINTR) then retry fuel' c else mret r
  end.

(** [asprintf(&p, ...)] with the formatted string [s]; [None] is a failure,
    after which the C library leaves [p] null. *)
Definition asprintf (s : bytes) : M W G (option bytes) :=
  r ← sys (Lib_asprintf s);
  mret (if sr_ret r <? 0 then None else Some s).

Definition strdup (s : bytes) : M W G (option bytes) :=
  r ← sys (Lib_strdup s);
  mret (if sr_ret r <? 0 then None else Some s).

(** [malloc(n)]: whether the block was obtained. *)
Definition malloc (n : Z) : M W G bool :=
  r ← sys (Lib_malloc n); mret (0 <=? sr_ret r).

Definition free : M W G unit := sys Lib_free;; mret tt.

(** [if (p) free(p)] *)
Definition free_opt {A} (p : option A) : M W G unit :=
  match p with Some _ => free | None => mret tt end.
End Primitives.

(** ** Components of the static variables

    A program that links several components keeps their variables in one
    record; [zoom] runs an operation of one component on its part of it. *)
Section Zoom.
Context {W G G' : Type} (get : G' -> G) (put : G -> G' -> G').

Definition zoom {A} (m : M W G A) : M W G' A := fun s =>
  let '(o, s1) := m (Proc (get (globals s)) (world s) (errno s) (trace s)) in
  (o, Proc (put (globals s1) (globals s)) (world s1) (errno s1) (trace s1)).
End Zoom.

(** ** What a program establishes *)

Section Wp.
Context {W G : Type} `{K : Kernel W}.

Definition wp {A} (m : M W G A) (Q : outcome A -> proc W G -> Prop) (s : proc W G) : Prop :=
  Q (m s).1 (m s).2.

Lemma wp_ret {A} (a : A) Q s : Q (Ret a) s -> wp (mret a) Q s.
Proof. exact id. Qed.

Lemma wp_halt {A} e (Q : outcome A -> proc W G -> Prop) s : Q (Stop e) s -> wp (halt e) Q s.
Proof. exact id. Qed.

Lemma wp_bind {A B} (m : M W G A) (f : A -> M W G B) Q s :
  wp m (fun o s' => match o with Ret a => wp (f a) Q s' | Stop e => Q (Stop e) s' end) s ->
  wp (m ≫= f) Q s.
Proof. unfold wp, mbind, M_bind. destruct (m s) as [[a|e] s']; done. Qed.

Lemma wp_assoc {A B C} (m : M W G A) (f : A -> M W G B) (g : B -> M W G C) Q s :
  wp ((m ≫= f) ≫= g) Q s -> wp (m ≫= fun a => f a ≫= g) Q s.
Proof. unfold wp, mbind, M_bind. by destruct (m s) as [[a|e] s']. Qed.

Lemma wp_unassoc {A B C} (m : M W G A) (f : A -> M W G B) (g : B -> M W G C) Q s :
  wp (m ≫= fun a => f a ≫= g) Q s -> wp ((m ≫= f) ≫= g) Q s.
Proof. unfold wp, mbind, M_bind. by destruct (m s) as [[a|e] s']. Qed.

Lemma wp_gets {A} (f : G -> A) Q s : Q (Ret (f (globals s))) s -> wp (gets f) Q s.
Proof. exact id. Qed.

Lemma wp_modify f Q (s : proc W G) :
  Q (Ret tt) (Proc (f (globals s)) (world s) (errno s) (trace s)) -> wp (modify f) Q s.
Proof. exact id. Qed.

Lemma wp_get_errno Q (s : proc W G) : Q (Ret (errno s)) s -> wp get_errno Q s.
Proof. exact id. Qed.

(** Whatever the kernel answers. *)
Lemma wp_sys c Q (s : proc W G) :
  (forall r w, kcall c (world s) = (r, w) -> Q (Ret r) (after s c r w)) -> wp (sys c) Q s.
Proof. unfold wp, sys. intros H. destruct (kcall c (world s)) as [r w]. by apply H. Qed.

Lemma wp_mono {A} (m : M W G A) (P Q : outcome A -> proc W G -> Prop) s :
  wp m P s -> (forall o s', P o s' -> Q o s') -> wp m Q s.
Proof. unfold wp. auto. Qed.

Lemma wp_and {A} (m : M W G A) (P Q : outcome A -> proc W G -> Prop) s :
  wp m P s -> wp m Q s -> wp m (fun o s' => P o s' /\ Q o s') s.
Proof. by split. Qed.

Lemma wp_if {A} (b : bool) (m1 m2 : M W G A) Q s :
  (b = true -> wp m1 Q s) -> (b = false -> wp m2 Q s) -> wp (if b then m1 else m2) Q s.
Proof. destruct b; auto. Qed.

(** A program establishes exactly what its run shows. *)
Lemma wp_run {A} (m : M W G A) Q s : wp m Q s <-> Q (m s).1 (m s).2.
Proof. done. Qed.

Lemma wp_assert b Q (s : proc W G) :
  (b = true -> Q (Ret tt) s) -> (b = false -> Q (Stop AssertFailed) s) -> wp (assert_ b) Q s.
Proof. destruct b; unfold assert_; eauto using wp_ret, wp_halt. Qed.
End Wp.

Lemma wp_zoom {W G G' A} (get : G' -> G) put (m : M W G A) (Q : outcome A -> proc W G' -> Prop) s :
  wp m (fun o s1 => Q o (Proc (put (globals s1) (globals s)) (world s1) (errno s1) (trace s1)))
    (Proc (get (globals s)) (world s) (errno s) (trace s)) ->
  wp (zoom get put m) Q s.
Proof. unfold wp, zoom. by destruct (m _) as [o s1]. Qed.

(** Walk through a program: the head of the goal is [wp _ _ _]. *)
Ltac wp_prim :=
  lazymatch goal with
  | |- wp (mret _) _ _ => apply wp_ret
  | |- wp (_ ≫= _) _ _ => apply wp_bind
  | |- wp (halt _) _ _ => apply wp_halt
  | |- wp (gets _) _ _ => apply wp_gets
  | |- wp (modify _) _ _ => apply wp_modify
  | |- wp get_errno _ _ => apply wp_get_errno
  | |- wp (assert_ _) _ _ => apply wp_assert; intros
  | |- wp (match ?x with _ => _ end) _ _ => first [apply wp_if; intros | destruct x eqn:?]
  | |- match ?o with Ret _ => _ | Stop _ => _ end => progress cbn beta iota
  end.
Ltac wp_sys_intro := apply wp_sys; let r := fresh "r" in let w := fresh "w" in
  let Hk := fresh "Hk" in intros r w Hk.
Ltac wp_go := repeat first [ wp_prim | wp_sys_intro ].

(** ** What a program keeps

    [keeps R m]: the states before and after [m] are related by [R], however
    [m] ends.  With [R] a preorder this composes; invariants are the preorder
    [stable I]. *)

Section Keeps.
Context {W G : Type} `{K : Kernel W}.

Definition keeps (R : relation (proc W G)) {A} (m : M W G A) : Prop :=
  forall s, R s (m s).2.

Definition stable (I : proc W G -> Prop) : relation (proc W G) := fun s s' => I s -> I s'.

#[export] Instance stable_preorder I : PreOrder (stable I).
Proof. split; unfold stable; [intros ?; auto | intros ??? ??; auto]. Qed.

Context (R : relation (proc W G)) `{!PreOrder R}.

Lemma keeps_ret {A} (a : A) : keeps R (mret a).
Proof. intros s. simpl. reflexivity. Qed.

Lemma keeps_halt {A} e : keeps R (@halt W G A e).
Proof. intros s. simpl. reflexivity. Qed.

Lemma keeps_gets {A} (f : G -> A) : keeps R (gets f).
Proof. intros s. simpl. reflexivity. Qed.

Lemma keeps_get_errno : keeps R get_errno.
Proof. intros s. simpl. reflexivity. Qed.

Lemma keeps_assert b : keeps R (assert_ b).
Proof. destruct b; [apply keeps_ret | apply keeps_halt]. Qed.

Lemma keeps_bind {A B} (m : M W G A) (f : A -> M W G B) :
  keeps R m -> (forall a, keeps R (f a)) -> keeps R (m ≫= f).
Proof.
  intros Hm Hf s. specialize (Hm s). unfold mbind, M_bind.
  destruct (m s) as [[a|e] s']; simpl in *; [|done]. etrans; [done | apply Hf].
Qed.

Lemma keeps_if {A} (b : bool) (m1 m2 : M W G A) :
  keeps R m1 -> keeps R m2 -> keeps R (if b then m1 else m2).
Proof. by destruct b. Qed.

Lemma keeps_modify f :
  (forall s, R s (Proc (f (globals s)) (world s) (errno s) (trace s))) -> keeps R (modify f).
Proof. intros H s. apply H. Qed.

Lemma keeps_sys c : (forall s r w, R s (after s c r w)) -> keeps R (sys c).
Proof. intros H s. unfold sys. destruct (kcall c (world s)). apply H. Qed.

Lemma keeps_sys_run c :
  (forall s r w, kcall c (world s) = (r, w) -> R s (after s c r w)) -> keeps R (sys c).
Proof. intros H s. unfold sys. destruct (kcall c (world s)) eqn:E. by apply H. Qed.

Lemma keeps_retry fuel c : (forall s r w, R s (after s c r w)) -> keeps R (retry fuel c).
Proof.
  intros H. induction fuel as [|n IH]; simpl; [apply keeps_halt|].
  apply keeps_bind; [by apply keeps_sys|]. intros r.
  apply keeps_bind; [apply keeps_get_errno|]. intros e.
  apply keeps_if; [done | apply keeps_ret].
Qed.
End Keeps.

Create HintDb keeps.
#[export] Hint Resolve keeps_ret keeps_halt keeps_gets keeps_get_errno keeps_assert
  keeps_sys keeps_retry : keeps.

(** Structural steps of a [keeps] proof; leaves go to the [keeps] database. *)
Ltac keeps_step :=
  lazymatch goal with
  | |- keeps _ (_ ≫= _) => apply keeps_bind; [typeclasses eauto | | intros]
  | |- keeps _ (let '(_, _) := ?p in _) => destruct p
  | |- keeps _ (match ?x with _ => _ end) => destruct x
  end.
Ltac keeps_go := repeat first [ keeps_step | solve [eauto with keeps typeclass_instances] ].

(** The trace of a program only grows. *)
Section Grows.
Context {W G : Type} `{K : Kernel W}.

Definition grows : relation (proc W G) := fun s s' => exists evs, trace s' = trace s ++ evs.

#[export] Instance grows_preorder : PreOrder grows.
Proof.
  split; [intros s; exists []; by rewrite app_nil_r|].
  intros s1 s2 s3 [e1 H1] [e2 H2]. exists (e1 ++ e2). by rewrite H2, H1, app_assoc.
Qed.

Lemma grows_sys c : keeps grows (sys c).
Proof. apply keeps_sys. intros s r w. by exists [Ev c r]. Qed.
Lemma grows_retry n c : keeps grows (retry n c).
Proof. apply keeps_retry; [typeclasses eauto|]. intros s r w. by exists [Ev c r]. Qed.
Lemma grows_modify f : keeps grows (modify f).
Proof. apply keeps_modify. intros s. exists []. by rewrite app_nil_r. Qed.
End Grows.
#[export] Hint Resolve grows_sys grows_retry grows_modify : keeps.

(** The trace grows by events that satisfy [P]. *)
Section GrowsBy.
Context {W G : Type} `{K : Kernel W} (P : event -> Prop).

Definition grows_by : relation (proc W G) := fun s s' =>
  exists evs, trace s' = trace s ++ evs /\ Forall P evs.

#[export] Instance grows_by_preorder : PreOrder grows_by.
Proof.
  split; [intros s; exists []; by rewrite app_nil_r|].
  intros s1 s2 s3 (e1 & H1 & F1) (e2 & H2 & F2). exists (e1 ++ e2).
  split; [by rewrite H2, H1, app_assoc|]. by apply Forall_app.
Qed.

Lemma grows_by_after s c r w : P (Ev c r) -> grows_by s (after s c r w).
Proof. intros. exists [Ev c r]. split; [done|by repeat constructor]. Qed.
Lemma grows_by_sys c : (forall r, P (Ev c r)) -> keeps grows_by (sys c).
Proof. intros. apply keeps_sys. intros. by apply grows_by_after. Qed.
Lemma grows_by_retry n c : (forall r, P (Ev c r)) -> keeps grows_by (retry n c).
Proof. intros. apply keeps_retry; [typeclasses eauto|]. intros. by apply grows_by_after. Qed.
Lemma grows_by_modify f : keeps grows_by (modify f).
Proof. apply keeps_modify. intros s. exists []. by rewrite app_nil_r. Qed.
End GrowsBy.
#[export] Hint Resolve grows_by_sys grows_by_retry grows_by_modify : keeps.

(** ** The retry loop *)

(** A process receives finitely many signals: an interrupted call consumes
    one, no call adds one. *)
Class KernelSignals (W : Type) `{K : Kernel W} := {
  sig_left : W -> nat;
  sig_mono : forall c w, (sig_left (kcall c w).2 <= sig_left w)%nat;
  sig_eintr : forall c w,
    sr_ret (kcall c w).1 = -1 -> sr_errno (kcall c w).1 = EINTR ->
    (sig_left (kcall c w).2 < sig_left w)%nat;
}.

Definition interrupted (r : sysret) : Prop := sr_ret r = -1 /\ sr_errno r = EINTR.
#[export] Instance interrupted_dec r : Decision (interrupted r).
Proof. unfold interrupted. apply _. Defined.

Section Retry.
Context {W G : Type} `{KS : KernelSignals W}.
Implicit Types s : proc W G.

(** With more fuel than signals the retry loop returns, and what it returns
    is the kernel's answer to its last call, which was not interrupted. *)
Lemma retry_returns fuel c s :
  (sig_left (world s) < fuel)%nat ->
  exists w0 r w, kcall c w0 = (r, w) /\ ~ interrupted r /\
    (sig_left w <= sig_left w0)%nat /\ (sig_left w0 <= sig_left (world s))%nat /\
    (retry fuel c s).1 = Ret r /\ world (retry fuel c s).2 = w /\
    globals (retry fuel c s).2 = globals s /\
    (sr_ret r < 0 -> errno (retry fuel c s).2 = sr_errno r).
Proof.
  revert s; induction fuel as [|n IH]; intros s Hf; [lia|].
  pose proof (sig_mono c (world s)) as Hm. pose proof (sig_eintr c (world s)) as He.
  simpl. unfold mbind, M_bind, sys.
  destruct (kcall c (world s)) as [r w] eqn:E; simpl in *.
  destruct (Z.eqb_spec (sr_ret r) (-1)) as [Hr|Hr]; simpl.
  - rewrite Hr; simpl. destruct (Z.eqb_spec (sr_errno r) EINTR) as [He'|He'].
    + destruct (IH (after s c r w)) as (w0 & r' & w' & Hk & Hni & Hle & Hle' & H1 & H2 & H3 & H4).
      { simpl. specialize (He Hr He'). lia. }
      exists w0, r', w'. simpl in Hle'. split_and!; try done; lia.
    + exists (world s), r, w. simpl. rewrite Hr. split_and!; try done. intros [_ ?]; done.
  - exists (world s), r, w. simpl. split_and!; try done.
    + intros [? _]; done.
    + intros. by replace (sr_ret r <? 0) with true by lia.
Qed.

(** The rule for the retry loop under a kernel property [I] that the
    interrupted attempts keep: the last call is made in a state that differs
    from [s] by interrupted attempts only. *)
Lemma wp_retry fuel c (I : W -> Prop) Q s :
  (sig_left (world s) < fuel)%nat -> I (world s) ->
  (forall w r w', I w -> kcall c w = (r, w') -> interrupted r -> I w') ->
  (forall s0 evs r w, globals s0 = globals s -> trace s0 = trace s ++ evs ->
     Forall (fun e => ev_call e = c) evs ->
     (sig_left (world s0) <= sig_left (world s))%nat -> I (world s0) ->
     kcall c (world s0) = (r, w) -> ~ interrupted r -> Q (Ret r) (after s0 c r w)) ->
  wp (retry fuel c) Q s.
Proof.
  intros Hf HI Hint HQ.
  assert (forall evs s0, globals s0 = globals s -> trace s0 = trace s ++ evs ->
    Forall (fun e => ev_call e = c) evs -> (sig_left (world s0) <= sig_left (world s))%nat ->
    I (world s0) -> forall n, (sig_left (world s0) < n)%nat -> wp (retry n c) Q s0) as Hgen.
  2:{ apply (Hgen []); try done. by rewrite app_nil_r. }
  intros evs s0 Hg Ht Hall Hsig HI0 n. revert evs s0 Hg Ht Hall Hsig HI0.
  induction n as [|n IH]; intros evs s0 Hg Ht Hall Hsig HI0 Hn; [lia|]. simpl.
  apply wp_bind. wp_sys_intro. apply wp_bind, wp_get_errno.
  pose proof (sig_mono c (world s0)) as Hm. pose proof (sig_eintr c (world s0)) as He.
  rewrite Hk in Hm, He; simpl in Hm, He. simpl.
  destruct (decide (interrupted r)) as [Hi|Hi].
  - pose proof Hi as [H1 H2]. rewrite H1; simpl. rewrite H2; simpl.
    apply (IH (evs ++ [Ev c r])); simpl; eauto.
    + by rewrite Ht, app_assoc.
    + apply Forall_app; split; [done|by repeat constructor].
    + specialize (He H1 H2); lia.
    + specialize (He H1 H2); lia.
  - apply wp_if; intros Hb; [exfalso; apply Hi|apply wp_ret; by eapply HQ].
    apply andb_true_iff in Hb as [H1 H2]. apply Z.eqb_eq in H1. rewrite H1 in H2; simpl in H2.
    split; [done|lia].
Qed.
End Retry.

(** ** Documented bounds of the I/O calls

    A descriptor is an [int]; a read returns at most the bytes asked for and
    stores as many as it returns; a write accepts at most the bytes offered,
    and at least one of them unless it fails; no transfer goes past the largest
    offset, [2 ^ 63 - 1]. *)
Class KernelBounds (W : Type) `{K : Kernel W} := {
  kb_open : forall p fl m w, sr_ret (kcall (Sys_open p fl m) w).1 < 2 ^ 31;
  kb_pread : forall fd n off w, 0 <= n ->
    sr_ret (kcall (Sys_pread fd n off) w).1 <= n /\
    (0 <= sr_ret (kcall (Sys_pread fd n off) w).1 ->
     zlen (sr_data (kcall (Sys_pread fd n off) w).1) = sr_ret (kcall (Sys_pread fd n off) w).1);
  kb_pwrite : forall fd d off w,
    sr_ret (kcall (Sys_pwrite fd d off) w).1 <= zlen d /\
    (d <> [] -> sr_ret (kcall (Sys_pwrite fd d off) w).1 <> 0);
  kb_pread_end : forall fd n off w, off < 2 ^ 63 -> off + sr_ret (kcall (Sys_pread fd n off) w).1 < 2 ^ 63;
  kb_pwrite_end : forall fd d off w, off < 2 ^ 63 -> off + sr_ret (kcall (Sys_pwrite fd d off) w).1 < 2 ^ 63;
  kb_readv : forall fd lens w, Forall (fun n => 0 <= n) lens ->
    sr_ret (kcall (Sys_readv fd lens) w).1 <= foldr Z.add 0 lens /\
    (0 <= sr_ret (kcall (Sys_readv fd lens) w).1 ->
     zlen (sr_data (kcall (Sys_readv fd lens) w).1) = sr_ret (kcall (Sys_readv fd lens) w).1 /\
     Forall is_u8 (sr_data (kcall (Sys_readv fd lens) w).1));
  kb_read : forall fd n w, 0 <= n ->
    sr_ret (kcall (Sys_read fd n) w).1 <= n /\
    (0 <= sr_ret (kcall (Sys_read fd n) w).1 ->
     zlen (sr_data (kcall (Sys_read fd n) w).1) = sr_ret (kcall (Sys_read fd n) w).1 /\
     Forall is_u8 (sr_data (kcall (Sys_read fd n) w).1));
}.

(** A failed call says why. *)
Class KernelErrno (W : Type) `{K : Kernel W} := {
  ke_errno : forall c w, sr_ret (kcall c w).1 < 0 -> 0 < sr_errno (kcall c w).1
}.

(** errno stays set by the last failed call. *)
Lemma errno_after {W G} `{KE : KernelErrno W} (s : proc W G) c r w : kcall c (world s) = (r, w) -> 0 < errno s \/ sr_ret r < 0 ->
  0 < errno (after s c r w).
Proof.
  intros Hk He. simpl. pose proof (ke_errno c (world s)) as Hp. rewrite Hk in Hp; simpl in Hp.
  destruct (Z.ltb_spec (sr_ret r) 0); [auto|]. destruct He; [done|lia].
Qed.
