(* ===== verification/StorageProto.v ===== *)
(** * The storage protocol (storage/interface/.../interface/storage.h)

    Command, error and flag values, and the message and request structures
    with their byte layout: [*_dec] reads a structure from a buffer, [*_enc] is
    the bytes of a structure in memory.  The layouts are inverse to each
    other. *)

From S2P Require Import Prelude.

(** ** enum storage_cmd *)

Definition STORAGE_REQ_SHIFT := 1.
Definition STORAGE_RESP_BIT := 1.
Definition STORAGE_FILE_DELETE := Z.shiftl 1 STORAGE_REQ_SHIFT.
Definition STORAGE_FILE_OPEN := Z.shiftl 2 STORAGE_REQ_SHIFT.
Definition STORAGE_FILE_CLOSE := Z.shiftl 3 STORAGE_REQ_SHIFT.
Definition STORAGE_FILE_READ := Z.shiftl 4 STORAGE_REQ_SHIFT.
Definition STORAGE_FILE_WRITE := Z.shiftl 5 STORAGE_REQ_SHIFT.
Definition STORAGE_FILE_GET_SIZE := Z.shiftl 6 STORAGE_REQ_SHIFT.
Definition STORAGE_FILE_SET_SIZE := Z.shiftl 7 STORAGE_REQ_SHIFT.
Definition STORAGE_RPMB_SEND := Z.shiftl 8 STORAGE_REQ_SHIFT.
Definition STORAGE_END_TRANSACTION := Z.shiftl 9 STORAGE_REQ_SHIFT.
Definition STORAGE_INIT_OK := Z.shiftl 20 STORAGE_REQ_SHIFT.
Definition STORAGE_INIT_PROINFO_OK := Z.shiftl 21 STORAGE_REQ_SHIFT.
Definition STORAGE_INIT_PERSIST_OK := Z.shiftl 22 STORAGE_REQ_SHIFT.

(** ** enum storage_err *)

Inductive storage_err :=
| STORAGE_NO_ERROR
| STORAGE_ERR_GENERIC
| STORAGE_ERR_NOT_VALID
| STORAGE_ERR_UNIMPLEMENTED
| STORAGE_ERR_ACCESS
| STORAGE_ERR_NOT_FOUND
| STORAGE_ERR_EXIST
| STORAGE_ERR_TRANSACT.

#[export] Instance storage_err_eq_dec : EqDecision storage_err.
Proof. solve_decision. Defined.

Definition err_code (e : storage_err) : Z :=
  match e with
  | STORAGE_NO_ERROR => 0
  | STORAGE_ERR_GENERIC => 1
  | STORAGE_ERR_NOT_VALID => 2
  | STORAGE_ERR_UNIMPLEMENTED => 3
  | STORAGE_ERR_ACCESS => 4
  | STORAGE_ERR_NOT_FOUND => 5
  | STORAGE_ERR_EXIST => 6
  | STORAGE_ERR_TRANSACT => 7
  end.

(** ** enum storage_file_open_flag, enum storage_msg_flag *)

Definition STORAGE_FILE_OPEN_CREATE := Z.shiftl 1 0.
Definition STORAGE_FILE_OPEN_CREATE_EXCLUSIVE := Z.shiftl 1 1.
Definition STORAGE_FILE_OPEN_TRUNCATE := Z.shiftl 1 2.
Definition STORAGE_FILE_OPEN_PERSISTENT_FILE := Z.shiftl 1 3.
Definition STORAGE_FILE_OPEN_PROINFO_FILE := Z.shiftl 1 4.
Definition STORAGE_FILE_OPEN_VFS := Z.shiftl 1 5.

Definition STORAGE_MSG_FLAG_BATCH := 1.
Definition STORAGE_MSG_FLAG_PRE_COMMIT := 2.
Definition STORAGE_MSG_FLAG_POST_COMMIT := 4.
Definition STORAGE_MSG_FLAG_TRANSACT_COMPLETE := STORAGE_MSG_FLAG_POST_COMMIT.

(** ** struct storage_msg *)

Record storage_msg := StorageMsg {
  cmd : Z; op_id : Z; flags : Z; size : Z; result : Z; msg_reserved : Z
}.

Definition sizeof_storage_msg := 24.

Definition set_cmd (c : Z) (m : storage_msg) : storage_msg :=
  StorageMsg c (op_id m) (flags m) (size m) (result m) (msg_reserved m).
Definition set_result (e : storage_err) (m : storage_msg) : storage_msg :=
  StorageMsg (cmd m) (op_id m) (flags m) (size m) (err_code e) (msg_reserved m).

Definition storage_msg_enc (m : storage_msg) : bytes :=
  le_enc 4 (cmd m) ++ le_enc 4 (op_id m) ++ le_enc 4 (flags m) ++ le_enc 4 (size m) ++
  le_enc 4 (u32 (result m)) ++ le_enc 4 (msg_reserved m).

Definition storage_msg_dec (b : bytes) : storage_msg :=
  StorageMsg (get_u32 b 0) (get_u32 b 4) (get_u32 b 8) (get_u32 b 12) (get_s32 b 16)
    (get_u32 b 20).

(** Every field is in the range of its C type. *)
Definition storage_msg_wf (m : storage_msg) : Prop :=
  is_u32 (cmd m) /\ is_u32 (op_id m) /\ is_u32 (flags m) /\ is_u32 (size m) /\
  is_s32 (result m) /\ is_u32 (msg_reserved m).

(** ** Request and response payloads *)

(** [storage_file_delete_req] and [storage_file_open_req] are a flag word
    followed by the name; the name is read in place by the handlers. *)
Definition sizeof_name_req := 4.
Definition req_flags (r : bytes) : Z := get_u32 r 0.

Definition sizeof_handle_req := 4.
Definition req_handle (r : bytes) : Z := get_u32 r 0.

Record storage_file_read_req := ReadReq { rd_handle : Z; rd_size : Z; rd_offset : Z }.
Definition sizeof_read_req := 16.
Definition read_req_dec (r : bytes) : storage_file_read_req :=
  ReadReq (get_u32 r 0) (get_u32 r 4) (get_u64 r 8).
Definition read_req_enc (q : storage_file_read_req) : bytes :=
  le_enc 4 (rd_handle q) ++ le_enc 4 (rd_size q) ++ le_enc 8 (rd_offset q).

Record storage_file_write_req := WriteReq { wr_offset : Z; wr_handle : Z; wr_reserved : Z }.
Definition sizeof_write_req := 16.
Definition write_req_dec (r : bytes) : storage_file_write_req :=
  WriteReq (get_u64 r 0) (get_u32 r 8) (get_u32 r 12).
Definition write_req_enc (q : storage_file_write_req) : bytes :=
  le_enc 8 (wr_offset q) ++ le_enc 4 (wr_handle q) ++ le_enc 4 (wr_reserved q).

(** The structure holds a 64-bit word, so its size is padded to 16. *)
Record storage_file_set_size_req := SetSizeReq { ss_size : Z; ss_handle : Z }.
Definition sizeof_set_size_req := 16.
Definition set_size_req_dec (r : bytes) : storage_file_set_size_req :=
  SetSizeReq (get_u64 r 0) (get_u32 r 8).
Definition set_size_req_enc (q : storage_file_set_size_req) : bytes :=
  le_enc 8 (ss_size q) ++ le_enc 4 (ss_handle q) ++ le_enc 4 0.

Record storage_rpmb_send_req := RpmbReq {
  reliable_write_size : Z; write_size : Z; read_size : Z; rpmb_reserved : Z
}.
Definition sizeof_rpmb_req := 16.
Definition rpmb_req_dec (r : bytes) : storage_rpmb_send_req :=
  RpmbReq (get_u32 r 0) (get_u32 r 4) (get_u32 r 8) (get_u32 r 12).
Definition rpmb_req_enc (q : storage_rpmb_send_req) : bytes :=
  le_enc 4 (reliable_write_size q) ++ le_enc 4 (write_size q) ++ le_enc 4 (read_size q) ++
  le_enc 4 (rpmb_reserved q).

Definition open_resp_enc (handle : Z) : bytes := le_enc 4 handle.
Definition get_size_resp_enc (sz : Z) : bytes := le_enc 8 sz.

(** ** Round trips *)

Lemma storage_msg_dec_enc m b :
  storage_msg_wf m -> storage_msg_dec (storage_msg_enc m ++ b) = m.
Proof.
  intros (? & ? & ? & ? & Hr & ?). unfold storage_msg_dec, storage_msg_enc, get_s32.
  rewrite <- !app_assoc. fields. rewrite s32_u32 by done. by destruct m.
Qed.

Lemma storage_msg_enc_dec b :
  Forall is_u8 b -> zlen b = 24 -> storage_msg_enc (storage_msg_dec b) = b.
Proof.
  intros Hb Hl. unfold storage_msg_enc, storage_msg_dec, get_s32.
  cbn [cmd op_id flags size result msg_reserved]. rewrite u32_s32 by (by apply get_u32_range).
  rewrite !enc_get_u32 by (done || lia).
  rewrite (slice_join 16 4 20 4 8), (slice_join 12 4 16 8 12), (slice_join 8 4 12 12 16),
    (slice_join 4 4 8 16 20), (slice_join 0 4 4 20 24) by lia.
  rewrite <- Hl. apply slice_full.
Qed.

Lemma storage_msg_dec_wf b : Forall is_u8 b -> storage_msg_wf (storage_msg_dec b).
Proof.
  intros. unfold storage_msg_wf, storage_msg_dec, get_s32; simpl.
  split_and!; auto using get_u32_range with wide.
  all: try (by apply get_u32_range). all: apply s32_range.
Qed.

Lemma zlen_storage_msg_enc m : zlen (storage_msg_enc m) = sizeof_storage_msg.
Proof. unfold storage_msg_enc. autorewrite with len. reflexivity. Qed.

Lemma err_code_range e : is_s32 (err_code e).
Proof. destruct e; unfold is_s32; simpl; lia. Qed.

Lemma err_code_inj e1 e2 : err_code e1 = err_code e2 -> e1 = e2.
Proof. destruct e1, e2; simpl; intros; congruence. Qed.

#[export] Hint Rewrite zlen_storage_msg_enc : len.
#[export] Hint Resolve err_code_range : wide.

(** The layouts of the payload structures. *)
Lemma read_req_roundtrip q b :
  is_u32 (rd_handle q) -> is_u32 (rd_size q) -> is_u64 (rd_offset q) ->
  read_req_dec (read_req_enc q ++ b) = q.
Proof.
  intros. unfold read_req_dec, read_req_enc. rewrite <- !app_assoc. fields. by destruct q.
Qed.

Lemma write_req_roundtrip q b :
  is_u64 (wr_offset q) -> is_u32 (wr_handle q) -> is_u32 (wr_reserved q) ->
  write_req_dec (write_req_enc q ++ b) = q.
Proof.
  intros. unfold write_req_dec, write_req_enc. rewrite <- !app_assoc. fields. by destruct q.
Qed.

Lemma set_size_req_roundtrip q b :
  is_u64 (ss_size q) -> is_u32 (ss_handle q) ->
  set_size_req_dec (set_size_req_enc q ++ b) = q.
Proof.
  intros. unfold set_size_req_dec, set_size_req_enc. rewrite <- !app_assoc. fields.
  by destruct q.
Qed.

Lemma rpmb_req_roundtrip q b :
  is_u32 (reliable_write_size q) -> is_u32 (write_size q) -> is_u32 (read_size q) ->
  is_u32 (rpmb_reserved q) -> rpmb_req_dec (rpmb_req_enc q ++ b) = q.
Proof.
  intros. unfold rpmb_req_dec, rpmb_req_enc. rewrite <- !app_assoc. fields. by destruct q.
Qed.

(** The eleven commands the proxy dispatches on are pairwise distinct request
    values: none carries the response bit. *)
Definition storage_commands : list Z :=
  [STORAGE_FILE_DELETE; STORAGE_FILE_OPEN; STORAGE_FILE_CLOSE; STORAGE_FILE_WRITE;
   STORAGE_FILE_READ; STORAGE_FILE_GET_SIZE; STORAGE_FILE_SET_SIZE; STORAGE_RPMB_SEND;
   STORAGE_INIT_OK; STORAGE_INIT_PROINFO_OK; STORAGE_INIT_PERSIST_OK].

Lemma storage_commands_distinct :
  NoDup storage_commands /\ Forall (fun c => Z.land c STORAGE_RESP_BIT = 0) storage_commands.
Proof. split; [apply (bool_decide_unpack _); by vm_compute | repeat constructor]. Qed.

(** Setting the response bit on a request command is reversible: the command
    a response answers can be read off it. *)
Lemma resp_bit_faithful c c' :
  0 <= c -> 0 <= c' -> Z.land c STORAGE_RESP_BIT = 0 -> Z.land c' STORAGE_RESP_BIT = 0 ->
  Z.lor c STORAGE_RESP_BIT = Z.lor c' STORAGE_RESP_BIT -> c = c'.
Proof.
  intros ?? H H' E. apply Z.bits_inj'; intros n Hn.
  pose proof (f_equal (fun z => Z.testbit z n) E) as Et; simpl in Et.
  pose proof (f_equal (fun z => Z.testbit z n) H) as Ht; simpl in Ht.
  pose proof (f_equal (fun z => Z.testbit z n) H') as Ht'; simpl in Ht'.
  rewrite !Z.lor_spec in Et. rewrite Z.land_spec, Z.bits_0 in Ht, Ht'.
  destruct (Z.testbit STORAGE_RESP_BIT n), (Z.testbit c n), (Z.testbit c' n); simpl in *; congruence.
Qed.
