(* ===== verification/Libtrusty.v ===== *)
(** * libtrusty (lite/libtrusty/trusty.c, tipc_ioctl.h)

    Opening and closing a channel to a Trusty service.  The functions keep no
    state of their own, so they are polymorphic in the static variables of the
    process that links them. *)

From S2P Require Import Prelude Kernel.

(** [_IOW('r', 0x80, char * )] *)
Definition TIPC_IOC_MAGIC := 114.
Definition TIPC_IOC_CONNECT :=
  Z.lor (Z.shiftl 1 30) (Z.lor (Z.shiftl 8 16) (Z.lor (Z.shiftl TIPC_IOC_MAGIC 8) 128)).

Section Libtrusty.
Context {W G : Type} `{K : Kernel W}.

Definition tipc_connect (dev_name srv_name : bytes) : M W G Z :=
  fd ← sys (Sys_open dev_name O_RDWR 0);
  if sr_ret fd <? 0 then
    e ← get_errno;
    let rc := - e in mret (if rc <? 0 then rc else -1)
  else
    rc ← sys (Sys_ioctl (sr_ret fd) TIPC_IOC_CONNECT (Arg_str srv_name));
    if sr_ret rc <? 0 then
      e ← get_errno;
      let rc := - e in
      sys (Sys_close (sr_ret fd));;
      mret (if rc <? 0 then rc else -1)
    else mret (sr_ret fd).

Definition tipc_close (fd : Z) : M W G unit := sys (Sys_close fd);; mret tt.

(** The three ways a connection attempt can go, with the calls it makes. *)
Inductive tipc_outcome (dev srv : bytes) : Z -> list event -> Prop :=
| Tipc_no_device r rc :
    sr_ret r < 0 -> rc < 0 -> (0 < sr_errno r -> rc = - sr_errno r) ->
    tipc_outcome dev srv rc [Ev (Sys_open dev O_RDWR 0) r]
| Tipc_refused r r' r'' rc :
    0 <= sr_ret r -> sr_ret r' < 0 -> rc < 0 -> (0 < sr_errno r' -> rc = - sr_errno r') ->
    tipc_outcome dev srv rc
      [Ev (Sys_open dev O_RDWR 0) r;
       Ev (Sys_ioctl (sr_ret r) TIPC_IOC_CONNECT (Arg_str srv)) r';
       Ev (Sys_close (sr_ret r)) r'']
| Tipc_connected r r' :
    0 <= sr_ret r -> 0 <= sr_ret r' ->
    tipc_outcome dev srv (sr_ret r)
      [Ev (Sys_open dev O_RDWR 0) r;
       Ev (Sys_ioctl (sr_ret r) TIPC_IOC_CONNECT (Arg_str srv)) r'].

Lemma tipc_connect_outcome dev srv (s : proc W G) :
  exists rc evs,
    (tipc_connect dev srv s).1 = Ret rc /\
    trace (tipc_connect dev srv s).2 = trace s ++ evs /\
    globals (tipc_connect dev srv s).2 = globals s /\
    tipc_outcome dev srv rc evs.
Proof.
  unfold tipc_connect, mbind, M_bind, sys, get_errno, mret, M_ret.
  destruct (kcall (Sys_open dev O_RDWR 0) (world s)) as [r w] eqn:E1; simpl.
  destruct (Z.ltb_spec (sr_ret r) 0) as [Hr|Hr]; simpl.
  { rewrite (proj2 (Z.ltb_lt _ _) Hr).
    do 2 eexists; split_and!; [done|done|done|].
    destruct (Z.ltb_spec (- sr_errno r) 0); constructor; lia. }
  destruct (kcall _ w) as [r' w'] eqn:E2; simpl.
  destruct (Z.ltb_spec (sr_ret r') 0) as [Hr'|Hr']; simpl.
  - destruct (kcall (Sys_close _) w') as [r'' w''] eqn:E3; simpl.
    rewrite (proj2 (Z.ltb_lt _ _) Hr').
    do 2 eexists; split_and!; [done|by rewrite <- !app_assoc|done|].
    destruct (Z.ltb_spec (- sr_errno r') 0); econstructor; eauto; lia.
  - do 2 eexists; split_and!; [done|by rewrite <- !app_assoc|done|].
    by constructor.
Qed.
End Libtrusty.

(** Descriptors that a trace opened and did not close. *)
Fixpoint open_fds (tr : list event) : list Z :=
  match tr with
  | [] => []
  | Ev (Sys_open _ _ _) r :: tr' =>
      let fds := open_fds tr' in
      if (0 <=? sr_ret r) && negb (existsb (fun e => match ev_call e with
                                             | Sys_close fd => fd =? sr_ret r
                                             | _ => false end) tr')
      then sr_ret r :: fds else fds
  | _ :: tr' => open_fds tr'
  end.

(** A failed attempt leaves no descriptor open. *)
Lemma tipc_outcome_fds dev srv rc evs :
  tipc_outcome dev srv rc evs -> open_fds evs = if rc <? 0 then [] else [rc].
Proof.
  destruct 1; simpl; rewrite ?Z.eqb_refl; simpl;
    repeat match goal with |- context [?a <=? ?b] => destruct (Z.leb_spec a b) end;
    repeat match goal with |- context [?a <? ?b] => destruct (Z.ltb_spec a b) end;
    simpl; try done; lia.
Qed.

(** ** Frames and descriptors of a connection *)

(** What a trace wrote to descriptor [fd], in order. *)
Fixpoint written (fd : Z) (tr : list event) : list bytes :=
  match tr with
  | [] => []
  | Ev (Sys_write f d) _ :: tr' => if f =? fd then d :: written fd tr' else written fd tr'
  | _ :: tr' => written fd tr'
  end.

Lemma written_app fd tr tr' : written fd (tr ++ tr') = written fd tr ++ written fd tr'.
Proof. induction tr as [|[[] r] tr IH]; simpl; try done. case_match; simpl; by rewrite IH. Qed.

(** Events that neither open nor close a descriptor. *)
Definition no_fd (e : event) : Prop :=
  match ev_call e with Sys_open _ _ _ | Sys_close _ => False | _ => True end.

(** Events without opens and closes keep what is open. *)
Lemma open_fds_no_fd evs tr :
  Forall no_fd evs -> open_fds (evs ++ tr) = open_fds tr.
Proof. induction 1 as [|[c r] evs He _ IH]; [done|]. by destruct c. Qed.

Lemma existsb_no_fd fd evs :
  Forall no_fd evs ->
  existsb (fun e => match ev_call e with Sys_close f => f =? fd | _ => false end) evs = false.
Proof. induction 1 as [|[c r] evs He _ IH]; [done|]. by destruct c. Qed.

(** A connection over which [evs] were exchanged, then closed. *)
Lemma open_fds_session dev srv r r' evs tl :
  0 <= sr_ret r -> Forall no_fd evs ->
  open_fds ([Ev (Sys_open dev O_RDWR 0) r;
    Ev (Sys_ioctl (sr_ret r) TIPC_IOC_CONNECT (Arg_str srv)) r'] ++ evs
    ++ [Ev (Sys_close (sr_ret r)) tl]) = [] /\
  open_fds ([Ev (Sys_open dev O_RDWR 0) r;
    Ev (Sys_ioctl (sr_ret r) TIPC_IOC_CONNECT (Arg_str srv)) r'] ++ evs) = [sr_ret r].
Proof.
  intros Hr Hevs. simpl. replace (0 <=? sr_ret r) with true by lia. simpl.
  rewrite existsb_app, existsb_no_fd, open_fds_no_fd by done. simpl. rewrite Z.eqb_refl.
  split; [done|]. rewrite <- (app_nil_r evs), open_fds_no_fd by done. done.
Qed.

(** Whether a trace closed [fd]. *)
Definition closes (fd : Z) (tr : list event) : bool :=
  existsb (fun e => match ev_call e with Sys_close f => f =? fd | _ => false end) tr.

(** Descriptors a trace leaves open: those of its first part that the second
    part did not close, and those of its second part. *)
Lemma open_fds_app tr tr' :
  open_fds (tr ++ tr') = filter (fun fd => closes fd tr' = false) (open_fds tr) ++ open_fds tr'.
Proof.
  induction tr as [|[c r] tr IH]; [done|]. destruct c; try exact IH. simpl.
  rewrite existsb_app. fold (closes (sr_ret r) tr) (closes (sr_ret r) tr').
  destruct (0 <=? sr_ret r); simpl; [|done].
  destruct (closes (sr_ret r) tr); simpl; [done|].
  destruct (closes (sr_ret r) tr') eqn:E; simpl; rewrite IH.
  - rewrite filter_cons_False; [done|]. by rewrite E.
  - by rewrite filter_cons_True.
Qed.

Lemma open_fds_quiet tr evs : Forall no_fd evs -> open_fds (tr ++ evs) = open_fds tr.
Proof.
  intros H. assert (open_fds evs = []) as Hn
    by (rewrite <- (app_nil_r evs), open_fds_no_fd by done; done).
  rewrite open_fds_app, Hn, app_nil_r. apply list_filter_all. intros fd _. by apply existsb_no_fd.
Qed.
