(* ===== verification/ProxyState.v ===== *)
(** * Static variables of storageproxyd

    One record per translation unit (storage.c, rpmb.c, ipc.c, proxy.c) and the
    record of the whole process, with the assignments the sources make. *)

From S2P Require Import Prelude Kernel.

(** ** storage.c *)

(** enum sync_state *)
Inductive sync_state := SS_UNUSED | SS_CLEAN | SS_DIRTY.

#[export] Instance sync_state_eq_dec : EqDecision sync_state.
Proof. solve_decision. Defined.

Definition FD_TBL_SIZE := 64.
Definition MAX_READ_SIZE := 4096.

Record storage_st := StorageSt {
  ssdir_fd : Z;
  ssdir_name : option bytes;
  ss_persistent_dir_fd : Z;
  ss_persistent_dir_name : option bytes;
  ss_proinfo_node_fd : Z;
  ss_proinfo_name : bytes;
  fs_state : sync_state;
  dir_state : sync_state;
  fd_state : list sync_state;
  read_rsp : bytes
}.

(** Static storage is zero-initialised; [SS_CLEAN] is the zero of the enum. *)
Definition storage_st0 : storage_st := {|
  ssdir_fd := -1; ssdir_name := None;
  ss_persistent_dir_fd := -1; ss_persistent_dir_name := None;
  ss_proinfo_node_fd := -1;
  ss_proinfo_name := cstr "/dev/block/platform/bootdevice/by-name/proinfo";
  fs_state := SS_CLEAN; dir_state := SS_CLEAN;
  fd_state := replicate (Z.to_nat FD_TBL_SIZE) SS_CLEAN;
  read_rsp := replicate (Z.to_nat MAX_READ_SIZE) 0
|}.

Definition set_ssdir_fd v st := StorageSt v (ssdir_name st) (ss_persistent_dir_fd st)
  (ss_persistent_dir_name st) (ss_proinfo_node_fd st) (ss_proinfo_name st) (fs_state st)
  (dir_state st) (fd_state st) (read_rsp st).
Definition set_ssdir_name v st := StorageSt (ssdir_fd st) v (ss_persistent_dir_fd st)
  (ss_persistent_dir_name st) (ss_proinfo_node_fd st) (ss_proinfo_name st) (fs_state st)
  (dir_state st) (fd_state st) (read_rsp st).
Definition set_persistent_fd v st := StorageSt (ssdir_fd st) (ssdir_name st) v
  (ss_persistent_dir_name st) (ss_proinfo_node_fd st) (ss_proinfo_name st) (fs_state st)
  (dir_state st) (fd_state st) (read_rsp st).
Definition set_persistent_name v st := StorageSt (ssdir_fd st) (ssdir_name st)
  (ss_persistent_dir_fd st) v (ss_proinfo_node_fd st) (ss_proinfo_name st) (fs_state st)
  (dir_state st) (fd_state st) (read_rsp st).
Definition set_proinfo_fd v st := StorageSt (ssdir_fd st) (ssdir_name st)
  (ss_persistent_dir_fd st) (ss_persistent_dir_name st) v (ss_proinfo_name st) (fs_state st)
  (dir_state st) (fd_state st) (read_rsp st).
Definition set_fs_state v st := StorageSt (ssdir_fd st) (ssdir_name st)
  (ss_persistent_dir_fd st) (ss_persistent_dir_name st) (ss_proinfo_node_fd st)
  (ss_proinfo_name st) v (dir_state st) (fd_state st) (read_rsp st).
Definition set_dir_state v st := StorageSt (ssdir_fd st) (ssdir_name st)
  (ss_persistent_dir_fd st) (ss_persistent_dir_name st) (ss_proinfo_node_fd st)
  (ss_proinfo_name st) (fs_state st) v (fd_state st) (read_rsp st).
Definition set_fd_table v st := StorageSt (ssdir_fd st) (ssdir_name st)
  (ss_persistent_dir_fd st) (ss_persistent_dir_name st) (ss_proinfo_node_fd st)
  (ss_proinfo_name st) (fs_state st) (dir_state st) v (read_rsp st).
Definition set_read_rsp v st := StorageSt (ssdir_fd st) (ssdir_name st)
  (ss_persistent_dir_fd st) (ss_persistent_dir_name st) (ss_proinfo_node_fd st)
  (ss_proinfo_name st) (fs_state st) (dir_state st) (fd_state st) v.

(** [fd_state[i] = v] *)
Definition set_fd_state (i : Z) (v : sync_state) (st : storage_st) : storage_st :=
  set_fd_table (<[Z.to_nat i := v]> (fd_state st)) st.

(** [fd_state[i]] *)
Definition fd_state_at (st : storage_st) (i : Z) : sync_state :=
  default SS_UNUSED (fd_state st !! Z.to_nat i).

(** ** rpmb.c, ipc.c, proxy.c *)

Record rpmb_st := RpmbSt { rpmb_fd : Z; read_buf : bytes }.
Definition rpmb_st0 : rpmb_st := RpmbSt (-1) (replicate 4096 0).

Record ipc_st := IpcSt { tipc_fd : Z }.
Definition ipc_st0 : ipc_st := IpcSt (-1).

(** [4096 * 16] *)
Definition REQ_BUFFER_SIZE := 65536.

Record proxy_st := ProxySt {
  req_buffer : bytes;
  ss_data_root : option bytes;
  trusty_devname : option bytes;
  rpmb_devname : option bytes;
  ss_srv_name : option bytes;
  ss_persistent_root : option bytes;
  init_proinfo : option bytes
}.
Definition proxy_st0 : proxy_st :=
  ProxySt (replicate (Z.to_nat (REQ_BUFFER_SIZE + 1)) 0) None None None None None None.

Definition set_req_buffer v st := ProxySt v (ss_data_root st) (trusty_devname st)
  (rpmb_devname st) (ss_srv_name st) (ss_persistent_root st) (init_proinfo st).

(** ** The process *)

Record proxy_globals := ProxyGlobals {
  g_storage : storage_st; g_rpmb : rpmb_st; g_ipc : ipc_st; g_proxy : proxy_st
}.
Definition proxy_globals0 : proxy_globals :=
  ProxyGlobals storage_st0 rpmb_st0 ipc_st0 proxy_st0.

Definition on_storage (f : storage_st -> storage_st) (g : proxy_globals) : proxy_globals :=
  ProxyGlobals (f (g_storage g)) (g_rpmb g) (g_ipc g) (g_proxy g).
Definition on_rpmb (f : rpmb_st -> rpmb_st) (g : proxy_globals) : proxy_globals :=
  ProxyGlobals (g_storage g) (f (g_rpmb g)) (g_ipc g) (g_proxy g).
Definition on_ipc (f : ipc_st -> ipc_st) (g : proxy_globals) : proxy_globals :=
  ProxyGlobals (g_storage g) (g_rpmb g) (f (g_ipc g)) (g_proxy g).
Definition on_proxy (f : proxy_st -> proxy_st) (g : proxy_globals) : proxy_globals :=
  ProxyGlobals (g_storage g) (g_rpmb g) (g_ipc g) (f (g_proxy g)).

(** Programs of the proxy process. *)
Abbreviation PM W := (M W proxy_globals).
