(* ===== verification/Ipc.v ===== *)
(** * The proxy's channel to the secure world (lite/storage/proxy/ipc.c)

    Connecting with retries, receiving a request into the request buffer,
    sending a response.  Besides the four operations the file defines what
    the other components rely on: [sent], the frames a trace wrote, programs
    that send nothing ([silent]) and programs that answer exactly once
    ([responds]). *)

From S2P Require Import Prelude Kernel StorageProto Libtrusty ProxyState.

Definition MAX_RECONNECT_RETRY_COUNT := 5.
Definition TRUSTY_RECONNECT_TIMEOUT_SEC := 5.

Section Ipc.
Context {W : Type} `{K : Kernel W}.

Fixpoint ipc_connect_loop (fuel : nat) (device port : bytes) (retry_cnt : Z) : PM W Z :=
  match fuel with
  | O => halt OutOfFuel
  | S fuel' =>
      rc ← tipc_connect device port;
      if 0 <=? rc then mret rc
      else if MAX_RECONNECT_RETRY_COUNT <? retry_cnt + 1 then mret (-1)
      else
        sys (Sys_sleep TRUSTY_RECONNECT_TIMEOUT_SEC);;
        ipc_connect_loop fuel' device port (retry_cnt + 1)
  end.

Definition ipc_connect (device port : bytes) : PM W Z :=
  fd ← gets (fun g => tipc_fd (g_ipc g));
  assert_ (fd =? -1);;
  rc ← ipc_connect_loop (S (Z.to_nat MAX_RECONNECT_RETRY_COUNT)) device port 0;
  if rc <? 0 then mret (-1)
  else modify (on_ipc (fun _ => IpcSt rc));; mret 0.

Definition ipc_disconnect : PM W unit :=
  fd ← gets (fun g => tipc_fd (g_ipc g));
  assert_ (0 <=? fd);;
  tipc_close fd;;
  modify (on_ipc (fun _ => IpcSt (-1))).

(** [readv] scatters the incoming bytes over the header [msg] (passed by
    pointer: the new contents are returned) and the request buffer, an array of
    [REQ_BUFFER_SIZE + 1] bytes that it must not overrun. *)
Definition ipc_get_msg (msg : storage_msg) (req_buf_len : Z) : PM W (Z * storage_msg) :=
  fd ← gets (fun g => tipc_fd (g_ipc g));
  assert_ (0 <=? fd);;
  r ← sys (Sys_readv fd [sizeof_storage_msg; req_buf_len]);
  let rc := sr_ret r in
  if rc <? 0 then mret (rc, msg)
  else
    let head := slice 0 sizeof_storage_msg (sr_data r) in
    let body := drop (Z.to_nat sizeof_storage_msg) (sr_data r) in
    let msg := storage_msg_dec (splice (storage_msg_enc msg) 0 head) in
    if REQ_BUFFER_SIZE + 1 <? zlen body then halt Undefined
    else
    modify (on_proxy (fun p => set_req_buffer (splice (req_buffer p) 0 body) p));;
    if rc <? sizeof_storage_msg then mret (-1, msg)
    else if negb (size msg =? u32 rc) then mret (-1, msg)
    else mret (rc - sizeof_storage_msg, msg).

(** [ipc_respond(msg, out, out_size)]: [out = None] is the null pointer. *)
Definition ipc_respond (msg : storage_msg) (out : option bytes) : PM W (Z * storage_msg) :=
  fd ← gets (fun g => tipc_fd (g_ipc g));
  assert_ (0 <=? fd);;
  let msg := set_cmd (Z.lor (cmd msg) STORAGE_RESP_BIT) msg in
  r ← sys (Sys_writev fd (storage_msg_enc msg :: match out with Some b => [b] | None => [] end));
  if sr_ret r <? 0 then mret (-1, msg) else mret (0, msg).
End Ipc.

(** ** Frames sent *)

(** The frames of a trace: descriptor and scatter list of each [writev]. *)
Fixpoint sent (tr : list event) : list (Z * list bytes) :=
  match tr with
  | [] => []
  | Ev (Sys_writev fd iov) _ :: tr' => (fd, iov) :: sent tr'
  | _ :: tr' => sent tr'
  end.

Lemma sent_app tr tr' : sent (tr ++ tr') = sent tr ++ sent tr'.
Proof. induction tr as [|[[] r] tr IH]; simpl; rewrite ?IH; done. Qed.

Definition is_writev (c : syscall) : bool :=
  match c with Sys_writev _ _ => true | _ => false end.

Lemma sent_quiet c r : is_writev c = false -> sent [Ev c r] = [].
Proof. by destruct c. Qed.

(** The frame that answers [msg]: the header with the response bit set and
    the request's other fields, followed by the payload. *)
Definition answer (msg : storage_msg) (out : option bytes) : list bytes :=
  storage_msg_enc (set_cmd (Z.lor (cmd msg) STORAGE_RESP_BIT) msg)
    :: match out with Some b => [b] | None => [] end.

Section Silent.
Context {W : Type} `{K : Kernel W}.
Implicit Types s : proc W proxy_globals.

(** No frame is sent and the channel stays the same. *)
Definition quiet_step s s' : Prop :=
  sent (trace s') = sent (trace s) /\ g_ipc (globals s') = g_ipc (globals s).

#[export] Instance quiet_preorder : PreOrder quiet_step.
Proof.
  split; [done|]. intros s1 s2 s3 [? ?] [? ?]. split; congruence.
Qed.

Abbreviation silent := (keeps quiet_step).

Lemma silent_sys c : is_writev c = false -> silent (sys c).
Proof.
  intros. apply keeps_sys. intros s r w. split; [|done].
  simpl. rewrite sent_app, sent_quiet by done. apply app_nil_r.
Qed.

Lemma silent_retry fuel c : is_writev c = false -> silent (retry fuel c).
Proof.
  intros. apply keeps_retry; [typeclasses eauto|]. intros s r w. split; [|done].
  simpl. rewrite sent_app, sent_quiet by done. apply app_nil_r.
Qed.

#[local] Hint Extern 1 (keeps quiet_step (sys _)) => apply silent_sys; reflexivity : keeps.

Lemma silent_storage f : silent (modify (on_storage f)).
Proof. by apply keeps_modify. Qed.
Lemma silent_rpmb f : silent (modify (on_rpmb f)).
Proof. by apply keeps_modify. Qed.
Lemma silent_proxy f : silent (modify (on_proxy f)).
Proof. by apply keeps_modify. Qed.

Lemma silent_free : silent free.
Proof. unfold free. keeps_go. Qed.

Lemma silent_asprintf b : silent (asprintf b).
Proof. unfold asprintf. keeps_go. Qed.

Lemma silent_malloc n : silent (malloc n).
Proof. unfold malloc. keeps_go. Qed.

(** [answers m P]: run on an open channel, [m] either stops or returns a
    status and a header, having sent exactly one frame: the returned header
    followed by one optional payload, [P] holding of them. *)
Definition answers (m : PM W (Z * storage_msg)) (P : storage_msg -> option bytes -> Prop) : Prop :=
  forall s, 0 <= tipc_fd (g_ipc (globals s)) ->
    wp m (fun o s' => g_ipc (globals s') = g_ipc (globals s) /\
            match o with
            | Ret (rc, m') => -1 <= rc <= 0 /\ exists msg out,
                m' = set_cmd (Z.lor (cmd msg) STORAGE_RESP_BIT) msg /\ P msg out /\
                sent (trace s') = sent (trace s) ++ [(tipc_fd (g_ipc (globals s)), answer msg out)]
            | Stop _ => sent (trace s') = sent (trace s)
            end) s.

Lemma answers_respond msg out (P : storage_msg -> option bytes -> Prop) :
  P msg out -> answers (ipc_respond msg out) P.
Proof.
  intros HP s Hs. unfold ipc_respond.
  apply wp_bind, wp_gets, wp_bind. apply wp_assert; intros Hb; [|lia].
  apply wp_bind. wp_sys_intro. apply wp_if; intros Hr; apply wp_ret;
    (split; [done|]; split; [lia|]; exists msg, out; split_and!; [done|done|];
     simpl; by rewrite sent_app).
Qed.

Lemma answers_bind {A} (m : PM W A) (f : A -> PM W (Z * storage_msg)) P :
  silent m -> (forall a, answers (f a) P) -> answers (m ≫= f) P.
Proof.
  intros Hm Hf s Hs. apply wp_bind. destruct (Hm s) as [H1 H2]. unfold wp.
  destruct (m s) as [[a|e] s']; simpl in *; [|split; congruence].
  eapply wp_mono; [apply Hf; by rewrite H2|]. intros o s'' [Hi Ho]. split; [congruence|].
  destruct o as [[rc m']|]; [|congruence].
  destruct Ho as (? & msg & out & ? & ? & Hse). split; [done|].
  exists msg, out. by rewrite Hse, H1, H2.
Qed.

(** After an early stop nothing was sent. *)
Lemma answers_halt e P : answers (halt e) P.
Proof. intros s Hs. by apply wp_halt. Qed.

Lemma answers_if (b : bool) m1 m2 P :
  (b = true -> answers m1 P) -> (b = false -> answers m2 P) -> answers (if b then m1 else m2) P.
Proof. destruct b; auto. Qed.

Lemma answers_mono m (P Q : storage_msg -> option bytes -> Prop) :
  answers m P -> (forall msg out, P msg out -> Q msg out) -> answers m Q.
Proof.
  intros Hm HPQ s Hs. eapply wp_mono; [by apply Hm|]. intros o s' [? Ho]. split; [done|].
  destruct o as [[rc m']|]; [|done]. destruct Ho as (? & msg & out & ? & ? & ?).
  split; [done|]. exists msg, out; auto.
Qed.
End Silent.

#[export] Hint Extern 1 (keeps quiet_step (sys _)) => apply silent_sys; reflexivity : keeps.
#[export] Hint Extern 1 (keeps quiet_step (retry _ _)) => apply silent_retry; reflexivity : keeps.
#[export] Hint Resolve silent_storage silent_rpmb silent_proxy silent_free silent_asprintf
  silent_malloc : keeps.

(** Walk through a handler up to the call that answers. *)
Ltac answers_step :=
  lazymatch goal with
  | |- answers (ipc_respond _ _) _ => apply answers_respond
  | |- answers (halt _) _ => apply answers_halt
  | |- answers (_ ≫= _) _ => apply answers_bind; [solve [keeps_go] | intros]
  | |- answers (match ?x with _ => _ end) _ => first [apply answers_if; intros | destruct x]
  end.
Ltac answers_go := repeat answers_step.
