(* ===== verification/Storage.v ===== *)
(** * The file operations of storageproxyd (lite/storage/proxy/storage.c)

    The descriptor table with its dirty marks, the retrying read and write
    loops, the request handlers, the three initialisers and
    [storage_sync_checkpoint].  [msg] is passed by pointer in the source: a
    handler returns its status together with the header it answered with.  [r]
    is the request buffer and [req_len] the length of the received payload;
    [fuel] bounds each retry loop and each read/write loop. *)

From S2P Require Import Prelude Kernel StorageProto Libtrusty ProxyState Ipc.

Definition S_IRWXU := 448.
Definition S_IRUSR := 256.
Definition S_IWUSR := 128.

Definition translate_errno (error : Z) : storage_err :=
  if error =? 0 then STORAGE_NO_ERROR
  else if (error =? EBADF) || (error =? EINVAL) || (error =? ENOTDIR) || (error =? EISDIR)
          || (error =? ENAMETOOLONG) then STORAGE_ERR_NOT_VALID
  else if error =? ENOENT then STORAGE_ERR_NOT_FOUND
  else if error =? EEXIST then STORAGE_ERR_EXIST
  else if (error =? EPERM) || (error =? EACCES) then STORAGE_ERR_ACCESS
  else STORAGE_ERR_GENERIC.

(** ["%s"] of a possibly null pointer, as the C library prints it. *)
Definition fmt_s (p : option bytes) : bytes := default (cstr "(null)") p.
(** ["%s/%s"] *)
Definition fmt_path (dir : option bytes) (name : bytes) : bytes := fmt_s dir ++ cstr "/" ++ name.

Section Storage.
Context {W : Type} `{K : Kernel W} (fuel : nat).

Definition st {A} (f : storage_st -> A) : PM W A := gets (fun g => f (g_storage g)).
Definition upd (f : storage_st -> storage_st) : PM W unit := modify (on_storage f).

(** ** The descriptor table *)

(** [fd_state] has [FD_TBL_SIZE] elements; an access outside them is
    undefined. *)
Definition in_fd_state (i : Z) : bool := (0 <=? i) && (i <? FD_TBL_SIZE).

(** [fd_state[i] = v] *)
Definition put_fd_state (i : Z) (v : sync_state) : PM W unit :=
  if in_fd_state i then upd (set_fd_state i v) else halt Undefined.

(** [fd_state[i]] *)
Definition read_fd_state (i : Z) : PM W sync_state :=
  if in_fd_state i then st (fun t => fd_state_at t i) else halt Undefined.

Definition insert_fd (open_flags fd : Z) : PM W Z :=
  let handle := u32 fd in
  (if has_flag open_flags O_CREAT then upd (set_dir_state SS_DIRTY) else mret tt);;
  (if handle <? FD_TBL_SIZE then
     put_fd_state fd SS_CLEAN;;
     if has_flag open_flags O_TRUNC then put_fd_state fd SS_DIRTY else mret tt
   else
     if has_flag open_flags (Z.lor O_TRUNC O_CREAT) then upd (set_fs_state SS_DIRTY)
     else mret tt);;
  mret handle.

Definition lookup_fd (handle : Z) (dirty : bool) : PM W Z :=
  (if dirty then
     if handle <? FD_TBL_SIZE then put_fd_state handle SS_DIRTY
     else upd (set_fs_state SS_DIRTY)
   else mret tt);;
  mret (s32 handle).

Definition remove_fd (handle : Z) : PM W Z :=
  (if handle <? FD_TBL_SIZE then put_fd_state handle SS_UNUSED else mret tt);;
  mret (s32 handle).

(** ** Read and write loops *)

(** [offset += rc] on an [off_t], whose overflow is undefined. *)
Definition off_add (offset rc : Z) : PM W Z :=
  if offset + rc <? 2 ^ 63 then mret (offset + rc) else halt Undefined.

Fixpoint write_with_retry (n : nat) (fd : Z) (buf : bytes) (offset : Z) : PM W Z :=
  match n with
  | O => halt OutOfFuel
  | S n' =>
      if zlen buf =? 0 then mret 0
      else
        r ← retry fuel (Sys_pwrite fd buf offset);
        let rc := sr_ret r in
        if rc <? 0 then mret rc
        else
          offset ← off_add offset rc;
          write_with_retry n' fd (drop (Z.to_nat rc) buf) offset
  end.

(** [buf] is the destination array and [cap] its declared size, past which the
    call must not store; [pos] is the number of bytes read so far ([rcnt], and
    the distance [buf] advanced); the final array is returned. *)
Fixpoint read_with_retry (n : nat) (fd cap : Z) (buf : bytes) (size offset pos : Z)
    : PM W (Z * bytes) :=
  match n with
  | O => halt OutOfFuel
  | S n' =>
      if size =? 0 then mret (pos, buf)
      else
        r ← retry fuel (Sys_pread fd size offset);
        let rc := sr_ret r in
        if rc <? 0 then mret (rc, buf)
        else if rc =? 0 then mret (pos, buf)
        else if cap <? pos + rc then halt Undefined
        else
          offset ← off_add offset rc;
          read_with_retry n' fd cap (splice buf pos (sr_data r)) (size - rc) offset (pos + rc)
  end.

(** ** Request handlers *)

(** [goto err_response] without a path to free. *)
Definition err_response (e : storage_err) (msg : storage_msg) : PM W (Z * storage_msg) :=
  ipc_respond (set_result e msg) None.

Definition storage_file_delete (msg : storage_msg) (r : bytes) (req_len : Z)
    : PM W (Z * storage_msg) :=
  if req_len <? sizeof_name_req then err_response STORAGE_ERR_NOT_VALID msg
  else
    match strlen (drop (Z.to_nat sizeof_name_req) r) with
    | None => halt Undefined
    | Some fname_len =>
        if negb (fname_len =? req_len - sizeof_name_req) then
          err_response STORAGE_ERR_NOT_VALID msg
        else
          dir ← st ssdir_name;
          path ← asprintf (fmt_path dir (slice sizeof_name_req fname_len r));
          match path with
          | None => err_response STORAGE_ERR_GENERIC msg
          | Some p =>
              upd (set_dir_state SS_DIRTY);;
              rc ← sys (Sys_unlink p);
              e ← get_errno;
              free;;
              if sr_ret rc <? 0 then err_response (translate_errno e) msg
              else ipc_respond (set_result STORAGE_NO_ERROR msg) None
          end
    end.

(** Index of the last ['/'] ([-1] if there is none): the source's loop over
    the name keeps the last index it saw. *)
Fixpoint last_slash (i : Z) (acc : Z) (path : bytes) : Z :=
  match path with
  | [] => acc
  | c :: path' => last_slash (i + 1) (if c =? 47 then i else acc) path'
  end.

Definition prepare_floder (root_dir : option bytes) (path : bytes) : PM W Z :=
  let end_ := last_slash 0 (-1) path in
  if 0 <? end_ then
    ok ← malloc (end_ + 1);
    if (ok : bool) then
      folder_full_path ← asprintf (fmt_path root_dir (slice 0 end_ path));
      (match folder_full_path with
       | Some p => sys (Sys_umask 16);; sys (Sys_mkdir p S_IRWXU);; mret tt
       | None => mret tt
       end : PM W unit);;
      free_opt folder_full_path;;
      free;;
      mret 0
    else mret (-1)
  else mret (-1).

(** The path a request names: persistent, proinfo, vfs or data file. *)
Definition open_path (fl : Z) (name : bytes) : PM W (option bytes) :=
  if has_flag fl STORAGE_FILE_OPEN_PERSISTENT_FILE then
    dir ← st ss_persistent_dir_name; asprintf (fmt_path dir name)
  else if has_flag fl STORAGE_FILE_OPEN_PROINFO_FILE then
    pro ← st ss_proinfo_name; asprintf pro
  else if has_flag fl STORAGE_FILE_OPEN_VFS then
    dir ← st ssdir_name;
    path ← asprintf (fmt_path dir name);
    prepare_floder dir name;;
    mret path
  else
    dir ← st ssdir_name; asprintf (fmt_path dir name).

Definition open_mode := Z.lor S_IRUSR S_IWUSR.

(** The open sequence: flags given to the last [open], its return value and
    [errno] after it. *)
Definition open_file (fl : Z) (path : bytes) : PM W (Z * Z * Z) :=
  let open_flags := Z.lor O_RDWR O_SYNC in
  let open_flags := if has_flag fl STORAGE_FILE_OPEN_TRUNCATE
                    then Z.lor open_flags O_TRUNC else open_flags in
  if has_flag fl STORAGE_FILE_OPEN_CREATE then
    if has_flag fl STORAGE_FILE_OPEN_CREATE_EXCLUSIVE then
      let open_flags := Z.lor open_flags (Z.lor O_CREAT O_EXCL) in
      rc ← retry fuel (Sys_open path open_flags open_mode);
      e ← get_errno; mret (open_flags, sr_ret rc, e)
    else
      rc ← retry fuel (Sys_open path open_flags open_mode);
      e ← get_errno;
      if (sr_ret rc =? -1) && (e =? ENOENT) then
        let open_flags := Z.lor open_flags O_CREAT in
        rc ← retry fuel (Sys_open path open_flags open_mode);
        e ← get_errno; mret (open_flags, sr_ret rc, e)
      else mret (open_flags, sr_ret rc, e)
  else
    rc ← retry fuel (Sys_open path open_flags open_mode);
    e ← get_errno; mret (open_flags, sr_ret rc, e).

Definition storage_file_open (msg : storage_msg) (r : bytes) (req_len : Z)
    : PM W (Z * storage_msg) :=
  if req_len <? sizeof_name_req then err_response STORAGE_ERR_NOT_VALID msg
  else
    match strlen (drop (Z.to_nat sizeof_name_req) r) with
    | None => halt Undefined
    | Some fname_len =>
        if negb (fname_len =? req_len - sizeof_name_req) then
          err_response STORAGE_ERR_NOT_VALID msg
        else
          path ← open_path (req_flags r) (slice sizeof_name_req fname_len r);
          match path with
          | None => err_response STORAGE_ERR_GENERIC msg
          | Some p =>
              '(open_flags, rc, e) ← open_file (req_flags r) p;
              free;;
              if rc <? 0 then err_response (translate_errno e) msg
              else
                handle ← insert_fd open_flags rc;
                ipc_respond (set_result STORAGE_NO_ERROR msg) (Some (open_resp_enc handle))
          end
    end.

Definition storage_file_close (msg : storage_msg) (r : bytes) (req_len : Z)
    : PM W (Z * storage_msg) :=
  if negb (req_len =? sizeof_handle_req) then err_response STORAGE_ERR_NOT_VALID msg
  else
    fd ← remove_fd (req_handle r);
    rc ← sys (Sys_fsync fd);
    if sr_ret rc <? 0 then
      e ← get_errno; err_response (translate_errno e) msg
    else
      rc ← sys (Sys_close fd);
      if sr_ret rc <? 0 then
        e ← get_errno; err_response (translate_errno e) msg
      else ipc_respond (set_result STORAGE_NO_ERROR msg) None.

Definition storage_file_write (msg : storage_msg) (r : bytes) (req_len : Z)
    : PM W (Z * storage_msg) :=
  if req_len <? sizeof_write_req then err_response STORAGE_ERR_NOT_VALID msg
  else
    let req := write_req_dec r in
    fd ← lookup_fd (wr_handle req) true;
    rc ← write_with_retry fuel fd (slice sizeof_write_req (req_len - sizeof_write_req) r)
           (s64 (wr_offset req));
    if rc <? 0 then
      e ← get_errno; err_response (translate_errno e) msg
    else ipc_respond (set_result STORAGE_NO_ERROR msg) None.

Definition storage_file_read (msg : storage_msg) (r : bytes) (req_len : Z)
    : PM W (Z * storage_msg) :=
  if negb (req_len =? sizeof_read_req) then err_response STORAGE_ERR_NOT_VALID msg
  else
    let req := read_req_dec r in
    if MAX_READ_SIZE <? rd_size req then err_response STORAGE_ERR_NOT_VALID msg
    else
      fd ← lookup_fd (rd_handle req) false;
      buf ← st read_rsp;
      '(read_res, buf) ← read_with_retry fuel fd MAX_READ_SIZE buf (rd_size req) (s64 (rd_offset req)) 0;
      upd (set_read_rsp buf);;
      if read_res <? 0 then
        e ← get_errno; err_response (translate_errno e) msg
      else ipc_respond (set_result STORAGE_NO_ERROR msg) (Some (slice 0 read_res buf)).

Definition storage_file_get_size (msg : storage_msg) (r : bytes) (req_len : Z)
    : PM W (Z * storage_msg) :=
  if negb (req_len =? sizeof_handle_req) then err_response STORAGE_ERR_NOT_VALID msg
  else
    fd ← lookup_fd (req_handle r) false;
    rc ← sys (Sys_fstat fd);
    if sr_ret rc <? 0 then
      e ← get_errno; err_response (translate_errno e) msg
    else
      (* st_size is the 8-byte field the kernel stored *)
      ipc_respond (set_result STORAGE_NO_ERROR msg)
        (Some (get_size_resp_enc (u64 (get_u64 (sr_data rc) 0)))).

Definition storage_file_set_size (msg : storage_msg) (r : bytes) (req_len : Z)
    : PM W (Z * storage_msg) :=
  if negb (req_len =? sizeof_set_size_req) then err_response STORAGE_ERR_NOT_VALID msg
  else
    let req := set_size_req_dec r in
    fd ← lookup_fd (ss_handle req) true;
    rc ← retry fuel (Sys_ftruncate fd (s64 (ss_size req)));
    if sr_ret rc <? 0 then
      e ← get_errno; err_response (translate_errno e) msg
    else ipc_respond (set_result STORAGE_NO_ERROR msg) None.

(** The three status notifications differ in the property they set. *)
Definition notify_init (prop : bytes) (msg : storage_msg) (req_len : Z)
    : PM W (Z * storage_msg) :=
  if req_len <? sizeof_write_req then err_response STORAGE_ERR_NOT_VALID msg
  else
    sys (Lib_property_set prop (cstr "INIT_OK"));;
    ipc_respond (set_result STORAGE_NO_ERROR msg) None.

Definition storage_init_ok (msg : storage_msg) (r : bytes) (req_len : Z) :=
  notify_init (cstr "vendor.soter.teei.init") msg req_len.
Definition storage_init_persist_ok (msg : storage_msg) (r : bytes) (req_len : Z) :=
  notify_init (cstr "vendor.soter.teei.persist") msg req_len.
Definition storage_init_proinfo_ok (msg : storage_msg) (r : bytes) (req_len : Z) :=
  notify_init (cstr "vendor.soter.teei.proinfo") msg req_len.

(** ** Initialisation *)

Definition storage_init (dirname : bytes) : PM W Z :=
  upd (set_fs_state SS_CLEAN);;
  upd (set_dir_state SS_CLEAN);;
  upd (set_fd_table (replicate (Z.to_nat FD_TBL_SIZE) SS_UNUSED));;
  fd ← sys (Sys_open dirname O_RDONLY 0);
  upd (set_ssdir_fd (sr_ret fd));;
  if sr_ret fd <? 0 then mret (-1)
  else upd (set_ssdir_name (Some dirname));; mret 0.

Definition storage_persistent_init (dirname : bytes) : PM W Z :=
  fd ← sys (Sys_open dirname O_RDONLY 0);
  upd (set_persistent_fd (sr_ret fd));;
  if sr_ret fd <? 0 then mret (-1)
  else upd (set_persistent_name (Some dirname));; mret 0.

Definition storage_proinfo_init (nodename : bytes) : PM W Z :=
  fd ← sys (Sys_open nodename O_RDONLY 0);
  upd (set_proinfo_fd (sr_ret fd));;
  if sr_ret fd <? 0 then mret (-1) else mret 0.

(** ** The checkpoint *)

(** The loop over the descriptor table from [fd] on, [left] entries to go;
    [Some rc] is an early [return rc]. *)
Fixpoint sync_fds (left : nat) (fd : Z) : PM W (option Z) :=
  match left with
  | O => mret None
  | S left' =>
      d ← read_fd_state fd;
      if decide (d = SS_DIRTY) then
        fs ← st fs_state;
        if decide (fs = SS_CLEAN) then
          rc ← sys (Sys_fsync fd);
          if sr_ret rc <? 0 then mret (Some (sr_ret rc))
          else put_fd_state fd SS_CLEAN;; sync_fds left' (fd + 1)
        else put_fd_state fd SS_CLEAN;; sync_fds left' (fd + 1)
      else sync_fds left' (fd + 1)
  end.

(** Issue [call] on a root directory or node if it is open ([fd > 0]). *)
Definition sync_root (call : Z -> syscall) (fd : Z) : PM W (option Z) :=
  if 0 <? fd then
    rc ← sys (call fd);
    mret (if sr_ret rc <? 0 then Some (sr_ret rc) else None)
  else mret None.

(** [call] on the three roots; the data directory is always synced. *)
Definition sync_roots (call : Z -> syscall) : PM W (option Z) :=
  d ← st ssdir_fd;
  rc ← sys (call d);
  if sr_ret rc <? 0 then mret (Some (sr_ret rc))
  else
    p ← st ss_persistent_dir_fd;
    e ← sync_root call p;
    match e with
    | Some rc => mret (Some rc)
    | None => q ← st ss_proinfo_node_fd; sync_root call q
    end.

Definition sync_dir : PM W (option Z) :=
  d ← st dir_state;
  if decide (d = SS_DIRTY) then
    fs ← st fs_state;
    e ← (if decide (fs = SS_CLEAN) then sync_roots Sys_fsync else mret None);
    match e with
    | Some rc => mret (Some rc)
    | None => upd (set_dir_state SS_CLEAN);; mret None
    end
  else mret None.

Definition sync_fs : PM W (option Z) :=
  fs ← st fs_state;
  if decide (fs = SS_DIRTY) then
    e ← sync_roots Sys_syncfs;
    match e with
    | Some rc => mret (Some rc)
    | None => upd (set_fs_state SS_CLEAN);; mret None
    end
  else mret None.

Definition storage_sync_checkpoint : PM W Z :=
  e ← sync_fds (Z.to_nat FD_TBL_SIZE) 0;
  match e with
  | Some rc => mret rc
  | None =>
      e ← sync_dir;
      match e with
      | Some rc => mret rc
      | None =>
          e ← sync_fs;
          match e with Some rc => mret rc | None => mret 0 end
      end
  end.
End Storage.

(** ** Accesses inside the bounds *)

Section Bounds.
Context {W : Type} `{K : Kernel W}.

Lemma wp_put_fd_state i v Q (s : proc W proxy_globals) :
  0 <= i < FD_TBL_SIZE -> wp (upd (set_fd_state i v)) Q s -> wp (put_fd_state i v) Q s.
Proof. intros Hi HQ. unfold put_fd_state, in_fd_state. by replace (_ && _) with true by lia. Qed.

Lemma wp_read_fd_state i Q (s : proc W proxy_globals) :
  0 <= i < FD_TBL_SIZE -> Q (Ret (fd_state_at (g_storage (globals s)) i)) s -> wp (read_fd_state i) Q s.
Proof. intros Hi HQ. unfold read_fd_state, in_fd_state. by replace (_ && _) with true by lia. Qed.

Lemma wp_off_add offset rc Q (s : proc W proxy_globals) :
  offset + rc < 2 ^ 63 -> Q (Ret (offset + rc)) s -> wp (off_add offset rc) Q s.
Proof. intros Hi HQ. unfold off_add. by rewrite (proj2 (Z.ltb_lt _ _) Hi). Qed.
End Bounds.
