(* ===== verification/Rpmb.v ===== *)
(** * RPMB requests (lite/storage/proxy/rpmb.c)

    [rpmb_send] checks an RPMB request, builds at most three MMC commands out
    of its payload, submits them with one [ioctl] and answers with the frames
    read.  [size_bits] is the width of the platform's [size_t] (64, or 32 on a
    32-bit build): the length check is computed in it.  The read command stores
    [read_size] bytes into [read_buf], which must not overrun it. *)

From S2P Require Import Prelude Kernel StorageProto Libtrusty ProxyState Ipc.

Definition MMC_READ_MULTIPLE_BLOCK := 18.
Definition MMC_WRITE_MULTIPLE_BLOCK := 25.
(** [1 << 31] stored in an [int]. *)
Definition MMC_RELIABLE_WRITE_FLAG := s32 (Z.shiftl 1 31).
Definition MMC_RSP_PRESENT := Z.shiftl 1 0.
Definition MMC_RSP_CRC := Z.shiftl 1 2.
Definition MMC_RSP_OPCODE := Z.shiftl 1 4.
Definition MMC_CMD_ADTC := Z.shiftl 1 5.
Definition MMC_RSP_SPI_S1 := Z.shiftl 1 7.
Definition MMC_RSP_R1 := Z.lor MMC_RSP_PRESENT (Z.lor MMC_RSP_CRC MMC_RSP_OPCODE).
Definition MMC_RSP_SPI_R1 := MMC_RSP_SPI_S1.
Definition MMC_WRITE_FLAG_R := 0.
Definition MMC_WRITE_FLAG_W := 1.
Definition MMC_WRITE_FLAG_RELW := Z.lor MMC_WRITE_FLAG_W MMC_RELIABLE_WRITE_FLAG.
Definition MMC_BLOCK_SIZE := 512.
(** [_IOWR(MMC_BLOCK_MAJOR, 1, struct mmc_ioc_multi_cmd)] *)
Definition MMC_IOC_MULTI_CMD :=
  Z.lor (Z.shiftl 3 30) (Z.lor (Z.shiftl 8 16) (Z.lor (Z.shiftl 179 8) 1)).

(** sizeof(read_buf) *)
Definition sizeof_read_buf := 4096.

Definition mmc_cmd_flags := Z.lor MMC_RSP_SPI_R1 (Z.lor MMC_RSP_R1 MMC_CMD_ADTC).

(** One write command over [data]. *)
Definition write_cmd (flag : Z) (n : Z) (data : bytes) : mmc_ioc_cmd :=
  MmcCmd flag MMC_WRITE_MULTIPLE_BLOCK mmc_cmd_flags MMC_BLOCK_SIZE (n / MMC_BLOCK_SIZE) data.

(** The read command fills [read_buf]. *)
Definition read_cmd (n : Z) : mmc_ioc_cmd :=
  MmcCmd MMC_WRITE_FLAG_R MMC_READ_MULTIPLE_BLOCK mmc_cmd_flags MMC_BLOCK_SIZE
    (n / MMC_BLOCK_SIZE) [].

(** The commands of a request, in order, or [None] when a size is refused.
    [write_buf] starts at the payload and advances over each write region. *)
Definition rpmb_commands (req : storage_rpmb_send_req) (r : bytes) : option (list mmc_ioc_cmd) :=
  let rel := reliable_write_size req in
  let wr := write_size req in
  let rd := read_size req in
  let write_buf := sizeof_rpmb_req in
  rel_cmds ← (if negb (rel =? 0) then
                if negb (rel mod MMC_BLOCK_SIZE =? 0) then None
                else Some [write_cmd MMC_WRITE_FLAG_RELW rel (slice write_buf rel r)]
              else Some []);
  let write_buf := write_buf + rel in
  wr_cmds ← (if negb (wr =? 0) then
               if negb (wr mod MMC_BLOCK_SIZE =? 0) then None
               else Some [write_cmd MMC_WRITE_FLAG_W wr (slice write_buf wr r)]
             else Some []);
  rd_cmds ← (if negb (rd =? 0) then
               if negb (rd mod MMC_BLOCK_SIZE =? 0) || (sizeof_read_buf <? rd) then None
               else Some [read_cmd rd]
             else Some []);
  Some (rel_cmds ++ wr_cmds ++ rd_cmds).

Section Rpmb.
Context {W : Type} `{K : Kernel W} (size_bits : Z).

(** [sizeof( *req) + req->reliable_write_size + req->write_size] *)
Definition expected_len (req : storage_rpmb_send_req) : Z :=
  (sizeof_rpmb_req + reliable_write_size req + write_size req) mod 2 ^ size_bits.

(** The output of RPMB_DEBUG, which rpmb.c defines: [print_buf] prints [size]
    bytes from [buf] on.  [buf] is what is left of the array there; reading past
    it is undefined.  The text itself goes to the standard output. *)
Definition print_buf (buf : bytes) (size : Z) : PM W unit :=
  if zlen buf <? size then halt Undefined else mret tt.

(** The two regions [rpmb_send] prints while it builds the commands: each as
    soon as its size was accepted. *)
Definition print_request (req : storage_rpmb_send_req) (r : bytes) : PM W unit :=
  let rel := reliable_write_size req in
  let wr := write_size req in
  let write_buf := sizeof_rpmb_req in
  if negb (rel mod MMC_BLOCK_SIZE =? 0) then mret tt
  else
    (if negb (rel =? 0) then print_buf (drop (Z.to_nat write_buf) r) rel else mret tt);;
    let write_buf := write_buf + rel in
    if negb (wr =? 0) && (wr mod MMC_BLOCK_SIZE =? 0)
    then print_buf (drop (Z.to_nat write_buf) r) wr else mret tt.

Definition rpmb_send (msg : storage_msg) (r : bytes) (req_len : Z) : PM W (Z * storage_msg) :=
  if req_len <? sizeof_rpmb_req then ipc_respond (set_result STORAGE_ERR_NOT_VALID msg) None
  else
    let req := rpmb_req_dec r in
    if negb (req_len =? expected_len req) then
      ipc_respond (set_result STORAGE_ERR_NOT_VALID msg) None
    else
      print_request req r;;
      match rpmb_commands req r with
      | None => ipc_respond (set_result STORAGE_ERR_NOT_VALID msg) None
      | Some cmds =>
          fd ← gets (fun g => rpmb_fd (g_rpmb g));
          rc ← sys (Sys_ioctl fd MMC_IOC_MULTI_CMD (Arg_mmc cmds));
          if sr_ret rc <? 0 then ipc_respond (set_result STORAGE_ERR_GENERIC msg) None
          else
            (* the read command, if any, filled the front of read_buf *)
            (if read_size req =? 0 then mret tt
             else if sizeof_read_buf <? read_size req then halt Undefined
             else
               modify (on_rpmb (fun t => RpmbSt (rpmb_fd t) (splice (read_buf t) 0 (sr_data rc)))));;
            buf ← gets (fun g => read_buf (g_rpmb g));
            ipc_respond (set_result STORAGE_NO_ERROR msg) (Some (slice 0 (read_size req) buf))
      end.

Definition rpmb_open (rpmb_devname : bytes) : PM W Z :=
  rc ← sys (Sys_open rpmb_devname O_RDWR 0);
  if sr_ret rc <? 0 then mret (sr_ret rc)
  else modify (on_rpmb (fun t => RpmbSt (sr_ret rc) (read_buf t)));; mret 0.

Definition rpmb_close : PM W unit :=
  fd ← gets (fun g => rpmb_fd (g_rpmb g));
  sys (Sys_close fd);;
  modify (on_rpmb (fun t => RpmbSt (-1) (read_buf t))).
End Rpmb.

(** ** The commands are well formed *)

(** A write region of a command lies inside the request and its block count
    is its exact length. *)
Definition mmc_cmd_ok (c : mmc_ioc_cmd) : Prop :=
  blksz c = MMC_BLOCK_SIZE /\ mmc_flags c = mmc_cmd_flags /\
  ((opcode c = MMC_WRITE_MULTIPLE_BLOCK /\ 0 < blocks c /\
    zlen (mmc_data c) = blocks c * MMC_BLOCK_SIZE /\
    (write_flag c = MMC_WRITE_FLAG_RELW \/ write_flag c = MMC_WRITE_FLAG_W)) \/
   (opcode c = MMC_READ_MULTIPLE_BLOCK /\ write_flag c = MMC_WRITE_FLAG_R /\
    0 < blocks c * MMC_BLOCK_SIZE <= sizeof_read_buf)).

Lemma write_cmd_ok flag n off r :
  flag = MMC_WRITE_FLAG_RELW \/ flag = MMC_WRITE_FLAG_W ->
  0 < n -> n mod MMC_BLOCK_SIZE = 0 -> 0 <= off -> off + n <= zlen r ->
  mmc_cmd_ok (write_cmd flag n (slice off n r)).
Proof.
  intros Hf Hn Hm Ho Hl. split; [done|]. split; [done|]. left.
  unfold write_cmd, MMC_BLOCK_SIZE in *; simpl. rewrite zlen_slice by lia.
  split_and!; [done|lia|lia|done].
Qed.

Lemma read_cmd_ok n :
  0 < n <= sizeof_read_buf -> n mod MMC_BLOCK_SIZE = 0 -> mmc_cmd_ok (read_cmd n).
Proof.
  intros Hn Hm. split; [done|]. split; [done|]. right.
  unfold read_cmd, MMC_BLOCK_SIZE in *; simpl. split_and!; [done|done|lia|lia].
Qed.

(** What the accepted write regions carry: together they are the payload. *)
Definition mmc_written (cmds : list mmc_ioc_cmd) : bytes := mjoin (mmc_data <$> cmds).

Lemma rpmb_commands_spec req r cmds :
  0 <= reliable_write_size req -> 0 <= write_size req -> 0 <= read_size req ->
  sizeof_rpmb_req + reliable_write_size req + write_size req <= zlen r ->
  rpmb_commands req r = Some cmds ->
  (length cmds <= 3)%nat /\ Forall mmc_cmd_ok cmds /\
  mmc_written cmds = slice sizeof_rpmb_req (reliable_write_size req + write_size req) r /\
  read_size req <= sizeof_read_buf.
Proof.
  intros H1 H2 H3 Hl. unfold rpmb_commands, sizeof_rpmb_req in *.
  destruct (Z.eqb_spec (reliable_write_size req) 0) as [E1|E1];
  destruct (Z.eqb_spec (write_size req) 0) as [E2|E2];
  destruct (Z.eqb_spec (read_size req) 0) as [E3|E3]; simpl;
  repeat match goal with
    | |- context [?a mod ?b =? 0] => destruct (Z.eqb_spec (a mod b) 0); simpl; [|done]
    | |- context [?a <? ?b] => destruct (Z.ltb_spec a b); simpl; [done|]
    end; intros [= <-]; unfold mmc_written; simpl; rewrite ?app_nil_r;
  (split; [lia|]; split;
    [ repeat first [apply Forall_nil_2 | apply Forall_cons_2]; (apply write_cmd_ok || apply read_cmd_ok); auto; try lia |]);
  split; try (unfold sizeof_read_buf in *; lia);
  rewrite ?E1, ?E2, ?Z.add_0_r, ?Z.add_0_l; try done;
  try (by rewrite slice_split by lia).
Qed.
