(* ===== verification/Proxy.v ===== *)
(** * storageproxyd (lite/storage/proxy/proxy.c)

    Dropping privileges, parsing the command line, dispatching one request,
    the message loop and [main]. *)

From S2P Require Import Prelude Kernel StorageProto Libtrusty ProxyState Ipc Storage Rpmb.

Definition EXIT_SUCCESS := 0.
Definition EXIT_FAILURE := 1.
Definition AID_SYSTEM := 1000.
Definition PR_SET_KEEPCAPS := 8.
Definition CAP_SYS_RAWIO := 17.
(** [CAP_TO_MASK(CAP_SYS_RAWIO)]; [CAP_TO_INDEX] of it is 0. *)
Definition cap_rawio_mask := Z.shiftl 1 (Z.land CAP_SYS_RAWIO 31).
(** [S_IXUSR | S_IRWXG | S_IRWXO] *)
Definition proxy_umask := Z.lor 64 (Z.lor 56 7).

Section Proxy.
Context {W : Type} `{K : Kernel W} (fuel : nat) (size_bits : Z).

Definition drop_privs : PM W Z :=
  r ← sys (Sys_prctl PR_SET_KEEPCAPS 1);
  if sr_ret r <? 0 then mret (-1)
  else
    r ← sys (Sys_setgid AID_SYSTEM);
    if negb (sr_ret r =? 0) then mret (-1)
    else
      r ← sys (Sys_setuid AID_SYSTEM);
      if negb (sr_ret r =? 0) then mret (-1)
      else
        r ← sys (Sys_capset [cap_rawio_mask; 0] [cap_rawio_mask; 0]);
        if sr_ret r <? 0 then mret (-1)
        else sys (Sys_umask proxy_umask);; mret 0.

(** The switch on the command. *)
Definition dispatch (msg : storage_msg) (req : bytes) (req_len : Z) : PM W (Z * storage_msg) :=
  if cmd msg =? STORAGE_FILE_DELETE then storage_file_delete msg req req_len
  else if cmd msg =? STORAGE_FILE_OPEN then storage_file_open fuel msg req req_len
  else if cmd msg =? STORAGE_FILE_CLOSE then storage_file_close msg req req_len
  else if cmd msg =? STORAGE_FILE_WRITE then storage_file_write fuel msg req req_len
  else if cmd msg =? STORAGE_FILE_READ then storage_file_read fuel msg req req_len
  else if cmd msg =? STORAGE_FILE_GET_SIZE then storage_file_get_size msg req req_len
  else if cmd msg =? STORAGE_FILE_SET_SIZE then storage_file_set_size fuel msg req req_len
  else if cmd msg =? STORAGE_RPMB_SEND then rpmb_send size_bits msg req req_len
  else if cmd msg =? STORAGE_INIT_OK then storage_init_ok msg req req_len
  else if cmd msg =? STORAGE_INIT_PROINFO_OK then storage_init_proinfo_ok msg req req_len
  else if cmd msg =? STORAGE_INIT_PERSIST_OK then storage_init_persist_ok msg req req_len
  else mret (1, set_result STORAGE_ERR_UNIMPLEMENTED msg).

Definition handle_req (msg : storage_msg) (req : bytes) (req_len : Z) : PM W (Z * storage_msg) :=
  if has_flag (flags msg) STORAGE_MSG_FLAG_POST_COMMIT && negb (cmd msg =? STORAGE_RPMB_SEND)
  then ipc_respond (set_result STORAGE_ERR_UNIMPLEMENTED msg) None
  else
    rc ← (if has_flag (flags msg) STORAGE_MSG_FLAG_PRE_COMMIT
          then storage_sync_checkpoint else mret 0);
    if rc <? 0 then ipc_respond (set_result STORAGE_ERR_GENERIC msg) None
    else
      '(rc, msg) ← dispatch msg req req_len;
      if 0 <? rc then ipc_respond msg None else mret (rc, msg).

(** [n] bounds the number of messages; [msg] is the loop's local header. *)
Fixpoint proxy_loop (n : nat) (msg : storage_msg) : PM W Z :=
  match n with
  | O => halt OutOfFuel
  | S n' =>
      '(rc, msg) ← ipc_get_msg msg REQ_BUFFER_SIZE;
      if rc <? 0 then mret rc
      else
        (if REQ_BUFFER_SIZE <? rc then halt Undefined
         else modify (on_proxy (fun p => set_req_buffer (<[Z.to_nat rc := 0]> (req_buffer p)) p)));;
        req ← gets (fun g => req_buffer (g_proxy g));
        '(rc, msg) ← handle_req msg req rc;
        if negb (rc =? 0) then mret rc else proxy_loop n' msg
  end.

(** ** Command line *)

Definition set_arg (opt : Z) (v : option bytes) (p : proxy_st) : proxy_st :=
  let '(ProxySt b f d r s pv i) := p in
  if opt =? 100 (* d *) then ProxySt b f v r s pv i
  else if opt =? 102 (* f *) then ProxySt b v d r s pv i
  else if opt =? 114 (* r *) then ProxySt b f d v s pv i
  else if opt =? 118 (* v *) then ProxySt b f d r s v i
  else if opt =? 105 (* i *) then ProxySt b f d r s pv v
  else ProxySt b f d r v pv i.

(** The options whose argument is kept: d, f, r, v, i, p. *)
Definition known_opt (opt : Z) : bool :=
  (opt =? 100) || (opt =? 102) || (opt =? 114) || (opt =? 118) || (opt =? 105) || (opt =? 112).

(** The loop over the options [getopt_long] delivers. *)
Fixpoint parse_opts (opts : list (Z * bytes)) : PM W unit :=
  match opts with
  | [] => mret tt
  | (opt, optarg) :: opts' =>
      if known_opt opt then
        v ← strdup optarg;
        modify (on_proxy (set_arg opt v));;
        parse_opts opts'
      else halt (Exit EXIT_FAILURE)
  end.

Definition parse_args (opts : list (Z * bytes)) : PM W unit :=
  parse_opts opts;;
  srv ← gets (fun g => ss_srv_name (g_proxy g));
  dev ← gets (fun g => trusty_devname (g_proxy g));
  match srv, dev with
  | Some _, Some _ => mret tt
  | _, _ => halt (Exit EXIT_FAILURE)
  end.

(** Run an initialiser if its option was given; [true] means go on. *)
Definition init_step (arg : option bytes) (init : bytes -> PM W Z) : PM W bool :=
  match arg with
  | Some a => rc ← init a; mret (0 <=? rc)
  | None => mret true
  end.

Definition main (n : nat) (msg0 : storage_msg) (opts : list (Z * bytes)) : PM W Z :=
  p ← drop_privs;
  if p <? 0 then mret EXIT_FAILURE
  else
    parse_args opts;;
    a ← gets g_proxy;
    ok ← init_step (ss_data_root a) storage_init;
    if negb ok then mret EXIT_FAILURE
    else
      ok ← init_step (ss_persistent_root a) storage_persistent_init;
      if negb ok then mret EXIT_FAILURE
      else
        pro ← gets (fun g => ss_proinfo_name (g_storage g));
        ok ← init_step (init_proinfo a) (fun _ => storage_proinfo_init pro);
        if negb ok then mret EXIT_FAILURE
        else
          ok ← init_step (rpmb_devname a) rpmb_open;
          if negb ok then mret EXIT_FAILURE
          else
            rc ← ipc_connect (fmt_s (trusty_devname a)) (fmt_s (ss_srv_name a));
            if rc <? 0 then mret EXIT_FAILURE
            else
              rc ← proxy_loop n msg0;
              ipc_disconnect;;
              (match rpmb_devname a with Some _ => rpmb_close | None => mret tt end);;
              mret (if rc <? 0 then EXIT_FAILURE else EXIT_SUCCESS).
End Proxy.
