(* ===== verification/StorageSync.v ===== *)
(** * Dirty marks and durability (storage.c: insert_fd, lookup_fd, remove_fd,
    storage_sync_checkpoint)

    The abstract view of the storage back end is the set of descriptors with
    unsynchronised changes, computed from the trace of system calls
    ([pending]).  The invariant [sync_inv] says that the marks kept by the proxy
    cover it: every descriptor with pending changes is marked dirty, or the
    whole file system is.  Every request preserves the invariant, and a
    checkpoint that reports success leaves nothing pending. *)

From S2P Require Import Prelude Kernel StorageProto Libtrusty ProxyState Ipc Storage Rpmb Proxy.

(** ** Pending changes of a trace *)

Section Pending.
(** [same_fs d fd]: [fd] lives on the file system of [d] ([syncfs(d)]
    flushes it). *)
Context (same_fs : Z -> Z -> bool).

Definition pend_step (fd : Z) (b : bool) (e : event) : bool :=
  let ok := 0 <=? sr_ret (ev_res e) in
  match ev_call e with
  | Sys_pwrite f _ _ => if ok && (f =? fd) then true else b
  | Sys_ftruncate f _ => if ok && (f =? fd) then true else b
  | Sys_open _ fl _ => if ok && (sr_ret (ev_res e) =? fd) then has_flag fl O_TRUNC else b
  | Sys_fsync f => if ok && (f =? fd) then false else b
  | Sys_syncfs d => if ok && same_fs d fd then false else b
  | _ => b
  end.

Definition pending (tr : list event) (fd : Z) : bool := fold_left (pend_step fd) tr false.

Lemma pending_snoc tr e fd : pending (tr ++ [e]) fd = pend_step fd (pending tr fd) e.
Proof. unfold pending. by rewrite fold_left_app. Qed.

(** Calls that cannot make a descriptor pending. *)
Definition calm (c : syscall) : bool :=
  match c with
  | Sys_pwrite _ _ _ | Sys_ftruncate _ _ => false
  | Sys_open _ fl _ => negb (has_flag fl O_TRUNC)
  | _ => true
  end.

Lemma calm_pending tr c r fd :
  calm c = true -> pending (tr ++ [Ev c r]) fd = true -> pending tr fd = true.
Proof.
  rewrite pending_snoc. unfold pend_step.
  destruct c; cbn [ev_call ev_res calm]; try done; destruct (_ && _); try done.
  intros H1 H2. by rewrite H2 in H1.
Qed.

Lemma fsync_pending tr fd r f :
  0 <= sr_ret r -> pending (tr ++ [Ev (Sys_fsync fd) r]) f = true ->
  f <> fd /\ pending tr f = true.
Proof.
  intros Hr. rewrite pending_snoc. unfold pend_step; simpl.
  rewrite (proj2 (Z.leb_le _ _) Hr); simpl.
  destruct (Z.eqb_spec fd f); [done|]. auto.
Qed.

Lemma syncfs_pending tr d r f :
  0 <= sr_ret r -> pending (tr ++ [Ev (Sys_syncfs d) r]) f = true ->
  same_fs d f = false /\ pending tr f = true.
Proof.
  intros Hr. rewrite pending_snoc. unfold pend_step; simpl.
  rewrite (proj2 (Z.leb_le _ _) Hr); simpl. destruct (same_fs d f); done.
Qed.
End Pending.

(** ** The invariant *)

Section SyncInv.
Context {W : Type} `{K : Kernel W} (same_fs : Z -> Z -> bool).
Implicit Types s : proc W proxy_globals.

Definition sst s : storage_st := g_storage (globals s).

Definition tracked (t : storage_st) (fd : Z) : Prop :=
  (0 <= fd < FD_TBL_SIZE /\ fd_state_at t fd = SS_DIRTY) \/ fs_state t = SS_DIRTY.

(** Every file is on the file system of one of the open roots. *)
Definition roots_cover (t : storage_st) : Prop := forall fd,
  same_fs (ssdir_fd t) fd = true \/
  (0 < ss_persistent_dir_fd t /\ same_fs (ss_persistent_dir_fd t) fd = true) \/
  (0 < ss_proinfo_node_fd t /\ same_fs (ss_proinfo_node_fd t) fd = true).

Definition table_ok (t : storage_st) : Prop :=
  length (fd_state t) = Z.to_nat FD_TBL_SIZE /\ fs_state t <> SS_UNUSED.

Definition sync_inv s : Prop :=
  table_ok (sst s) /\ roots_cover (sst s) /\
  forall fd, pending same_fs (trace s) fd = true -> tracked (sst s) fd.

(** The invariant, except possibly for the changes of [fd]. *)
Definition sync_inv_but (fd : Z) s : Prop :=
  table_ok (sst s) /\ roots_cover (sst s) /\
  forall f, f <> fd -> pending same_fs (trace s) f = true -> tracked (sst s) f.

Definition sync_inv_at (fd : Z) s : Prop := sync_inv s /\ tracked (sst s) fd.

(** *** Table updates *)

Lemma fd_state_at_set t i v j :
  length (fd_state t) = Z.to_nat FD_TBL_SIZE -> 0 <= i < FD_TBL_SIZE -> 0 <= j < FD_TBL_SIZE ->
  fd_state_at (set_fd_state i v t) j = if j =? i then v else fd_state_at t j.
Proof.
  unfold fd_state_at, set_fd_state, set_fd_table, FD_TBL_SIZE; simpl. intros Hl Hi Hj.
  destruct (Z.eqb_spec j i) as [->|Hne].
  - rewrite list_lookup_insert_eq; [done|lia].
  - rewrite list_lookup_insert_ne; [done|lia].
Qed.

Lemma table_ok_set_fd i v t : table_ok t -> table_ok (set_fd_state i v t).
Proof. intros [? ?]. split; [|done]. simpl. by rewrite length_insert. Qed.

Lemma tracked_set_fd_dirty i t fd :
  table_ok t -> 0 <= i < FD_TBL_SIZE -> tracked t fd -> tracked (set_fd_state i SS_DIRTY t) fd.
Proof.
  intros [Hl _] Hi [[Hfd Hd]|Hd]; [left|by right]. split; [done|].
  rewrite fd_state_at_set by done. by destruct (fd =? i).
Qed.

Lemma tracked_set_fd_ne i v t fd :
  table_ok t -> 0 <= i < FD_TBL_SIZE -> fd <> i -> tracked t fd ->
  tracked (set_fd_state i v t) fd.
Proof.
  intros [Hl _] Hi Hne [[Hfd Hd]|Hd]; [left|by right]. split; [done|].
  rewrite fd_state_at_set by done. by destruct (Z.eqb_spec fd i).
Qed.

(** *** Calls *)

Lemma inv_calm s c r w : calm c = true -> sync_inv s -> sync_inv (after s c r w).
Proof.
  intros Hc (Ht & Hr & Hp). split_and!; [done|done|]. intros fd H. simpl in H.
  apply calm_pending in H; [|done]. by apply Hp.
Qed.

Lemma keeps_calm c : calm c = true -> keeps (stable sync_inv) (sys c).
Proof. intros. apply keeps_sys. intros s r w. red. by apply inv_calm. Qed.

Lemma keeps_calm_retry n c : calm c = true -> keeps (stable sync_inv) (retry n c).
Proof.
  intros. apply keeps_retry; [typeclasses eauto|]. intros s r w. red. by apply inv_calm.
Qed.

(** A write to a tracked descriptor keeps the invariant. *)
Lemma inv_at_touch s fd c r w :
  (exists d off, c = Sys_pwrite fd d off) \/ (exists n, c = Sys_ftruncate fd n) ->
  sync_inv_at fd s -> sync_inv_at fd (after s c r w).
Proof.
  intros Hc [(Ht & Hr & Hp) Htr]. split; [|done]. split_and!; [done|done|].
  intros f H. simpl in H. rewrite pending_snoc in H.
  destruct (decide (f = fd)) as [->|Hne]; [done|]. apply Hp.
  destruct Hc as [(d & off & ->)|(n & ->)]; unfold pend_step in H; simpl in H;
    destruct (Z.eqb_spec fd f); try congruence; by rewrite andb_false_r in H.
Qed.

Lemma keeps_touch_retry n fd c :
  (exists d off, c = Sys_pwrite fd d off) \/ (exists k, c = Sys_ftruncate fd k) ->
  keeps (stable (sync_inv_at fd)) (retry n c).
Proof.
  intros. apply keeps_retry; [typeclasses eauto|]. intros s r w. red. by apply inv_at_touch.
Qed.

Lemma keeps_write_with_retry fuel n fd buf off :
  keeps (stable (sync_inv_at fd)) (write_with_retry fuel n fd buf off).
Proof.
  revert buf off; induction n as [|n IH]; intros; simpl; [by apply keeps_halt; typeclasses eauto|].
  unfold off_add. keeps_go. apply keeps_touch_retry. eauto.
Qed.

(** *** Updates of other variables *)

Lemma keeps_inv_modify f :
  (forall g, g_storage (f g) = g_storage g) -> keeps (stable sync_inv) (modify f).
Proof.
  intros Hf. apply keeps_modify. intros s. unfold stable, sync_inv, sst; simpl.
  by rewrite Hf.
Qed.

Lemma keeps_inv_dir v : keeps (stable sync_inv) (upd (set_dir_state v)).
Proof. apply keeps_modify. intros s H. exact H. Qed.

Lemma keeps_inv_rsp v : keeps (stable sync_inv) (upd (set_read_rsp v)).
Proof. apply keeps_modify. intros s H. exact H. Qed.

Lemma keeps_inv_free : keeps (stable sync_inv) free.
Proof. unfold free. keeps_go; by apply keeps_calm. Qed.
Lemma keeps_inv_asprintf b : keeps (stable sync_inv) (asprintf b).
Proof. unfold asprintf. keeps_go; by apply keeps_calm. Qed.
Lemma keeps_inv_malloc n : keeps (stable sync_inv) (malloc n).
Proof. unfold malloc. keeps_go; by apply keeps_calm. Qed.
End SyncInv.

#[export] Hint Extern 1 (keeps (stable (sync_inv _)) (sys _)) =>
  apply keeps_calm; reflexivity : keeps.
#[export] Hint Extern 1 (keeps (stable (sync_inv _)) (retry _ _)) =>
  apply keeps_calm_retry; reflexivity : keeps.
#[export] Hint Resolve keeps_inv_dir keeps_inv_rsp keeps_inv_free keeps_inv_asprintf
  keeps_inv_malloc : keeps.

(** ** The checkpoint *)

Section Checkpoint.
Context {W : Type} `{K : Kernel W} (same_fs : Z -> Z -> bool).
Implicit Types s : proc W proxy_globals.
Abbreviation inv := (sync_inv same_fs).
Abbreviation pend := (pending same_fs).

(** Cleaning the mark of a descriptor that has nothing pending, or that the
    file-system mark covers. *)
Lemma inv_set_fd s i v :
  inv s -> 0 <= i < FD_TBL_SIZE ->
  pend (trace s) i = false \/ fs_state (sst s) = SS_DIRTY \/ v = SS_DIRTY ->
  inv (Proc (on_storage (set_fd_state i v) (globals s)) (world s) (errno s) (trace s)).
Proof.
  intros (Ht & Hr & Hp) Hi Hc. unfold sync_inv, sst; simpl.
  split_and!; [by apply table_ok_set_fd|done|]. intros fd Hfd.
  destruct (decide (fd = i)) as [->|Hne]; [|apply tracked_set_fd_ne; auto].
  destruct Hc as [Hc|[Hc|Hc]]; [congruence|by right|subst v].
  left. split; [done|]. rewrite fd_state_at_set by (done || apply Ht). by rewrite Z.eqb_refl.
Qed.

(** The entries before [fd] are not dirty. *)
Definition swept (t : storage_st) (fd : Z) : Prop :=
  forall j, 0 <= j < fd -> fd_state_at t j <> SS_DIRTY.

Lemma swept_clean t fd :
  table_ok t -> 0 <= fd < FD_TBL_SIZE -> swept t fd -> swept (set_fd_state fd SS_CLEAN t) (fd + 1).
Proof.
  intros [Hl _] Hfd Hs j Hj. rewrite fd_state_at_set by (done || lia).
  destruct (Z.eqb_spec j fd); [done|]. apply Hs; lia.
Qed.

Lemma sync_fds_spec left fd s :
  inv s -> 0 <= fd -> fd + Z.of_nat left = FD_TBL_SIZE -> swept (sst s) fd ->
  wp (sync_fds left fd) (fun o s' => inv s' /\
    match o with
    | Ret None => swept (sst s') FD_TBL_SIZE /\ fs_state (sst s') = fs_state (sst s)
    | Ret (Some rc) => rc < 0
    | Stop _ => False
    end) s.
Proof.
  revert fd s; induction left as [|n IH]; intros fd s Hinv Hfd Hleft Hsw; simpl.
  { apply wp_ret. split; [done|]. split; [|done]. by replace FD_TBL_SIZE with fd by lia. }
  assert (0 <= fd < FD_TBL_SIZE) as Hr by (unfold FD_TBL_SIZE in *; lia).
  apply wp_bind, wp_read_fd_state; [done|].
  destruct (decide (fd_state_at (g_storage (globals s)) fd = SS_DIRTY)) as [Hd|Hd].
  2:{ apply IH; [done|lia|lia|]. intros j Hj. destruct (decide (j = fd)) as [->|]; [done|].
      apply Hsw; lia. }
  apply wp_bind, wp_gets.
  destruct (decide (fs_state (g_storage (globals s)) = SS_CLEAN)) as [Hc|Hc].
  - apply wp_bind. wp_sys_intro. apply wp_if; intros Hret.
    { apply wp_ret. split; [by apply inv_calm|lia]. }
    apply wp_bind, wp_put_fd_state, wp_modify; [done|]. eapply wp_mono; [apply IH|].
    + apply inv_set_fd; [by apply inv_calm|done|left]. simpl.
      destruct (pending same_fs (trace s ++ [Ev (Sys_fsync fd) r]) fd) eqn:E; [|done].
      apply fsync_pending in E as [? _]; [done|lia].
    + lia.
    + lia.
    + by apply swept_clean; [apply Hinv| |].
    + intros o s' [? ?]. split; done.
  - apply wp_bind, wp_put_fd_state, wp_modify; [done|]. eapply wp_mono; [apply IH|].
    + apply inv_set_fd; [done|done|right; left].
      destruct Hinv as ([_ Hu] & _). unfold sst in *. by destruct (fs_state _).
    + lia.
    + lia.
    + by apply swept_clean; [apply Hinv| |].
    + intros o s' [? ?]. split; done.
Qed.

(** [s'] has the storage variables of [s] and no more pending changes. *)
Definition shrinks s s' : Prop :=
  sst s' = sst s /\ forall f, pend (trace s') f = true -> pend (trace s) f = true.

Lemma shrinks_inv s s' : shrinks s s' -> inv s -> inv s'.
Proof.
  intros [Hs Hp] (Ht & Hr & Hi). unfold sync_inv. rewrite Hs. split_and!; auto.
Qed.

Lemma shrinks_trans s1 s2 s3 : shrinks s1 s2 -> shrinks s2 s3 -> shrinks s1 s3.
Proof. intros [? ?] [? ?]. split; [congruence|auto]. Qed.

(** [fd] was flushed: what is still pending is on other file systems. *)
Definition flushed (fd : Z) s : Prop :=
  forall f, pend (trace s) f = true -> same_fs fd f = false.

Lemma shrinks_flushed s s' fd : shrinks s s' -> flushed fd s -> flushed fd s'.
Proof. intros [_ H] Hf f Hp. by apply Hf, H. Qed.

Lemma call_shrinks c s r w : calm c = true -> shrinks s (after s c r w).
Proof. intros. split; [done|]. intros f. by apply calm_pending. Qed.

Lemma syncfs_flushed fd s r w : 0 <= sr_ret r -> flushed fd (after s (Sys_syncfs fd) r w).
Proof. intros Hr f Hf. by apply syncfs_pending in Hf as [? _]. Qed.

Section Roots.
Context (call : Z -> syscall) (Hcall : call = Sys_fsync \/ call = Sys_syncfs).

Local Lemma call_calm fd : calm (call fd) = true.
Proof. by destruct Hcall as [-> | ->]. Qed.

Local Lemma call_flushed fd s r w :
  0 <= sr_ret r -> call = Sys_syncfs -> flushed fd (after s (call fd) r w).
Proof. intros ? ->. by apply syncfs_flushed. Qed.

Lemma sync_root_spec fd s :
  wp (sync_root call fd) (fun o s' => shrinks s s' /\
    match o with
    | Ret (Some rc) => rc < 0
    | Ret None => 0 < fd -> call = Sys_syncfs -> flushed fd s'
    | Stop _ => False
    end) s.
Proof.
  unfold sync_root. apply wp_if; intros Hfd; [|apply wp_ret; split; [done|lia]].
  apply wp_bind. wp_sys_intro. apply wp_ret. split; [apply call_shrinks, call_calm|].
  destruct (Z.ltb_spec (sr_ret r) 0); [done|]. intros _. by apply call_flushed.
Qed.

(** Syncing the roots; with [syncfs] nothing stays pending. *)
Lemma sync_roots_spec s :
  wp (sync_roots call) (fun o s' => shrinks s s' /\
    match o with
    | Ret (Some rc) => rc < 0
    | Ret None => call = Sys_syncfs -> roots_cover same_fs (sst s) ->
        forall f, pend (trace s') f = false
    | Stop _ => False
    end) s.
Proof.
  unfold sync_roots. apply wp_bind, wp_gets, wp_bind. wp_sys_intro.
  pose proof (call_shrinks _ s r w (call_calm (ssdir_fd (sst s)))) as H1.
  apply wp_if; intros Hr; [apply wp_ret; split; [done|lia]|].
  apply wp_bind, wp_gets, wp_bind. eapply wp_mono; [apply sync_root_spec|].
  intros [[rc|]|] s2 [H2 Ho]; [apply wp_ret; eauto using shrinks_trans| |done].
  apply wp_bind, wp_gets. eapply wp_mono; [apply sync_root_spec|].
  intros [[rc|]|] s3 [H3 Ho']; (split; [eauto using shrinks_trans|]); [done| |done].
  intros Hc Hcov f. destruct (pend (trace s3) f) eqn:E; [exfalso|done].
  assert (flushed (ssdir_fd (sst s)) s3) as Hd
    by (do 2 (eapply shrinks_flushed; [done|]); apply call_flushed; [lia|done]).
  assert (sst s2 = sst s) as Hs by apply H2. unfold sst in Ho', Hs. rewrite Hs in Ho'.
  destruct (Hcov f) as [Hf|[[Hp Hf]|[Hp Hf]]].
  - specialize (Hd f E). congruence.
  - pose proof (shrinks_flushed _ _ _ H3 (Ho Hp Hc) f E) as Hx. unfold sst in *; simpl in *.
    congruence.
  - pose proof (Ho' Hp Hc f E) as Hx. unfold sst in *; simpl in *. congruence.
Qed.
End Roots.

Lemma sync_dir_spec s :
  inv s ->
  wp sync_dir (fun o s' => inv s' /\ fd_state (sst s') = fd_state (sst s) /\
    fs_state (sst s') = fs_state (sst s) /\
    match o with
    | Ret (Some rc) => rc < 0
    | Ret None => dir_state (sst s') <> SS_DIRTY
    | Stop _ => False
    end) s.
Proof.
  intros Hinv. unfold sync_dir. apply wp_bind, wp_gets.
  destruct (decide (dir_state (g_storage (globals s)) = SS_DIRTY)) as [Hd|Hd];
    [|apply wp_ret; split_and!; done].
  apply wp_bind, wp_gets, wp_bind.
  destruct (decide (fs_state (g_storage (globals s)) = SS_CLEAN)) as [Hc|Hc].
  - eapply wp_mono; [apply sync_roots_spec; by left|].
    intros [[rc|]|] s' [[Hs Hp] Ho]; [apply wp_ret| |done].
    + split_and!; [by eapply shrinks_inv|by rewrite Hs..|done].
    + apply wp_bind, wp_modify, wp_ret. pose proof (shrinks_inv _ _ (conj Hs Hp) Hinv) as Hi.
      unfold sst in *; simpl. split_and!; [exact Hi|by rewrite Hs..|done].
  - apply wp_ret. apply wp_bind, wp_modify, wp_ret. split_and!; [exact Hinv|done|done|done].
Qed.

Lemma sync_fs_spec s :
  inv s ->
  wp sync_fs (fun o s' => inv s' /\ fd_state (sst s') = fd_state (sst s) /\
    dir_state (sst s') = dir_state (sst s) /\
    match o with
    | Ret (Some rc) => rc < 0
    | Ret None => fs_state (sst s') = SS_CLEAN
    | Stop _ => False
    end) s.
Proof.
  intros Hinv. unfold sync_fs. apply wp_bind, wp_gets.
  destruct (decide (fs_state (g_storage (globals s)) = SS_DIRTY)) as [Hd|Hd].
  2:{ apply wp_ret. split_and!; [done..|]. destruct Hinv as ([_ Hu] & _).
      unfold sst in *. by destruct (fs_state _). }
  apply wp_bind. eapply wp_mono; [apply sync_roots_spec; by right|].
  intros [[rc|]|] s' [[Hs Hp] Ho]; [apply wp_ret| |done].
  { split_and!; [by eapply shrinks_inv|by rewrite Hs..|done]. }
  apply wp_bind, wp_modify, wp_ret. destruct Hinv as ([Hl Hu] & Hr & Hi).
  unfold sst in *; simpl. rewrite Hs. split_and!; try done. unfold sync_inv, sst; simpl.
  rewrite Hs. split_and!; [done|done|]. intros fd H. by rewrite (Ho eq_refl Hr fd) in H.
Qed.

(** Nothing is marked dirty. *)
Definition all_clean (t : storage_st) : Prop :=
  fs_state t = SS_CLEAN /\ dir_state t <> SS_DIRTY /\ swept t FD_TBL_SIZE.

Lemma clean_nothing_pending s : inv s -> all_clean (sst s) -> forall fd, pend (trace s) fd = false.
Proof.
  intros (_ & _ & Hp) (Hf & _ & Hs) fd. destruct (pend (trace s) fd) eqn:E; [exfalso|done].
  destruct (Hp fd E) as [[Hr Hd]|Hd]; [by apply (Hs fd)|congruence].
Qed.

Lemma checkpoint_spec s :
  inv s ->
  wp storage_sync_checkpoint (fun o s' => inv s' /\
    match o with
    | Ret rc => rc < 0 \/ (rc = 0 /\ all_clean (sst s'))
    | Stop _ => False
    end) s.
Proof.
  intros Hinv. unfold storage_sync_checkpoint. apply wp_bind.
  eapply wp_mono; [apply sync_fds_spec; [done|done|done|intros j ?; lia]|].
  intros [[rc|]|] s1 [H1 Ho1]; [apply wp_ret; auto| |done]. destruct Ho1 as [Hsw Hfs].
  apply wp_bind. eapply wp_mono; [by apply sync_dir_spec|].
  intros [[rc|]|] s2 (H2 & Hfd2 & Hfs2 & Ho2); [apply wp_ret; auto| |done].
  apply wp_bind. eapply wp_mono; [by apply sync_fs_spec|].
  intros [[rc|]|] s3 (H3 & Hfd3 & Hd3 & Ho3); [apply wp_ret; auto| |done].
  apply wp_ret. split; [done|right]. split; [done|]. split_and!; [done|congruence|].
  intros j Hj. unfold fd_state_at in *. rewrite Hfd3, Hfd2. by apply Hsw.
Qed.
End Checkpoint.
