(* ===== verification/SyncRequests.v ===== *)
(** * Every request keeps the dirty marks sound

    The invariant of StorageSync through the handlers of storage.c and rpmb.c
    and through [handle_req] of proxy.c. *)

From S2P Require Import Prelude Kernel StorageProto Libtrusty ProxyState Ipc Storage Rpmb Proxy StorageSync.

Section Requests.
Context {W : Type} `{KB : KernelBounds W} (same_fs : Z -> Z -> bool) (fuel : nat).
Implicit Types s : proc W proxy_globals.
Abbreviation inv := (@sync_inv W same_fs).
Abbreviation pend := (pending same_fs).

Lemma keeps_inv_wp {A} (m : PM W A) s : keeps (stable inv) m -> inv s -> wp m (fun _ s' => inv s') s.
Proof. intros Hm Hs. exact (Hm s Hs). Qed.

Lemma keeps_respond msg out : keeps (stable inv) (ipc_respond msg out).
Proof. unfold ipc_respond. keeps_go. Qed.
#[local] Hint Resolve keeps_respond : keeps.

Lemma keeps_err e msg : keeps (stable inv) (err_response e msg).
Proof. apply keeps_respond. Qed.
#[local] Hint Resolve keeps_err : keeps.

Lemma keeps_lookup_clean h : keeps (stable inv) (lookup_fd h false).
Proof. unfold lookup_fd. keeps_go. Qed.
#[local] Hint Resolve keeps_lookup_clean : keeps.

Lemma keeps_delete msg r n : keeps (stable inv) (storage_file_delete msg r n).
Proof. unfold storage_file_delete, st. keeps_go. Qed.

Lemma keeps_get_size msg r n : keeps (stable inv) (storage_file_get_size msg r n).
Proof. unfold storage_file_get_size. keeps_go. Qed.

Lemma keeps_read_loop n fd cap buf sz off pos :
  keeps (stable inv) (read_with_retry fuel n fd cap buf sz off pos).
Proof.
  revert buf sz off pos; induction n as [|n IH]; intros; simpl; unfold off_add; keeps_go.
Qed.
#[local] Hint Resolve keeps_read_loop : keeps.

Lemma keeps_read msg r n : keeps (stable inv) (storage_file_read fuel msg r n).
Proof. unfold storage_file_read, st. keeps_go. Qed.

Lemma keeps_notify p msg n : keeps (stable inv) (notify_init p msg n).
Proof. unfold notify_init. keeps_go. Qed.

Lemma keeps_rpmb_upd f : keeps (stable inv) (modify (on_rpmb f)).
Proof. by apply keeps_inv_modify. Qed.
#[local] Hint Resolve keeps_rpmb_upd : keeps.

Lemma keeps_rpmb_send bits msg r n : keeps (stable inv) (rpmb_send bits msg r n).
Proof. unfold rpmb_send, print_request, print_buf. keeps_go. Qed.

(** ** Writes: mark first, then touch *)

Lemma lookup_dirty_spec h s :
  0 <= h -> inv s ->
  wp (lookup_fd h true) (fun o s' => o = Ret (s32 h) /\ sync_inv_at same_fs (s32 h) s') s.
Proof.
  intros Hh Hinv. unfold lookup_fd. apply wp_bind. apply wp_if; intros Hlt.
  - assert (s32 h = h) as -> by (apply s32_small; unfold FD_TBL_SIZE in *; wide_lia).
    assert (0 <= h < FD_TBL_SIZE) by lia.
    apply wp_put_fd_state, wp_modify, wp_ret; [done|]. split; [done|].
    split; [by apply inv_set_fd; auto|]. left. split; [done|].
    unfold sst; simpl. rewrite fd_state_at_set by (done || apply Hinv). by rewrite Z.eqb_refl.
  - apply wp_modify, wp_ret. split; [done|]. destruct Hinv as ([Hl Hu] & Hr & Hp).
    split; [|by right]. split_and!; [done|done|]. intros fd _. by right.
Qed.

Lemma at_inv {A} (m : PM W A) fd s (Q : outcome A -> proc W proxy_globals -> Prop) :
  keeps (stable (sync_inv_at same_fs fd)) m -> sync_inv_at same_fs fd s ->
  (forall o s', inv s' -> Q o s') -> wp m Q s.
Proof. intros Hm Hs HQ. apply HQ. exact (proj1 (Hm s Hs)). Qed.

Lemma write_inv msg r n s :
  Forall is_u8 r -> inv s -> wp (storage_file_write fuel msg r n) (fun _ s' => inv s') s.
Proof.
  intros Hr Hinv. unfold storage_file_write. apply wp_if; intros _.
  { apply keeps_inv_wp; [apply keeps_err|done]. }
  apply wp_bind. eapply wp_mono; [apply lookup_dirty_spec; [|done]|].
  { apply (get_u32_range r 8 Hr). }
  intros o s1 [-> H1]. apply wp_bind.
  eapply at_inv; [apply keeps_write_with_retry|done|]. intros [rc|e] s2 H2; [|done].
  apply keeps_inv_wp; [keeps_go|done].
Qed.

Lemma set_size_inv msg r n s :
  Forall is_u8 r -> inv s -> wp (storage_file_set_size fuel msg r n) (fun _ s' => inv s') s.
Proof.
  intros Hr Hinv. unfold storage_file_set_size. apply wp_if; intros _.
  { apply keeps_inv_wp; [apply keeps_err|done]. }
  apply wp_bind. eapply wp_mono; [apply lookup_dirty_spec; [|done]|].
  { apply (get_u32_range r 8 Hr). }
  intros o s1 [-> H1]. apply wp_bind.
  eapply at_inv; [apply keeps_touch_retry; eauto|done|]. intros [rc|e] s2 H2; [|done].
  apply keeps_inv_wp; [keeps_go|done].
Qed.

(** ** Opening *)

(** After an [open] with flags [fl] that returned [rc]. *)
Definition opened (fl rc : Z) s : Prop :=
  (rc < 0 -> inv s) /\
  (0 <= rc -> rc < 2 ^ 31 /\ sync_inv_but same_fs rc s /\ pend (trace s) rc = has_flag fl O_TRUNC).

Lemma open_event_inv p fl m s r w :
  inv s -> kcall (Sys_open p fl m) (world s) = (r, w) ->
  opened fl (sr_ret r) (after s (Sys_open p fl m) r w).
Proof.
  intros (Ht & Hr & Hp) Hk. pose proof (kb_open p fl m (world s)) as Hb.
  rewrite Hk in Hb. split; intros Hret.
  - split_and!; [done|done|]. intros fd Hfd. simpl in Hfd. rewrite pending_snoc in Hfd.
    apply Hp. unfold pend_step in Hfd; simpl in Hfd.
    by replace (0 <=? sr_ret r) with false in Hfd by lia.
  - split; [done|]. split.
    + split_and!; [done|done|]. intros f Hne Hfd. simpl in Hfd. rewrite pending_snoc in Hfd.
      apply Hp. unfold pend_step in Hfd; simpl in Hfd.
      destruct (Z.eqb_spec (sr_ret r) f); [congruence|]. by rewrite andb_false_r in Hfd.
    + simpl. rewrite pending_snoc. unfold pend_step; simpl. rewrite Z.eqb_refl.
      by replace (0 <=? sr_ret r) with true by lia.
Qed.

Lemma retry_open_inv n p fl m s :
  inv s ->
  wp (retry n (Sys_open p fl m)) (fun o s' =>
    match o with Ret r => opened fl (sr_ret r) s' | Stop _ => inv s' end) s.
Proof.
  revert s; induction n as [|n IH]; intros s Hinv; simpl; [by apply wp_halt|].
  apply wp_bind. wp_sys_intro. pose proof (open_event_inv _ _ _ _ _ _ Hinv Hk) as Ho.
  apply wp_bind, wp_get_errno. apply wp_if; intros Hb; [|by apply wp_ret].
  apply IH, Ho. lia.
Qed.

Lemma open_file_inv fl p s :
  inv s ->
  wp (open_file fuel fl p) (fun o s' =>
    match o with Ret (ofl, rc, _) => opened ofl rc s' | Stop _ => inv s' end) s.
Proof.
  intros Hinv. unfold open_file. apply wp_if; intros _; [apply wp_if; intros _|];
    apply wp_bind; (eapply wp_mono; [by apply retry_open_inv|]);
    intros [r|e] s1 H1; try done; apply wp_bind, wp_get_errno; try by apply wp_ret.
  apply wp_if; intros Hb; [|by apply wp_ret].
  apply wp_bind. eapply wp_mono; [apply retry_open_inv, H1; lia|].
  intros [r'|e] s2 H2; [|done]. apply wp_bind, wp_get_errno. by apply wp_ret.
Qed.

(** The marks [insert_fd] sets in the table or for the file system. *)
Lemma insert_mark_inv fl rc s :
  0 <= rc -> sync_inv_but same_fs rc s -> pend (trace s) rc = has_flag fl O_TRUNC ->
  wp (if rc <? FD_TBL_SIZE then
        put_fd_state rc SS_CLEAN;;
        if has_flag fl O_TRUNC then put_fd_state rc SS_DIRTY else mret tt
      else
        if has_flag fl (Z.lor O_TRUNC O_CREAT) then upd (set_fs_state SS_DIRTY)
        else mret tt) (fun o s' => o = Ret tt /\ inv s') s.
Proof.
  intros Hrc (Ht & Hr & Hp) Hpe. apply wp_if; intros Hlt.
  - assert (0 <= rc < FD_TBL_SIZE) as Hrange by lia.
    pose proof (table_ok_set_fd rc SS_CLEAN _ Ht) as Ht1.
    apply wp_bind, wp_put_fd_state, wp_modify, wp_if; [done|..]; intros Htr;
      [apply wp_put_fd_state, wp_modify; [done|]|apply wp_ret];
      (split; [done|]); unfold sync_inv, sst; simpl.
    + split_and!; [by apply table_ok_set_fd|done|]. intros f Hf.
      destruct (decide (f = rc)) as [->|Hne].
      * left. split; [done|]. rewrite fd_state_at_set by (done || apply Ht1).
        by rewrite Z.eqb_refl.
      * do 2 (apply tracked_set_fd_ne; [done..|]). by apply Hp.
    + split_and!; [done|done|]. intros f Hf.
      destruct (decide (f = rc)) as [->|Hne]; [congruence|].
      apply tracked_set_fd_ne; [done..|]. by apply Hp.
  - apply wp_if; intros Htr; [apply wp_modify|apply wp_ret]; (split; [done|]).
    + split_and!; [by destruct Ht|done|]. intros f Hf. by right.
    + split_and!; [done|done|]. intros f Hf.
      destruct (decide (f = rc)) as [->|Hne]; [exfalso|by apply Hp].
      rewrite Hpe in Hf. unfold has_flag in *. rewrite Z.land_lor_distr_r in Htr.
      apply negb_true_iff, Z.eqb_neq in Hf. apply negb_false_iff, Z.eqb_eq in Htr.
      apply Z.lor_eq_0_iff in Htr. tauto.
Qed.

Lemma insert_fd_inv fl rc s :
  0 <= rc -> opened fl rc s -> wp (insert_fd fl rc) (fun _ s' => inv s') s.
Proof.
  intros Hrc [_ Ho]. destruct (Ho Hrc) as (Hb & Hbut & Hpe). unfold insert_fd.
  assert (u32 rc = rc) as -> by (apply u32_small; wide_lia).
  apply wp_bind. apply wp_if; intros _; [apply wp_modify|apply wp_ret]; apply wp_bind;
    (eapply wp_mono; [apply insert_mark_inv; done|]); intros o s' [-> H]; by apply wp_ret.
Qed.

Lemma keeps_open_path fl name : keeps (stable inv) (open_path fl name).
Proof. unfold open_path, prepare_floder, free_opt, st. keeps_go. Qed.

Lemma open_inv msg r n s :
  inv s -> wp (storage_file_open fuel msg r n) (fun _ s' => inv s') s.
Proof.
  intros Hinv. unfold storage_file_open. apply wp_if; intros _.
  { apply keeps_inv_wp; [apply keeps_err|done]. }
  destruct (strlen _) as [len|]; [|by apply wp_halt]. apply wp_if; intros _.
  { apply keeps_inv_wp; [apply keeps_err|done]. }
  apply wp_bind. eapply wp_mono; [apply keeps_inv_wp; [apply keeps_open_path|done]|].
  intros [[p|]|e] s1 H1; [|apply keeps_inv_wp; [apply keeps_err|done]|done].
  apply wp_bind. eapply wp_mono; [by apply open_file_inv|].
  intros [[[ofl rc] e]|e] s2 H2; [|done].
  apply wp_bind. unfold free. apply wp_bind. wp_sys_intro. apply wp_ret.
  assert (opened ofl rc (after s2 Lib_free r0 w)) as H3.
  { destruct H2 as [Hn Hp]. split; [intros; by apply inv_calm, Hn|].
    intros Hr. destruct (Hp Hr) as (? & (? & ? & Hb) & Hpe). split; [done|].
    split; [split_and!; [done|done|]|]; simpl; rewrite ?pending_snoc.
    - intros f Hne Hf. rewrite pending_snoc in Hf. by apply Hb.
    - done. }
  apply wp_if; intros Hrc; [apply keeps_inv_wp; [apply keeps_err|apply H3; lia]|].
  apply wp_bind. eapply wp_mono; [apply insert_fd_inv; [lia|done]|].
  intros [h|e'] s4 H4; [|done]. apply keeps_inv_wp; [apply keeps_respond|done].
Qed.

(** ** Closing *)

(** The one way a request loses track of a change: a close whose [fsync]
    failed. *)
Definition close_sync_failed (fd : Z) s s' : Prop :=
  exists evs r evs', trace s' = trace s ++ evs ++ Ev (Sys_fsync fd) r :: evs' /\ sr_ret r < 0.

Lemma keeps_wp {A} (R : relation (proc W proxy_globals)) (m : PM W A) s :
  keeps R m -> wp m (fun _ s' => R s s') s.
Proof. intros Hm. exact (Hm s). Qed.

Lemma grows_respond msg out : keeps grows (@ipc_respond W _ msg out).
Proof. unfold ipc_respond. keeps_go. Qed.

Lemma remove_fd_spec h s :
  0 <= h -> inv s ->
  wp (remove_fd h) (fun o s' => o = Ret (s32 h) /\ trace s' = trace s /\
                      sync_inv_but same_fs (s32 h) s') s.
Proof.
  intros Hh (Ht & Hr & Hp). unfold remove_fd. apply wp_bind. apply wp_if; intros Hlt.
  - assert (s32 h = h) as -> by (apply s32_small; unfold FD_TBL_SIZE in *; wide_lia).
    assert (0 <= h < FD_TBL_SIZE) by lia.
    apply wp_put_fd_state, wp_modify, wp_ret; [done|]. split_and!; [done|done|].
    split_and!; [by apply table_ok_set_fd|done|]. intros f Hne Hf.
    unfold sst; simpl. apply tracked_set_fd_ne; [done..|]. by apply Hp.
  - apply wp_ret, wp_ret. split_and!; [done|done|]. split_and!; [done|done|]. auto.
Qed.

Lemma close_inv msg r n s :
  Forall is_u8 r -> inv s ->
  wp (storage_file_close msg r n)
     (fun _ s' => inv s' \/ close_sync_failed (s32 (req_handle r)) s s') s.
Proof.
  intros Hr Hinv. unfold storage_file_close. apply wp_if; intros _.
  { eapply wp_mono; [apply keeps_inv_wp; [apply keeps_err|done]|auto]. }
  apply wp_bind. eapply wp_mono; [apply remove_fd_spec; [|done]|].
  { apply (get_u32_range r 0 Hr). }
  intros o s1 (-> & Htr & Hbut). set (fd := s32 (req_handle r)) in *.
  apply wp_bind. wp_sys_intro. apply wp_if; intros Hret.
  - apply wp_bind, wp_get_errno. eapply wp_mono; [apply keeps_wp, grows_respond|].
    intros o s2 [evs He]. right. exists [], r0, evs. rewrite He; simpl.
    rewrite Htr, <- app_assoc. split; [done|lia].
  - assert (inv (after s1 (Sys_fsync fd) r0 w)) as H2.
    { destruct Hbut as (? & ? & Hp). split_and!; [done|done|]. intros f Hf. simpl in Hf.
      apply fsync_pending in Hf as [? ?]; [|lia]. by apply Hp. }
    eapply (wp_mono _ (fun _ s' => inv s')); [|auto].
    apply keeps_inv_wp; [keeps_go|done].
Qed.

(** ** All requests *)

Lemma dispatch_inv bits msg r n s :
  Forall is_u8 r -> inv s ->
  wp (dispatch fuel bits msg r n) (fun _ s' => inv s' \/
    (cmd msg = STORAGE_FILE_CLOSE /\ close_sync_failed (s32 (req_handle r)) s s')) s.
Proof.
  intros Hr Hinv. unfold dispatch.
  destruct (Z.eqb_spec (cmd msg) STORAGE_FILE_CLOSE) as [Hc|Hc].
  { rewrite Hc. simpl. eapply wp_mono; [by apply close_inv|]. intros o s' [?|?]; auto. }
  eapply (wp_mono _ (fun _ s' => inv s')); [|auto].
  repeat (apply wp_if; intros _;
    [first [by apply write_inv | by apply set_size_inv | by apply open_inv
           | by apply keeps_inv_wp; [eauto using keeps_delete, keeps_get_size, keeps_read,
               keeps_notify, keeps_rpmb_send|]]|]).
  by apply wp_ret.
Qed.

Lemma grows_sync_fds k fd : keeps grows (@sync_fds W _ k fd).
Proof. revert fd; induction k; intros; simpl; unfold read_fd_state, put_fd_state, st; keeps_go. Qed.

Lemma grows_pre_commit msg :
  keeps grows (if has_flag (flags msg) STORAGE_MSG_FLAG_PRE_COMMIT
               then @storage_sync_checkpoint W _ else mret 0).
Proof.
  pose proof grows_sync_fds.
  unfold storage_sync_checkpoint, sync_dir, sync_fs, sync_roots, sync_root, st, upd. keeps_go.
Qed.

Lemma keeps_pre_commit msg :
  keeps (stable inv) (if has_flag (flags msg) STORAGE_MSG_FLAG_PRE_COMMIT
                      then storage_sync_checkpoint else mret 0).
Proof. destruct (has_flag _ _); [|keeps_go]. intros s Hs. apply (checkpoint_spec same_fs s Hs). Qed.

Lemma handle_req_inv bits msg r n s :
  Forall is_u8 r -> inv s ->
  wp (handle_req fuel bits msg r n) (fun _ s' => inv s' \/
    (cmd msg = STORAGE_FILE_CLOSE /\ close_sync_failed (s32 (req_handle r)) s s')) s.
Proof.
  intros Hr Hinv. unfold handle_req. apply wp_if; intros _.
  { eapply wp_mono; [apply keeps_inv_wp; [apply keeps_respond|done]|auto]. }
  apply wp_bind.
  eapply (wp_mono _ (fun o s' => inv s' /\ grows s s')).
  { exact (conj (keeps_pre_commit msg s Hinv) (grows_pre_commit msg s)). }
  intros [rc|e] s1 [H1 [evs He]]; [|auto]. apply wp_if; intros _.
  { eapply wp_mono; [apply keeps_inv_wp; [apply keeps_respond|done]|auto]. }
  apply wp_bind. eapply wp_mono; [by apply dispatch_inv|].
  intros [[rc' m']|e] s2 H2.
  - destruct H2 as [H2|[Hc Hf]].
    + eapply (wp_mono _ (fun _ s' => inv s')); [|auto]. apply keeps_inv_wp; [|done]. keeps_go.
    + eapply (wp_mono _ (fun _ s' => grows s2 s')).
      * apply keeps_wp. pose proof grows_respond. keeps_go.
      * intros o s3 [evs3 H3]. right. split; [done|].
        destruct Hf as (e1 & r1 & e2 & Hf & Hr1).
        exists (evs ++ e1), r1, (e2 ++ evs3). split; [|done].
        by rewrite H3, Hf, He, <- !app_assoc.
  - destruct H2 as [H2|[Hc Hf]]; [auto|]. right. split; [done|].
    destruct Hf as (e1 & r1 & e2 & Hf & Hr1). exists (evs ++ e1), r1, e2. split; [|done].
    by rewrite Hf, He, <- !app_assoc.
Qed.

(** ** Histories that keep track of changes *)

(** States after any requests from one in which nothing was pending and every
    file was on the file system of an open root, but for a close whose [fsync]
    failed. *)
Inductive marks_kept (bits : Z) : proc W proxy_globals -> Prop :=
| mk_start s : table_ok (sst s) -> roots_cover same_fs (sst s) ->
    (forall fd, pend (trace s) fd = false) -> marks_kept bits s
| mk_request s msg r n : marks_kept bits s -> Forall is_u8 r ->
    ~ (cmd msg = STORAGE_FILE_CLOSE /\
       close_sync_failed (s32 (req_handle r)) s (handle_req fuel bits msg r n s).2) ->
    marks_kept bits (handle_req fuel bits msg r n s).2.

Lemma marks_kept_inv bits s : marks_kept bits s -> inv s.
Proof.
  induction 1 as [s Ht Hr Hp|s msg r n _ IH Hu Hc]; [split_and!; [done|done|]; intros fd Hfd; by rewrite Hp in Hfd|].
  by destruct (handle_req_inv bits msg r n s Hu IH).
Qed.
End Requests.
