(* ===== verification/ProxyAnswers.v ===== *)
(** * One request, one answer

    Every handler sends exactly one frame, the answer to the request it was
    given, and with enough fuel every handler returns.  [echoes] relates the
    header of an answer to the request; [total] is the termination
    predicate. *)

From S2P Require Import Prelude Kernel StorageProto Libtrusty ProxyState Ipc Storage Rpmb Proxy.

(** Everything but the result code is the request's. *)
Definition echoes (msg m' : storage_msg) : Prop :=
  cmd m' = cmd msg /\ op_id m' = op_id msg /\ flags m' = flags msg /\ size m' = size msg /\
  msg_reserved m' = msg_reserved msg.

Lemma echoes_refl msg : echoes msg msg.
Proof. by repeat split. Qed.

Lemma echoes_result e msg : echoes msg (set_result e msg).
Proof. by repeat split. Qed.

(** ** Exactly one frame *)

Section Answers.
Context {W : Type} `{K : Kernel W} (fuel : nat).
Implicit Types s : proc W proxy_globals.
Abbreviation silent := (keeps (@quiet_step W)).

Lemma silent_upd f : silent (upd f).
Proof. apply silent_storage. Qed.
#[local] Hint Resolve silent_upd : keeps.
#[local] Hint Unfold st : keeps.

Lemma silent_insert_fd fl fd : silent (insert_fd fl fd).
Proof. unfold insert_fd, put_fd_state. keeps_go. Qed.
Lemma silent_lookup_fd h d : silent (lookup_fd h d).
Proof. unfold lookup_fd, put_fd_state. keeps_go. Qed.
Lemma silent_remove_fd h : silent (remove_fd h).
Proof. unfold remove_fd, put_fd_state. keeps_go. Qed.
Lemma silent_write n fd buf off : silent (write_with_retry fuel n fd buf off).
Proof. revert buf off; induction n; intros; simpl; unfold off_add; keeps_go. Qed.
Lemma silent_read n fd cap buf sz off pos : silent (read_with_retry fuel n fd cap buf sz off pos).
Proof. revert buf sz off pos; induction n; intros; simpl; unfold off_add; keeps_go. Qed.
Lemma silent_open_path fl name : silent (open_path fl name).
Proof. unfold open_path, prepare_floder, free_opt, st. keeps_go. Qed.
Lemma silent_open_file fl p : silent (open_file fuel fl p).
Proof. unfold open_file. keeps_go. Qed.
Lemma silent_sync_fds k fd : silent (sync_fds k fd).
Proof. revert fd; induction k; intros; simpl; unfold read_fd_state, put_fd_state, st; keeps_go. Qed.
Lemma silent_print_request req r : silent (print_request req r).
Proof. unfold print_request, print_buf. keeps_go. Qed.
#[local] Hint Resolve silent_print_request silent_insert_fd silent_lookup_fd silent_remove_fd silent_write silent_read
  silent_open_path silent_open_file silent_sync_fds : keeps.

Lemma silent_sync_roots call :
  (forall fd, is_writev (call fd) = false) -> silent (sync_roots call).
Proof. intros. unfold sync_roots, sync_root, st. keeps_go; by apply silent_sys. Qed.

Lemma silent_checkpoint : silent storage_sync_checkpoint.
Proof.
  unfold storage_sync_checkpoint, sync_dir, sync_fs, st.
  keeps_go; by apply silent_sync_roots.
Qed.
#[local] Hint Resolve silent_checkpoint : keeps.

Definition answers_echo msg (m : PM W (Z * storage_msg)) : Prop :=
  answers m (fun m' _ => echoes msg m').

Lemma err_response_answers e msg : answers_echo msg (err_response e msg).
Proof. apply answers_respond, echoes_result. Qed.

Ltac echo := unfold answers_echo, err_response, st; answers_go; try apply echoes_result.

Lemma delete_answers msg r n : answers_echo msg (storage_file_delete msg r n).
Proof. unfold storage_file_delete. echo. Qed.
Lemma open_answers msg r n : answers_echo msg (storage_file_open fuel msg r n).
Proof. unfold storage_file_open. echo. Qed.
Lemma close_answers msg r n : answers_echo msg (storage_file_close msg r n).
Proof. unfold storage_file_close. echo. Qed.
Lemma write_answers msg r n : answers_echo msg (storage_file_write fuel msg r n).
Proof. unfold storage_file_write. echo. Qed.
Lemma read_answers msg r n : answers_echo msg (storage_file_read fuel msg r n).
Proof. unfold storage_file_read. echo. Qed.
Lemma get_size_answers msg r n : answers_echo msg (storage_file_get_size msg r n).
Proof. unfold storage_file_get_size. echo. Qed.
Lemma set_size_answers msg r n : answers_echo msg (storage_file_set_size fuel msg r n).
Proof. unfold storage_file_set_size. echo. Qed.
Lemma rpmb_answers bits msg r n : answers_echo msg (rpmb_send bits msg r n).
Proof. unfold rpmb_send. echo. Qed.
Lemma notify_answers p msg n : answers_echo msg (notify_init p msg n).
Proof. unfold notify_init. echo. Qed.

(** What [handle_req] does after the switch. *)
Definition finish (x : Z * storage_msg) : PM W (Z * storage_msg) :=
  let '(rc, msg) := x in if 0 <? rc then ipc_respond msg None else mret (rc, msg).

Lemma answers_finish msg m : answers_echo msg m -> answers_echo msg (m ≫= finish).
Proof.
  intros Hm s Hs. apply wp_bind. eapply wp_mono; [by apply Hm|].
  intros [[rc m']|e] s' [Hi Ho]; [|done]. simpl.
  destruct Ho as (Hrc & Ho). replace (0 <? rc) with false by lia. by apply wp_ret.
Qed.

Lemma dispatch_answers bits msg r n : answers_echo msg (dispatch fuel bits msg r n ≫= finish).
Proof.
  unfold dispatch.
  repeat match goal with
    | |- answers_echo _ ((if ?b then ?m1 else ?m2) ≫= _) => destruct b;
        [apply answers_finish; eauto using delete_answers, open_answers, close_answers,
           write_answers, read_answers, get_size_answers, set_size_answers, rpmb_answers,
           notify_answers|]
    end.
  apply (answers_respond (set_result STORAGE_ERR_UNIMPLEMENTED msg) None), echoes_result.
Qed.

Lemma handle_req_answers bits msg r n : answers_echo msg (handle_req fuel bits msg r n).
Proof.
  unfold handle_req. apply answers_if; intros _.
  { apply answers_respond, echoes_result. }
  apply answers_bind; [keeps_go|]. intros rc. apply answers_if; intros _.
  { apply answers_respond, echoes_result. }
  apply (dispatch_answers bits msg r n).
Qed.
End Answers.

(** ** Termination *)

Section Total.
Context {W : Type} `{K : Kernel W} `{KS : !KernelSignals W} `{KB : !KernelBounds W}.
Context (fuel : nat).
Implicit Types s : proc W proxy_globals.

(** The channel is open and the retry loops have more fuel than there are
    signals left. *)
Definition ready s : Prop :=
  0 <= tipc_fd (g_ipc (globals s)) /\ (sig_left (world s) < fuel)%nat.

Definition total {A} (m : PM W A) : Prop :=
  forall s, ready s -> wp m (fun o s' => (exists a, o = Ret a) /\ ready s') s.

Lemma total_ret {A} (a : A) : total (mret a).
Proof. intros s Hs. apply wp_ret. eauto. Qed.

Lemma total_bind {A B} (m : PM W A) (f : A -> PM W B) :
  total m -> (forall a, total (f a)) -> total (m ≫= f).
Proof.
  intros Hm Hf s Hs. apply wp_bind. eapply wp_mono; [by apply Hm|].
  intros o s' [[a ->] H]. by apply Hf.
Qed.

(** [m] returns a value that satisfies [P]. *)
Definition total_with {A} (m : PM W A) (P : A -> Prop) : Prop :=
  forall s, ready s -> wp m (fun o s' => (exists a, o = Ret a /\ P a) /\ ready s') s.

Lemma total_with_bind {A B} (P : A -> Prop) (m : PM W A) (f : A -> PM W B) (Q : B -> Prop) :
  total_with m P -> (forall a, P a -> total_with (f a) Q) -> total_with (m ≫= f) Q.
Proof.
  intros Hm Hf s Hs. apply wp_bind. eapply wp_mono; [by apply Hm|].
  intros o s' [(a & -> & Ha) H]. by apply Hf.
Qed.

Lemma total_bind_with {A B} (P : A -> Prop) (m : PM W A) (f : A -> PM W B) :
  total_with m P -> (forall a, P a -> total (f a)) -> total (m ≫= f).
Proof.
  intros Hm Hf s Hs. apply wp_bind. eapply wp_mono; [by apply Hm|].
  intros o s' [(a & -> & Ha) H]. by apply Hf.
Qed.

Lemma total_with_ret {A} (a : A) (P : A -> Prop) : P a -> total_with (mret a) P.
Proof. intros Ha s Hs. apply wp_ret. eauto. Qed.
Lemma total_with_any {A} (m : PM W A) : total m -> total_with m (fun _ => True).
Proof. intros Hm s Hs. eapply wp_mono; [by apply Hm|]. intros o s' [[a ->] ?]. eauto. Qed.

Lemma total_gets {A} (f : proxy_globals -> A) : total (gets f).
Proof. intros s Hs. apply wp_gets. eauto. Qed.
Lemma total_get_errno : total get_errno.
Proof. intros s Hs. apply wp_get_errno. eauto. Qed.

Lemma ready_after s c r w : ready s -> kcall c (world s) = (r, w) -> ready (after s c r w).
Proof.
  intros [? ?] Hk. split; [done|]. simpl.
  pose proof (sig_mono c (world s)) as Hm. rewrite Hk in Hm; simpl in Hm. lia.
Qed.

Lemma total_sys c : total (sys c).
Proof. intros s Hs. wp_sys_intro. eauto using ready_after. Qed.

Lemma total_modify f : (forall g, g_ipc (f g) = g_ipc g) -> total (modify f).
Proof.
  intros Hf s [? ?]. apply wp_modify. split; [eauto|]. split; simpl; [by rewrite Hf|done].
Qed.

(** The retry loop returns an answer of the kernel to its call. *)
Lemma retry_total c (Q : sysret -> Prop) :
  (forall w, Q (kcall c w).1) -> total_with (retry fuel c) Q.
Proof.
  intros HQ s [Hi Hf]. destruct (retry_returns fuel c s Hf)
    as (w0 & r & w & Hk & _ & Hle & Hle' & H1 & H2 & H3 & _).
  unfold wp. rewrite H1. split.
  - exists r. split; [done|]. specialize (HQ w0). by rewrite Hk in HQ.
  - split; [by rewrite H3|]. rewrite H2. lia.
Qed.

Lemma total_retry c : total (retry fuel c).
Proof.
  intros s Hs. eapply wp_mono; [by apply (retry_total c (fun _ => True))|].
  intros o s' [(r & -> & _) H]. eauto.
Qed.

(** Each iteration writes at least one byte. *)
Lemma total_write n fd buf off :
  (zlen buf < Z.of_nat n) -> off < 2 ^ 63 -> total (write_with_retry fuel n fd buf off).
Proof.
  revert buf off; induction n as [|n IH]; intros buf off Hn Hoff s Hs;
    [pose proof (zlen_nonneg buf); lia|]. simpl.
  apply wp_if; intros Hz; [by apply total_ret|]. apply wp_bind.
  eapply wp_mono; [apply (retry_total _ (fun r => sr_ret r <= zlen buf /\ sr_ret r <> 0 /\ off + sr_ret r < 2 ^ 63)); [|done]|].
  { intros w. pose proof (kb_pwrite fd buf off w) as [H1 H2]. split; [done|].
    split; [apply H2; intros ->; done|by apply kb_pwrite_end]. }
  intros o s' [(r & -> & Hle & Hne & Hend) H]. apply wp_if; intros Hr; [by apply total_ret|].
  apply wp_bind, wp_off_add; [done|]. apply IH; [|done|done]. unfold zlen in *. rewrite length_drop. lia.
Qed.

Lemma total_read n fd cap buf sz off pos :
  0 <= sz < Z.of_nat n -> off < 2 ^ 63 -> pos + sz <= cap ->
  total (read_with_retry fuel n fd cap buf sz off pos).
Proof.
  revert buf sz off pos; induction n as [|n IH]; intros buf sz off pos Hn Hoff Hcap s Hs; [lia|]. simpl.
  apply wp_if; intros Hz; [by apply total_ret|]. apply wp_bind.
  eapply wp_mono; [apply (retry_total _ (fun r => sr_ret r <= sz /\ off + sr_ret r < 2 ^ 63)); [|done]|].
  { intros w. split; [apply (kb_pread fd sz off w); lia|by apply kb_pread_end]. }
  intros o s' [(r & -> & Hle & Hend) H]. apply wp_if; intros Hr; [by apply total_ret|].
  apply wp_if; intros Hr0; [by apply total_ret|]. apply wp_if; intros Hc; [lia|].
  apply wp_bind, wp_off_add; [done|]. apply IH; [lia|done|lia|done].
Qed.

Lemma total_upd f : total (upd f).
Proof. by apply total_modify. Qed.
Lemma total_on_rpmb f : total (modify (on_rpmb f)).
Proof. by apply total_modify. Qed.

Lemma total_respond msg out : total (ipc_respond msg out).
Proof.
  intros s Hs. unfold ipc_respond. apply wp_bind, wp_gets, wp_bind.
  apply wp_assert; intros Hb; [|destruct Hs; lia].
  apply wp_bind. wp_sys_intro. pose proof (ready_after _ _ _ _ Hs Hk).
  apply wp_if; intros _; by apply total_ret.
Qed.
End Total.

Create HintDb total.
#[export] Hint Resolve total_ret total_gets total_get_errno total_sys total_retry total_upd
  total_on_rpmb total_respond : total.
Ltac total_step :=
  lazymatch goal with
  | |- total _ (_ ≫= _) => apply total_bind; [|intros]
  | |- total _ (match ?x with _ => _ end) => destruct x eqn:?
  end.
Ltac total_go := repeat first [ total_step | solve [eauto with total] ].

(** ** The debug output of an RPMB request *)

Section PrintRequest.
Context {W : Type} `{K : Kernel W} (r : bytes) (n : Z) (Hbytes : Forall is_u8 r) (Hn : n <= zlen r).

(** With a 64-bit [size_t] an accepted length covers both regions. *)
Lemma expected_len_covers :
  n = expected_len 64 (rpmb_req_dec r) ->
  sizeof_rpmb_req + reliable_write_size (rpmb_req_dec r) + write_size (rpmb_req_dec r) = n.
Proof.
  pose proof (get_u32_range r 0 Hbytes) as H1. pose proof (get_u32_range r 4 Hbytes) as H2.
  intros ->. unfold expected_len, rpmb_req_dec, sizeof_rpmb_req; cbn [reliable_write_size write_size].
  rewrite Z.mod_small; [done|]. change (2 ^ 64) with 18446744073709551616. wide_lia.
Qed.

(** Printing an accepted request reads inside the request buffer. *)
Lemma print_buf_returns off size (s : proc W proxy_globals) :
  0 <= off -> 0 <= size -> off + size <= zlen r -> print_buf (drop (Z.to_nat off) r) size s = (Ret tt, s).
Proof.
  intros Ho Hs Hl. unfold print_buf.
  replace (zlen (drop (Z.to_nat off) r) <? size) with false; [done|].
  symmetry. apply Z.ltb_ge. unfold zlen in *. rewrite length_drop. lia.
Qed.

Lemma print_request_returns (s : proc W proxy_globals) :
  n = expected_len 64 (rpmb_req_dec r) -> print_request (rpmb_req_dec r) r s = (Ret tt, s).
Proof.
  intros Hlen%expected_len_covers. pose proof (get_u32_range r 0 Hbytes) as H1. pose proof (get_u32_range r 4 Hbytes) as H2.
  unfold rpmb_req_dec, sizeof_rpmb_req, is_u32 in *; cbn [reliable_write_size write_size] in *.
  unfold print_request, sizeof_rpmb_req; cbn [reliable_write_size write_size]. case_match; [done|].
  unfold mbind, M_bind. destruct (negb (get_u32 r 0 =? 0)); [rewrite print_buf_returns by lia|]; simpl;
    destruct (negb (get_u32 r 4 =? 0) && _); try done; by rewrite print_buf_returns by lia.
Qed.

End PrintRequest.

Section TotalHandlers.
Context {W : Type} `{K : Kernel W} `{KS : !KernelSignals W} `{KB : !KernelBounds W}.
Context (fuel : nat).
Abbreviation total := (@total W K KS fuel).

Ltac fn f := unfold f; unfold err_response, st, free, asprintf, malloc; total_go.

Lemma total_put_fd_state i v : 0 <= i < FD_TBL_SIZE -> total (put_fd_state i v).
Proof. intros Hi s Hs. apply wp_put_fd_state; [done|]. by apply total_upd. Qed.
Lemma total_read_fd_state i : 0 <= i < FD_TBL_SIZE -> total (read_fd_state i).
Proof. intros Hi s Hs. apply wp_read_fd_state; [done|]. eauto. Qed.

Lemma total_insert_fd fl fd : 0 <= fd < 2 ^ 31 -> total (insert_fd fl fd).
Proof.
  intros Hfd. unfold insert_fd. rewrite u32_small by wide_lia.
  assert (fd < FD_TBL_SIZE -> forall v, total (put_fd_state fd v)) as Hput
    by (intros; apply total_put_fd_state; lia).
  total_go; apply Hput; lia.
Qed.
Lemma total_lookup_fd h d : 0 <= h -> total (lookup_fd h d).
Proof. intros Hh. fn @lookup_fd. apply total_put_fd_state. lia. Qed.
Lemma total_remove_fd h : 0 <= h -> total (remove_fd h).
Proof. intros Hh. fn @remove_fd. apply total_put_fd_state. lia. Qed.
Lemma total_open_path fl name : total (open_path fl name).
Proof. unfold open_path, prepare_floder, free_opt, st, free, asprintf, malloc. total_go. Qed.
(** A descriptor that was opened is an [int]. *)
Lemma total_open_file fl p : total_with fuel (open_file fuel fl p) (fun x => x.1.2 < 2 ^ 31).
Proof.
  assert (forall f k, (forall r e, sr_ret r < 2 ^ 31 -> total_with fuel (k r e) (fun x : Z * Z * Z => x.1.2 < 2 ^ 31)) ->
    total_with fuel (r ← retry fuel (Sys_open p f open_mode); e ← get_errno; k r e) (fun x => x.1.2 < 2 ^ 31)) as Ho.
  { intros f k Hk. eapply total_with_bind; [apply (retry_total _ _ (fun r => sr_ret r < 2 ^ 31)); intros w; apply kb_open|].
    intros r Hr. eapply total_with_bind; [apply total_with_any, total_get_errno|]. intros e _. by apply Hk. }
  unfold open_file. repeat case_match; apply Ho; intros r e Hr; repeat case_match; try by apply total_with_ret.
  all: apply Ho; intros r' e' Hr'; by apply total_with_ret.
Qed.
Lemma total_sync_fds k fd : 0 <= fd -> fd + Z.of_nat k <= FD_TBL_SIZE -> total (sync_fds k fd).
Proof.
  revert fd; induction k as [|k IH]; intros fd Hfd Hk; simpl; [apply total_ret|].
  assert (0 <= fd < FD_TBL_SIZE) as Hr by lia.
  pose proof (total_read_fd_state fd Hr). pose proof (total_put_fd_state fd SS_CLEAN Hr).
  assert (total (sync_fds k (fd + 1))) by (apply IH; lia). unfold st. total_go.
Qed.
#[local] Hint Resolve total_open_path : total.

Lemma total_checkpoint : total storage_sync_checkpoint.
Proof.
  pose proof (total_sync_fds (Z.to_nat FD_TBL_SIZE) 0 ltac:(done) ltac:(done)).
  unfold storage_sync_checkpoint, sync_dir, sync_fs, sync_roots, sync_root, st. total_go.
Qed.

(** The file name of a request is terminated inside the buffer. *)
Definition named (r : bytes) : Prop := strlen (drop (Z.to_nat sizeof_name_req) r) <> None.

Context (msg : storage_msg) (r : bytes) (n : Z).
Context (Hname : named r) (Hbytes : Forall is_u8 r) (Hn : n <= zlen r)
  (Hfuel : zlen r < Z.of_nat fuel) (Hread : MAX_READ_SIZE < Z.of_nat fuel).

Lemma total_delete : total (storage_file_delete msg r n).
Proof. fn @storage_file_delete. exfalso. by apply Hname. Qed.
Lemma total_open : total (storage_file_open fuel msg r n).
Proof.
  unfold storage_file_open, err_response. case_match; [apply total_respond|].
  destruct (strlen _) eqn:E; [|by destruct Hname]. case_match; [apply total_respond|].
  apply total_bind; [apply total_open_path|]. intros [p|]; [|apply total_respond].
  eapply total_bind_with; [apply total_open_file|]. intros [[ofl rc] e] Hrc. simpl in Hrc.
  unfold free. total_go. apply total_insert_fd. lia.
Qed.
Lemma total_close : total (storage_file_close msg r n).
Proof. fn @storage_file_close. apply total_remove_fd, (get_u32_range r 0 Hbytes). Qed.
Lemma total_get_size : total (storage_file_get_size msg r n).
Proof. fn @storage_file_get_size. apply total_lookup_fd, (get_u32_range r 0 Hbytes). Qed.
Lemma total_set_size : total (storage_file_set_size fuel msg r n).
Proof. fn @storage_file_set_size. apply total_lookup_fd, (get_u32_range r 8 Hbytes). Qed.
Lemma total_notify p : total (notify_init p msg n).
Proof. fn @notify_init. Qed.

(** The read command of an accepted request stays inside [read_buf]. *)
Lemma read_size_fits req cmds : rpmb_commands req r = Some cmds -> (sizeof_read_buf <? read_size req) = true -> read_size req = 0.
Proof.
  unfold rpmb_commands. destruct (Z.eqb_spec (read_size req) 0); [done|]. intros Hc Hs. simpl in Hc. rewrite Hs, orb_true_r in Hc.
  simplify_option_eq.
Qed.

Lemma total_rpmb : total (rpmb_send 64 msg r n).
Proof.
  fn @rpmb_send; [intros s Hs; unfold wp; rewrite (print_request_returns r n) by (done || lia); eauto|].
  match goal with H : rpmb_commands _ _ = Some _ |- _ => pose proof (read_size_fits _ _ H) end. exfalso. lia.
Qed.

Lemma total_file_write : total (storage_file_write fuel msg r n).
Proof.
  fn @storage_file_write; [apply total_lookup_fd, (get_u32_range r 8 Hbytes)|]. apply total_write; [|wide_lia].
  unfold sizeof_write_req in *. rewrite zlen_slice; lia.
Qed.

Lemma total_file_read : total (storage_file_read fuel msg r n).
Proof.
  pose proof (get_u32_range r 0 Hbytes) as Hh.
  pose proof (get_u32_range r 4 Hbytes) as Hr. unfold is_u32 in *.
  fn @storage_file_read; [apply total_lookup_fd, Hh|]. unfold read_req_dec in *; simpl in *.
  apply total_read; [lia|wide_lia|lia].
Qed.

Lemma total_handle_req : total (handle_req fuel 64 msg r n).
Proof.
  unfold handle_req, dispatch, storage_init_ok, storage_init_proinfo_ok, storage_init_persist_ok.
  total_go; eauto using total_checkpoint, total_delete, total_open, total_close,
    total_file_write, total_file_read, total_get_size, total_set_size, total_rpmb, total_notify.
Qed.
End TotalHandlers.
