(* ===== verification/ProxyLoop.v ===== *)
(** * The message loop

    The request buffer invariant, what [ipc_get_msg] accepts, and the protocol
    of the loop: the frames it sends answer the requests it accepted, one each
    and in order. *)

From S2P Require Import Prelude Kernel StorageProto Libtrusty ProxyState Ipc Storage Rpmb Proxy ProxyAnswers.

(** ** Requests accepted by a trace *)

(** The bytes of an incoming message form a complete message: a whole header
    whose size field is the length received. *)
Definition complete (data : bytes) : bool :=
  (sizeof_storage_msg <=? zlen data) && (size (storage_msg_dec data) =? u32 (zlen data)).

Fixpoint accepted (tr : list event) : list storage_msg :=
  match tr with
  | [] => []
  | Ev (Sys_readv _ _) r :: tr' =>
      if (0 <=? sr_ret r) && complete (sr_data r)
      then storage_msg_dec (sr_data r) :: accepted tr' else accepted tr'
  | _ :: tr' => accepted tr'
  end.

(** The request does not belong to a batch. *)
Definition unbatched (m : storage_msg) : Prop := has_flag (flags m) STORAGE_MSG_FLAG_BATCH = false.

Lemma accepted_app tr tr' : accepted (tr ++ tr') = accepted tr ++ accepted tr'.
Proof.
  induction tr as [|[[] r] tr IH]; simpl; rewrite ?IH; try done.
  by destruct (_ && complete _).
Qed.

(** [(fd, frame)] answers request [m] on channel [fd]. *)
Definition reply (fd : Z) (m : storage_msg) (f : Z * list bytes) : Prop :=
  exists m' out, echoes m m' /\ f = (fd, answer m' out).

Lemma dec_prefix b : 24 <= zlen b -> storage_msg_dec (slice 0 24 b) = storage_msg_dec b.
Proof.
  intros. unfold storage_msg_dec, get_s32, get_u32. by rewrite !slice_slice by lia.
Qed.

Lemma splice_whole buf data : zlen data = zlen buf -> splice buf 0 data = data.
Proof.
  unfold splice, zlen. intros. rewrite drop_ge by (simpl; lia). simpl. by rewrite app_nil_r.
Qed.

Section Loop.
Context {W : Type} `{K : Kernel W}.
Implicit Types s : proc W proxy_globals.

(** ** Programs that receive nothing *)

Definition unread s s' : Prop := accepted (trace s') = accepted (trace s).

#[export] Instance unread_preorder : PreOrder unread.
Proof. split; unfold unread; [done|]. intros ??? ->. done. Qed.

Definition is_readv (c : syscall) : bool :=
  match c with Sys_readv _ _ => true | _ => false end.

Lemma unread_after c : is_readv c = false -> forall s r w, unread s (after s c r w).
Proof.
  intros Hc s r w. unfold unread; simpl. rewrite accepted_app.
  replace (accepted [Ev c r]) with (@nil storage_msg) by (by destruct c). apply app_nil_r.
Qed.

Lemma unread_sys c : is_readv c = false -> keeps unread (sys c).
Proof. intros. by apply keeps_sys, unread_after. Qed.
Lemma unread_retry n c : is_readv c = false -> keeps unread (retry n c).
Proof. intros. apply keeps_retry; [typeclasses eauto|]. by apply unread_after. Qed.
Lemma unread_modify f : keeps unread (modify f).
Proof. by apply keeps_modify. Qed.

#[local] Hint Extern 1 (keeps unread (sys _)) => apply unread_sys; reflexivity : keeps.
#[local] Hint Extern 1 (keeps unread (retry _ _)) => apply unread_retry; reflexivity : keeps.
#[local] Hint Resolve unread_modify : keeps.

Ltac fn := unfold err_response, ipc_respond, insert_fd, lookup_fd, remove_fd, put_fd_state, open_path,
  prepare_floder, free_opt, open_file, st, upd, free, asprintf, malloc; keeps_go.

Lemma unread_write fuel n fd buf off : keeps unread (write_with_retry fuel n fd buf off).
Proof. revert buf off; induction n; intros; simpl; unfold off_add; keeps_go. Qed.
Lemma unread_read fuel n fd cap buf sz off pos :
  keeps unread (read_with_retry fuel n fd cap buf sz off pos).
Proof. revert buf sz off pos; induction n; intros; simpl; unfold off_add; keeps_go. Qed.
Lemma unread_sync_fds k fd : keeps unread (sync_fds k fd).
Proof. revert fd; induction k; intros; simpl; unfold read_fd_state, put_fd_state, st, upd; keeps_go. Qed.
#[local] Hint Resolve unread_write unread_read unread_sync_fds : keeps.

Lemma unread_checkpoint : keeps unread storage_sync_checkpoint.
Proof. unfold storage_sync_checkpoint, sync_dir, sync_fs, sync_roots, sync_root. fn. Qed.
#[local] Hint Resolve unread_checkpoint : keeps.

Lemma unread_handle_req fuel bits msg r n : keeps unread (handle_req fuel bits msg r n).
Proof.
  unfold handle_req, dispatch, storage_file_delete, storage_file_open, storage_file_close,
    storage_file_write, storage_file_read, storage_file_get_size, storage_file_set_size,
    rpmb_send, print_request, print_buf, storage_init_ok, storage_init_proinfo_ok, storage_init_persist_ok, notify_init.
  fn.
Qed.

(** The request buffer is only written by the loop itself. *)
Definition same_buf s s' : Prop := g_proxy (globals s') = g_proxy (globals s).
#[export] Instance same_buf_preorder : PreOrder same_buf.
Proof. split; unfold same_buf; [done|]. intros ??? ->. done. Qed.

Lemma same_buf_sys c : keeps same_buf (sys c).
Proof. by apply keeps_sys. Qed.
Lemma same_buf_retry n c : keeps same_buf (retry n c).
Proof. by apply keeps_retry; [typeclasses eauto|]. Qed.
Lemma same_buf_storage f : keeps same_buf (modify (on_storage f)).
Proof. by apply keeps_modify. Qed.
Lemma same_buf_rpmb f : keeps same_buf (modify (on_rpmb f)).
Proof. by apply keeps_modify. Qed.
#[local] Hint Resolve same_buf_sys same_buf_retry same_buf_storage same_buf_rpmb : keeps.

Lemma same_buf_write fuel n fd buf off : keeps same_buf (write_with_retry fuel n fd buf off).
Proof. revert buf off; induction n; intros; simpl; unfold off_add; keeps_go. Qed.
Lemma same_buf_read fuel n fd cap buf sz off pos :
  keeps same_buf (read_with_retry fuel n fd cap buf sz off pos).
Proof. revert buf sz off pos; induction n; intros; simpl; unfold off_add; keeps_go. Qed.
Lemma same_buf_sync_fds k fd : keeps same_buf (sync_fds k fd).
Proof. revert fd; induction k; intros; simpl; unfold read_fd_state, put_fd_state, st, upd; keeps_go. Qed.
#[local] Hint Resolve same_buf_write same_buf_read same_buf_sync_fds : keeps.
Lemma same_buf_checkpoint : keeps same_buf storage_sync_checkpoint.
Proof. unfold storage_sync_checkpoint, sync_dir, sync_fs, sync_roots, sync_root. fn. Qed.
#[local] Hint Resolve same_buf_checkpoint : keeps.
Lemma same_buf_handle_req fuel bits msg r n : keeps same_buf (handle_req fuel bits msg r n).
Proof.
  unfold handle_req, dispatch, storage_file_delete, storage_file_open, storage_file_close,
    storage_file_write, storage_file_read, storage_file_get_size, storage_file_set_size,
    rpmb_send, print_request, print_buf, storage_init_ok, storage_init_proinfo_ok, storage_init_persist_ok, notify_init.
  fn.
Qed.
End Loop.

(** ** The request buffer *)

Definition buf_ok (b : bytes) : Prop :=
  zlen b = REQ_BUFFER_SIZE + 1 /\ Forall is_u8 b /\ b !! Z.to_nat REQ_BUFFER_SIZE = Some 0.

Lemma strlen_zero_at b i : b !! i = Some 0 -> strlen b <> None.
Proof.
  intros Hi. apply list_elem_of_split_length in Hi as (l1 & l2 & -> & _).
  destruct (strlen_app_zero l1 l2) as (n & -> & _). done.
Qed.

Lemma buf_ok_named b : buf_ok b -> named b.
Proof.
  intros (_ & _ & Hz). apply (strlen_zero_at _ (Z.to_nat REQ_BUFFER_SIZE - 4)).
  rewrite lookup_drop. exact Hz.
Qed.

Lemma buf_ok_init : buf_ok (req_buffer (g_proxy proxy_globals0)).
Proof.
  unfold buf_ok, zlen, proxy_globals0, proxy_st0; cbn [g_proxy req_buffer].
  rewrite length_replicate. split; [unfold REQ_BUFFER_SIZE; lia|]. split.
  - apply Forall_replicate. wide_lia.
  - apply lookup_replicate_2. unfold REQ_BUFFER_SIZE; lia.
Qed.

Lemma buf_ok_splice b data :
  buf_ok b -> zlen data <= REQ_BUFFER_SIZE -> Forall is_u8 data -> buf_ok (splice b 0 data).
Proof.
  intros (Hl & Hb & Hz) Hd Hu. pose proof (zlen_nonneg data).
  unfold buf_ok. split_and!.
  - unfold zlen in *. rewrite length_splice; unfold zlen; lia.
  - unfold splice. simpl. apply Forall_app; split; [done|]. by apply Forall_drop.
  - unfold splice; simpl. unfold zlen in *. rewrite lookup_app_r by lia. rewrite lookup_drop.
    rewrite <- Hz. f_equal. lia.
Qed.

Lemma buf_ok_terminate b i : buf_ok b -> 0 <= i <= REQ_BUFFER_SIZE -> buf_ok (<[Z.to_nat i := 0]> b).
Proof.
  intros (Hl & Hb & Hz) Hi. unfold buf_ok. split_and!.
  - unfold zlen in *. by rewrite length_insert.
  - apply Forall_insert; [done|wide_lia].
  - destruct (decide (i = REQ_BUFFER_SIZE)) as [->|Hne].
    + apply list_lookup_insert_eq. unfold zlen in Hl. lia.
    + rewrite list_lookup_insert_ne by (unfold REQ_BUFFER_SIZE in *; lia). done.
Qed.

(** ** Receiving *)

(** A whole header replaces the old contents of [*msg]. *)
Lemma received_header data msg :
  sizeof_storage_msg <= zlen data ->
  storage_msg_dec (splice (storage_msg_enc msg) 0 (slice 0 sizeof_storage_msg data)) =
  storage_msg_dec data.
Proof.
  intros. rewrite splice_whole.
  - by apply dec_prefix.
  - rewrite zlen_storage_msg_enc. apply zlen_slice; unfold sizeof_storage_msg in *; lia.
Qed.

Section Receive.
Context {W : Type} `{K : Kernel W} `{KB : !KernelBounds W}.
Implicit Types s : proc W proxy_globals.

Definition pbuf s : bytes := req_buffer (g_proxy (globals s)).

(** What one [readv] into header and buffer delivers. *)
Lemma readv_bounds fd w r w' :
  kcall (Sys_readv fd [sizeof_storage_msg; REQ_BUFFER_SIZE]) w = (r, w') ->
  sr_ret r <= sizeof_storage_msg + REQ_BUFFER_SIZE /\
  (0 <= sr_ret r -> zlen (sr_data r) = sr_ret r /\ Forall is_u8 (sr_data r)).
Proof.
  intros Hk. destruct (kb_readv fd [sizeof_storage_msg; REQ_BUFFER_SIZE] w) as [Hle Hd].
  - repeat constructor; unfold sizeof_storage_msg, REQ_BUFFER_SIZE; lia.
  - rewrite Hk in Hle, Hd; simpl in Hle, Hd. split; [lia|done].
Qed.

(** A message is accepted exactly when it is complete; then the header is
    the one received, the payload is in the buffer and its length is
    returned. *)
Lemma ipc_get_msg_spec msg s :
  0 <= tipc_fd (g_ipc (globals s)) -> buf_ok (pbuf s) ->
  wp (ipc_get_msg msg REQ_BUFFER_SIZE) (fun o s' =>
    quiet_step s s' /\ buf_ok (pbuf s') /\ exists c r, trace s' = trace s ++ [Ev c r] /\
    match o with
    | Ret (rc, m) =>
        (rc < 0 /\ accepted [Ev c r] = []) \/
        (0 <= rc <= REQ_BUFFER_SIZE /\ accepted [Ev c r] = [m] /\
         size m = rc + sizeof_storage_msg /\ m = storage_msg_dec (sr_data r) /\
         slice 0 rc (pbuf s') = drop (Z.to_nat sizeof_storage_msg) (sr_data r))
    | Stop _ => False
    end) s.
Proof.
  intros Hfd Hbuf. unfold ipc_get_msg. apply wp_bind, wp_gets, wp_bind.
  apply wp_assert; intros Hb; [|lia]. apply wp_bind. wp_sys_intro.
  destruct (readv_bounds _ _ _ _ Hk) as [Hle Hd].
  assert (forall fd, sent (trace s ++ [Ev (Sys_readv fd [sizeof_storage_msg; REQ_BUFFER_SIZE]) r])
    = sent (trace s)) as Hsent by (intros; rewrite sent_app; apply app_nil_r).
  apply wp_if; intros Hr.
  { apply wp_ret. split_and!; [split; [apply Hsent|done]|done|]. eexists _, r. split; [done|]. left.
    split; [lia|]. simpl. by replace (0 <=? sr_ret r) with false by lia. }
  destruct Hd as [Hlen Hu8]; [lia|].
  assert (zlen (drop (Z.to_nat sizeof_storage_msg) (sr_data r)) <= REQ_BUFFER_SIZE) as Hbl.
  { unfold zlen, sizeof_storage_msg, REQ_BUFFER_SIZE in *. rewrite length_drop. lia. }
  apply wp_if; intros Hover; [lia|]. apply wp_bind, wp_modify.
  pose proof (buf_ok_splice _ _ Hbuf Hbl (Forall_drop _ _ _ Hu8)) as Hbuf'.
  apply wp_if; intros Hs; [|rewrite received_header by lia; apply wp_if; intros Hsz];
    apply wp_ret; (split_and!; [split; [apply Hsent|done]|done|]); eexists _, r; (split; [done|]);
    cbn [accepted sr_ret sr_data]; unfold complete; rewrite Hlen;
    replace (0 <=? sr_ret r) with true by lia; cbn [andb].
  - left. split; [lia|]. by replace (sizeof_storage_msg <=? sr_ret r) with false by lia.
  - left. split; [lia|]. apply negb_true_iff in Hsz. by rewrite Hsz, andb_false_r.
  - right. apply negb_false_iff in Hsz. rewrite Hsz. apply Z.eqb_eq in Hsz.
    replace (sizeof_storage_msg <=? sr_ret r) with true by lia.
    unfold sizeof_storage_msg, REQ_BUFFER_SIZE in *.
    split_and!; [lia|lia|done|rewrite Hsz, u32_small by wide_lia; lia|done|].
    replace (sr_ret r - 24) with (zlen (drop (Z.to_nat 24) (sr_data r)))
      by (unfold zlen in *; rewrite length_drop; lia).
    apply slice_splice_here; [lia|apply zlen_nonneg].
Qed.
End Receive.


(** ** The loop *)

Section Protocol.
Context {W : Type} `{K : Kernel W} `{KS : !KernelSignals W} `{KB : !KernelBounds W}.
Context (fuel : nat).
Implicit Types s : proc W proxy_globals.

(** Between two iterations: the channel is open, the fuel of the inner loops
    exceeds the signals left and the longest buffer, the request buffer is
    terminated, and the frames sent answer the requests accepted. *)
Definition loop_inv fd s : Prop :=
  tipc_fd (g_ipc (globals s)) = fd /\ ready fuel s /\ buf_ok (pbuf s) /\
  Forall2 (reply fd) (accepted (trace s)) (sent (trace s)).

Definition inner_fuel_ok : Prop := REQ_BUFFER_SIZE + 1 < Z.of_nat fuel.

Lemma ready_ipc_get_msg msg s :
  ready fuel s -> ready fuel (ipc_get_msg msg REQ_BUFFER_SIZE s).2.
Proof.
  intros Hr. change (wp (ipc_get_msg msg REQ_BUFFER_SIZE) (fun _ s' => ready fuel s') s).
  unfold ipc_get_msg. apply wp_bind, wp_gets, wp_bind.
  apply wp_assert; intros; [|done]. apply wp_bind. wp_sys_intro.
  pose proof (ready_after fuel _ _ _ _ Hr Hk) as [? ?].
  repeat (first [apply wp_if; intros _ | apply wp_bind, wp_modify | apply wp_ret | apply wp_halt]); by split.
Qed.

(** [handle_req] between two iterations, everything at once. *)
Lemma handle_req_step msg s m n :
  inner_fuel_ok -> 0 <= tipc_fd (g_ipc (globals s)) -> ready fuel s -> buf_ok (pbuf s) ->
  n <= REQ_BUFFER_SIZE ->
  accepted (trace s) = msg ++ [m] ->
  Forall2 (reply (tipc_fd (g_ipc (globals s)))) msg (sent (trace s)) ->
  wp (handle_req fuel 64 m (pbuf s) n) (fun o s' =>
    loop_inv (tipc_fd (g_ipc (globals s))) s' /\ accepted (trace s') = accepted (trace s) /\
    exists rc m', o = Ret (rc, m') /\ -1 <= rc <= 0) s.
Proof.
  intros Hfuel Hfd Hready Hbuf Hn Hacc Hprot. pose proof Hbuf as (Hlen & Hu8 & _).
  pose proof (handle_req_answers fuel 64 m (pbuf s) n s Hfd) as Ha.
  pose proof (total_handle_req fuel m (pbuf s) n (buf_ok_named _ Hbuf) Hu8
    ltac:(lia) ltac:(unfold inner_fuel_ok in *; lia)
    ltac:(unfold inner_fuel_ok, MAX_READ_SIZE, REQ_BUFFER_SIZE in *; lia) s Hready)
    as [[[rc m'] Ho] Hr].
  pose proof (unread_handle_req fuel 64 m (pbuf s) n s) as Hun.
  pose proof (same_buf_handle_req fuel 64 m (pbuf s) n s) as Hsb.
  unfold wp in *. rewrite Ho in *.
  destruct (handle_req fuel 64 m (pbuf s) n s) as [o s']; simpl in *.
  destruct Ha as [Hi (Hrc & m1 & out & _ & Hecho & Hsent)].
  split; [|split; [done|eauto]]. unfold loop_inv, pbuf. rewrite Hi, Hsb.
  split_and!; [done|done|done|]. rewrite Hun, Hacc, Hsent. apply Forall2_app; [done|].
  repeat constructor. exists m1, out. by split.
Qed.

(** One iteration keeps the protocol; the loop ends only when the channel
    fails. *)
Lemma proxy_loop_inv n msg s :
  inner_fuel_ok -> loop_inv (tipc_fd (g_ipc (globals s))) s ->
  wp (proxy_loop fuel 64 n msg) (fun o s' =>
    loop_inv (tipc_fd (g_ipc (globals s))) s' /\
    ((o = Stop OutOfFuel /\
      length (accepted (trace s')) = length (accepted (trace s)) + n)%nat \/
     (exists rc, o = Ret rc /\ rc < 0))) s.
Proof.
  intros Hfuel. revert msg s. induction n as [|n IH]; intros msg s Hinv; simpl.
  { apply wp_halt. split; [done|]. left. split; [done|lia]. }
  destruct Hinv as (_ & Hr & Hbuf & Hp). pose proof Hr as [Hfd _].
  apply wp_bind. pose proof (ready_ipc_get_msg msg s Hr) as Hr1.
  pose proof (ipc_get_msg_spec msg s Hfd Hbuf) as Hspec.
  unfold wp in Hspec |- * at 1.
  destruct (ipc_get_msg msg REQ_BUFFER_SIZE s) as [[[rc m]|e] s1]; cbn [fst snd] in *;
    destruct Hspec as ([Hse Hi] & Hbuf1 & c & r & Htr & Ho); [|done].
  assert (accepted (trace s1) = accepted (trace s) ++ accepted [Ev c r]) as Hac
    by by rewrite Htr, accepted_app.
  destruct Ho as [[Hrc Hnil]|(Hrc & Hone & _)].
  { replace (rc <? 0) with true by lia. apply wp_ret. split; [|eauto].
    unfold loop_inv. rewrite Hi, Hse, Hac, Hnil, app_nil_r. done. }
  replace (rc <? 0) with false by lia. apply wp_bind. replace (REQ_BUFFER_SIZE <? rc) with false by lia.
  apply wp_modify, wp_bind, wp_gets, wp_bind.
  rewrite <- Hi in *.
  eapply wp_mono; [apply (handle_req_step (accepted (trace s))); try done|].
  - apply buf_ok_terminate; [done|lia].
  - simpl. lia.
  - simpl. by rewrite Hac, Hone.
  - simpl. by rewrite Hse.
  - simpl. intros o s2 (Hinv2 & Ha2 & rc2 & m2 & -> & Hrc2).
    apply wp_if; intros Hz; [apply wp_ret; split; [done|]; right; exists rc2; split; [done|lia]|].
    assert (tipc_fd (g_ipc (globals s2)) = tipc_fd (g_ipc (globals s1))) as He by apply Hinv2.
    rewrite <- He in *. eapply wp_mono; [by apply IH|]. intros o s3 [H3 Ho]. split; [done|].
    destruct Ho as [[-> Hl]|?]; [left|by right]. split; [done|].
    rewrite Hl, Ha2, Hac, Hone, length_app. simpl. lia.
Qed.
End Protocol.
