(* ===== verification/ProxyMain.v ===== *)
(** * Connecting and starting up (ipc_connect, drop_privs and main of
    lite/storage/proxy)

    The connection attempts of [ipc_connect], the privileges [main] gives up
    before anything else, and the protocol of the message loop carried through
    [main] from the initial process state. *)

From S2P Require Import Prelude Kernel StorageProto Libtrusty ProxyState Ipc Storage Rpmb Proxy ProxyAnswers ProxyLoop.

(** ** Connection attempts *)

(** [k] attempts, separated by sleeps, the last of which returned [rc]. *)
Inductive attempts (dev port : bytes) : nat -> Z -> list event -> Prop :=
| Attempt_last rc evs :
    tipc_outcome dev port rc evs -> attempts dev port 1 rc evs
| Attempt_again k rc rc' evs evs' r :
    tipc_outcome dev port rc evs -> rc < 0 -> attempts dev port k rc' evs' ->
    attempts dev port (S k) rc' (evs ++ Ev (Sys_sleep TRUSTY_RECONNECT_TIMEOUT_SEC) r :: evs').

(** Events that close every descriptor they open. *)
Lemma failed_attempt_closes dev port rc evs tr :
  tipc_outcome dev port rc evs -> rc < 0 -> open_fds (evs ++ tr) = open_fds tr.
Proof.
  destruct 1 as [r rc Hr|r r' r'' rc Hr|r r' Hr]; intros Hrc; simpl.
  - by replace (0 <=? sr_ret r) with false by lia.
  - by rewrite Z.eqb_refl, orb_true_l, andb_false_r.
  - lia.
Qed.

(** Whatever the number of attempts, at most the connection stays open. *)
Lemma attempts_fds dev port k rc evs :
  attempts dev port k rc evs -> open_fds evs = if rc <? 0 then [] else [rc].
Proof.
  induction 1 as [rc evs Ho|k rc rc' evs evs' r Ho Hrc Ha IH].
  - by eapply tipc_outcome_fds.
  - rewrite (failed_attempt_closes dev port rc) by done. exact IH.
Qed.

Section Connect.
Context {W : Type} `{K : Kernel W}.
Implicit Types s : proc W proxy_globals.

Lemma ipc_connect_loop_spec fuel dev port cnt s :
  0 <= cnt -> Z.of_nat fuel = MAX_RECONNECT_RETRY_COUNT + 1 - cnt -> (0 < fuel)%nat ->
  exists k rc rc' evs,
    (ipc_connect_loop fuel dev port cnt s).1 = Ret rc' /\
    trace (ipc_connect_loop fuel dev port cnt s).2 = trace s ++ evs /\
    globals (ipc_connect_loop fuel dev port cnt s).2 = globals s /\
    attempts dev port k rc evs /\ (k <= fuel)%nat /\
    (rc' = rc /\ 0 <= rc \/ rc' = -1 /\ rc < 0 /\ k = fuel).
Proof.
  revert cnt s; induction fuel as [|fuel IH]; intros cnt s Hc Hf Hp; [lia|]. simpl.
  unfold mbind, M_bind.
  destruct (tipc_connect_outcome dev port s) as (rc & evs & H1 & H2 & H3 & H4).
  destruct (tipc_connect dev port s) as [o s1]; simpl in *; subst o.
  destruct (Z.leb_spec 0 rc) as [Hrc|Hrc].
  { exists 1%nat, rc, rc, evs. simpl. split_and!; [done|done|done|by apply Attempt_last|lia|by left]. }
  destruct (Z.ltb_spec MAX_RECONNECT_RETRY_COUNT (cnt + 1)).
  { exists 1%nat, rc, (-1), evs. simpl.
    split_and!; [done|done|done|by apply Attempt_last|lia|right; split_and!; [done|done|lia]]. }
  unfold sys. destruct (kcall _ (world s1)) as [r w].
  destruct (IH (cnt + 1) (after s1 (Sys_sleep TRUSTY_RECONNECT_TIMEOUT_SEC) r w))
    as (k & rc2 & rc2' & evs2 & G1 & G2 & G3 & G4 & G5 & G6); [lia|lia|lia|].
  exists (S k), rc2, rc2', (evs ++ Ev (Sys_sleep TRUSTY_RECONNECT_TIMEOUT_SEC) r :: evs2).
  split_and!; [done| |by rewrite G3|by eapply Attempt_again|lia|].
  - rewrite G2; simpl. by rewrite H2, <- !app_assoc.
  - destruct G6 as [?|(? & ? & ?)]; [by left|right; split_and!; [done|done|lia]].
Qed.

(** [ipc_connect] makes between one and six attempts, gives up only after
    the sixth, and installs the descriptor of the one that succeeded. *)
Lemma ipc_connect_spec dev port s :
  tipc_fd (g_ipc (globals s)) = -1 ->
  exists k rc evs s' res,
    ipc_connect dev port s = (Ret res, s') /\ trace s' = trace s ++ evs /\
    attempts dev port k rc evs /\ (k <= 6)%nat /\
    (res = 0 /\ 0 <= rc /\ globals s' = on_ipc (fun _ => IpcSt rc) (globals s) \/
     res = -1 /\ rc < 0 /\ k = 6%nat /\ globals s' = globals s).
Proof.
  intros Hfd. unfold ipc_connect.
  destruct (ipc_connect_loop_spec (S (Z.to_nat MAX_RECONNECT_RETRY_COUNT)) dev port 0 s)
    as (k & rc & rc' & evs & H1 & H2 & H3 & H4 & H5 & H6); [done|done|lia|].
  unfold mbind, M_bind, gets, assert_. rewrite Hfd. change (-1 =? -1) with true.
  cbn beta iota zeta delta [mret M_ret].
  destruct (ipc_connect_loop _ dev port 0 s) as [o s1]; simpl in H1, H2, H3; subst o.
  destruct H6 as [[-> Hrc]|(-> & Hrc & ->)].
  - replace (rc <? 0) with false by lia. exists k, rc, evs. do 2 eexists.
    split; [reflexivity|]; split_and!; [done|done|done|]. left. simpl. by rewrite H3.
  - exists 6%nat, rc, evs. do 2 eexists. split_and!; [done|done|done|lia|]. by right.
Qed.
End Connect.

(** ** Privileges *)

(** The five calls of [drop_privs], in order. *)
Definition priv_calls : list syscall :=
  [Sys_prctl PR_SET_KEEPCAPS 1; Sys_setgid AID_SYSTEM; Sys_setuid AID_SYSTEM;
   Sys_capset [cap_rawio_mask; 0] [cap_rawio_mask; 0]; Sys_umask proxy_umask].

(** Success of a privilege call, as the source tests it. *)
Definition priv_ok (e : event) : bool :=
  match ev_call e with
  | Sys_setgid _ | Sys_setuid _ => sr_ret (ev_res e) =? 0
  | Sys_umask _ => true
  | _ => 0 <=? sr_ret (ev_res e)
  end.

Section Privileges.
Context {W : Type} `{K : Kernel W}.
Implicit Types s : proc W proxy_globals.

(** Either all five calls were made and the four checked ones succeeded, or
    one failed and no further call was made. *)
Lemma drop_privs_spec s :
  exists evs rc s', drop_privs s = (Ret rc, s') /\ trace s' = trace s ++ evs /\
    globals s' = globals s /\ map ev_call evs `prefix_of` priv_calls /\
    (rc = 0 /\ map ev_call evs = priv_calls /\ forallb priv_ok evs = true \/
     rc = -1 /\ exists e, last evs = Some e /\ priv_ok e = false).
Proof.
  unfold drop_privs, mbind, M_bind, sys, mret, M_ret, priv_calls.
  repeat match goal with
    | |- context [kcall ?c ?w] => destruct (kcall c w) as [? ?] eqn:?; simpl
    | |- context [if ?b then _ else _] =>
        lazymatch b with context [sr_ret] => destruct b eqn:? end; simpl
    end; do 3 eexists; (split; [reflexivity|]);
    (split; [simpl; rewrite <- ?app_assoc; reflexivity|]); (split; [done|]); simpl;
    (split; [repeat apply prefix_cons; apply prefix_nil || done|]).
  all: try (right; split; [done|]; eexists; split; [done|]; unfold priv_ok; simpl; lia).
  left. split_and!; [done|done|]. unfold priv_ok; simpl. rewrite !andb_true_iff. lia.
Qed.
End Privileges.

(** ** The loop returns only failures *)

Section LoopStatus.
Context {W : Type} `{K : Kernel W} (fuel : nat) (bits : Z).
Implicit Types s : proc W proxy_globals.

(** After [ipc_get_msg] returned, the channel is open. *)
Lemma get_msg_open msg n s :
  wp (ipc_get_msg msg n) (fun o s' =>
    match o with Ret _ => 0 <= tipc_fd (g_ipc (globals s')) | Stop _ => True end) s.
Proof.
  unfold ipc_get_msg. apply wp_bind, wp_gets, wp_bind.
  apply wp_assert; intros Hb; [|done]. apply wp_bind. wp_sys_intro.
  repeat (first [apply wp_if; intros _ | apply wp_bind, wp_modify | apply wp_ret | by apply wp_halt]); simpl; lia.
Qed.

Lemma proxy_loop_negative n msg s :
  wp (proxy_loop fuel bits n msg) (fun o _ =>
    match o with Ret rc => rc < 0 | Stop _ => True end) s.
Proof.
  revert msg s; induction n as [|n IH]; intros msg s; simpl; [by apply wp_halt|].
  apply wp_bind. eapply wp_mono; [apply get_msg_open|].
  intros [[rc m]|e] s1 Ho; [|done].
  apply wp_if; intros Hrc; [apply wp_ret; lia|]. apply wp_bind.
  apply wp_if; intros Hsz; [by apply wp_halt|]. apply wp_modify, wp_bind, wp_gets, wp_bind.
  eapply wp_mono; [apply handle_req_answers; exact Ho|].
  intros [[rc2 m2]|e] s2 [_ Ha]; [|done]. destruct Ha as [? _].
  apply wp_if; intros Hz; [apply wp_ret; lia|]. apply IH.
Qed.
End LoopStatus.

(** However far it gets, [main] returns the failure status if it returns. *)
Section MainStatus.
Context {W : Type} `{K : Kernel W} (fuel : nat) (bits : Z).
Implicit Types s : proc W proxy_globals.

Definition fails (o : outcome Z) s : Prop :=
  match o with Ret rc => rc = EXIT_FAILURE | Stop _ => True end.

(** A prefix of a program does not matter. *)
Lemma fails_bind {A} (m : PM W A) (f : A -> PM W Z) s :
  (forall a s', wp (f a) fails s') -> wp (m ≫= f) fails s.
Proof.
  intros Hf. apply wp_bind. unfold wp at 1. destruct (m s) as [[a|e] s']; [apply Hf|done].
Qed.

Lemma main_status n msg0 opts s : wp (main fuel bits n msg0 opts) fails s.
Proof.
  unfold main.
  repeat first
    [ lazymatch goal with
      | |- wp (proxy_loop _ _ _ _ ≫= _) _ _ =>
          apply wp_bind; eapply wp_mono; [apply proxy_loop_negative|]; intros [rc|e] ? Hrc; [|done]
      end
    | apply fails_bind; intros ? ?
    | apply wp_if; intros _; [by apply wp_ret|]
    | apply wp_ret; unfold fails; replace (rc <? 0) with true by lia; done ].
Qed.
End MainStatus.

(** ** Start-up *)

Section Setup.
Context {W : Type} `{K : Kernel W} `{KS : !KernelSignals W}.
Implicit Types s : proc W proxy_globals.

(** Nothing is sent or received, the channel and the request buffer stay
    as they are. *)
Definition setup_step s s' : Prop :=
  quiet_step s s' /\ unread s s' /\ pbuf s' = pbuf s /\
  (sig_left (world s') <= sig_left (world s))%nat.

(** [m] is part of the start-up: it returns or exits. *)
Definition sets_up {A} (m : PM W A) : Prop := forall s,
  wp m (fun o s' => setup_step s s' /\
    match o with Ret _ => True | Stop e => e = Exit EXIT_FAILURE end) s.

Lemma setup_refl s : setup_step s s.
Proof. by repeat split. Qed.

Lemma setup_trans s1 s2 s3 : setup_step s1 s2 -> setup_step s2 s3 -> setup_step s1 s3.
Proof.
  intros ([? ?] & ? & ? & ?) ([? ?] & ? & ? & ?). unfold setup_step, quiet_step, unread in *.
  split_and!; [congruence..|lia].
Qed.

Lemma sets_up_ret {A} (a : A) : sets_up (mret a).
Proof. intros s. apply wp_ret. split; [apply setup_refl|done]. Qed.

Lemma sets_up_gets {A} (f : proxy_globals -> A) : sets_up (gets f).
Proof. intros s. apply wp_gets. split; [apply setup_refl|done]. Qed.

Lemma sets_up_exit {A} : sets_up (@halt W proxy_globals A (Exit EXIT_FAILURE)).
Proof. intros s. apply wp_halt. split; [apply setup_refl|done]. Qed.

Lemma sets_up_bind {A B} (m : PM W A) (f : A -> PM W B) :
  sets_up m -> (forall a, sets_up (f a)) -> sets_up (m ≫= f).
Proof.
  intros Hm Hf s. apply wp_bind. eapply wp_mono; [apply Hm|].
  intros [a|e] s1 [H1 Ho]; [|done]. eapply wp_mono; [apply Hf|].
  intros o s2 [H2 Ho2]. split; [by eapply setup_trans|done].
Qed.

Lemma sets_up_sys c : is_writev c = false -> is_readv c = false -> sets_up (sys c).
Proof.
  intros Hw Hr s. wp_sys_intro. split; [|done]. split_and!.
  - split; [|done]. simpl. rewrite sent_app, sent_quiet by done. apply app_nil_r.
  - by apply unread_after.
  - done.
  - pose proof (sig_mono c (world s)) as Hm. by rewrite Hk in Hm.
Qed.

Lemma sets_up_storage f : sets_up (modify (on_storage f)).
Proof. intros s. apply wp_modify. split; [by repeat split|done]. Qed.
Lemma sets_up_rpmb f : sets_up (modify (on_rpmb f)).
Proof. intros s. apply wp_modify. split; [by repeat split|done]. Qed.
Lemma sets_up_arg opt v : sets_up (modify (on_proxy (set_arg opt v))).
Proof.
  intros s. apply wp_modify. split; [|done]. split_and!; [by split|done| |done].
  unfold pbuf; simpl. unfold set_arg. destruct (g_proxy (globals s)).
  by repeat case_match.
Qed.
End Setup.

Create HintDb setup.
#[export] Hint Resolve sets_up_ret sets_up_gets sets_up_exit sets_up_storage sets_up_rpmb
  sets_up_arg : setup.
#[export] Hint Extern 1 (sets_up (sys _)) => apply sets_up_sys; reflexivity : setup.
Ltac setup_go := repeat first
  [ solve [eauto with setup]
  | lazymatch goal with
    | |- sets_up (_ ≫= _) => apply sets_up_bind; [|intros]
    | |- sets_up (match ?x with _ => _ end) => destruct x
    end ].

Section SetupPhases.
Context {W : Type} `{K : Kernel W} `{KS : !KernelSignals W}.

Lemma sets_up_privs : sets_up drop_privs.
Proof. unfold drop_privs. setup_go. Qed.

Lemma sets_up_opts opts : sets_up (parse_opts opts).
Proof. induction opts as [|[o a] opts IH]; simpl; unfold strdup; setup_go. Qed.

Lemma sets_up_args opts : sets_up (parse_args opts).
Proof.
  unfold parse_args. pose proof (sets_up_opts opts). setup_go.
  destruct a0, a1; setup_go.
Qed.

Lemma sets_up_step a init : (forall x, sets_up (init x)) -> sets_up (init_step a init).
Proof. intros. unfold init_step. setup_go. Qed.

Lemma sets_up_storage_init d : sets_up (storage_init d).
Proof. unfold storage_init, upd. setup_go. Qed.
Lemma sets_up_persistent_init d : sets_up (storage_persistent_init d).
Proof. unfold storage_persistent_init, upd. setup_go. Qed.
Lemma sets_up_proinfo_init d : sets_up (storage_proinfo_init d).
Proof. unfold storage_proinfo_init, upd. setup_go. Qed.
Lemma sets_up_rpmb_open d : sets_up (rpmb_open d).
Proof. unfold rpmb_open. setup_go. Qed.
Lemma sets_up_rpmb_close : sets_up rpmb_close.
Proof. unfold rpmb_close. setup_go. Qed.
End SetupPhases.
#[export] Hint Resolve sets_up_privs sets_up_args sets_up_step sets_up_storage_init
  sets_up_persistent_init sets_up_proinfo_init sets_up_rpmb_open sets_up_rpmb_close : setup.

(** ** main *)

Section Main.
Context {W : Type} `{K : Kernel W} `{KS : !KernelSignals W} `{KB : !KernelBounds W}.
Context (fuel : nat).
Implicit Types s : proc W proxy_globals.

(** [main] after the initialisers: connect, serve, disconnect. *)
Definition serve (n : nat) (msg0 : storage_msg) (a : proxy_st) : PM W Z :=
  rc ← ipc_connect (fmt_s (trusty_devname a)) (fmt_s (ss_srv_name a));
  if rc <? 0 then mret EXIT_FAILURE
  else
    rc ← proxy_loop fuel 64 n msg0;
    ipc_disconnect;;
    (match rpmb_devname a with Some _ => rpmb_close | None => mret tt end);;
    mret (if rc <? 0 then EXIT_FAILURE else EXIT_SUCCESS).

(** How a run of the daemon ends, with what it has exchanged by then. *)
Definition served n (o : outcome Z) s : Prop :=
  (exists fd, Forall2 (reply fd) (accepted (trace s)) (sent (trace s))) /\
  (o = Ret EXIT_FAILURE \/ o = Stop (Exit EXIT_FAILURE) \/
   (o = Stop OutOfFuel /\ length (accepted (trace s)) = n)).

(** A start-up state: fresh channel, request buffer terminated, nothing
    exchanged yet. *)
Definition fresh s : Prop :=
  g_ipc (globals s) = ipc_st0 /\ buf_ok (pbuf s) /\ (sig_left (world s) < fuel)%nat /\
  accepted (trace s) = [] /\ sent (trace s) = [].

Lemma fresh_setup s s' : setup_step s s' -> fresh s -> fresh s'.
Proof.
  intros ([H1 H2] & H3 & H4 & H5) (F1 & F2 & F3 & F4 & F5). unfold fresh, unread in *.
  rewrite H1, H2, H3, H4. split_and!; [done..|lia|done|done].
Qed.

Lemma fresh_served n o s : fresh s -> o = Ret EXIT_FAILURE \/ o = Stop (Exit EXIT_FAILURE) ->
  served n o s.
Proof.
  intros (_ & _ & _ & H1 & H2) Ho. split; [exists 0; rewrite H1, H2; constructor|]. tauto.
Qed.

(** Attempts to connect exchange nothing. *)
Lemma attempts_quiet dev port k rc evs :
  attempts dev port k rc evs -> sent evs = [] /\ accepted evs = [].
Proof.
  assert (forall rc evs, tipc_outcome dev port rc evs -> sent evs = [] /\ accepted evs = [])
    as Ht by (by destruct 1).
  induction 1 as [rc evs Ho|k rc rc' evs evs' r Ho Hrc Ha [IH1 IH2]]; [by eapply Ht|].
  destruct (Ht _ _ Ho) as [H1 H2]. rewrite sent_app, accepted_app, H1, H2. done.
Qed.

Lemma sig_connect_loop k dev port c s :
  (sig_left (world (ipc_connect_loop k dev port c s).2) <= sig_left (world s))%nat.
Proof.
  revert c s. change (forall c, keeps (fun s s' => sig_left (world s') <= sig_left (world s))%nat
    (ipc_connect_loop (W:=W) k dev port c)).
  assert (PreOrder (fun s s' : proc W proxy_globals =>
    (sig_left (world s') <= sig_left (world s))%nat)) as Hpre
    by (split; [intros ?; lia|intros ???; lia]).
  assert (forall c, keeps (fun s s' : proc W proxy_globals =>
    (sig_left (world s') <= sig_left (world s))%nat) (sys c)) as Hs.
  { intros c. apply keeps_sys_run. intros s r w Hk.
    pose proof (sig_mono c (world s)) as Hm. by rewrite Hk in Hm. }
  induction k as [|k IH]; intros c; simpl; unfold tipc_connect; keeps_go.
Qed.

Lemma ready_connected dev port s s' res rc :
  fresh s -> ipc_connect dev port s = (Ret res, s') -> 0 <= rc ->
  globals s' = on_ipc (fun _ => IpcSt rc) (globals s) -> ready fuel s'.
Proof.
  intros (Hi & _ & Hsig & _) Hc Hrc Hg. split; [by rewrite Hg|].
  assert (sig_left (world (ipc_connect dev port s).2) <= sig_left (world s))%nat as Hle.
  { unfold ipc_connect, mbind, M_bind, gets, assert_. rewrite Hi.
    cbn beta iota zeta delta [mret M_ret ipc_st0 tipc_fd].
    change (-1 =? -1) with true. cbn beta iota zeta delta [mret M_ret].
    pose proof (sig_connect_loop (S (Z.to_nat MAX_RECONNECT_RETRY_COUNT)) dev port 0 s) as H.
    destruct (ipc_connect_loop _ dev port 0 s) as [[r|e] s1]; simpl in H; [|exact H].
    destruct (r <? 0); exact H. }
  rewrite Hc in Hle; simpl in Hle. lia.
Qed.

(** Closing down after the loop exchanges nothing. *)
Lemma disconnect_spec (rp : option bytes) s :
  0 <= tipc_fd (g_ipc (globals s)) ->
  wp (ipc_disconnect;; (match rp with Some _ => rpmb_close | None => mret tt end))
     (fun o s' => o = Ret tt /\ accepted (trace s') = accepted (trace s) /\
                  sent (trace s') = sent (trace s)) s.
Proof.
  intros Hfd. unfold ipc_disconnect, tipc_close, rpmb_close.
  apply wp_bind, wp_bind, wp_gets, wp_bind. apply wp_assert; intros; [|lia].
  apply wp_bind, wp_bind. wp_sys_intro. apply wp_ret, wp_modify.
  destruct rp.
  - apply wp_bind, wp_gets, wp_bind. wp_sys_intro. apply wp_modify. simpl.
    rewrite !accepted_app, !sent_app; simpl. by rewrite !app_nil_r.
  - apply wp_ret. simpl. rewrite accepted_app, sent_app; simpl. by rewrite !app_nil_r.
Qed.

Lemma serve_spec n msg0 a s : inner_fuel_ok fuel -> fresh s -> wp (serve n msg0 a) (served n) s.
Proof.
  intros Hf Hfresh. pose proof Hfresh as (Hi & Hbuf & _ & Ha & Hse). unfold serve.
  destruct (ipc_connect_spec (fmt_s (trusty_devname a)) (fmt_s (ss_srv_name a)) s)
    as (k & rc & evs & s1 & res & Hc & Htr & Hat & _ & Hres); [by rewrite Hi|].
  destruct (attempts_quiet _ _ _ _ _ Hat) as [Hq1 Hq2].
  assert (accepted (trace s1) = [] /\ sent (trace s1) = []) as [Ha1 Hs1]
    by (rewrite Htr, accepted_app, sent_app, Ha, Hse, Hq1, Hq2; done).
  apply wp_bind. unfold wp at 1. rewrite Hc. simpl.
  destruct Hres as [(-> & Hrc & Hg)|(-> & _)]; simpl.
  2:{ apply wp_ret. split; [exists 0; rewrite Ha1, Hs1; constructor|tauto]. }
  pose proof (ready_connected _ _ _ _ _ _ Hfresh Hc Hrc Hg) as Hr.
  apply wp_bind. eapply wp_mono; [apply proxy_loop_inv; [done|]|].
  { split_and!; [done|done|unfold pbuf; by rewrite Hg|rewrite Ha1, Hs1; constructor]. }
  intros o s2 [(Hfd & [Hfd0 _] & _ & Hp) [[-> Hl]|(rc2 & -> & Hrc2)]].
  { split; [by eexists|]. right; right. split; [done|]. by rewrite Hl, Ha1. }
  pose proof (disconnect_spec (rpmb_devname a) s2 Hfd0) as Hd. unfold wp, mbind, M_bind in *.
  destruct (ipc_disconnect s2) as [[[]|e] s3]; [|by destruct Hd].
  destruct (match rpmb_devname a with Some _ => rpmb_close | None => mret tt end s3)
    as [[[]|e] s4]; destruct Hd as (? & H1 & H2); [|done].
  simpl in *. replace (rc2 <? 0) with true by lia. split; [|by left]. exists (tipc_fd (g_ipc (globals s1))).
  by rewrite H1, H2.
Qed.

(** A start-up phase before the rest of [main]. *)
Lemma setup_then {A} n (m : PM W A) (f : A -> PM W Z) s :
  sets_up m -> fresh s -> (forall a s', fresh s' -> wp (f a) (served n) s') ->
  wp (m ≫= f) (served n) s.
Proof.
  intros Hm Hs Hf. apply wp_bind. eapply wp_mono; [apply Hm|].
  intros [a|e] s' [Hst Ho]; [by apply Hf, (fresh_setup s)|]. subst e.
  apply fresh_served; [by apply (fresh_setup s)|tauto].
Qed.

Lemma main_spec n msg0 opts s :
  inner_fuel_ok fuel -> fresh s -> wp (main fuel 64 n msg0 opts) (served n) s.
Proof.
  intros Hf Hs. unfold main.
  repeat first
    [ lazymatch goal with
      | |- wp (ipc_connect _ _ ≫= _) _ _ => apply (serve_spec n msg0); done
      end
    | apply setup_then; [eauto with setup|done|clear s Hs; intros ? s Hs]
    | apply wp_if; intros _; [apply wp_ret, fresh_served; tauto|] ].
Qed.
End Main.

(** ** The trace of a run only grows *)

Section GrowsMain.
Context {W : Type} `{K : Kernel W} (fuel : nat) (bits : Z).

Lemma grows_write n fd buf off : keeps grows (@write_with_retry W _ fuel n fd buf off).
Proof. revert buf off; induction n; intros; simpl; unfold off_add; keeps_go. Qed.
Lemma grows_read n fd cap buf sz off pos :
  keeps grows (@read_with_retry W _ fuel n fd cap buf sz off pos).
Proof. revert buf sz off pos; induction n; intros; simpl; unfold off_add; keeps_go. Qed.
Lemma grows_fds k fd : keeps grows (@sync_fds W _ k fd).
Proof. revert fd; induction k; intros; simpl; unfold read_fd_state, put_fd_state, st, upd; keeps_go. Qed.
Lemma grows_connect_loop k dev port c : keeps grows (@ipc_connect_loop W _ k dev port c).
Proof. revert c; induction k; intros; simpl; unfold tipc_connect; keeps_go. Qed.
Lemma grows_opts opts : keeps grows (@parse_opts W _ opts).
Proof. induction opts as [|[o a] opts IH]; simpl; unfold strdup; keeps_go. Qed.
#[local] Hint Resolve grows_write grows_read grows_fds grows_connect_loop grows_opts : keeps.

Lemma grows_handle_req msg r n : keeps grows (@handle_req W _ fuel bits msg r n).
Proof.
  unfold handle_req, dispatch, storage_file_delete, storage_file_open, storage_file_close,
    storage_file_write, storage_file_read, storage_file_get_size, storage_file_set_size,
    rpmb_send, print_request, print_buf, storage_init_ok, storage_init_proinfo_ok, storage_init_persist_ok, notify_init,
    storage_sync_checkpoint, sync_dir, sync_fs, sync_roots, sync_root, err_response, ipc_respond,
    insert_fd, lookup_fd, remove_fd, put_fd_state, open_path, prepare_floder, free_opt, open_file, st, upd,
    free, asprintf, malloc.
  keeps_go.
Qed.
#[local] Hint Resolve grows_handle_req : keeps.

Lemma grows_proxy_loop n msg : keeps grows (@proxy_loop W _ fuel bits n msg).
Proof. revert msg; induction n; intros; simpl; unfold ipc_get_msg; keeps_go. Qed.
#[local] Hint Resolve grows_proxy_loop : keeps.

Lemma grows_parse_args opts : keeps grows (@parse_args W _ opts).
Proof. unfold parse_args. keeps_go. destruct a0, a1; keeps_go. Qed.
#[local] Hint Resolve grows_parse_args : keeps.

(** [main] goes on after [drop_privs] with calls of its own. *)
Lemma main_after_privs n msg0 opts s s1 :
  drop_privs s = (Ret 0, s1) -> grows s1 (@main W _ fuel bits n msg0 opts s).2.
Proof.
  intros Hd. unfold main. unfold mbind at 1, M_bind at 1. rewrite Hd.
  change (0 <? 0) with false. cbn iota.
  match goal with |- grows s1 (?m s1).2 => enough (keeps grows m) as H by apply H end.
  unfold init_step, storage_init, storage_persistent_init, storage_proinfo_init, rpmb_open,
    rpmb_close, ipc_connect, ipc_disconnect, tipc_close, upd.
  keeps_go.
Qed.
End GrowsMain.
