(* ===== verification/StorageFiles.v ===== *)
(** * File contents (storage.c: write_with_retry, read_with_retry and the
    read, write and resize requests)

    The kernel's files are abstract: [contents w fd] is what the file behind a
    descriptor holds.  Against the laws of [KernelFiles] (a read returns bytes
    of the file and may be short, a write stores a prefix of what it was given,
    both may be interrupted) the loops of storage.c read and write exactly the
    range the request names, and a write followed by a read returns the bytes
    written. *)

From S2P Require Import Prelude Kernel StorageProto Libtrusty ProxyState Ipc Storage Rpmb Proxy ProxyAnswers.

(** The first [n] bytes of a file, extended with zeros. *)
Definition file_resize (c : bytes) (n : Z) : bytes :=
  take (Z.to_nat n) (c ++ replicate (Z.to_nat n - length c) 0).

(** [data] laid over a file at [off]; a gap reads as zeros. *)
Definition overlay (c : bytes) (off : Z) (data : bytes) : bytes :=
  file_resize c off ++ data ++ drop (Z.to_nat off + length data) c.

(** A file after [data] was written at [off]; writing nothing does not extend
    the file. *)
Definition file_write (c : bytes) (off : Z) (data : bytes) : bytes :=
  if decide (data = []) then c else overlay c off data.

Class KernelFiles (W : Type) `{K : Kernel W} := {
  contents : W -> Z -> option bytes;
  (** A read does not change a file; what it returns are its bytes, and
      nothing only at the end. *)
  kf_pread : forall fd n off w r w' c, kcall (Sys_pread fd n off) w = (r, w') ->
    contents w fd = Some c -> 0 <= n -> 0 <= off ->
    (forall f, contents w' f = contents w f) /\
    (sr_ret r < 0 -> sr_errno r <> 0) /\
    (0 <= sr_ret r -> sr_data r = slice off (sr_ret r) c /\
       sr_ret r <= Z.max 0 (zlen c - off) /\
       (sr_ret r = 0 -> n = 0 \/ zlen c <= off));
  (** A write stores the prefix it reports; a failed one stores nothing.
      Descriptors that are not files stay what they are. *)
  kf_pwrite : forall fd d off w r w' c, kcall (Sys_pwrite fd d off) w = (r, w') ->
    contents w fd = Some c -> 0 <= off ->
    (sr_ret r < 0 -> sr_errno r <> 0) /\
    contents w' fd = Some (if sr_ret r <? 0 then c
                           else file_write c off (take (Z.to_nat (sr_ret r)) d)) /\
    (forall f, contents w f = None -> contents w' f = None);
  kf_ftruncate : forall fd n w r w' c, kcall (Sys_ftruncate fd n) w = (r, w') ->
    contents w fd = Some c -> 0 <= n ->
    (sr_ret r < 0 -> sr_errno r <> 0) /\
    contents w' fd = Some (if sr_ret r <? 0 then c else file_resize c n) /\
    (forall f, contents w f = None -> contents w' f = None);
  (** A message sent on a channel does not change files. *)
  kf_writev : forall fd iov w r w', kcall (Sys_writev fd iov) w = (r, w') ->
    contents w fd = None -> forall f, contents w' f = contents w f;
}.

(** ** Writing in pieces *)

Lemma zlen_file_resize c n : 0 <= n -> zlen (file_resize c n) = n.
Proof.
  intros. unfold file_resize, zlen. rewrite length_take, length_app, length_replicate. lia.
Qed.

Lemma file_write_overlay c off d : d <> [] -> file_write c off d = overlay c off d.
Proof. intros. unfold file_write. by destruct (decide _). Qed.

Lemma file_write_nil c off : file_write c off [] = c.
Proof. done. Qed.

Lemma file_resize_prefix c n h t : zlen h = n -> c = h ++ t -> file_resize c n = h.
Proof.
  intros <- ->. unfold file_resize, zlen. rewrite Nat2Z.id, <- app_assoc. apply take_app_length.
Qed.

Lemma overlay_app c off d1 d2 :
  0 <= off -> overlay (overlay c off d1) (off + zlen d1) d2 = overlay c off (d1 ++ d2).
Proof.
  intros Hoff. pose proof (zlen_file_resize c off Hoff) as Hh. unfold overlay at 1 3.
  rewrite (file_resize_prefix _ _ (file_resize c off ++ d1) (drop (Z.to_nat off + length d1) c)).
  - rewrite <- !app_assoc. do 3 f_equal. unfold overlay.
    rewrite (app_assoc (file_resize c off)), drop_app_ge, drop_drop
      by (unfold zlen in *; rewrite length_app; lia).
    f_equal. unfold zlen in *. rewrite !length_app. lia.
  - rewrite zlen_app. lia.
  - unfold overlay. by rewrite app_assoc.
Qed.

Lemma file_write_app c off d1 d2 :
  0 <= off -> file_write (file_write c off d1) (off + zlen d1) d2 = file_write c off (d1 ++ d2).
Proof.
  intros Hoff. destruct (decide (d1 = [])) as [->|H1]; [by rewrite Z.add_0_r|].
  destruct (decide (d2 = [])) as [->|H2]; [by rewrite app_nil_r|].
  rewrite !file_write_overlay; [by apply overlay_app|by destruct d1|done|done].
Qed.

(** What a write stored is what a read of the same range returns. *)
Lemma slice_file_write c off d :
  0 <= off -> slice off (zlen d) (file_write c off d) = d.
Proof.
  intros Hoff. destruct (decide (d = [])) as [->|Hd]; [done|].
  rewrite file_write_overlay by done. unfold overlay.
  pose proof (zlen_file_resize c off Hoff) as Hh.
  rewrite slice_app_r by lia. rewrite Hh, Z.sub_diag.
  rewrite slice_app_l by (pose proof (zlen_nonneg d); lia). apply slice_full.
Qed.

Lemma zlen_file_write c off d :
  0 <= off -> d <> [] -> zlen (file_write c off d) = Z.max (zlen c) (off + zlen d).
Proof.
  intros Hoff Hd. rewrite file_write_overlay by done. unfold overlay.
  rewrite !zlen_app, zlen_file_resize by done. unfold zlen. rewrite length_drop. lia.
Qed.

(** Bytes outside the range written keep their value. *)
Lemma file_write_elsewhere c off d o n :
  0 <= off -> 0 <= o -> 0 <= n -> o + n <= zlen c -> o + n <= off \/ off + zlen d <= o ->
  slice o n (file_write c off d) = slice o n c.
Proof.
  intros Hoff Ho Hn Hc Hdis. destruct (decide (d = [])) as [->|Hd0]; [done|].
  rewrite file_write_overlay by done. unfold overlay.
  pose proof (zlen_file_resize c off Hoff) as Hh. pose proof (zlen_nonneg d). destruct Hdis as [Hd|Hd].
  - rewrite slice_app_l by lia. unfold file_resize, slice. rewrite skipn_firstn_comm, take_take.
    replace (Z.to_nat n `min` (Z.to_nat off - Z.to_nat o))%nat with (Z.to_nat n) by lia.
    apply (slice_app_l o n c); lia.
  - rewrite !slice_app_r by lia. unfold slice. rewrite drop_drop. do 2 f_equal.
    unfold zlen in *. lia.
Qed.

(** A chunk [d] of a file copied to [pos] and the [k] bytes that follow it
    copied behind it make one longer copy; what lies before is kept. *)
Lemma splice_read_join buf buf' pos d k off c :
  0 <= pos -> 0 <= off -> 0 <= k -> pos + zlen d <= zlen buf -> d = slice off (zlen d) c ->
  slice 0 (pos + zlen d) buf' = slice 0 (pos + zlen d) (splice buf pos d) ->
  slice (pos + zlen d) k buf' = slice (off + zlen d) k c ->
  slice 0 pos buf' = slice 0 pos buf /\ slice pos (zlen d + k) buf' = slice off (zlen d + k) c.
Proof.
  intros Hpos Hoff Hk Hb Hd Hpre Hnew. pose proof (zlen_nonneg d). split.
  - rewrite <- (slice_slice 0 (pos + zlen d) 0 pos) by lia. rewrite Hpre.
    rewrite slice_slice by lia. apply slice_splice_before; lia.
  - rewrite <- (slice_join pos (zlen d) (pos + zlen d) k) by lia. rewrite Hnew.
    pose proof (slice_slice 0 (pos + zlen d) pos (zlen d) buf') as Hsl.
    rewrite Hpre, slice_slice in Hsl by lia. rewrite Z.add_0_l in Hsl. rewrite <- Hsl by lia.
    rewrite slice_splice_here by lia. rewrite Hd at 1. apply slice_join; lia.
Qed.

(** ** The loops *)

Section Loops.
Context {W : Type} `{K : Kernel W} `{KS : !KernelSignals W} `{KB : !KernelBounds W}
  `{KF : !KernelFiles W}.
Context (fuel : nat).
Implicit Types s : proc W proxy_globals.

(** System calls other than [writev] were made, nothing else changed. *)
Definition calls_only s s' : Prop :=
  globals s' = globals s /\ sent (trace s') = sent (trace s) /\
  (sig_left (world s') <= sig_left (world s))%nat.

Definition not_files s s' : Prop :=
  forall f, contents (world s) f = None -> contents (world s') f = None.

Lemma calls_only_refl s : calls_only s s.
Proof. by repeat split. Qed.

Lemma calls_only_trans s1 s2 s3 : calls_only s1 s2 -> calls_only s2 s3 -> calls_only s1 s3.
Proof. intros (? & ? & ?) (? & ? & ?). split_and!; [congruence..|lia]. Qed.

Lemma sent_same_call c evs : is_writev c = false -> Forall (fun e => ev_call e = c) evs -> sent evs = [].
Proof.
  intros Hc. induction 1 as [|[c' r] evs He _ IH]; [done|]. simpl in *. subst c'. by destruct c.
Qed.

(** The retry rule, for a call that is not a [writev]. *)
Lemma wp_retry_calls c (I : W -> Prop) (Q : outcome sysret -> proc W proxy_globals -> Prop) s :
  is_writev c = false -> (sig_left (world s) < fuel)%nat -> I (world s) ->
  (forall w r w', I w -> kcall c w = (r, w') -> interrupted r -> I w') ->
  (forall s' w0 r, calls_only s s' -> I w0 -> kcall c w0 = (r, world s') ->
     (sr_ret r < 0 -> errno s' = sr_errno r) -> Q (Ret r) s') ->
  wp (retry fuel c) Q s.
Proof.
  intros Hc Hsig HI Hint HQ. apply (wp_retry fuel c I); [done..|].
  intros s0 evs r w Hg Ht Hall Hle HI0 Hk _. apply (HQ _ (world s0)); [|done|done|].
  - split_and!; [done| |].
    + simpl. rewrite Ht, !sent_app, (sent_same_call c evs), (sent_quiet c r), !app_nil_r by done. done.
    + simpl. pose proof (sig_mono c (world s0)) as Hm. rewrite Hk in Hm; simpl in Hm. lia.
  - simpl. intros. by replace (sr_ret r <? 0) with true by lia.
Qed.

(** The read loop returns the bytes of the file from [off] on: as many as
    were asked for, fewer only at the end of the file. *)
Lemma read_loop_spec n fd c buf sz off pos s :
  contents (world s) fd = Some c -> (sig_left (world s) < fuel)%nat ->
  0 <= off < 2 ^ 63 -> 0 <= sz < Z.of_nat n -> 0 <= pos -> pos + sz <= zlen buf ->
  wp (read_with_retry fuel n fd (zlen buf) buf sz off pos) (fun o s' =>
    calls_only s s' /\ (forall f, contents (world s') f = contents (world s) f) /\
    exists rc buf', o = Ret (rc, buf') /\ zlen buf' = zlen buf /\
    (rc < 0 /\ errno s' <> 0 \/
     exists k, rc = pos + k /\ k = Z.max 0 (Z.min sz (zlen c - off)) /\
       slice 0 pos buf' = slice 0 pos buf /\ slice pos k buf' = slice off k c)) s.
Proof.
  revert buf sz off pos s. induction n as [|n IH]; intros buf sz off pos s Hc Hsig Hoff Hsz Hpos Hb;
    [lia|]. simpl. apply wp_if; intros Hz.
  { apply wp_ret. split; [apply calls_only_refl|]. split; [done|]. eexists _, _. split; [done|].
    split; [done|]. right. exists 0. split_and!; [lia|lia|done|done]. }
  apply wp_bind. apply (wp_retry_calls _ (fun w => forall f, contents w f = contents (world s) f));
    [done|done|done| |].
  { intros w r w' HI Hk _ f. rewrite <- HI.
    eapply (kf_pread fd sz off); [done|by rewrite HI|lia|lia]. }
  intros s1 w0 r Hcalls HI Hk Herr.
  pose proof (kb_pread fd sz off w0 ltac:(lia)) as [Hle Hlen]. rewrite Hk in Hle, Hlen; simpl in *.
  destruct (kf_pread fd sz off w0 r (world s1) c Hk) as (Hsame & Hneg & Hdat);
    [by rewrite HI|lia|lia|].
  assert (forall f, contents (world s1) f = contents (world s) f) as Hs1
    by (intros; by rewrite Hsame).
  apply wp_if; intros Hr.
  { apply wp_ret. split_and!; [done|done|]. eexists _, _. split_and!; [done|done|]. left.
    split; [lia|]. rewrite Herr by lia. apply Hneg. lia. }
  destruct Hdat as (Hd & Hmax & Heof); [lia|].
  apply wp_if; intros Hr0.
  { apply wp_ret. split_and!; [done|done|]. eexists _, _. split_and!; [done|done|]. right.
    exists 0. split_and!; [lia|destruct Heof; lia|done|done]. }
  specialize (Hlen ltac:(lia)).
  pose proof (length_splice buf pos (sr_data r) ltac:(lia) ltac:(lia)) as Hsp.
  apply wp_if; intros Hcap; [lia|].
  pose proof (kb_pread_end fd sz off w0 ltac:(lia)) as Hend. rewrite Hk in Hend; simpl in Hend.
  apply wp_bind, wp_off_add; [done|].
  replace (zlen buf) with (zlen (splice buf pos (sr_data r))) by (unfold zlen in *; lia).
  eapply wp_mono; [apply IH; try lia|].
  - by rewrite Hs1.
  - destruct Hcalls as (_ & _ & ?). lia.
  - unfold zlen in *. lia.
  - intros o s2 (Hcalls2 & Hs2 & rc & buf' & -> & Hl' & Ho).
    split; [by eapply calls_only_trans|]. split; [intros; by rewrite Hs2|].
    eexists _, _. split; [done|]. split; [unfold zlen in *; lia|].
    destruct Ho as [?|(k & -> & Hk' & Hpre & Hnew)]; [by left|right].
    rewrite <- Hlen in *. exists (zlen (sr_data r) + k).
    destruct (splice_read_join buf buf' pos (sr_data r) k off c) as [H1 H2]; try done; try lia.
    split_and!; [lia|lia|done|done].
Qed.

(** The write loop stores all of [buf], or a prefix of it if it fails. *)
Lemma write_loop_spec n fd c buf off s :
  contents (world s) fd = Some c -> (sig_left (world s) < fuel)%nat ->
  0 <= off < 2 ^ 63 -> zlen buf < Z.of_nat n ->
  wp (write_with_retry fuel n fd buf off) (fun o s' =>
    calls_only s s' /\ not_files s s' /\ exists rc k, o = Ret rc /\
    contents (world s') fd = Some (file_write c off (take k buf)) /\
    (rc < 0 /\ errno s' <> 0 \/ rc = 0 /\ take k buf = buf)) s.
Proof.
  revert buf off c s. induction n as [|n IH]; intros buf off c s Hc Hsig Hoff Hn;
    [pose proof (zlen_nonneg buf); lia|]. simpl. apply wp_if; intros Hz.
  { apply wp_ret. split; [apply calls_only_refl|]. split; [by intros f|]. exists 0, 0%nat. split; [done|].
    rewrite take_0, file_write_nil. split; [done|right]. split; [done|]. destruct buf; [done|].
    unfold zlen in *; simpl in *; lia. }
  apply wp_bind. apply (wp_retry_calls _ (fun w => contents w fd = Some c /\
    forall f, contents (world s) f = None -> contents w f = None)); [done|done|by split| |].
  { intros w r w' [HI Hn'] Hk [Hr _].
    destruct (kf_pwrite fd buf off w r w' c Hk HI ltac:(lia)) as (_ & Hx & ?). rewrite Hr in Hx. auto. }
  intros s1 w0 r Hcalls [HI Hnf] Hk Herr.
  pose proof (kb_pwrite fd buf off w0) as [Hle Hne]. rewrite Hk in Hle, Hne; simpl in *.
  destruct (kf_pwrite fd buf off w0 r (world s1) c Hk HI ltac:(lia)) as (Hneg & Hnew & Hnf').
  assert (not_files s s1) as Hns by (unfold not_files; auto).
  apply wp_if; intros Hr.
  { apply wp_ret. split; [done|]. split; [done|]. exists (sr_ret r), 0%nat. rewrite Hr in Hnew.
    rewrite take_0, file_write_nil. split_and!; [done|done|]. left. split; [lia|].
    rewrite Herr by lia. apply Hneg. lia. }
  rewrite Hr in Hnew. assert (sr_ret r <> 0) as Hr0.
  { apply Hne. intros ->. done. }
  pose proof (kb_pwrite_end fd buf off w0 ltac:(lia)) as Hend. rewrite Hk in Hend; simpl in Hend.
  apply wp_bind, wp_off_add; [done|].
  eapply wp_mono; [eapply IH; [exact Hnew| |lia|]|].
  - destruct Hcalls as (_ & _ & ?). lia.
  - unfold zlen in *. rewrite length_drop. lia.
  - intros o s2 (Hcalls2 & Hns2 & rc & k & -> & Hcont & Ho).
    split; [by eapply calls_only_trans|]. split; [unfold not_files in *; auto|].
    exists rc, (Z.to_nat (sr_ret r) + k)%nat. split; [done|].
    rewrite <- (take_take_drop buf), Hcont. split.
    + f_equal. rewrite <- file_write_app by lia. do 2 f_equal.
      unfold zlen in *. rewrite length_take. lia.
    + destruct Ho as [?|[-> Htk]]; [by left|right]. split; [done|]. rewrite Htk.
      apply take_drop.
Qed.
End Loops.

(** ** Requests on files *)

Section FileRequests.
Context {W : Type} `{K : Kernel W} `{KS : !KernelSignals W} `{KB : !KernelBounds W}
  `{KF : !KernelFiles W}.
Context (fuel : nat) (bits : Z).
Implicit Types s : proc W proxy_globals.

(** A state that serves requests on a file: the channel is open and not a
    file itself, descriptor [fd] is a file with contents [c], and the
    response buffer has its size. *)
Definition serving (fd : Z) (c : bytes) s : Prop :=
  ready fuel s /\ contents (world s) fd = Some c /\
  contents (world s) (tipc_fd (g_ipc (globals s))) = None /\
  zlen (read_rsp (g_storage (globals s))) = MAX_READ_SIZE.

(** [s'] answered [msg] with result [e] and payload [out]. *)
Definition answered (msg : storage_msg) (e : storage_err) (out : option bytes) s s' : Prop :=
  sent (trace s') =
    sent (trace s) ++ [(tipc_fd (g_ipc (globals s)), answer (set_result e msg) out)].

Lemma respond_spec msg e out fd c s :
  serving fd c s ->
  wp (ipc_respond (set_result e msg) out) (fun o s' =>
    (exists x, o = Ret x) /\ answered msg e out s s' /\ serving fd c s') s.
Proof.
  intros Hs. pose proof Hs as ([Hfd Hsig] & Hc & Hn & Hl). unfold ipc_respond.
  apply wp_bind, wp_gets, wp_bind. apply wp_assert; intros; [|lia]. apply wp_bind. wp_sys_intro.
  pose proof (kf_writev _ _ _ _ _ Hk Hn) as Hsame.
  pose proof (ready_after fuel _ _ _ _ (conj Hfd Hsig) Hk) as [_ Hsig'].
  assert (serving fd c (after s (Sys_writev (tipc_fd (g_ipc (globals s)))
    (answer (set_result e msg) out)) r w)) as Hs'.
  { unfold serving, ready in *; simpl in *. rewrite !Hsame. done. }
  apply wp_if; intros _; apply wp_ret; (split_and!; [eauto| |exact Hs']);
    unfold answered; simpl; by rewrite sent_app.
Qed.

(** The handle of an open file is its descriptor. *)
Lemma handle_fd h : 0 <= h < 2 ^ 31 -> s32 h = h.
Proof. intros. apply s32_small. wide_lia. Qed.

Lemma off_nonneg o : 0 <= o < 2 ^ 63 -> s64 o = o.
Proof. intros. change (2 ^ 63) with 9223372036854775808 in *. wide_lia. Qed.

(** A plain request goes straight to its handler. *)
Lemma plain_write msg r n :
  cmd msg = STORAGE_FILE_WRITE -> flags msg = 0 ->
  handle_req (W:=W) fuel bits msg r n = storage_file_write fuel msg r n ≫= finish.
Proof. intros Hc Hf. unfold handle_req, dispatch. rewrite Hf, Hc. reflexivity. Qed.

Lemma plain_read msg r n :
  cmd msg = STORAGE_FILE_READ -> flags msg = 0 ->
  handle_req (W:=W) fuel bits msg r n = storage_file_read fuel msg r n ≫= finish.
Proof. intros Hc Hf. unfold handle_req, dispatch. rewrite Hf, Hc. reflexivity. Qed.

Lemma plain_set_size msg r n :
  cmd msg = STORAGE_FILE_SET_SIZE -> flags msg = 0 ->
  handle_req (W:=W) fuel bits msg r n = storage_file_set_size fuel msg r n ≫= finish.
Proof. intros Hc Hf. unfold handle_req, dispatch. rewrite Hf, Hc. reflexivity. Qed.

(** [finish] adds nothing to a handler that answered. *)
Lemma finish_spec (m : PM W (Z * storage_msg)) msg (Q : proc W proxy_globals -> Prop) s :
  0 <= tipc_fd (g_ipc (globals s)) -> answers_echo msg m ->
  wp m (fun o s' => (exists x, o = Ret x) /\ Q s') s ->
  wp (m ≫= finish) (fun o s' => (exists x, o = Ret x) /\ Q s') s.
Proof.
  intros Hfd Ha Hm. apply wp_bind. specialize (Ha s Hfd). unfold wp in *.
  destruct (m s) as [[[rc m']|e] s']; simpl in *; [|by destruct Hm as [[? ?] _]].
  destruct Ha as [_ [Hrc _]]. replace (0 <? rc) with false by lia. destruct Hm. split; eauto.
Qed.

Lemma lookup_serving h dirty fd c s :
  0 <= h -> serving fd c s ->
  wp (lookup_fd h dirty) (fun o s' => o = Ret (s32 h) /\ serving fd c s' /\
    sent (trace s') = sent (trace s) /\ g_ipc (globals s') = g_ipc (globals s)) s.
Proof.
  intros Hh Hs. unfold lookup_fd. apply wp_bind.
  destruct dirty; [apply wp_if; intros Ht|];
    [apply wp_put_fd_state, wp_modify; [lia|]|apply wp_modify|apply wp_ret]; apply wp_ret; (split; [done|]); (split; [exact Hs|done]).
Qed.

(** The errno of a failed call is never taken for success. *)
Lemma translate_errno_fails e : e <> 0 -> translate_errno e <> STORAGE_NO_ERROR.
Proof.
  intros He. unfold translate_errno. replace (e =? 0) with false by lia.
  by repeat match goal with |- context [if ?b then _ else _] => destruct b end.
Qed.

(** After calls on [fd] that made its contents [c']. *)
Lemma serving_calls fd c c' s s' :
  serving fd c s -> calls_only s s' -> not_files s s' -> contents (world s') fd = Some c' ->
  serving fd c' s'.
Proof.
  intros ([? ?] & _ & Hn & ?) (Hg & _ & Hs) Hnf Hc. unfold serving, ready. rewrite Hg.
  split_and!; [done|lia|done|by apply Hnf|done].
Qed.

(** A write request stores its payload at its offset; if it reports an error
    a prefix of the payload was stored. *)
Lemma write_request msg r n h off c s :
  cmd msg = STORAGE_FILE_WRITE -> flags msg = 0 -> sizeof_write_req <= n -> n <= zlen r ->
  zlen r < Z.of_nat fuel ->
  wr_handle (write_req_dec r) = h -> wr_offset (write_req_dec r) = off ->
  0 <= h < 2 ^ 31 -> 0 <= off < 2 ^ 63 -> serving h c s ->
  let data := slice sizeof_write_req (n - sizeof_write_req) r in
  wp (handle_req fuel bits msg r n) (fun o s' => (exists x, o = Ret x) /\ exists e k,
    answered msg e None s s' /\ serving h (file_write c off (take k data)) s' /\
    (e = STORAGE_NO_ERROR -> take k data = data)) s.
Proof.
  intros Hcmd Hfl Hn Hnr Hfuel Hh Ho Hhr Hor Hs data. rewrite plain_write by done.
  pose proof Hs as ([Hfd _] & _).
  apply (finish_spec _ msg); [done|apply write_answers|]. unfold storage_file_write.
  apply wp_if; intros Hlt; [lia|]. apply wp_bind. rewrite Hh, Ho.
  eapply wp_mono; [apply lookup_serving; [lia|done]|]. rewrite handle_fd, off_nonneg by done.
  intros o s1 (-> & Hs1 & Ht1 & Hi1). apply wp_bind. pose proof Hs1 as ([_ Hsig] & Hc1 & _).
  eapply wp_mono; [apply (write_loop_spec fuel fuel h c); [done|done|lia|]|].
  { rewrite zlen_slice; unfold sizeof_write_req in *; lia. }
  intros o s2 (Hcalls & Hnf & rc & k & -> & Hc2 & Hrc).
  pose proof (serving_calls _ _ _ _ _ Hs1 Hcalls Hnf Hc2) as Hs2.
  destruct Hcalls as (Hg & Ht2 & _).
  assert (forall e, wp (ipc_respond (set_result e msg) None) (fun o s' =>
    (exists x, o = Ret x) /\ answered msg e None s s' /\
    serving h (file_write c off (take k data)) s') s2) as Hresp.
  { intros e. eapply wp_mono; [by apply respond_spec|]. intros o s3 (Hx & Ha & Hs3).
    split_and!; [done| |done]. unfold answered in *. by rewrite Ha, Ht2, Ht1, Hg, Hi1. }
  apply wp_if; intros Hneg.
  - apply wp_bind, wp_get_errno. eapply wp_mono; [apply Hresp|]. intros o s3 (Hx & Ha & Hs3).
    split; [done|]. eexists _, k. split_and!; [done|done|]. intros He. exfalso.
    destruct Hrc as [[_ Hne]|[-> _]]; [|done]. by apply (translate_errno_fails (errno s2)).
  - eapply wp_mono; [apply Hresp|]. intros o s3 (Hx & Ha & Hs3). split; [done|].
    eexists _, k. split_and!; [done|done|]. intros _.
    destruct Hrc as [[? _]|[_ ?]]; [lia|done].
Qed.

(** A read request returns the bytes of the file in the range it names. *)
Lemma read_request msg r h off sz c s :
  cmd msg = STORAGE_FILE_READ -> flags msg = 0 -> MAX_READ_SIZE < Z.of_nat fuel ->
  read_req_dec r = ReadReq h sz off ->
  0 <= h < 2 ^ 31 -> 0 <= off < 2 ^ 63 -> 0 <= sz <= MAX_READ_SIZE -> serving h c s ->
  wp (handle_req fuel bits msg r sizeof_read_req) (fun o s' => (exists x, o = Ret x) /\
    exists e out, answered msg e out s s' /\ serving h c s' /\
    (e = STORAGE_NO_ERROR ->
       out = Some (slice off (Z.max 0 (Z.min sz (zlen c - off))) c))) s.
Proof.
  intros Hcmd Hfl Hfuel Hdec Hhr Hor Hsz Hs. rewrite plain_read by done.
  pose proof Hs as ([Hfd _] & _).
  apply (finish_spec _ msg); [done|apply read_answers|]. unfold storage_file_read.
  rewrite Hdec. cbn [rd_handle rd_size rd_offset negb sizeof_read_req Z.eqb Pos.eqb].
  apply wp_if; intros Hlt; [lia|]. apply wp_bind.
  eapply wp_mono; [apply lookup_serving; [lia|done]|]. rewrite handle_fd, off_nonneg by done.
  intros o s1 (-> & Hs1 & Ht1 & Hi1). apply wp_bind, wp_gets, wp_bind.
  pose proof Hs1 as (Hr1 & Hc1 & Hn1 & Hl1). pose proof Hr1 as [_ Hsig].
  rewrite <- Hl1.
  eapply wp_mono; [apply (read_loop_spec fuel fuel h c); [done|done|lia|lia|lia|lia]|].
  intros o s2 ((Hg & Ht2 & Hsg) & Hsame & rc & buf & -> & Hbl & Hrc).
  apply wp_bind, wp_modify.
  assert (serving h c (Proc (on_storage (set_read_rsp buf) (globals s2)) (world s2) (errno s2)
    (trace s2))) as Hs2.
  { unfold serving, ready in *; simpl. rewrite Hg, !Hsame. split_and!; [apply Hr1|lia|done|done|].
    rewrite Hbl. done. }
  set (s3 := Proc _ _ _ _) in *.
  assert (forall e out s', answered msg e out s3 s' -> answered msg e out s s') as Hans.
  { intros e out s' Ha. unfold answered in *. rewrite Ha; simpl. by rewrite Ht2, Ht1, Hg, Hi1. }
  apply wp_if; intros Hneg.
  - apply wp_bind, wp_get_errno. eapply wp_mono; [by apply respond_spec|].
    intros o s4 (Hx & Ha & Hs4). split; [done|]. eexists _, _. split_and!; [by apply Hans|done|].
    intros He. exfalso. destruct Hrc as [[_ Hne]|(k & -> & ? & _)]; [|lia].
    by apply (translate_errno_fails (errno s2)).
  - eapply wp_mono; [by apply respond_spec|]. intros o s4 (Hx & Ha & Hs4). split; [done|].
    eexists _, _. split_and!; [by apply Hans|done|]. intros _.
    destruct Hrc as [[? _]|(k & -> & Hk & _ & Hnew)]; [lia|]. by rewrite Z.add_0_l, <- Hk, Hnew.
Qed.

(** A resize request sets the size, or reports an error and changes nothing. *)
Lemma set_size_request msg r h sz c s :
  cmd msg = STORAGE_FILE_SET_SIZE -> flags msg = 0 ->
  set_size_req_dec r = SetSizeReq sz h ->
  0 <= h < 2 ^ 31 -> 0 <= sz < 2 ^ 63 -> serving h c s ->
  wp (handle_req fuel bits msg r sizeof_set_size_req) (fun o s' => (exists x, o = Ret x) /\
    exists e, answered msg e None s s' /\
    serving h (if decide (e = STORAGE_NO_ERROR) then file_resize c sz else c) s') s.
Proof.
  intros Hcmd Hfl Hdec Hhr Hor Hs. rewrite plain_set_size by done.
  pose proof Hs as ([Hfd _] & _).
  apply (finish_spec _ msg); [done|apply set_size_answers|]. unfold storage_file_set_size.
  rewrite Hdec. cbn [ss_handle ss_size negb sizeof_set_size_req Z.eqb Pos.eqb]. apply wp_bind.
  eapply wp_mono; [apply lookup_serving; [lia|done]|]. rewrite handle_fd, off_nonneg by done.
  intros o s1 (-> & Hs1 & Ht1 & Hi1). apply wp_bind. pose proof Hs1 as ([_ Hsig] & Hc1 & _).
  apply (wp_retry_calls fuel _ (fun w => contents w h = Some c /\
    forall f, contents (world s1) f = None -> contents w f = None)); [done|done|by split| |].
  { intros w x w' [HI Hn'] Hk [Hr _].
    destruct (kf_ftruncate h sz w x w' c Hk HI ltac:(lia)) as (_ & Hx & ?).
    rewrite Hr in Hx. auto. }
  intros s2 w0 x Hcalls [HI Hnf] Hk Herr.
  destruct (kf_ftruncate h sz w0 x (world s2) c Hk HI ltac:(lia)) as (Hneg & Hnew & Hnf').
  assert (not_files s1 s2) as Hns by (unfold not_files; auto).
  pose proof (serving_calls _ _ _ _ _ Hs1 Hcalls Hns Hnew) as Hs2.
  destruct Hcalls as (Hg & Ht2 & _).
  assert (forall e s', answered msg e None s2 s' -> answered msg e None s s') as Hans.
  { intros e s' Ha. unfold answered in *. by rewrite Ha, Ht2, Ht1, Hg, Hi1. }
  destruct (Z.ltb_spec (sr_ret x) 0) as [Hx|Hx].
  - apply wp_bind, wp_get_errno. eapply wp_mono; [by apply respond_spec|].
    intros o s3 (Hx3 & Ha & Hs3). split; [done|]. eexists. split; [by apply Hans|].
    rewrite Herr by done. destruct (decide _) as [He|_]; [|done].
    by apply translate_errno_fails in He; [|apply Hneg].
  - eapply wp_mono; [by apply respond_spec|]. intros o s3 (Hx3 & Ha & Hs3). split; [done|].
    eexists. split; [by apply Hans|]. by destruct (decide _).
Qed.
End FileRequests.
