(* ===== verification/MemKernel.v ===== *)
(** * A small in-memory kernel

    An instance of every kernel interface of the development: files and
    descriptors in memory, calls interrupted while signals are pending, short
    reads and writes, messages waiting on the channel, descriptors whose
    [fsync] fails.  It shows that the laws are consistent and lets the theorems
    be evaluated on concrete runs. *)

From S2P Require Import Prelude Kernel StorageProto Libtrusty ProxyState Ipc Storage StorageFiles.

Record mem_world := MemWorld {
  mw_files : gmap bytes bytes;      (* contents by path *)
  mw_fds : gmap Z bytes;            (* open files: path by descriptor *)
  mw_inbox : list bytes;            (* messages waiting on the channel *)
  mw_signals : nat;                 (* interruptions still to come *)
  mw_chunk : nat;                   (* bytes per read or write, minus one *)
  mw_bad_sync : list Z              (* descriptors whose fsync fails *)
}.

Definition EMFILE := 24.
Definition EAGAIN := 11.

Definition ret (z : Z) : sysret := SysRet z 0 [].
Definition fail (e : Z) : sysret := SysRet (-1) e [].

(** The lowest free descriptor above the standard ones. *)
Definition free_fd (fds : gmap Z bytes) : option Z :=
  head (filter (fun fd => fds !! fd = None) (seqZ 3 61)).

Definition set_files f w := MemWorld f (mw_fds w) (mw_inbox w) (mw_signals w) (mw_chunk w)
  (mw_bad_sync w).
Definition set_fds f w := MemWorld (mw_files w) f (mw_inbox w) (mw_signals w) (mw_chunk w)
  (mw_bad_sync w).
Definition set_inbox f w := MemWorld (mw_files w) (mw_fds w) f (mw_signals w) (mw_chunk w)
  (mw_bad_sync w).
Definition set_signals f w := MemWorld (mw_files w) (mw_fds w) (mw_inbox w) f (mw_chunk w)
  (mw_bad_sync w).

Definition mem_contents (w : mem_world) (fd : Z) : option bytes :=
  p ← mw_fds w !! fd; mw_files w !! p.

Definition open_at (path : bytes) (w : mem_world) : sysret * mem_world :=
  match free_fd (mw_fds w) with
  | Some fd => (ret fd, set_fds (<[fd := path]> (mw_fds w)) w)
  | None => (fail EMFILE, w)
  end.

(** Calls on slow devices can be interrupted. *)
Definition slow (c : syscall) : bool :=
  match c with
  | Sys_open _ _ _ | Sys_pread _ _ _ | Sys_pwrite _ _ _ | Sys_ftruncate _ _ => true
  | _ => false
  end.

Definition all_u8 (b : bytes) : bool := forallb (fun z => (0 <=? z) && (z <? 256)) b.

(** Replace the contents of the file behind [fd]. *)
Definition store (fd : Z) (f : bytes -> bytes) (ok : sysret) (w : mem_world) : sysret * mem_world :=
  match mw_fds w !! fd with
  | Some p =>
      match mw_files w !! p with
      | Some c => (ok, set_files (<[p := f c]> (mw_files w)) w)
      | None => (fail EIO, w)
      end
  | None => (fail EBADF, w)
  end.

Definition mem_answer (c : syscall) (w : mem_world) : sysret * mem_world :=
  match c with
  | Sys_open path fl _ =>
      match mw_files w !! path with
      | Some _ =>
          if has_flag fl O_CREAT && has_flag fl O_EXCL then (fail EEXIST, w)
          else open_at path (if has_flag fl O_TRUNC then set_files (<[path := []]> (mw_files w)) w
                             else w)
      | None =>
          if has_flag fl O_CREAT then open_at path (set_files (<[path := []]> (mw_files w)) w)
          else (fail ENOENT, w)
      end
  | Sys_close fd => (ret 0, set_fds (delete fd (mw_fds w)) w)
  | Sys_unlink path => (ret 0, set_files (delete path (mw_files w)) w)
  | Sys_access path _ => (match mw_files w !! path with Some _ => ret 0 | None => fail ENOENT end, w)
  | Sys_rename from to =>
      match mw_files w !! from with
      | Some c => (ret 0, set_files (<[to := c]> (delete from (mw_files w))) w)
      | None => (fail ENOENT, w)
      end
  | Sys_pread fd n off =>
      match mem_contents w fd with
      | Some f =>
          if (off <? 0) || (2 ^ 63 <=? off + n) then (fail EINVAL, w)
          else
            let data := slice off (Z.min n (Z.of_nat (S (mw_chunk w)))) f in
            (SysRet (zlen data) 0 data, w)
      | None => (fail EBADF, w)
      end
  | Sys_pwrite fd d off =>
      if (off <? 0) || (2 ^ 63 <=? off + zlen d) then (fail EINVAL, w)
      else
        let k := Z.min (zlen d) (Z.of_nat (S (mw_chunk w))) in
        store fd (fun f => file_write f off (take (Z.to_nat k) d)) (ret k) w
  | Sys_ftruncate fd n =>
      if n <? 0 then (fail EINVAL, w)
      else store fd (fun f => file_resize f n) (ret 0) w
  | Sys_fsync fd => if existsb (Z.eqb fd) (mw_bad_sync w) then (fail EIO, w) else (ret 0, w)
  | Sys_fstat fd =>
      match mem_contents w fd with
      | Some f => (SysRet 0 0 (le_enc 8 (zlen f)), w)
      | None => (fail EBADF, w)
      end
  | Sys_readv _ lens =>
      match mw_inbox w with
      | m :: inbox =>
          if (zlen m <=? foldr Z.add 0 lens) && all_u8 m
          then (SysRet (zlen m) 0 m, set_inbox inbox w)
          else (fail EINVAL, set_inbox inbox w)
      | [] => (fail EAGAIN, w)
      end
  | Sys_read _ n =>
      match mw_inbox w with
      | m :: inbox =>
          if (zlen m <=? n) && all_u8 m then (SysRet (zlen m) 0 m, set_inbox inbox w)
          else (fail EINVAL, set_inbox inbox w)
      | [] => (fail EAGAIN, w)
      end
  | Sys_write _ d => (ret (zlen d), w)
  | Sys_writev _ iov => (ret (foldr Z.add 0 (map zlen iov)), w)
  | _ => (ret 0, w)
  end.

#[export] Instance mem_kernel : Kernel mem_world := fun c w =>
  match mw_signals w with
  | S n => if slow c then (fail EINTR, set_signals n w) else mem_answer c w
  | O => mem_answer c w
  end.

(** ** The laws *)

Lemma mem_answer_signals c w : mw_signals (mem_answer c w).2 = mw_signals w.
Proof.
  destruct c; simpl; unfold open_at, store; repeat case_match; simpl; try done; subst;
    repeat case_match; done.
Qed.

(** Only a pending signal makes a call report an interruption. *)
Lemma mem_answer_eintr c w : sr_errno (mem_answer c w).1 <> EINTR.
Proof.
  destruct c; simpl; unfold open_at, store; repeat case_match; simpl; done.
Qed.

#[export] Instance mem_signals : KernelSignals mem_world.
Proof.
  refine {| sig_left := mw_signals |}; intros c w; unfold kcall, mem_kernel.
  - destruct (mw_signals w) eqn:E; [by rewrite mem_answer_signals, E|].
    destruct (slow c); [simpl; lia|by rewrite mem_answer_signals, E].
  - destruct (mw_signals w) eqn:E.
    + intros _ He. by apply mem_answer_eintr in He.
    + destruct (slow c); [simpl; lia|]. intros _ He. by apply mem_answer_eintr in He.
Defined.

Lemma free_fd_range fds fd : free_fd fds = Some fd -> 3 <= fd < 64.
Proof.
  unfold free_fd. intros H. assert (fd ∈ filter (fun fd => fds !! fd = None) (seqZ 3 61)) as Hin.
  { destruct (filter _ _); simplify_eq/=. constructor. }
  apply list_elem_of_filter in Hin as [_ Hin]. apply elem_of_seqZ in Hin. lia.
Qed.

Lemma all_u8_spec b : all_u8 b = true -> Forall is_u8 b.
Proof.
  unfold all_u8. rewrite forallb_forall. intros H. apply List.Forall_forall. intros x Hx.
  specialize (H x Hx). wide_lia.
Qed.

(** An interrupted call is a plain failure. *)
Lemma mem_kcall_cases c w :
  kcall c w = mem_answer c w \/ exists n, kcall c w = (fail EINTR, set_signals n w).
Proof.
  unfold kcall, mem_kernel. destruct (mw_signals w); [by left|].
  destruct (slow c); [right; eauto|by left].
Qed.

Ltac mem_cases c w :=
  destruct (mem_kcall_cases c w) as [Hk|[n' Hk]]; rewrite Hk; clear Hk;
  [simpl mem_answer|simpl].

Lemma file_chunk off n k c :
  0 <= n -> zlen (slice off (Z.min n (Z.of_nat (S k))) c) <= n.
Proof. intros. unfold zlen. rewrite length_slice. lia. Qed.

#[export] Instance mem_bounds : KernelBounds mem_world.
Proof.
  split.
  - intros p fl m w. mem_cases (Sys_open p fl m) w; [|lia].
    assert (forall w', sr_ret (open_at p w').1 < 2 ^ 31) as Ho.
    { intros w'. unfold open_at. destruct (free_fd _) eqn:E; simpl; [|lia].
      apply free_fd_range in E. lia. }
    repeat case_match; simpl; try lia; apply Ho.
  - intros fd n off w Hn. mem_cases (Sys_pread fd n off) w; [|lia].
    repeat case_match; simpl; try lia. split; [by apply file_chunk|done].
  - intros fd d off w. pose proof (zlen_nonneg d). mem_cases (Sys_pwrite fd d off) w; [|lia].
    unfold store. repeat case_match; simpl; try lia. split; [lia|]. intros Hd.
    destruct d; [done|]. unfold zlen in *; simpl in *; lia.
  - intros fd n off w Ho. mem_cases (Sys_pread fd n off) w; [|lia].
    destruct (mem_contents w fd) as [c|]; simpl; [|lia].
    destruct (_ || _) eqn:E; simpl; [lia|]. apply orb_false_iff in E as [E1 E2].
    unfold zlen. rewrite length_slice. lia.
  - intros fd d off w Ho. pose proof (zlen_nonneg d). mem_cases (Sys_pwrite fd d off) w; [|lia].
    unfold store. repeat case_match; simpl; lia.
  - intros fd lens w Hl. assert (0 <= foldr Z.add 0 lens) by (induction Hl; simpl; lia).
    mem_cases (Sys_readv fd lens) w; [|lia]. destruct (mw_inbox w) as [|m inbox]; simpl; [lia|].
    destruct (Z.leb_spec (zlen m) (foldr Z.add 0 lens)); simpl; [|lia].
    destruct (all_u8 m) eqn:E; simpl; [|lia]. split; [lia|]. intros. split; [done|].
    by apply all_u8_spec.
  - intros fd n w Hn. mem_cases (Sys_read fd n) w; [|lia].
    destruct (mw_inbox w) as [|m inbox]; simpl; [lia|].
    destruct (Z.leb_spec (zlen m) n); simpl; [|lia].
    destruct (all_u8 m) eqn:E; simpl; [|lia]. split; [lia|]. intros. split; [done|].
    by apply all_u8_spec.
Qed.

Lemma free_fd_nonneg fds fd : free_fd fds = Some fd -> 0 <= fd.
Proof. intros H. apply free_fd_range in H. lia. Qed.

Lemma iov_nonneg (iov : list bytes) : 0 <= foldr Z.add 0 (map zlen iov).
Proof. induction iov as [|b iov IH]; simpl; [lia|]. pose proof (zlen_nonneg b). lia. Qed.

#[export] Instance mem_errno : KernelErrno mem_world.
Proof.
  split. intros c w. destruct (mem_kcall_cases c w) as [Hk|[n' Hk]]; rewrite Hk; [|reflexivity].
  destruct c;
    simpl; unfold open_at, store; repeat case_match; simpl; try lia; try (intros _; reflexivity).
  all: try (match goal with H : free_fd _ = Some _ |- _ => apply free_fd_nonneg in H; lia end).
  all: try (match goal with |- zlen ?x < 0 -> _ => pose proof (zlen_nonneg x); lia end).
  all: try (match goal with |- Z.min (zlen ?x) _ < 0 -> _ => pose proof (zlen_nonneg x); lia end).
  pose proof (iov_nonneg iov). lia.
Qed.

(** Storing through [fd] changes files only. *)
Lemma store_law fd f ok w r w' c :
  store fd f ok w = (r, w') -> mem_contents w fd = Some c ->
  r = ok /\ mem_contents w' fd = Some (f c) /\
  (forall g, mem_contents w g = None -> mem_contents w' g = None).
Proof.
  unfold store, mem_contents. intros Hs Hc.
  destruct (mw_fds w !! fd) as [p|] eqn:Ep; simplify_eq/=. rewrite Hc in Hs. simplify_eq/=.
  split_and!; [done|rewrite Ep; simpl; by rewrite lookup_insert_eq|].
  intros g. destruct (mw_fds w !! g) as [q|]; simpl; [|done]. intros Hq.
  rewrite lookup_insert_ne; [done|]. intros ->. congruence.
Qed.

#[export] Instance mem_files : KernelFiles mem_world.
Proof.
  refine {| contents := mem_contents |}.
  - intros fd n off w r w' c Hk Hc Hn Hoff. revert Hk. mem_cases (Sys_pread fd n off) w.
    2:{ intros; simplify_eq/=. split_and!; [done|done|lia]. }
    rewrite Hc. destruct (_ || _); intros; simplify_eq/=; [split_and!; [done|done|lia]|].
    set (m := Z.min n (Z.of_nat (S (mw_chunk w')))).
    assert (0 <= m /\ (m = 0 -> n = 0)) as [Hm Hm0] by (unfold m; lia). clearbody m.
    assert (zlen (slice off m c) = Z.max 0 (Z.min m (zlen c - off))) as Hz
      by (unfold zlen; rewrite length_slice; lia).
    split_and!; [done|pose proof (zlen_nonneg (slice off m c)); lia|]. intros _.
    split_and!; [|lia|lia]. rewrite Hz. unfold slice.
    destruct (decide (zlen c <= off)).
    + rewrite !drop_ge by (unfold zlen in *; lia). by rewrite !take_nil.
    + rewrite <- (take_ge (take (Z.to_nat m) (drop (Z.to_nat off) c)) (Z.to_nat (zlen c - off)))
        by (rewrite length_take, length_drop; unfold zlen; lia).
      rewrite take_take. f_equal. lia.
  - intros fd d off w r w' c Hk Hc Hoff. revert Hk. mem_cases (Sys_pwrite fd d off) w.
    2:{ intros; simplify_eq/=. split_and!; [done|done|done]. }
    destruct (_ || _); [intros; simplify_eq/=; split_and!; done|]. intros Hs.
    destruct (store_law _ _ _ _ _ _ _ Hs Hc) as (-> & Hn & Ho). pose proof (zlen_nonneg d).
    cbn [ret sr_ret sr_errno]. clear Hs. destruct (Z.ltb_spec (Z.min (zlen d) (Z.of_nat (S (mw_chunk w)))) 0); [lia|]. split_and!; [lia|done|done].
  - intros fd n w r w' c Hk Hc Hn. revert Hk. mem_cases (Sys_ftruncate fd n) w.
    2:{ intros; simplify_eq/=. split_and!; [done|done|done]. }
    replace (n <? 0) with false by lia. intros Hs.
    destruct (store_law _ _ _ _ _ _ _ Hs Hc) as (-> & Hn' & Ho). simpl.
    split_and!; [lia|done|done].
  - intros fd iov w r w' Hk _ f. revert Hk. mem_cases (Sys_writev fd iov) w;
      intros; by simplify_eq/=.
Defined.
