(* ===== verification/ProxyTheorems.v ===== *)
(** * What storageproxyd guarantees

    The theorems about lite/storage/proxy and lite/libtrusty: the protocol on
    the channel, durability and the commit barrier, what reads and writes
    return and store, the RPMB commands, start-up.  Each is followed by an
    application to a concrete run on the in-memory kernel. *)

From S2P Require Import Prelude Kernel StorageProto Libtrusty ProxyState Ipc Storage Rpmb Proxy StorageSync SyncRequests ProxyAnswers ProxyLoop ProxyMain StorageFiles MemKernel.

(** ** A concrete process *)

Definition demo_fuel : nat := Z.to_nat 70000.

(** One file open at descriptor 3, one signal to come, eight bytes per call. *)
Definition demo_world : mem_world :=
  MemWorld {[ cstr "/data/f" := cstr "0123456789abcdef" ]} {[ 3 := cstr "/data/f" ]} [] 1 7 [].

Definition demo_globals : proxy_globals :=
  ProxyGlobals storage_st0 rpmb_st0 (IpcSt 5) proxy_st0.

Definition demo_proc : proc mem_world proxy_globals := Proc demo_globals demo_world 0 [].

Definition demo_msg (c : Z) : storage_msg := StorageMsg c 7 0 40 0 0.

(** Every file is on the file system of the data directory. *)
Definition one_fs (d fd : Z) : bool := true.

Lemma demo_inv : sync_inv one_fs demo_proc.
Proof.
  split; [by split|]. split; [intros fd; by left|].
  intros fd H. done.
Qed.

Lemma demo_ready : ready demo_fuel demo_proc.
Proof. split; [done|]. simpl. unfold demo_fuel. lia. Qed.

Lemma demo_serving : serving demo_fuel 3 (cstr "0123456789abcdef") demo_proc.
Proof. split; [apply demo_ready|]. split_and!; by vm_compute. Qed.

(** ** The channel *)

(** C1. Protocol of the daemon, on a platform with a 64-bit [size_t].  From the
    initial process state, with a kernel that interrupts finitely many calls and
    never returns more than it was asked for, and whatever else it answers and
    whatever arrives on the channel, [main] does not run into undefined behaviour
    (an array accessed out of its bounds, an offset that overflows, a name
    without end) or a failed assertion: it ends with the failure status, before
    or after serving, or is still serving after [n] messages.  Unless a client
    used the BATCH flag, it has by then sent exactly one answer for every request
    it accepted, in the order of the requests and on one channel. *)
Theorem daemon_protocol {W} `{K : Kernel W} `{KS : !KernelSignals W} `{KB : !KernelBounds W}
    fuel n msg0 opts w e :
  REQ_BUFFER_SIZE + 1 < Z.of_nat fuel -> (sig_left w < fuel)%nat ->
  let run := main fuel 64 n msg0 opts (Proc proxy_globals0 w e []) in
  (Forall unbatched (accepted (trace run.2)) ->
   exists fd, Forall2 (reply fd) (accepted (trace run.2)) (sent (trace run.2))) /\
  (run.1 = Ret EXIT_FAILURE \/ run.1 = Stop (Exit EXIT_FAILURE) \/
   (run.1 = Stop OutOfFuel /\ length (accepted (trace run.2)) = n)).
Proof.
  intros Hf Hs run. destruct (main_spec fuel n msg0 opts (Proc proxy_globals0 w e [])) as [? ?]; [done| |done].
  split_and!; [done|apply buf_ok_init|done|done|done].
Qed.

(** Two requests, an open and an unknown command, then the channel fails. *)
Definition demo_inbox : list bytes :=
  [storage_msg_enc (StorageMsg STORAGE_FILE_OPEN 1 0 31 0 0) ++ le_enc 4 0 ++ cstr "/f" ++ [0];
   storage_msg_enc (StorageMsg 60 2 0 24 0 0)].

Definition demo_run : outcome Z * proc mem_world proxy_globals :=
  main demo_fuel 64 3 (demo_msg 0) [(100, cstr "/data/f"); (112, cstr "storage")]
    (Proc proxy_globals0 (set_inbox demo_inbox demo_world) 0 []).

Lemma daemon_protocol_witness :
  length (accepted (trace demo_run.2)) = 2%nat /\ length (sent (trace demo_run.2)) = 2%nat /\
  demo_run.1 = Ret EXIT_FAILURE /\
  ((Forall unbatched (accepted (trace demo_run.2)) ->
    exists fd, Forall2 (reply fd) (accepted (trace demo_run.2)) (sent (trace demo_run.2))) /\
   (demo_run.1 = Ret EXIT_FAILURE \/ demo_run.1 = Stop (Exit EXIT_FAILURE) \/
    (demo_run.1 = Stop OutOfFuel /\ length (accepted (trace demo_run.2)) = 3%nat))).
Proof.
  split; [vm_compute; reflexivity|]. split; [vm_compute; reflexivity|]. split; [vm_compute; reflexivity|].
  apply daemon_protocol; unfold demo_fuel, REQ_BUFFER_SIZE; simpl sig_left; lia.
Defined.

(** C2. A checkpoint that reports success left nothing unsynchronised: after any
    requests from a state in which nothing was pending, none of them a close whose
    [fsync] failed, and with every file on the file system of one of the open
    roots, [storage_sync_checkpoint] either fails with a negative value or returns
    0; then no descriptor has pending changes and nothing is marked dirty. *)
Theorem checkpoint_durable {W} `{K : Kernel W} `{KB : !KernelBounds W} same_fs fuel bits (s : proc W proxy_globals) :
  marks_kept same_fs fuel bits s ->
  let run := storage_sync_checkpoint s in
  (exists rc, run.1 = Ret rc /\ rc < 0) \/
  (run.1 = Ret 0 /\ all_clean (sst run.2) /\ forall fd, pending same_fs (trace run.2) fd = false).
Proof.
  intros Hs%marks_kept_inv run. destruct (checkpoint_spec same_fs s Hs) as [Hi Ho]. fold run in Hi, Ho.
  destruct (run.1) as [rc|]; [|done].
  destruct Ho as [Hn|[-> Hc]]; [left; eauto|right]. split_and!; [done|done|].
  by apply clean_nothing_pending.
Qed.

Definition demo_write : bytes := write_req_enc (WriteReq 4 3 0) ++ cstr "ABCDEFGHIJ".
(** A state with a change that is pending: after a write. *)
Definition dirty_proc : proc mem_world proxy_globals :=
  (handle_req demo_fuel 64 (demo_msg STORAGE_FILE_WRITE) demo_write 26 demo_proc).2.

Lemma dirty_marks : marks_kept one_fs demo_fuel 64 dirty_proc.
Proof.
  apply mk_request; [|apply all_u8_spec; reflexivity|by intros [? _]].
  apply mk_start; [by split|intros fd; by left|done].
Qed.

Lemma checkpoint_durable_witness :
  let run := storage_sync_checkpoint dirty_proc in
  pending one_fs (trace dirty_proc) 3 = true /\ run.1 = Ret 0 /\
  ((exists rc, run.1 = Ret rc /\ rc < 0) \/
   (run.1 = Ret 0 /\ all_clean (sst run.2) /\ forall fd, pending one_fs (trace run.2) fd = false)).
Proof.
  split; [vm_compute; reflexivity|]. split; [vm_compute; reflexivity|].
  apply (checkpoint_durable one_fs demo_fuel 64), dirty_marks.
Defined.

(** C3. Every request keeps the dirty marks sound: after [handle_req] every
    descriptor with pending changes is still marked, unless the request was a
    close whose [fsync] failed. *)
Theorem request_keeps_marks {W} `{K : Kernel W} `{KB : !KernelBounds W} same_fs fuel bits msg r n
    (s : proc W proxy_globals) :
  Forall is_u8 r -> sync_inv same_fs s ->
  let s' := (handle_req fuel bits msg r n s).2 in
  sync_inv same_fs s' \/
  (cmd msg = STORAGE_FILE_CLOSE /\ close_sync_failed (s32 (req_handle r)) s s').
Proof. intros Hr Hs. exact (handle_req_inv same_fs fuel bits msg r n s Hr Hs). Qed.

Lemma request_keeps_marks_witness :
  let r := write_req_enc (WriteReq 4 3 0) ++ [65; 66; 67] in
  let s' := (handle_req demo_fuel 64 (demo_msg STORAGE_FILE_WRITE) r 19 demo_proc).2 in
  sync_inv one_fs s' \/
  (cmd (demo_msg STORAGE_FILE_WRITE) = STORAGE_FILE_CLOSE /\
   close_sync_failed (s32 (req_handle r)) demo_proc s').
Proof.
  apply request_keeps_marks; [|apply demo_inv].
  repeat (apply Forall_cons; split; [vm_compute; split; congruence|]). apply Forall_nil_2.
Defined.



(** C5. Write, then read.  If a plain write request on an open file is answered
    without error and a read of the same range is answered without error, the
    read returns exactly the bytes written, however the kernel split or
    interrupted the calls in between. *)
Theorem write_read_roundtrip {W} `{K : Kernel W} `{KS : !KernelSignals W} `{KB : !KernelBounds W}
    `{KF : !KernelFiles W} fuel bits msgw msgr rw rr n h off c (s : proc W proxy_globals) :
  cmd msgw = STORAGE_FILE_WRITE -> flags msgw = 0 ->
  sizeof_write_req < n -> n <= zlen rw -> zlen rw < Z.of_nat fuel ->
  wr_handle (write_req_dec rw) = h -> wr_offset (write_req_dec rw) = off ->
  cmd msgr = STORAGE_FILE_READ -> flags msgr = 0 -> MAX_READ_SIZE < Z.of_nat fuel ->
  read_req_dec rr = ReadReq h (n - sizeof_write_req) off ->
  n - sizeof_write_req <= MAX_READ_SIZE ->
  0 <= h < 2 ^ 31 -> 0 <= off < 2 ^ 63 -> serving fuel h c s ->
  let data := slice sizeof_write_req (n - sizeof_write_req) rw in
  let s1 := (handle_req fuel bits msgw rw n s).2 in
  let s2 := (handle_req fuel bits msgr rr sizeof_read_req s1).2 in
  exists e1 e2 out, answered msgw e1 None s s1 /\ answered msgr e2 out s1 s2 /\
    (e1 = STORAGE_NO_ERROR -> e2 = STORAGE_NO_ERROR -> out = Some data).
Proof.
  intros Hcw Hfw Hn Hnr Hfu Hh Ho Hcr Hfr Hfu' Hdec Hmax Hhr Hor Hs data s1 s2.
  destruct (write_request fuel bits msgw rw n h off c s) as (_ & e1 & k & Ha1 & Hs1 & He1);
    try done; [lia|]. fold s1 in Ha1, Hs1.
  destruct (read_request fuel bits msgr rr h off (n - sizeof_write_req) _ s1 Hcr Hfr Hfu' Hdec
    Hhr Hor ltac:(lia) Hs1) as (_ & e2 & out & Ha2 & _ & He2). fold s2 in Ha2.
  exists e1, e2, out. split_and!; [done|done|]. intros E1 E2. rewrite He2 by done.
  rewrite (He1 E1). fold data.
  assert (zlen data = n - sizeof_write_req) as Hl by (apply zlen_slice; unfold sizeof_write_req in *; lia).
  assert (data <> []) as Hd by (intros Hd; rewrite Hd in Hl; unfold zlen in Hl; simpl in Hl; lia).
  f_equal. rewrite zlen_file_write by (done || lia).
  replace (Z.max 0 _) with (zlen data) by (unfold sizeof_write_req in *; lia).
  apply slice_file_write. lia.
Qed.

Definition demo_read : bytes := read_req_enc (ReadReq 3 10 4).

Lemma write_read_roundtrip_witness :
  let s1 := (handle_req demo_fuel 64 (demo_msg STORAGE_FILE_WRITE) demo_write 26 demo_proc).2 in
  let s2 := (handle_req demo_fuel 64 (demo_msg STORAGE_FILE_READ) demo_read sizeof_read_req s1).2 in
  exists e1 e2 out, answered (demo_msg STORAGE_FILE_WRITE) e1 None demo_proc s1 /\
    answered (demo_msg STORAGE_FILE_READ) e2 out s1 s2 /\
    (e1 = STORAGE_NO_ERROR -> e2 = STORAGE_NO_ERROR -> out = Some (slice 16 10 demo_write)).
Proof.
  eapply (write_read_roundtrip demo_fuel 64 _ _ demo_write demo_read 26 3 4);
    try exact demo_serving; try reflexivity; unfold demo_fuel, MAX_READ_SIZE; try lia.
  vm_compute. congruence.
Defined.

(** One request, one answer: the frame sent for any request. *)
Lemma handle_req_once {W} `{K : Kernel W} `{KS : !KernelSignals W} `{KB : !KernelBounds W}
    fuel msg r n (s : proc W proxy_globals) :
  buf_ok r -> n <= REQ_BUFFER_SIZE -> REQ_BUFFER_SIZE + 1 < Z.of_nat fuel -> ready fuel s ->
  let run := handle_req fuel 64 msg r n s in
  exists rc m' out, run.1 = Ret (rc, set_cmd (Z.lor (cmd msg) STORAGE_RESP_BIT) m') /\
    -1 <= rc <= 0 /\ echoes msg m' /\
    sent (trace run.2) = sent (trace s) ++ [(tipc_fd (g_ipc (globals s)), answer m' out)].
Proof.
  intros Hb Hn Hf Hr run. pose proof Hb as (Hl & Hu & _).
  destruct (total_handle_req fuel msg r n (buf_ok_named _ Hb) Hu ltac:(lia) ltac:(lia)
    ltac:(unfold MAX_READ_SIZE, REQ_BUFFER_SIZE in *; lia) s Hr) as [[[rc m] Ho] _].
  pose proof (handle_req_answers fuel 64 msg r n s (proj1 Hr)) as [_ Ha].
  fold run in Ha, Ho. rewrite Ho in Ha. destruct Ha as (Hrc & m1 & out & -> & He & Hse).
  exists rc, m1, out. split_and!; try done; try lia. rewrite Ho. by rewrite (proj1 He).
Qed.

(** C6. One request, one answer, on a platform with a 64-bit [size_t].  Every
    request without the BATCH flag whose buffer is a terminated request buffer is
    handled to the end, whatever the kernel answers; exactly one frame is sent, on
    the channel, carrying the request's command with the response bit, its
    operation id and flags. *)
Theorem request_answered_once {W} `{K : Kernel W} `{KS : !KernelSignals W} `{KB : !KernelBounds W}
    fuel msg r n (s : proc W proxy_globals) :
  unbatched msg ->
  buf_ok r -> n <= REQ_BUFFER_SIZE -> REQ_BUFFER_SIZE + 1 < Z.of_nat fuel -> ready fuel s ->
  let run := handle_req fuel 64 msg r n s in
  exists rc m' out, run.1 = Ret (rc, set_cmd (Z.lor (cmd msg) STORAGE_RESP_BIT) m') /\
    -1 <= rc <= 0 /\ echoes msg m' /\
    sent (trace run.2) = sent (trace s) ++ [(tipc_fd (g_ipc (globals s)), answer m' out)].
Proof. intros _. apply handle_req_once. Qed.

Lemma request_answered_once_witness :
  let r := req_buffer (g_proxy proxy_globals0) in
  let msg := demo_msg STORAGE_FILE_OPEN in
  let run := handle_req demo_fuel 64 msg r 4 demo_proc in
  exists rc m' out, run.1 = Ret (rc, set_cmd (Z.lor (cmd msg) STORAGE_RESP_BIT) m') /\
    -1 <= rc <= 0 /\ echoes msg m' /\
    sent (trace run.2) = sent (trace demo_proc) ++
      [(tipc_fd (g_ipc (globals demo_proc)), answer m' out)].
Proof.
  apply request_answered_once;
    [reflexivity|apply buf_ok_init|unfold REQ_BUFFER_SIZE; lia|unfold demo_fuel, REQ_BUFFER_SIZE; lia
    |apply demo_ready].
Defined.

(** What storage.h says of the BATCH flag is not implemented: such a request is
    answered at once like any other. *)
Theorem batch_answered_at_once {W} `{K : Kernel W} `{KS : !KernelSignals W} `{KB : !KernelBounds W}
    fuel msg r n (s : proc W proxy_globals) :
  has_flag (flags msg) STORAGE_MSG_FLAG_BATCH = true ->
  buf_ok r -> n <= REQ_BUFFER_SIZE -> REQ_BUFFER_SIZE + 1 < Z.of_nat fuel -> ready fuel s ->
  length (sent (trace (handle_req fuel 64 msg r n s).2)) = S (length (sent (trace s))).
Proof.
  intros _ Hb Hn Hf Hr. destruct (handle_req_once fuel msg r n s Hb Hn Hf Hr) as (_ & m' & out & _ & _ & _ & ->).
  rewrite length_app. simpl. lia.
Qed.

(** C17. RPMB commands.  On a platform with a 64-bit [size_t] the only MMC
    commands an RPMB request can cause are well formed (at most three of them,
    whole 512-byte blocks, reads fit the read buffer) and what they write is
    exactly the payload of the request, nothing outside it. *)
Theorem rpmb_ioctl_payload {W} `{K : Kernel W} msg r n (s : proc W proxy_globals) :
  Forall is_u8 r -> n <= zlen r ->
  exists evs, trace (rpmb_send 64 msg r n s).2 = trace s ++ evs /\
    Forall (fun e => match ev_call e with
      | Sys_ioctl fd req (Arg_mmc cmds) =>
          fd = rpmb_fd (g_rpmb (globals s)) /\ req = MMC_IOC_MULTI_CMD /\
          (length cmds <= 3)%nat /\ Forall mmc_cmd_ok cmds /\
          mmc_written cmds = slice sizeof_rpmb_req (n - sizeof_rpmb_req) r
      | Sys_writev _ _ => True
      | _ => False
      end) evs.
Proof.
  intros Hu Hn. set (P := fun e : event => _).
  change (grows_by P s (rpmb_send 64 msg r n s).2).
  assert (forall m out, keeps (grows_by P) (ipc_respond (W:=W) m out)) as Hresp
    by (intros; unfold ipc_respond; keeps_go; by apply grows_by_sys).
  unfold rpmb_send. case_match; [apply Hresp|]. case_match; [apply Hresp|].
  assert (n = expected_len 64 (rpmb_req_dec r)) as He by lia.
  pose proof (expected_len_covers r n Hu Hn He) as Hlen.
  unfold mbind at 1, M_bind at 1.
  assert (print_request (rpmb_req_dec r) r s = (Ret tt, s)) as -> by (by apply (print_request_returns r n)).
  destruct (rpmb_commands (rpmb_req_dec r) r) as [cmds|] eqn:Ec; [|apply Hresp].
  set (k := fun rc : sysret => _ : PM W (Z * storage_msg)).
  change (wp (sys (Sys_ioctl (rpmb_fd (g_rpmb (globals s))) MMC_IOC_MULTI_CMD (Arg_mmc cmds)) ≫= k)
    (fun _ s' => grows_by P s s') s).
  apply wp_bind. wp_sys_intro. red. etrans.
  2:{ assert (keeps (grows_by P) (k r0)) as Hk' by (unfold k; keeps_go; auto). apply Hk'. }
  apply grows_by_after. unfold P; cbn [ev_call].
  pose proof (get_u32_range r 0 Hu) as H1. pose proof (get_u32_range r 4 Hu) as H2.
  pose proof (get_u32_range r 8 Hu) as H3. unfold is_u32 in *.
  destruct (rpmb_commands_spec (rpmb_req_dec r) r cmds) as (? & ? & Hw & _);
    [apply H1|apply H2|apply H3|lia|done|].
  split_and!; [done|done|done|done|]. rewrite Hw. f_equal. lia.
Qed.

Lemma rpmb_ioctl_payload_witness :
  let r := rpmb_req_enc (RpmbReq 512 512 512 0) ++ replicate 1024 9 in
  exists evs, trace (rpmb_send 64 (demo_msg STORAGE_RPMB_SEND) r 1040 demo_proc).2
      = trace demo_proc ++ evs /\
    Forall (fun e => match ev_call e with
      | Sys_ioctl fd req (Arg_mmc cmds) =>
          fd = rpmb_fd (g_rpmb (globals demo_proc)) /\ req = MMC_IOC_MULTI_CMD /\
          (length cmds <= 3)%nat /\ Forall mmc_cmd_ok cmds /\
          mmc_written cmds = slice sizeof_rpmb_req (1040 - sizeof_rpmb_req) r
      | Sys_writev _ _ => True
      | _ => False
      end) evs.
Proof.
  intros r. apply rpmb_ioctl_payload.
  - apply Forall_app. split; [apply all_u8_spec; reflexivity|].
    apply Forall_replicate. vm_compute. split; congruence.
  - vm_compute. congruence.
Defined.

(** C23. A read request on an open file returns, when it reports no error, the
    bytes of the file from the offset on: as many as asked for, fewer only
    where the file ends.  The file is not changed. *)
Theorem read_returns_file {W} `{K : Kernel W} `{KS : !KernelSignals W} `{KB : !KernelBounds W}
    `{KF : !KernelFiles W} fuel bits msg r h off sz c (s : proc W proxy_globals) :
  cmd msg = STORAGE_FILE_READ -> flags msg = 0 -> MAX_READ_SIZE < Z.of_nat fuel ->
  read_req_dec r = ReadReq h sz off ->
  0 <= h < 2 ^ 31 -> 0 <= off < 2 ^ 63 -> 0 <= sz <= MAX_READ_SIZE -> serving fuel h c s ->
  let s' := (handle_req fuel bits msg r sizeof_read_req s).2 in
  exists e out, answered msg e out s s' /\ contents (world s') h = Some c /\
    (e = STORAGE_NO_ERROR -> out = Some (slice off (Z.max 0 (Z.min sz (zlen c - off))) c)).
Proof.
  intros Hc Hf Hfu Hd Hh Ho Hsz Hs s'.
  destruct (read_request fuel bits msg r h off sz c s) as (_ & e & out & Ha & Hs' & He);
    try done. exists e, out. split_and!; [done|apply Hs'|done].
Qed.

Lemma read_returns_file_witness :
  let s' := (handle_req demo_fuel 64 (demo_msg STORAGE_FILE_READ)
               (read_req_enc (ReadReq 3 100 12)) sizeof_read_req demo_proc).2 in
  exists e out, answered (demo_msg STORAGE_FILE_READ) e out demo_proc s' /\
    contents (world s') 3 = Some (cstr "0123456789abcdef") /\
    (e = STORAGE_NO_ERROR ->
     out = Some (slice 12 (Z.max 0 (Z.min 100 (zlen (cstr "0123456789abcdef") - 12)))
                   (cstr "0123456789abcdef"))).
Proof.
  eapply read_returns_file; try exact demo_serving; try reflexivity;
    unfold demo_fuel, MAX_READ_SIZE; lia.
Defined.

(** A resize request on an open file cuts the file off or extends it with
    zeros to the requested size when it reports no error, and leaves it alone
    otherwise. *)
Theorem set_size_resizes {W} `{K : Kernel W} `{KS : !KernelSignals W} `{KB : !KernelBounds W}
    `{KF : !KernelFiles W} fuel bits msg r h sz c (s : proc W proxy_globals) :
  cmd msg = STORAGE_FILE_SET_SIZE -> flags msg = 0 ->
  set_size_req_dec r = SetSizeReq sz h ->
  0 <= h < 2 ^ 31 -> 0 <= sz < 2 ^ 63 -> serving fuel h c s ->
  let s' := (handle_req fuel bits msg r sizeof_set_size_req s).2 in
  exists e, answered msg e None s s' /\
    contents (world s') h = Some (if decide (e = STORAGE_NO_ERROR) then file_resize c sz else c).
Proof.
  intros Hc Hf Hd Hh Hsz Hs s'.
  destruct (set_size_request fuel bits msg r h sz c s) as (_ & e & Ha & Hs'); try done.
  exists e. split; [done|apply Hs'].
Qed.

Lemma set_size_resizes_witness :
  let s' := (handle_req demo_fuel 64 (demo_msg STORAGE_FILE_SET_SIZE)
               (set_size_req_enc (SetSizeReq 4 3)) sizeof_set_size_req demo_proc).2 in
  exists e, answered (demo_msg STORAGE_FILE_SET_SIZE) e None demo_proc s' /\
    contents (world s') 3 = Some (if decide (e = STORAGE_NO_ERROR)
      then file_resize (cstr "0123456789abcdef") 4 else cstr "0123456789abcdef").
Proof. eapply set_size_resizes; try exact demo_serving; try reflexivity; lia. Defined.

(** ** Start-up and the wire *)

(** C24. Privileges first.  The calls of any run of [main] start with the five
    calls that drop privileges (keep capabilities, group, user, capability set,
    umask), in this order; any other call is made only after all of them, and
    only if the checked ones succeeded. *)
Theorem privileges_first {W} `{K : Kernel W} fuel bits n msg0 opts (s : proc W proxy_globals) :
  exists evs, trace (main fuel bits n msg0 opts s).2 = trace s ++ evs /\
    (map ev_call evs `prefix_of` priv_calls \/
     exists first rest, evs = first ++ rest /\ map ev_call first = priv_calls /\
       forallb priv_ok first = true).
Proof.
  destruct (drop_privs_spec s) as (evs & rc & s1 & Hd & Ht & _ & Hpre & Hrc).
  destruct Hrc as [(-> & Hall & Hok)|[-> _]].
  - destruct (main_after_privs fuel bits n msg0 opts s s1 Hd) as [rest Hrest].
    exists (evs ++ rest). rewrite Hrest, Ht, app_assoc. split; [done|]. right. by exists evs, rest.
  - exists evs. split; [|by left]. unfold main, mbind, M_bind. by rewrite Hd.
Qed.

(** Connecting.  [ipc_connect] makes at most six attempts, sleeping
    between them, gives up only after the sixth, and in the end the only
    descriptor left open is the connection it installed. *)
Theorem connect_attempts {W} `{K : Kernel W} dev port (s : proc W proxy_globals) :
  tipc_fd (g_ipc (globals s)) = -1 ->
  exists k rc evs s' res,
    ipc_connect dev port s = (Ret res, s') /\ trace s' = trace s ++ evs /\
    attempts dev port k rc evs /\ (k <= 6)%nat /\
    (res = 0 /\ tipc_fd (g_ipc (globals s')) = rc /\ 0 <= rc /\ open_fds evs = [rc] \/
     res = -1 /\ k = 6%nat /\ globals s' = globals s /\ open_fds evs = []).
Proof.
  intros Hfd. destruct (ipc_connect_spec dev port s Hfd)
    as (k & rc & evs & s' & res & Hc & Ht & Ha & Hk & Hr).
  exists k, rc, evs, s', res. split_and!; try done. pose proof (attempts_fds _ _ _ _ _ Ha) as Ho.
  destruct Hr as [(-> & Hrc & Hg)|(-> & Hrc & -> & Hg)]; [left|right].
  - replace (rc <? 0) with false in Ho by lia. rewrite Hg. done.
  - replace (rc <? 0) with true in Ho by lia. done.
Qed.

Lemma connect_attempts_witness :
  let s : proc mem_world proxy_globals := Proc proxy_globals0 demo_world 0 [] in
  exists k rc evs s' res,
    ipc_connect (cstr "/dev/none") (cstr "storage") s = (Ret res, s') /\
    trace s' = trace s ++ evs /\
    attempts (cstr "/dev/none") (cstr "storage") k rc evs /\ (k <= 6)%nat /\
    (res = 0 /\ tipc_fd (g_ipc (globals s')) = rc /\ 0 <= rc /\ open_fds evs = [rc] \/
     res = -1 /\ k = 6%nat /\ globals s' = globals s /\ open_fds evs = []).
Proof. apply connect_attempts. reflexivity. Defined.

(** The header round trip: what the peer decodes from an encoded header,
    whatever follows it, is the header; and 24 bytes received decode to a
    header that encodes to the same bytes. *)
Theorem storage_msg_roundtrip m b tail :
  (storage_msg_wf m -> storage_msg_dec (storage_msg_enc m ++ tail) = m) /\
  (Forall is_u8 b -> zlen b = 24 -> storage_msg_enc (storage_msg_dec b) = b).
Proof. split; [apply storage_msg_dec_enc|apply storage_msg_enc_dec]. Qed.

Lemma storage_msg_roundtrip_witness :
  storage_msg_dec (storage_msg_enc (demo_msg 4) ++ [1; 2]) = demo_msg 4.
Proof. apply (storage_msg_roundtrip (demo_msg 4) [] [1; 2]). vm_compute. repeat split; congruence. Defined.

(** Opening asks the kernel for what the request asked for and no more:
    every [open] is read-write and synchronous on the requested path, truncates
    if and only if the request says so, creates only for a create request, and
    exclusively exactly for an exclusive create. *)
Theorem open_flags_requested {W} `{K : Kernel W} fuel fl path (s : proc W proxy_globals) :
  exists evs, trace (open_file fuel fl path s).2 = trace s ++ evs /\
    Forall (fun e => exists f, ev_call e = Sys_open path f open_mode /\
      has_flag f O_RDWR = true /\ Z.land f O_SYNC = O_SYNC /\
      has_flag f O_TRUNC = has_flag fl STORAGE_FILE_OPEN_TRUNCATE /\
      (has_flag f O_CREAT = true -> has_flag fl STORAGE_FILE_OPEN_CREATE = true) /\
      has_flag f O_EXCL = has_flag fl STORAGE_FILE_OPEN_CREATE &&
                          has_flag fl STORAGE_FILE_OPEN_CREATE_EXCLUSIVE) evs.
Proof.
  set (P := fun e : event => _). change (grows_by P s (open_file fuel fl path s).2).
  enough (keeps (grows_by P) (open_file (W:=W) fuel fl path)) as H by apply H.
  unfold open_file.
  destruct (has_flag fl STORAGE_FILE_OPEN_CREATE) eqn:Ec;
    destruct (has_flag fl STORAGE_FILE_OPEN_CREATE_EXCLUSIVE) eqn:Ex;
    destruct (has_flag fl STORAGE_FILE_OPEN_TRUNCATE) eqn:Et; keeps_go;
    apply grows_by_retry; intros r; eexists; rewrite ?Ec, ?Ex, ?Et; by repeat split.
Qed.

(** Receiving.  [ipc_get_msg] makes one [readv]; it accepts a message only
    if a whole header arrived whose size field is the number of bytes received.
    Then the header returned is the one sent, its size accounts for header and
    payload, and the payload is at the start of the request buffer, which stays
    terminated. *)
Theorem get_msg_accepts_complete {W} `{K : Kernel W} `{KB : !KernelBounds W} msg
    (s : proc W proxy_globals) :
  0 <= tipc_fd (g_ipc (globals s)) -> buf_ok (pbuf s) ->
  let run := ipc_get_msg msg REQ_BUFFER_SIZE s in
  buf_ok (pbuf run.2) /\
  exists rc m c r, run.1 = Ret (rc, m) /\ trace run.2 = trace s ++ [Ev c r] /\
    (rc < 0 /\ accepted [Ev c r] = [] \/
     0 <= rc <= REQ_BUFFER_SIZE /\ accepted [Ev c r] = [m] /\
     m = storage_msg_dec (sr_data r) /\ size m = rc + sizeof_storage_msg /\
     slice 0 rc (pbuf run.2) = drop (Z.to_nat sizeof_storage_msg) (sr_data r)).
Proof.
  intros Hfd Hb run. destruct (ipc_get_msg_spec msg s Hfd Hb) as (_ & Hb' & c & r & Ht & Ho).
  fold run in Hb', Ht, Ho. split; [done|]. destruct (run.1) as [[rc m]|]; [|done].
  exists rc, m, c, r. split_and!; [done|done|]. destruct Ho as [?|(? & ? & ? & ? & ?)]; auto.
  right. tauto.
Qed.

Lemma get_msg_accepts_complete_witness :
  let s : proc mem_world proxy_globals :=
    Proc demo_globals (set_inbox [storage_msg_enc (demo_msg 2)] demo_world) 0 [] in
  let run := ipc_get_msg (demo_msg 0) REQ_BUFFER_SIZE s in
  buf_ok (pbuf run.2) /\
  exists rc m c r, run.1 = Ret (rc, m) /\ trace run.2 = trace s ++ [Ev c r] /\
    (rc < 0 /\ accepted [Ev c r] = [] \/
     0 <= rc <= REQ_BUFFER_SIZE /\ accepted [Ev c r] = [m] /\
     m = storage_msg_dec (sr_data r) /\ size m = rc + sizeof_storage_msg /\
     slice 0 rc (pbuf run.2) = drop (Z.to_nat sizeof_storage_msg) (sr_data r)).
Proof. apply get_msg_accepts_complete; [done|apply buf_ok_init]. Defined.

(** The daemon has no successful end: for every kernel and every command
    line, if [main] returns, it returns the failure status. *)
Theorem daemon_never_succeeds {W} `{K : Kernel W} fuel bits n msg0 opts
    (s : proc W proxy_globals) code :
  (main fuel bits n msg0 opts s).1 = Ret code -> code = EXIT_FAILURE.
Proof. intros H. pose proof (main_status fuel bits n msg0 opts s) as Hs. unfold wp in Hs. by rewrite H in Hs. Qed.

Lemma daemon_never_succeeds_witness :
  (main demo_fuel 64 1 (demo_msg 0) [(100, cstr "/dev/none"); (112, cstr "storage")]
     (Proc proxy_globals0 demo_world 0 [])).1 = Ret EXIT_FAILURE /\ EXIT_FAILURE = EXIT_FAILURE.
Proof.
  assert ((main demo_fuel 64 1 (demo_msg 0) [(100, cstr "/dev/none"); (112, cstr "storage")]
     (Proc proxy_globals0 demo_world 0 [])).1 = Ret EXIT_FAILURE) as H by (vm_compute; reflexivity).
  split; [exact H|]. eapply (daemon_never_succeeds _ _ _ _ _ _ _ H).
Defined.

(** ** Two limits of the code *)

Definition lossy_world : mem_world :=
  MemWorld {[ cstr "/data/f" := cstr "0123456789abcdef" ]} {[ 3 := cstr "/data/f" ]} [] 0 7 [3].
Definition lossy_proc : proc mem_world proxy_globals := Proc demo_globals lossy_world 0 [].

(** A change can be lost track of: after a write to a file whose [fsync]
    fails, a close request is answered with an error but drops the dirty mark
    and leaves the descriptor open, so that the next checkpoint succeeds while
    the change is still pending. *)
Theorem failed_close_hides_change :
  let s1 := (handle_req 100 64 (demo_msg STORAGE_FILE_WRITE) demo_write 26 lossy_proc).2 in
  let close := handle_req 100 64 (demo_msg STORAGE_FILE_CLOSE) (le_enc 4 3) 4 s1 in
  let check := storage_sync_checkpoint close.2 in
  sync_inv one_fs s1 /\
  answered (demo_msg STORAGE_FILE_CLOSE) STORAGE_ERR_GENERIC None s1 close.2 /\
  check.1 = Ret 0 /\ pending one_fs (trace check.2) 3 = true /\
  contents (world check.2) 3 <> None.
Proof.
  split_and!; try by vm_compute.
  match goal with |- sync_inv _ (handle_req ?f ?b ?m ?r ?n ?s).2 =>
    destruct (handle_req_inv one_fs f b m r n s) as [?|[? _]] end; try done.
  - apply all_u8_spec. reflexivity.
  - split; [by split|]. split; [intros fd; by left|]. by intros fd H.
Qed.

(** On a platform with a 32-bit [size_t] the length check of an RPMB
    request wraps around: a request of 16 bytes that claims a reliable write of
    almost 4 GiB passes it, and the command submitted names blocks that lie
    outside the request; before that, the debug output reads past the end of the
    request buffer. *)
Theorem rpmb_length_check_wraps :
  let q := RpmbReq (2 ^ 32 - 512) 512 0 0 in
  let r := rpmb_req_enc q in
  expected_len 32 q = zlen r /\ expected_len 64 q <> zlen r /\
  exists c cs, rpmb_commands (rpmb_req_dec r) r = Some (c :: cs) /\
    zlen (mmc_data c) < blocks c * blksz c /\
    (rpmb_send 32 (demo_msg STORAGE_RPMB_SEND) r (zlen r) demo_proc).1 = Stop Undefined.
Proof.
  intros q r. split; [reflexivity|]. split; [vm_compute; congruence|].
  assert (rpmb_req_dec r = q) as -> by reflexivity.
  exists (write_cmd MMC_WRITE_FLAG_RELW (2 ^ 32 - 512) (slice sizeof_rpmb_req (2 ^ 32 - 512) r)),
    [write_cmd MMC_WRITE_FLAG_W 512 (slice (sizeof_rpmb_req + (2 ^ 32 - 512)) 512 r)].
  split; [reflexivity|]. split; [|vm_compute; reflexivity]. cbn [write_cmd mmc_data blocks blksz].
  assert (zlen (slice sizeof_rpmb_req (2 ^ 32 - 512) r) <= zlen r) as Hle
    by (unfold zlen; rewrite length_slice; lia).
  eapply Z.le_lt_trans; [exact Hle|]. change (zlen r) with 16. unfold MMC_BLOCK_SIZE. lia.
Qed.
