(* ===== verification/Gatekeeper.v ===== *)
(** * Gatekeeper client (lite/gatekeeper)

    trusty_gatekeeper_ipc.c exchanges one message with the secure service;
    trusty_gatekeeper.cpp serialises enroll and verify requests, sends them and
    maps the answer to a HIDL status.  Serialisation belongs to the gatekeeper
    library and is a parameter. *)

From S2P Require Import Prelude Kernel Libtrusty.

Definition GATEKEEPER_PORT : bytes := cstr "com.android.trusty.gatekeeper".
Definition GK_DEVICE_NAME : bytes := cstr "/dev/trusty-ipc-dev0".

(** enum gatekeeper_command *)
Definition GK_REQ_SHIFT := 1.
Definition GK_RESP_BIT := 1.
Definition GK_ENROLL := Z.shiftl 0 GK_REQ_SHIFT.
Definition GK_VERIFY := Z.shiftl 1 GK_REQ_SHIFT.

(** struct gatekeeper_message: a command word and the payload. *)
Definition sizeof_gatekeeper_message := 4.
Definition gatekeeper_message_enc (cmd : Z) (payload : bytes) : bytes := le_enc 4 cmd ++ payload.

Definition SEND_BUF_SIZE := 8192.
Definition RECV_BUF_SIZE := 8192.

(** The static [handle_]. *)
Record gk_st := GkSt { handle_ : Z }.
Definition gk_st0 : gk_st := GkSt 0.

Section GatekeeperIpc.
Context {W : Type} `{K : Kernel W}.
Abbreviation GM := (M W gk_st).

Definition trusty_gatekeeper_connect : GM Z :=
  rc ← tipc_connect GK_DEVICE_NAME GATEKEEPER_PORT;
  if rc <? 0 then mret rc
  else modify (fun _ => GkSt rc);; mret 0.

(** Status, new contents of [out] and new [*out_size].  The result of
    [malloc] is dereferenced without a check. *)
Definition trusty_gatekeeper_call (cmd : Z) (inb out : bytes) (out_size : Z)
    : GM (Z * bytes * Z) :=
  h ← gets handle_;
  if h =? 0 then mret (- EINVAL, out, out_size)
  else
    ok ← malloc (zlen inb + sizeof_gatekeeper_message);
    if negb ok then halt Undefined
    else
      r ← sys (Sys_write h (gatekeeper_message_enc cmd inb));
      free;;
      if sr_ret r <? 0 then e ← get_errno; mret (- e, out, out_size)
      else
        r ← sys (Sys_read h out_size);
        if sr_ret r <? 0 then e ← get_errno; mret (- e, out, out_size)
        else
          let out := splice out 0 (sr_data r) in
          if sr_ret r <? sizeof_gatekeeper_message then mret (- EINVAL, out, out_size)
          else if negb (Z.lor cmd GK_RESP_BIT =? get_u32 out 0)
          then mret (- EINVAL, out, out_size)
          else mret (s32 (sr_ret r), out, u32 (sr_ret r - sizeof_gatekeeper_message)).

Definition trusty_gatekeeper_disconnect : GM unit :=
  h ← gets handle_;
  if negb (h =? 0) then tipc_close h else mret tt.
End GatekeeperIpc.

(** ** trusty_gatekeeper.cpp *)

Inductive gatekeeper_error := ERROR_NONE | ERROR_INVALID | ERROR_RETRY | ERROR_UNKNOWN
  | ERROR_MEMORY_ALLOCATION_FAILED.

Inductive GatekeeperStatusCode :=
  STATUS_REENROLL | STATUS_OK | ERROR_GENERAL_FAILURE | ERROR_RETRY_TIMEOUT | ERROR_NOT_IMPLEMENTED.

(** The callback argument: status, timeout, data. *)
Definition gk_result : Type := GatekeeperStatusCode * Z * bytes.

Record enroll_request := EnrollRequest {
  er_uid : Z; er_handle : bytes; er_provided : bytes; er_enrolled : bytes
}.
Record verify_request := VerifyRequest {
  vr_uid : Z; vr_challenge : Z; vr_handle : bytes; vr_provided : bytes
}.
Record enroll_response := EnrollResponse {
  ep_error : gatekeeper_error; ep_timeout : Z; ep_handle : bytes
}.
Record verify_response := VerifyResponse {
  vp_error : gatekeeper_error; vp_timeout : Z; vp_token : bytes; vp_reenroll : bool
}.

Section Device.
Context {W : Type} `{K : Kernel W}.
(** Serialisation of the gatekeeper library. *)
Context (ser_enroll : enroll_request -> bytes) (ser_verify : verify_request -> bytes).
Context (de_enroll : bytes -> gatekeeper_error * enroll_response)
        (de_verify : bytes -> gatekeeper_error * verify_response).
(** The local receive buffer before the read: indeterminate bytes. *)
Context (recv_buf : bytes).
Abbreviation GM := (M W gk_st).

(** [Send(command, request, response)] with the serialised request; the
    response is what [Deserialize] makes of the payload. *)
Definition Send {R} (command : Z) (request : bytes) (de : bytes -> gatekeeper_error * R)
    : GM (gatekeeper_error * option R) :=
  let request_size := zlen request in
  if SEND_BUF_SIZE <? request_size then mret (ERROR_INVALID, None)
  else
    '(rc, buf, response_size) ← trusty_gatekeeper_call command request recv_buf RECV_BUF_SIZE;
    if rc <? 0 then mret (ERROR_INVALID, None)
    else
      let '(e, resp) := de (slice sizeof_gatekeeper_message response_size buf) in
      mret (e, Some resp).

(** [error_] is the member the constructor sets from the connection status. *)
Definition enroll (error_ uid : Z) (currentPasswordHandle currentPassword desiredPassword : bytes)
    : GM gk_result :=
  if negb (error_ =? 0) then mret (ERROR_GENERAL_FAILURE, 0, [])
  else if zlen desiredPassword =? 0 then mret (ERROR_GENERAL_FAILURE, 0, [])
  else
    '(error, response) ← Send GK_ENROLL
      (ser_enroll (EnrollRequest uid currentPasswordHandle desiredPassword currentPassword))
      de_enroll;
    mret match error, response with
         | ERROR_NONE, Some response =>
             match ep_error response with
             | ERROR_RETRY => (ERROR_RETRY_TIMEOUT, ep_timeout response, [])
             | ERROR_NONE => (STATUS_OK, ep_timeout response, ep_handle response)
             | _ => (ERROR_GENERAL_FAILURE, 0, [])
             end
         | _, _ => (ERROR_GENERAL_FAILURE, 0, [])
         end.

Definition verify (error_ uid challenge : Z) (enrolledPasswordHandle providedPassword : bytes)
    : GM gk_result :=
  if negb (error_ =? 0) then mret (ERROR_GENERAL_FAILURE, 0, [])
  else if zlen enrolledPasswordHandle =? 0 then mret (ERROR_GENERAL_FAILURE, 0, [])
  else
    '(error, response) ← Send GK_VERIFY
      (ser_verify (VerifyRequest uid challenge enrolledPasswordHandle providedPassword))
      de_verify;
    mret match error, response with
         | ERROR_NONE, Some response =>
             match vp_error response with
             | ERROR_RETRY => (ERROR_RETRY_TIMEOUT, vp_timeout response, [])
             | ERROR_NONE =>
                 (if vp_reenroll response then STATUS_REENROLL else STATUS_OK,
                  vp_timeout response, vp_token response)
             | _ => (ERROR_GENERAL_FAILURE, 0, [])
             end
         | _, _ => (ERROR_GENERAL_FAILURE, 0, [])
         end.

Definition deleteUser : GM gk_result := mret (ERROR_NOT_IMPLEMENTED, 0, []).
Definition deleteAllUsers : GM gk_result := mret (ERROR_NOT_IMPLEMENTED, 0, []).
End Device.

(** ** One exchange *)

(** [resp] answers command [cmd]: its command word is [cmd] with the response
    bit. *)
Definition gk_answers (cmd : Z) (resp : bytes) : Prop :=
  sizeof_gatekeeper_message <= zlen resp <= RECV_BUF_SIZE /\ get_u32 resp 0 = Z.lor cmd GK_RESP_BIT.

Section Exchange.
Context {W : Type} `{K : Kernel W} `{KB : !KernelBounds W} `{KE : !KernelErrno W}.
Implicit Types s : proc W gk_st.

(** The calls of a successful exchange with response [resp]. *)
Definition exchange (h cmd : Z) (inb resp : bytes) (evs : list event) : Prop :=
  exists r1 r2 r3 r4,
    evs = [Ev (Lib_malloc (zlen inb + sizeof_gatekeeper_message)) r1;
           Ev (Sys_write h (gatekeeper_message_enc cmd inb)) r2; Ev Lib_free r3;
           Ev (Sys_read h RECV_BUF_SIZE) r4] /\
    0 <= sr_ret r2 /\ 0 <= sr_ret r4 /\ sr_data r4 = resp.

(** A non-negative status means that the request was written, and that the
    response read answers it; its payload is then in the buffer. *)
Lemma gatekeeper_call_spec cmd inb out s :
  zlen out = RECV_BUF_SIZE ->
  wp (trusty_gatekeeper_call cmd inb out RECV_BUF_SIZE) (fun o s' =>
    globals s' = globals s /\
    match o with
    | Ret (rc, buf, n) => rc < 0 \/ exists resp evs, trace s' = trace s ++ evs /\
        exchange (handle_ (globals s)) cmd inb resp evs /\ gk_answers cmd resp /\
        rc = zlen resp /\ n = zlen resp - sizeof_gatekeeper_message /\
        slice sizeof_gatekeeper_message n buf = drop (Z.to_nat sizeof_gatekeeper_message) resp
    | Stop e => e = Undefined /\ exists r, trace s' = trace s ++ [Ev (Lib_malloc (zlen inb + sizeof_gatekeeper_message)) r] /\ sr_ret r < 0
    end) s.
Proof.
  intros Hout. unfold trusty_gatekeeper_call, malloc, free. apply wp_bind, wp_gets.
  apply wp_if; intros Hh; [apply wp_ret; split; [done|]; left; unfold EINVAL; lia|].
  apply wp_bind, wp_bind. apply wp_sys; intros r1 w1 Hk1. apply wp_ret.
  apply wp_if; intros Hm; [apply wp_halt; split; [done|]; split; [done|]; exists r1; split; [done|lia]|].
  apply wp_bind. apply wp_sys; intros r2 w2 Hk2. apply wp_bind, wp_bind.
  apply wp_sys; intros r3 w3 Hk3. apply wp_ret.
  pose proof (ke_errno (Sys_write (handle_ (globals s)) (gatekeeper_message_enc cmd inb)) w1) as He2.
  simpl in Hk2. rewrite Hk2 in He2; simpl in He2.
  apply wp_if; intros Hr2.
  { apply wp_bind, wp_get_errno, wp_ret. split; [done|]. left. simpl.
    pose proof (ke_errno Lib_free w2) as He3. simpl in Hk3. rewrite Hk3 in He3; simpl in He3.
    rewrite Hr2. destruct (Z.ltb_spec (sr_ret r3) 0); lia. }
  apply wp_bind. apply wp_sys; intros r4 w4 Hk4. simpl in Hk4.
  pose proof (ke_errno (Sys_read (handle_ (globals s)) RECV_BUF_SIZE) w3) as He4.
  rewrite Hk4 in He4; simpl in He4.
  apply wp_if; intros Hr4.
  { apply wp_bind, wp_get_errno, wp_ret. split; [done|]. left. simpl. rewrite Hr4. lia. }
  destruct (kb_read (handle_ (globals s)) RECV_BUF_SIZE w3) as [Hle Hlen]; [done|].
  rewrite Hk4 in Hle, Hlen; simpl in Hle, Hlen. destruct (Hlen ltac:(lia)) as [Hl Hu].
  apply wp_if; intros Hmin; [apply wp_ret; split; [done|]; left; unfold EINVAL; lia|].
  unfold sizeof_gatekeeper_message, RECV_BUF_SIZE in *.
  pose proof (slice_splice_here out 0 (sr_data r4) ltac:(lia) (zlen_nonneg out)) as Hsp.
  assert (forall o n, 0 <= o -> 0 <= n -> o + n <= zlen (sr_data r4) ->
    slice o n (splice out 0 (sr_data r4)) = slice o n (sr_data r4)) as Hpre.
  { intros o n Ho Hn Hon. rewrite <- Hsp at 2. by rewrite slice_slice by lia. }
  apply wp_if; intros Hc; [apply wp_ret; split; [done|]; left; unfold EINVAL; lia|].
  apply negb_false_iff, Z.eqb_eq in Hc. unfold get_u32 in Hc. rewrite Hpre in Hc by lia.
  apply wp_ret. split; [done|]. right. exists (sr_data r4), [Ev (Lib_malloc (zlen inb + 4)) r1;
    Ev (Sys_write (handle_ (globals s)) (gatekeeper_message_enc cmd inb)) r2; Ev Lib_free r3;
    Ev (Sys_read (handle_ (globals s)) 8192) r4].
  rewrite s32_small, u32_small by wide_lia.
  split_and!; [simpl; by rewrite <- !app_assoc| | |lia|lia|].
  - exists r1, r2, r3, r4. split_and!; [done|lia|lia|done].
  - split; [unfold sizeof_gatekeeper_message, RECV_BUF_SIZE; lia|done].
  - rewrite Hpre by lia. unfold slice. apply take_ge. rewrite length_drop. unfold zlen in Hl. lia.
Qed.

(** A response that [Send] delivers was decoded from an answer to the command
    just written. *)
Lemma Send_spec {R} recv_buf cmd req (de : bytes -> gatekeeper_error * R) s :
  zlen recv_buf = RECV_BUF_SIZE ->
  wp (Send recv_buf cmd req de) (fun o s' =>
    match o with
    | Ret (e, Some r) => exists resp evs, trace s' = trace s ++ evs /\
        exchange (handle_ (globals s)) cmd req resp evs /\ gk_answers cmd resp /\
        de (drop (Z.to_nat sizeof_gatekeeper_message) resp) = (e, r)
    | Ret (e, None) => e = ERROR_INVALID
    | Stop e => e = Undefined
    end) s.
Proof.
  intros Hl. unfold Send. apply wp_if; intros _; [by apply wp_ret|]. apply wp_bind.
  eapply wp_mono; [by apply gatekeeper_call_spec|].
  intros [[[rc buf] n]|e] s' [_ Ho]; [|by destruct Ho].
  destruct Ho as [Hrc|(resp & evs & Ht & Hx & Ha & -> & -> & Hs)].
  - replace (rc <? 0) with true by lia. by apply wp_ret.
  - pose proof (zlen_nonneg resp). replace (zlen resp <? 0) with false by lia. rewrite Hs.
    destruct (de _) as [e r] eqn:E. apply wp_ret. exists resp, evs. done.
Qed.
End Exchange.
