(* ===== verification/Kmsetkey.v ===== *)
(** * Attestation key installation (lite/kmsetkey)

    kmsetkey_ipc.c sends one command to the secure service and checks its
    answer; HalAdaptationLayer.cpp sends a key block in chunks.  The file shows
    which frames the peer receives: installing a key sends the decryption key,
    the length, the key block cut into chunks that fit a message, and the
    commit command, in this order, and stops at the first command that is not
    acknowledged. *)

From S2P Require Import Prelude Kernel Libtrusty.

Definition KMSETKEY_PORT : bytes := cstr "com.mediatek.kmsetkey".
Definition TRUSTY_DEVICE_NAME : bytes := cstr "/dev/trusty-ipc-dev0".
Definition MAX_MSG_SIZE := 4096.
Definition IPC_MSG_SIZE := 16.
Definition RESP_FLAG := 2147483648.
Definition DONE_FLAG := 1073741824.

(** enum kmsetkey_cmd *)
Definition KEY_LEN := 0.
Definition KEY_BUF := 1.
Definition SET_KEY := 2.
Definition SET_DECRYPT_KEY := 16.

(** struct kmsetkey_msg: a command word and the payload. *)
Definition sizeof_kmsetkey_msg := 4.
Definition kmsetkey_msg_enc (cmd : Z) (payload : bytes) : bytes := le_enc 4 cmd ++ payload.

(** Payload bytes that fit into one message. *)
Definition kmsetkey_max_payload := MAX_MSG_SIZE - IPC_MSG_SIZE - sizeof_kmsetkey_msg.

Section Kmsetkey.
Context {W : Type} `{K : Kernel W}.
(** No static variables. *)
Abbreviation KM := (M W unit).

(** [kmsetkey_connect(&handle)]: status and the new value of [*handle]. *)
Definition kmsetkey_connect (handle : Z) : KM (Z * Z) :=
  rc ← tipc_connect TRUSTY_DEVICE_NAME KMSETKEY_PORT;
  if rc <? 0 then mret (rc, handle) else mret (0, rc).

(** [out] is the caller's buffer; status, its new contents and [*out_size]
    are returned. *)
Definition kmsetkey_call (handle cmd : Z) (finish : bool) (inb out : bytes) (out_size : Z)
    : KM (Z * bytes * Z) :=
  if handle <=? 0 then mret (- EINVAL, out, out_size)
  else
    ok ← malloc (sizeof_kmsetkey_msg + zlen inb);
    if negb ok then e ← get_errno; mret (- e, out, out_size)
    else
      r ← sys (Sys_write handle (kmsetkey_msg_enc cmd inb));
      free;;
      if sr_ret r <? 0 then e ← get_errno; mret (- e, out, out_size)
      else
        r ← sys (Sys_read handle out_size);
        if sr_ret r <? 0 then e ← get_errno; mret (- e, out, out_size)
        else
          let out := splice out 0 (sr_data r) in
          if sr_ret r <? sizeof_kmsetkey_msg then mret (- EINVAL, out, out_size)
          else
            let got := get_u32 out 0 in
            if (finish && negb (got =? Z.lor cmd (Z.lor RESP_FLAG DONE_FLAG)))
               || (negb finish && negb (got =? Z.lor cmd RESP_FLAG))
            then mret (- EINVAL, out, out_size)
            else mret (0, out, u32 (sr_ret r)).

Definition kmsetkey_disconnect (handle : Z) : KM Z :=
  if negb (handle =? 0) then tipc_close handle;; mret 0 else mret handle.

(** ** HalAdaptationLayer.cpp *)

(** The two built-in public keys, 256 and 129 bytes of constant data. *)
Context (Input_Ekkb_pub InputPkb : bytes).

(** The local buffer [uint8_t out[MAX_MSG_SIZE]]; its initial bytes are
    indeterminate and never read. *)
Context (out0 : bytes).

Definition decrypt_key_install (handle : Z) : KM Z :=
  ok ← malloc (zlen (Input_Ekkb_pub ++ InputPkb));
  if negb ok then mret (-1)
  else
    '(rc, _, _) ← kmsetkey_call handle SET_DECRYPT_KEY true (Input_Ekkb_pub ++ InputPkb)
                    out0 MAX_MSG_SIZE;
    free;;
    mret rc.

(** The loop over the key block from [payload_offset] on; [Some rc] is the
    jump to the exit label. *)
Fixpoint send_chunks (n : nat) (handle : Z) (peakb : bytes) (payload_offset : Z)
    : KM (option Z) :=
  match n with
  | O => halt OutOfFuel
  | S n' =>
      if payload_offset <? zlen peakb then
        let left := zlen peakb - payload_offset in
        let payload_len := if left <? kmsetkey_max_payload then left else kmsetkey_max_payload in
        '(rc, _, _) ← kmsetkey_call handle KEY_BUF
                        (negb (payload_offset + payload_len <? zlen peakb))
                        (slice payload_offset payload_len peakb) out0 MAX_MSG_SIZE;
        if rc <? 0 then mret (Some rc)
        else send_chunks n' handle peakb (payload_offset + payload_len)
      else mret None
  end.

Definition attest_key_install (n : nat) (peakb : bytes) : KM Z :=
  '(rc, handle) ← kmsetkey_connect 0;
  if rc <? 0 then mret rc
  else
    rc ← (rc ← decrypt_key_install handle;
          if rc <? 0 then mret rc
          else
            '(rc, _, _) ← kmsetkey_call handle KEY_LEN true (le_enc 4 (zlen peakb)) out0
                            MAX_MSG_SIZE;
            if rc <? 0 then mret rc
            else
              e ← send_chunks n handle peakb 0;
              match e with
              | Some rc => mret rc
              | None =>
                  '(rc, _, _) ← kmsetkey_call handle SET_KEY true [] out0 MAX_MSG_SIZE;
                  mret rc
              end : KM Z);
    kmsetkey_disconnect handle;;
    mret (if rc <? 0 then rc else 0).
End Kmsetkey.

(** ** Frames *)

(** A block cut into pieces of at most [kmsetkey_max_payload] bytes. *)
Fixpoint chunks (n : nat) (b : bytes) : list bytes :=
  match n, b with
  | S n', _ :: _ => take (Z.to_nat kmsetkey_max_payload) b
                      :: chunks n' (drop (Z.to_nat kmsetkey_max_payload) b)
  | _, _ => []
  end.

Lemma chunks_spec n b :
  zlen b <= Z.of_nat n ->
  mjoin (chunks n b) = b /\
  Forall (fun c => 1 <= zlen c <= kmsetkey_max_payload) (chunks n b).
Proof.
  revert b; induction n as [|n IH]; intros b Hn.
  { destruct b; [done|]. unfold zlen in Hn; simpl in Hn. lia. }
  destruct b as [|x b]; [done|]. cbn [chunks]. set (c := x :: b) in *.
  assert (zlen (drop (Z.to_nat kmsetkey_max_payload) c) <= Z.of_nat n) as Hd.
  { unfold zlen in *. rewrite length_drop. unfold kmsetkey_max_payload, MAX_MSG_SIZE, IPC_MSG_SIZE,
      sizeof_kmsetkey_msg. lia. }
  destruct (IH _ Hd) as [Hj Hf]. split.
  - change (take (Z.to_nat kmsetkey_max_payload) c
      ++ mjoin (chunks n (drop (Z.to_nat kmsetkey_max_payload) c)) = c).
    rewrite Hj. apply take_drop.
  - constructor; [|done]. unfold zlen, kmsetkey_max_payload, MAX_MSG_SIZE, IPC_MSG_SIZE,
      sizeof_kmsetkey_msg. rewrite length_take. simpl length. lia.
Qed.

(** ** The conversation *)

(** One command of an installation: its number, whether the answer must say
    that the service is done with it, and its payload. *)
Record command := Command { c_cmd : Z; c_finish : bool; c_payload : bytes }.
Definition c_frame (c : command) : bytes := kmsetkey_msg_enc (c_cmd c) (c_payload c).

(** The answer acknowledges the command. *)
Definition acks (c : command) (r : sysret) : Prop :=
  sizeof_kmsetkey_msg <= sr_ret r /\
  get_u32 (sr_data r) 0 = Z.lor (c_cmd c) (if c_finish c then Z.lor RESP_FLAG DONE_FLAG else RESP_FLAG).

(** What is exchanged on the connection [h] for the commands [l]: each one is
    sent once its predecessor was acknowledged; success means that all were. *)
Inductive exchanges (h : Z) : list command -> bool -> list event -> Prop :=
| X_all : exchanges h [] true []
| X_unsent c l : exchanges h (c :: l) false []
| X_lost c l w : sr_ret w < 0 -> exchanges h (c :: l) false [Ev (Sys_write h (c_frame c)) w]
| X_refused c l w r : 0 <= sr_ret w -> ~ acks c r ->
    exchanges h (c :: l) false [Ev (Sys_write h (c_frame c)) w; Ev (Sys_read h MAX_MSG_SIZE) r]
| X_next c l w r ok io : 0 <= sr_ret w -> acks c r -> exchanges h l ok io ->
    exchanges h (c :: l) ok (Ev (Sys_write h (c_frame c)) w :: Ev (Sys_read h MAX_MSG_SIZE) r :: io).

Lemma exchanges_app h l1 l2 ok io1 io2 :
  exchanges h l1 true io1 -> exchanges h l2 ok io2 -> exchanges h (l1 ++ l2) ok (io1 ++ io2).
Proof.
  intros H1 H2. remember true as t eqn:E. induction H1; try discriminate; [done|]. cbn [app]. constructor; [done|done|]. auto.
Qed.
Lemma exchanges_stop h l1 l2 io : exchanges h l1 false io -> exchanges h (l1 ++ l2) false io.
Proof. intros H. remember false as t eqn:E. induction H; try discriminate; cbn [app]; constructor; auto. Qed.

(** Reads and writes. *)
Definition is_io (e : event) : bool := match ev_call e with Sys_write _ _ | Sys_read _ _ => true | _ => false end.
Definition io (evs : list event) : list event := filter (fun e => is_io e = true) evs.
Lemma io_app a b : io (a ++ b) = io a ++ io b.
Proof. apply filter_app. Qed.

(** Besides them there are only allocations. *)
Definition memory_or_io (e : event) : Prop :=
  match ev_call e with Sys_write _ _ | Sys_read _ _ | Lib_malloc _ | Lib_free => True | _ => False end.
Lemma memory_or_io_no_fd evs : Forall memory_or_io evs -> Forall no_fd evs.
Proof. intros H. eapply Forall_impl; [exact H|]. intros [c r]. unfold memory_or_io, no_fd. by destruct c. Qed.

Section Script.
Context {W : Type} `{K : Kernel W} `{KE : !KernelErrno W} `{KB : !KernelBounds W}.
Context (Input_Ekkb_pub InputPkb out0 : bytes).
Implicit Types s : proc W unit.
Abbreviation install := (attest_key_install Input_Ekkb_pub InputPkb out0).

(** The parts of a key block, the last one marked. *)
Fixpoint part_commands (l : list bytes) : list command :=
  match l with
  | [] => []
  | [p] => [Command KEY_BUF true p]
  | p :: l' => Command KEY_BUF false p :: part_commands l'
  end.

(** The commands of an installation, the key block in parts. *)
Definition script (peakb : bytes) (parts : list bytes) : list command :=
  Command SET_DECRYPT_KEY true (Input_Ekkb_pub ++ InputPkb)
  :: Command KEY_LEN true (le_enc 4 (zlen peakb))
  :: part_commands parts ++ [Command SET_KEY true []].

(** [sends h st m l]: [m] returns a status, not negative exactly when all
    commands [l] were exchanged on [h] and acknowledged. *)
Definition sends {A} (h : Z) (status : A -> Z) (m : M W unit A) (l : list command) : Prop :=
  forall s, wp m (fun o s' => exists a evs, o = Ret a /\ trace s' = trace s ++ evs /\
    Forall memory_or_io evs /\ exchanges h l (0 <=? status a) (io evs)) s.

Lemma sends_bind {A B} h (m : M W unit A) (f : A -> M W unit B) st st' l1 l2 :
  sends h st m l1 ->
  (forall a, 0 <= st a -> sends h st' (f a) l2) ->
  (forall a, st a < 0 -> exists b, f a = mret b /\ st' b < 0) ->
  sends h st' (m ≫= f) (l1 ++ l2).
Proof.
  intros Hm Hok Hneg s. apply wp_bind. eapply wp_mono; [apply Hm|].
  intros o s1 (a & evs & -> & Ht & Hn & Hx). destruct (Z.leb_spec 0 (st a)) as [Ha|Ha].
  - eapply wp_mono; [apply (Hok a Ha)|]. intros o s2 (b & evs2 & -> & Ht2 & Hn2 & Hx2). exists b, (evs ++ evs2).
    split_and!; [done|by rewrite Ht2, Ht, app_assoc|by apply Forall_app|]. rewrite io_app. by apply exchanges_app.
  - destruct (Hneg a Ha) as (b & -> & Hb). apply wp_ret. exists b, evs. replace (0 <=? st' b) with false by lia.
    split_and!; [done..|]. by apply exchanges_stop.
Qed.

Lemma sends_ret {A} h (st : A -> Z) a : 0 <= st a -> sends h st (mret a) [].
Proof.
  intros Ha s. apply wp_ret. exists a, []. replace (0 <=? st a) with true by lia. rewrite app_nil_r.
  split_and!; [done|done|constructor|constructor].
Qed.

Lemma kmsetkey_call_sends handle cmd fin inb :
  sends handle (fun x => x.1.1) (kmsetkey_call handle cmd fin inb out0 MAX_MSG_SIZE) [Command cmd fin inb].
Proof.
  intros s. unfold kmsetkey_call, malloc, free.
  assert (forall (a : Z * bytes * Z) s' evs, trace s' = trace s ++ evs -> Forall memory_or_io evs ->
    exchanges handle [Command cmd fin inb] (0 <=? a.1.1) (io evs) ->
    exists a' evs', Ret a = Ret a' /\ trace s' = trace s ++ evs' /\ Forall memory_or_io evs' /\
      exchanges handle [Command cmd fin inb] (0 <=? a'.1.1) (io evs')) as Hfin by (intros a s' evs ? ? ?; by exists a, evs).
  apply wp_if; intros Hh.
  { apply wp_ret, (Hfin _ _ []); [by rewrite app_nil_r|constructor|apply X_unsent]. }
  apply wp_bind, wp_bind. apply wp_sys; intros r w Hk. apply wp_ret. apply wp_if; intros Hm.
  { pose proof (errno_after _ _ _ _ Hk ltac:(right; lia)). apply wp_bind, wp_get_errno, wp_ret; eapply (Hfin _ _ [_]); [done|by repeat constructor|].
    cbn [fst]. replace (0 <=? _) with false by lia. apply X_unsent. }
  apply wp_bind. apply wp_sys; intros r1 w1 Hk1. apply wp_bind, wp_bind.
  apply wp_sys; intros r2 w2 Hk2. apply wp_ret. apply wp_if; intros Hr1.
  { pose proof (errno_after _ _ _ _ Hk1 ltac:(right; lia)) as He.
    pose proof (errno_after _ _ _ _ Hk2 (or_introl He)).
    apply wp_bind, wp_get_errno, wp_ret; eapply (Hfin _ _ [_; _; _]); [simpl; by rewrite <- !app_assoc|by repeat constructor|].
    cbn [fst]. replace (0 <=? _) with false by lia. apply X_lost. lia. }
  apply wp_bind. apply wp_sys; intros r3 w3 Hk3.
  destruct (kb_read handle MAX_MSG_SIZE w2) as [_ Hlen]; [done|]. simpl in Hk3. rewrite Hk3 in Hlen; simpl in Hlen.
  set (c := Command cmd fin inb) in *.
  assert (forall (a : Z * bytes * Z) ok s', s' = after (after (after (after s (Lib_malloc (sizeof_kmsetkey_msg + zlen inb)) r w)
    (Sys_write handle (kmsetkey_msg_enc cmd inb)) r1 w1) Lib_free r2 w2) (Sys_read handle MAX_MSG_SIZE) r3 w3 ->
    ok = (0 <=? a.1.1) -> (if ok then acks c r3 else ~ acks c r3) ->
    exists a' evs', Ret a = Ret a' /\ trace s' = trace s ++ evs' /\ Forall memory_or_io evs' /\
      exchanges handle [c] (0 <=? a'.1.1) (io evs')) as Hend.
  { intros a ok s' -> Hok Ha. eapply (Hfin a _ [_; _; _; _]); [simpl; by rewrite <- !app_assoc|by repeat constructor|].
    rewrite <- Hok. destruct ok; [apply X_next; [lia|done|constructor]|apply X_refused; [lia|done]]. }
  apply wp_if; intros Hr3.
  { apply wp_bind, wp_get_errno, wp_ret, (Hend _ false); [done| |].
    { cbn [errno after fst]. pose proof (ke_errno (Sys_read handle MAX_MSG_SIZE) w2) as He. rewrite Hk3 in He. simpl in He.
      rewrite Hr3. lia. }
    intros [H4 _]. unfold sizeof_kmsetkey_msg in H4. lia. }
  destruct (Hlen ltac:(lia)) as [Hl _]. apply wp_if; intros Hmin.
  { apply wp_ret, (Hend _ false); [done|done|]. intros [H4 _]. lia. }
  assert (get_u32 (splice out0 0 (sr_data r3)) 0 = get_u32 (sr_data r3) 0) as Hgot.
  { pose proof (slice_splice_here out0 0 (sr_data r3) ltac:(lia) (zlen_nonneg out0)) as Hsp.
    unfold get_u32, sizeof_kmsetkey_msg in *. rewrite <- Hsp at 2. by rewrite slice_slice by lia. }
  rewrite Hgot. apply wp_if; intros Hc; apply wp_ret.
  - apply (Hend _ false); [done|done|]. intros [_ H4]. cbn in H4. rewrite H4 in Hc. destruct fin; cbn in Hc; by rewrite Z.eqb_refl in Hc.
  - apply (Hend _ true); [done|done|]. split; [lia|]. cbn. destruct fin; cbn in Hc; lia.
Qed.

Lemma decrypt_key_sends handle :
  sends handle id (decrypt_key_install Input_Ekkb_pub InputPkb out0 handle)
    [Command SET_DECRYPT_KEY true (Input_Ekkb_pub ++ InputPkb)].
Proof.
  intros s. unfold decrypt_key_install, malloc, free. apply wp_bind, wp_bind. wp_sys_intro. apply wp_ret. apply wp_if; intros Hm.
  { apply wp_ret. eexists (-1), [_]. split_and!; [done|done|by repeat constructor|apply X_unsent]. }
  apply wp_bind. eapply wp_mono; [by apply kmsetkey_call_sends|].
  intros o s1 ([[rc b] z] & evs & -> & Ht & Hn & Hx).
  apply wp_bind, wp_bind. apply wp_sys; intros r2 w2 Hk2. apply wp_ret, wp_ret.
  eexists rc, (Ev _ r :: evs ++ [Ev Lib_free r2]).
  split_and!; [done|simpl; rewrite Ht; simpl; by rewrite <- !app_assoc| |].
  - constructor; [done|]. apply Forall_app; split; [done|by repeat constructor].
  - change (io (?e :: evs ++ ?l)) with (io (evs ++ l)). rewrite io_app, app_nil_r. exact Hx.
Qed.

Definition chunk_status (e : option Z) : Z := default 0 e.

(** One step of the loop takes the next chunk. *)
Lemma next_chunk peakb off :
  0 <= off -> off < zlen peakb ->
  let left := zlen peakb - off in
  let len := if left <? kmsetkey_max_payload then left else kmsetkey_max_payload in
  1 <= len <= kmsetkey_max_payload /\ off + len <= zlen peakb /\
  forall m, (0 < m)%nat ->
    chunks m (drop (Z.to_nat off) peakb) =
    slice off len peakb :: chunks (m - 1) (drop (Z.to_nat (off + len)) peakb).
Proof.
  intros Ho Hlt left len.
  assert (kmsetkey_max_payload = 4076) as Hmax by reflexivity.
  assert (1 <= len <= kmsetkey_max_payload /\ off + len <= zlen peakb) as [H1 H2]
    by (unfold len, left in *; destruct (Z.ltb_spec (zlen peakb - off) kmsetkey_max_payload); lia).
  split; [done|]; split; [done|]. intros m Hm.
  destruct m as [|m]; [lia|]. rewrite Nat.sub_succ, Nat.sub_0_r.
  assert (length (drop (Z.to_nat off) peakb) = Z.to_nat left) as Hl
    by (unfold left, zlen in *; rewrite length_drop; lia).
  destruct (drop (Z.to_nat off) peakb) as [|x d] eqn:E; [simpl in Hl; unfold left in Hl; lia|].
  cbn [chunks]. rewrite <- E in *. unfold slice. f_equal.
  - unfold len, left in *. destruct (Z.ltb_spec (zlen peakb - off) kmsetkey_max_payload); [|done].
    rewrite !take_ge by lia. done.
  - f_equal. rewrite drop_drop. unfold len, left in *.
    destruct (Z.ltb_spec (zlen peakb - off) kmsetkey_max_payload).
    + unfold zlen in *. rewrite !drop_ge by lia. done.
    + f_equal. lia.
Qed.

(** The part just sent is the last one exactly when nothing is left. *)
Lemma part_commands_cons p l : part_commands (p :: l) = Command KEY_BUF (bool_decide (l = [])) p :: part_commands l.
Proof. by destruct l. Qed.

Lemma chunks_nil_iff m b : zlen b <= Z.of_nat m -> chunks m b = [] <-> b = [].
Proof. by destruct m, b. Qed.

Lemma send_chunks_sends n m handle peakb off :
  0 <= off <= zlen peakb -> zlen peakb - off < Z.of_nat n ->
  zlen peakb - off <= Z.of_nat m ->
  sends handle chunk_status (send_chunks out0 n handle peakb off)
    (part_commands (chunks m (drop (Z.to_nat off) peakb))).
Proof.
  revert m off. induction n as [|n IH]; intros m off Ho Hn Hm; cbn [send_chunks]; [lia|].
  destruct (Z.ltb_spec off (zlen peakb)) as [Hlt|Hge].
  2:{ rewrite drop_ge by (unfold zlen in *; lia). destruct m; by apply sends_ret. }
  destruct (next_chunk peakb off ltac:(lia) Hlt) as (H1 & H2 & ->); [|lia]. cbv zeta.
  set (len := if _ <? _ then _ else _) in *. rewrite part_commands_cons.
  assert (bool_decide (chunks (m - 1) (drop (Z.to_nat (off + len)) peakb) = []) = negb (off + len <? zlen peakb)) as ->.
  { assert (zlen (drop (Z.to_nat (off + len)) peakb) = zlen peakb - (off + len)) as Hd by (unfold zlen in *; rewrite length_drop; lia).
    apply eq_true_iff_eq. rewrite bool_decide_eq_true, chunks_nil_iff, negb_true_iff, Z.ltb_ge by lia.
    split; [intros E; rewrite E in Hd; unfold zlen in *; simpl in *; lia|]. intros. apply length_zero_iff_nil. unfold zlen in *; lia. }
  match goal with |- sends _ _ _ (?a :: ?l) => change (a :: l) with ([a] ++ l) end.
  apply (sends_bind handle _ _ (fun x => x.1.1)).
  - by apply kmsetkey_call_sends.
  - intros [[rc b] z] Hrc. simpl in Hrc. replace (rc <? 0) with false by lia. apply IH; lia.
  - intros [[rc b] z] Hrc. simpl in Hrc. replace (rc <? 0) with true by lia. eauto.
Qed.

(** The commands between connecting and disconnecting. *)
Definition install_body (n : nat) (handle : Z) (peakb : bytes) : M W unit Z :=
  rc ← decrypt_key_install Input_Ekkb_pub InputPkb out0 handle;
  if rc <? 0 then mret rc
  else
    '(rc, _, _) ← kmsetkey_call handle KEY_LEN true (le_enc 4 (zlen peakb)) out0 MAX_MSG_SIZE;
    if rc <? 0 then mret rc
    else
      e ← send_chunks out0 n handle peakb 0;
      match e with
      | Some rc => mret rc
      | None =>
          '(rc, _, _) ← kmsetkey_call handle SET_KEY true [] out0 MAX_MSG_SIZE;
          mret rc
      end.

(** The loop leaves early only with an error. *)
Lemma send_chunks_error n handle peakb off s :
  wp (send_chunks out0 n handle peakb off) (fun o _ =>
    match o with Ret (Some rc) => rc < 0 | _ => True end) s.
Proof.
  revert off s. induction n as [|n IH]; intros off s; simpl; [by apply wp_halt|].
  apply wp_if; intros _; [|by apply wp_ret]. apply wp_bind. unfold wp at 1.
  destruct (kmsetkey_call _ _ _ _ _ _ s) as [[[[rc b] z]|e] s1]; simpl; [|done].
  apply wp_if; intros Hrc; [apply wp_ret; lia|apply IH].
Qed.

Lemma install_body_sends n handle peakb :
  zlen peakb < Z.of_nat n ->
  sends handle id (install_body n handle peakb) (script peakb (chunks (length peakb) peakb)).
Proof.
  intros Hn. unfold install_body, script.
  match goal with |- sends _ _ _ (?a :: ?l) => change (a :: l) with ([a] ++ l) end.
  apply (sends_bind handle _ _ id); [by apply decrypt_key_sends| |].
  2:{ intros rc Hrc. unfold id in Hrc. replace (rc <? 0) with true by lia. eauto. }
  intros rc Hrc. unfold id in Hrc. replace (rc <? 0) with false by lia.
  match goal with |- sends _ _ _ (?a :: ?l) => change (a :: l) with ([a] ++ l) end.
  apply (sends_bind handle _ _ (fun x => x.1.1)); [by apply kmsetkey_call_sends| |].
  2:{ intros [[rc2 b] z] Hrc2. simpl in Hrc2. replace (rc2 <? 0) with true by lia. eauto. }
  intros [[rc2 b] z] Hrc2. simpl in Hrc2. replace (rc2 <? 0) with false by lia.
  (* the early exits of the loop carry an error *)
  intros s. apply wp_bind. eapply wp_mono.
  { apply wp_and; [|apply send_chunks_error].
    apply (send_chunks_sends n (length peakb)); [|lia|unfold zlen; lia].
    pose proof (zlen_nonneg peakb). lia. }
  intros o s1 [(e & evs & -> & Ht & Hno & Hx) He]. rewrite drop_0 in *.
  destruct e as [rc3|]; cbn [chunk_status default] in Hx.
  - apply wp_ret. exists rc3, evs. unfold id in *. replace (0 <=? rc3) with false in * by lia.
    split_and!; [done..|by apply exchanges_stop].
  - apply wp_bind. eapply wp_mono; [by apply kmsetkey_call_sends|].
    intros o s2 ([[rc4 b4] z4] & evs2 & -> & Ht2 & Hno2 & Hx2). apply wp_ret.
    exists rc4, (evs ++ evs2). split_and!; [done|by rewrite Ht2, Ht, app_assoc|by apply Forall_app|].
    rewrite io_app. by apply exchanges_app.
Qed.

(** The whole installation, which returns [rc] having made the calls [evs]:
    without a connection nothing else is done; on a connection [h] the commands
    are exchanged, up to the first one that is not acknowledged, and the
    connection is closed again (unless it is descriptor 0, which the code takes
    for none); success is that all commands were acknowledged. *)
Definition installation (peakb : bytes) (rc : Z) (evs : list event) : Prop :=
  exists h connect, tipc_outcome TRUSTY_DEVICE_NAME KMSETKEY_PORT h connect /\
    if h <? 0 then rc = h /\ evs = connect
    else exists talk ok, Forall memory_or_io talk /\
      exchanges h (script peakb (chunks (length peakb) peakb)) ok (io talk) /\
      (if ok then rc = 0 else rc < 0) /\
      (if h =? 0 then evs = connect ++ talk else exists r, evs = connect ++ talk ++ [Ev (Sys_close h) r]).

Lemma attest_key_install_spec n peakb s :
  zlen peakb < Z.of_nat n ->
  wp (install n peakb) (fun o s' => exists rc evs, o = Ret rc /\ trace s' = trace s ++ evs /\ installation peakb rc evs) s.
Proof.
  intros Hn. unfold attest_key_install, kmsetkey_connect. apply wp_bind, wp_bind.
  destruct (tipc_connect_outcome TRUSTY_DEVICE_NAME KMSETKEY_PORT s)
    as (h & evs0 & H1 & H2 & _ & Hout).
  unfold wp at 1. rewrite H1. set (s0 := (tipc_connect _ _ s).2) in *.
  apply wp_if; intros Hh; apply wp_ret; cbn beta iota.
  { rewrite Hh. apply wp_ret. exists h, evs0. split_and!; [done|done|]. exists h, evs0. split; [done|]. by rewrite Hh. }
  change (0 <? 0) with false. cbn iota. apply wp_bind.
  eapply wp_mono; [apply (install_body_sends n h peakb Hn)|].
  intros o s1 (rc & talk & -> & G2 & G3 & G4). apply wp_bind.
  assert (if 0 <=? id rc then (if rc <? 0 then rc else 0) = 0 else (if rc <? 0 then rc else 0) < 0) as Hrc.
  { unfold id. destruct (Z.leb_spec 0 rc), (Z.ltb_spec rc 0); lia. }
  unfold kmsetkey_disconnect, tipc_close. apply wp_if; intros Hz.
  - apply wp_bind, wp_bind. apply wp_sys; intros r2 w2 _. apply wp_ret, wp_ret, wp_ret.
    eexists _, (evs0 ++ talk ++ [_]). split_and!; [done|simpl; rewrite G2, H2, <- !app_assoc; reflexivity|].
    exists h, evs0. split; [done|]. rewrite Hh. exists talk, (0 <=? id rc). split_and!; [done..|].
    replace (h =? 0) with false by lia. by exists r2.
  - apply wp_ret, wp_ret. eexists _, (evs0 ++ talk). split_and!; [done|by rewrite G2, H2, <- app_assoc|].
    exists h, evs0. split; [done|]. rewrite Hh. exists talk, (0 <=? id rc). split_and!; [done..|].
    by replace (h =? 0) with true by lia.
Qed.

(** A connection is given back. *)
Lemma installation_fds peakb rc evs : installation peakb rc evs -> open_fds evs = [] \/ open_fds evs = [0].
Proof.
  intros (h & connect & Hout & H). pose proof (tipc_outcome_fds _ _ _ _ Hout) as Hf.
  destruct (h <? 0) eqn:E; [destruct H as [_ ->]; by left|].
  destruct H as (talk & ok & Hm & _ & _ & H). apply memory_or_io_no_fd in Hm.
  assert (open_fds (connect ++ talk) = [h]) as Ho by (by rewrite open_fds_quiet, Hf by done).
  destruct (h =? 0) eqn:Ez; [rewrite H; right; rewrite Ho; f_equal; lia|]. destruct H as [r ->]. left.
  rewrite app_assoc, open_fds_app, Ho. cbn [open_fds]. rewrite app_nil_r, filter_cons_False; [done|].
  unfold closes. simpl. by rewrite Z.eqb_refl.
Qed.

(** A successful call: the frame was written and the response acknowledges it. *)
Lemma kmsetkey_call_ok handle cmd finish inb out s :
  zlen out = MAX_MSG_SIZE ->
  wp (kmsetkey_call handle cmd finish inb out MAX_MSG_SIZE) (fun o s' =>
    forall out' n, o = Ret (0, out', n) -> exists r1 r2 r3 r4,
      trace s' = trace s ++ [Ev (Lib_malloc (sizeof_kmsetkey_msg + zlen inb)) r1;
        Ev (Sys_write handle (kmsetkey_msg_enc cmd inb)) r2; Ev Lib_free r3;
        Ev (Sys_read handle MAX_MSG_SIZE) r4] /\
      0 <= sr_ret r2 /\ zlen (sr_data r4) = n /\ slice 0 n out' = sr_data r4 /\
      get_u32 (sr_data r4) 0 = Z.lor cmd (if finish then Z.lor RESP_FLAG DONE_FLAG else RESP_FLAG)) s.
Proof.
  intros Hout. unfold kmsetkey_call, malloc, free. apply wp_if; intros Hh; [by apply wp_ret|].
  apply wp_bind, wp_bind. apply wp_sys; intros r1 w1 Hk1. apply wp_ret. apply wp_if; intros Hm.
  { pose proof (errno_after _ _ _ _ Hk1 ltac:(right; lia)).
    apply wp_bind, wp_get_errno, wp_ret. intros out' n [= He0 _ _]. simpl in *. lia. }
  apply wp_bind. apply wp_sys; intros r2 w2 Hk2. apply wp_bind, wp_bind.
  apply wp_sys; intros r3 w3 Hk3. apply wp_ret. apply wp_if; intros Hr2.
  { pose proof (errno_after _ _ _ _ Hk2 ltac:(right; lia)) as He.
    pose proof (errno_after _ _ _ _ Hk3 (or_introl He)).
    apply wp_bind, wp_get_errno, wp_ret. intros out' n [= He0 _ _]. simpl in *. lia. }
  apply wp_bind. apply wp_sys; intros r4 w4 Hk4. apply wp_if; intros Hr4.
  { pose proof (errno_after _ _ _ _ Hk4 ltac:(right; lia)).
    apply wp_bind, wp_get_errno, wp_ret. intros out' n [= He0 _ _]. simpl in *. lia. }
  destruct (kb_read handle MAX_MSG_SIZE w3) as [Hle Hlen]; [done|]. simpl in Hk4.
  rewrite Hk4 in Hle, Hlen; simpl in Hle, Hlen. destruct (Hlen ltac:(lia)) as [Hl _].
  apply wp_if; intros Hmin; [by apply wp_ret|].
  pose proof (slice_splice_here out 0 (sr_data r4) ltac:(lia) (zlen_nonneg out)) as Hsp.
  unfold sizeof_kmsetkey_msg, MAX_MSG_SIZE in *.
  assert (get_u32 (splice out 0 (sr_data r4)) 0 = get_u32 (sr_data r4) 0) as ->.
  { unfold get_u32. rewrite <- Hsp at 2. by rewrite slice_slice by lia. }
  apply wp_if; intros Hc; [by apply wp_ret|]. apply wp_ret. intros out' n [= <- <-].
  rewrite u32_small by wide_lia. exists r1, r2, r3, r4.
  split_and!; [simpl; by rewrite <- !app_assoc|lia|lia|by rewrite <- Hl|].
  destruct finish; simpl in Hc; lia.
Qed.
End Script.
