(* ===== verification/ClientTheorems.v ===== *)
(** * What the tipc clients guarantee

    The theorems about lite/gatekeeper and lite/kmsetkey, each followed by an
    application to a concrete exchange on the in-memory kernel. *)

From S2P Require Import Prelude Kernel Libtrusty Storage StorageFiles MemKernel Gatekeeper Kmsetkey.

(** ** Concrete exchanges *)

Definition inbox_world (inbox : list bytes) : mem_world :=
  MemWorld {[ cstr "/dev/trusty-ipc-dev0" := [] ]} ∅ inbox 0 7 [].

(** A toy serialisation of the gatekeeper messages. *)
Definition toy_ser (q : verify_request) : bytes := vr_handle q ++ vr_provided q.
Definition toy_de (b : bytes) : gatekeeper_error * verify_response :=
  match b with
  | 1 :: token => (ERROR_NONE, VerifyResponse ERROR_NONE 0 token false)
  | _ => (ERROR_INVALID, VerifyResponse ERROR_UNKNOWN 0 [] false)
  end.

(** C25. No verification without the secure world: when [verify] reports
    success with a token, the request was sent to the gatekeeper service, the
    service's response was read back carrying the verify command with the
    response bit, and the token is the one decoded from that response. *)
Theorem verify_ok_authentic {W} `{K : Kernel W} `{KB : !KernelBounds W} `{KE : !KernelErrno W}
    ser de recv_buf error_ uid challenge handle password (s s' : proc W gk_st) code timeout token :
  zlen recv_buf = RECV_BUF_SIZE ->
  verify ser de recv_buf error_ uid challenge handle password s = (Ret (code, timeout, token), s') ->
  code = STATUS_OK \/ code = STATUS_REENROLL ->
  exists resp evs r,
    trace s' = trace s ++ evs /\
    exchange (handle_ (globals s)) GK_VERIFY
      (ser (VerifyRequest uid challenge handle password)) resp evs /\
    gk_answers GK_VERIFY resp /\
    de (drop (Z.to_nat sizeof_gatekeeper_message) resp) = (ERROR_NONE, r) /\
    vp_error r = ERROR_NONE /\ token = vp_token r.
Proof.
  intros Hl Hrun Hcode.
  assert (wp (verify ser de recv_buf error_ uid challenge handle password) (fun o s' =>
    o = Ret (code, timeout, token) -> exists resp evs r, trace s' = trace s ++ evs /\
      exchange (handle_ (globals s)) GK_VERIFY
        (ser (VerifyRequest uid challenge handle password)) resp evs /\
      gk_answers GK_VERIFY resp /\
      de (drop (Z.to_nat sizeof_gatekeeper_message) resp) = (ERROR_NONE, r) /\
      vp_error r = ERROR_NONE /\ token = vp_token r) s) as H.
  2:{ unfold wp in H. rewrite Hrun in H. by apply H. }
  unfold verify. do 2 (apply wp_if; intros _; [apply wp_ret; intros [= <- _ _]; by destruct Hcode|]).
  apply wp_bind. eapply wp_mono; [by apply Send_spec|].
  intros [[e [r|]]|e] s1 Ho; [|apply wp_ret; destruct e; intros [= <- _ _]; by destruct Hcode|done].
  destruct Ho as (resp & evs & Ht & Hx & Ha & Hd). apply wp_ret. intros Heq.
  destruct e; try (injection Heq as <- _ _; by destruct Hcode).
  destruct (vp_error r) eqn:E; try (injection Heq as <- _ _; by destruct Hcode).
  injection Heq as <- _ <-. by exists resp, evs, r.
Qed.

Lemma verify_ok_authentic_witness :
  let s := Proc (GkSt 5) (inbox_world [le_enc 4 3 ++ [1; 42]]) 0 [] in
  exists resp evs r,
    trace (verify toy_ser toy_de (replicate (Z.to_nat 8192) 0) 0 0 9 [7] [8] s).2 = trace s ++ evs /\
    exchange (handle_ (globals s)) GK_VERIFY (toy_ser (VerifyRequest 0 9 [7] [8])) resp evs /\
    gk_answers GK_VERIFY resp /\
    toy_de (drop (Z.to_nat sizeof_gatekeeper_message) resp) = (ERROR_NONE, r) /\
    vp_error r = ERROR_NONE /\ [42] = vp_token r.
Proof.
  intros s. eapply (verify_ok_authentic toy_ser toy_de (replicate (Z.to_nat 8192) 0) 0 0 9 [7] [8] s _ STATUS_OK 0 [42]).
  - unfold zlen. rewrite length_replicate. reflexivity.
  - vm_compute. reflexivity.
  - by left.
Defined.

(** A kmsetkey command that returns success was written as one frame and
    acknowledged: the response read back carries the command with the response
    flag, and with the done flag exactly when the caller said it was the last
    part. *)
Theorem kmsetkey_acknowledged {W} `{K : Kernel W} `{KB : !KernelBounds W} `{KE : !KernelErrno W}
    handle cmd finish inb out (s s' : proc W unit) out' n :
  zlen out = MAX_MSG_SIZE ->
  kmsetkey_call handle cmd finish inb out MAX_MSG_SIZE s = (Ret (0, out', n), s') ->
  exists r1 r2 r3 r4,
    trace s' = trace s ++ [Ev (Lib_malloc (sizeof_kmsetkey_msg + zlen inb)) r1;
      Ev (Sys_write handle (kmsetkey_msg_enc cmd inb)) r2; Ev Lib_free r3;
      Ev (Sys_read handle MAX_MSG_SIZE) r4] /\
    0 <= sr_ret r2 /\ zlen (sr_data r4) = n /\ slice 0 n out' = sr_data r4 /\
    get_u32 (sr_data r4) 0 = Z.lor cmd (if finish then Z.lor RESP_FLAG DONE_FLAG else RESP_FLAG).
Proof.
  intros Hout Hrun. pose proof (kmsetkey_call_ok handle cmd finish inb out s Hout) as H.
  unfold wp in H. rewrite Hrun in H. by apply H.
Qed.

Lemma kmsetkey_acknowledged_witness :
  let s := Proc tt (inbox_world [le_enc 4 3221225474]) 0 [] in
  exists r1 r2 r3 r4,
    trace (kmsetkey_call 5 SET_KEY true [] (replicate (Z.to_nat 4096) 0) MAX_MSG_SIZE s).2 = trace s ++
      [Ev (Lib_malloc (sizeof_kmsetkey_msg + zlen (@nil Z))) r1;
       Ev (Sys_write 5 (kmsetkey_msg_enc SET_KEY [])) r2; Ev Lib_free r3;
       Ev (Sys_read 5 MAX_MSG_SIZE) r4] /\
    0 <= sr_ret r2 /\ zlen (sr_data r4) = 4 /\
    slice 0 4 (le_enc 4 3221225474 ++ replicate (Z.to_nat 4092) 0) = sr_data r4 /\
    get_u32 (sr_data r4) 0 = Z.lor SET_KEY (Z.lor RESP_FLAG DONE_FLAG).
Proof.
  intros s. apply (kmsetkey_acknowledged 5 SET_KEY true [] (replicate (Z.to_nat 4096) 0) s).
  - unfold zlen. rewrite length_replicate. reflexivity.
  - vm_compute. reflexivity.
Defined.

(** The concrete installation succeeds. *)
Example attest_key_runs :
  (attest_key_install [1; 2] [3] (replicate (Z.to_nat 4096) 0) 10 [7; 8; 9]
    (Proc tt (inbox_world [le_enc 4 3221225488; le_enc 4 3221225472; le_enc 4 3221225473;
                           le_enc 4 3221225474]) 0 [])).1 = Ret 0.
Proof. vm_compute. reflexivity. Qed.
