(* ===== verification/KmLib.v ===== *)
(** * What the keymaster HALs share

    The command numbers and error codes of the protocol with the secure
    keymaster, the interface of the keymaster library's messages (which is not
    part of the repository), and the interface a transport offers to
    BeanpodKeymaster: connect, send a request, send a command without a
    request, disconnect. *)

From S2P Require Import Prelude Kernel Libtrusty.

(** ** keymaster_ipc.h *)

Definition KEYMASTER_RESP_BIT := 1.
Definition KEYMASTER_STOP_BIT := 2.
Definition KEYMASTER_REQ_SHIFT := 2.

(** enum keymaster_command; the last five exist for KeyMint only. *)
Inductive keymaster_command :=
| KM_GENERATE_KEY | KM_BEGIN_OPERATION | KM_UPDATE_OPERATION | KM_FINISH_OPERATION
| KM_ABORT_OPERATION | KM_IMPORT_KEY | KM_EXPORT_KEY | KM_GET_VERSION | KM_ADD_RNG_ENTROPY
| KM_GET_SUPPORTED_ALGORITHMS | KM_GET_SUPPORTED_BLOCK_MODES | KM_GET_SUPPORTED_PADDING_MODES
| KM_GET_SUPPORTED_DIGESTS | KM_GET_SUPPORTED_IMPORT_FORMATS | KM_GET_SUPPORTED_EXPORT_FORMATS
| KM_GET_KEY_CHARACTERISTICS | KM_ATTEST_KEY | KM_UPGRADE_KEY | KM_CONFIGURE
| KM_GET_HMAC_SHARING_PARAMETERS | KM_COMPUTE_SHARED_HMAC | KM_VERIFY_AUTHORIZATION
| KM_DELETE_KEY | KM_DELETE_ALL_KEYS | KM_DESTROY_ATTESTATION_IDS | KM_IMPORT_WRAPPED_KEY
| KM_DEVICE_LOCKED | KM_EARLY_BOOT_ENDED
| KM_GENERATE_RKP_KEY | KM_GENERATE_CSR | KM_GENERATE_TIMESTAMPTOKEN
| KM_CONFIGURE_VENDOR_PATCHLEVEL | KM_CONFIGURE_BOOT_PATCHLEVEL.
#[export] Instance keymaster_command_eq_dec : EqDecision keymaster_command.
Proof. solve_decision. Defined.

Definition command_number (c : keymaster_command) : Z :=
  match c with
  | KM_GENERATE_KEY => 0 | KM_BEGIN_OPERATION => 1 | KM_UPDATE_OPERATION => 2
  | KM_FINISH_OPERATION => 3 | KM_ABORT_OPERATION => 4 | KM_IMPORT_KEY => 5
  | KM_EXPORT_KEY => 6 | KM_GET_VERSION => 7 | KM_ADD_RNG_ENTROPY => 8
  | KM_GET_SUPPORTED_ALGORITHMS => 9 | KM_GET_SUPPORTED_BLOCK_MODES => 10
  | KM_GET_SUPPORTED_PADDING_MODES => 11 | KM_GET_SUPPORTED_DIGESTS => 12
  | KM_GET_SUPPORTED_IMPORT_FORMATS => 13 | KM_GET_SUPPORTED_EXPORT_FORMATS => 14
  | KM_GET_KEY_CHARACTERISTICS => 15 | KM_ATTEST_KEY => 16 | KM_UPGRADE_KEY => 17
  | KM_CONFIGURE => 18 | KM_GET_HMAC_SHARING_PARAMETERS => 19 | KM_COMPUTE_SHARED_HMAC => 20
  | KM_VERIFY_AUTHORIZATION => 21 | KM_DELETE_KEY => 22 | KM_DELETE_ALL_KEYS => 23
  | KM_DESTROY_ATTESTATION_IDS => 24 | KM_IMPORT_WRAPPED_KEY => 25 | KM_DEVICE_LOCKED => 26
  | KM_EARLY_BOOT_ENDED => 27
  | KM_GENERATE_RKP_KEY => 29 | KM_GENERATE_CSR => 30 | KM_GENERATE_TIMESTAMPTOKEN => 31
  | KM_CONFIGURE_VENDOR_PATCHLEVEL => 33 | KM_CONFIGURE_BOOT_PATCHLEVEL => 851968
  end.
Definition command_id (c : keymaster_command) : Z :=
  Z.shiftl (command_number c) KEYMASTER_REQ_SHIFT.

(** struct keymaster_message: a command word and the payload. *)
Definition sizeof_keymaster_message := 4.
Definition keymaster_message_enc (cmd : Z) (payload : bytes) : bytes := le_enc 4 cmd ++ payload.

(** ** Error codes *)

Definition ENODEV := 19.
Definition EBUSY := 16.
Definition EOVERFLOW := 75.
Definition ECANCELED := 125.

(** keymaster_error_t (hardware/keymaster_defs.h) *)
Definition KM_ERROR_OK := 0.
Definition KM_ERROR_INVALID_INPUT_LENGTH := -21.
Definition KM_ERROR_MEMORY_ALLOCATION_FAILED := -41.
Definition KM_ERROR_SECURE_HW_ACCESS_DENIED := -45.
Definition KM_ERROR_OPERATION_CANCELLED := -46.
Definition KM_ERROR_SECURE_HW_BUSY := -48.
Definition KM_ERROR_SECURE_HW_COMMUNICATION_FAILED := -49.
Definition KM_ERROR_UNIMPLEMENTED := -100.
Definition KM_ERROR_UNKNOWN_ERROR := -1000.

Definition BEANPOD_KM_INVALID_INPUT_LENGTH := -10000.

Definition translate_error (err : Z) : Z :=
  if err =? 0 then KM_ERROR_OK
  else if (err =? - EPERM) || (err =? - EACCES) then KM_ERROR_SECURE_HW_ACCESS_DENIED
  else if err =? - ECANCELED then KM_ERROR_OPERATION_CANCELLED
  else if err =? - ENODEV then KM_ERROR_UNIMPLEMENTED
  else if err =? - ENOMEM then KM_ERROR_MEMORY_ALLOCATION_FAILED
  else if err =? - EBUSY then KM_ERROR_SECURE_HW_BUSY
  else if err =? - EIO then KM_ERROR_SECURE_HW_COMMUNICATION_FAILED
  else if err =? - EOVERFLOW then KM_ERROR_INVALID_INPUT_LENGTH
  else KM_ERROR_UNKNOWN_ERROR.

(** ** The messages of the keymaster library *)

(** keymaster::Serializable: the size it announces, and what it writes into a
    buffer with room for [n] bytes. *)
Record Serializable := MkSerializable { SerializedSize : Z; Serialize : Z -> bytes }.

(** A message fills exactly the size it announces, which fits 32 bits. *)
Definition serializable_wf (q : Serializable) : Prop :=
  is_u32 (SerializedSize q) /\ zlen (Serialize q (SerializedSize q)) = SerializedSize q.

(** keymaster::KeymasterResponse: a response object can be filled from bytes
    (which may fail) and has an [error] field. *)
Class KeymasterResponse (R : Type) := {
  Deserialize : R -> bytes -> bool * R;
  rsp_error : R -> Z;
  set_error : R -> Z -> R;
  rsp_error_set : forall r e, rsp_error (set_error r e) = e;
}.

(** ** The transport *)

(** beanpod_keymaster_ipc.h as BeanpodKeymaster uses it. *)
Class KeymasterIpc (W G : Type) := {
  ipc_connect : M W G Z;
  ipc_disconnect : M W G unit;
  ipc_send : forall {R} `{KeymasterResponse R}, Z -> Serializable -> R -> M W G (Z * R);
  ipc_send_no_request : forall {R} `{KeymasterResponse R}, Z -> R -> M W G (Z * R);
}.

(** What a transport promises.  [answered cmd req payload evs]: in the calls
    [evs] the service was sent command [cmd] with request bytes [req] and
    answered it with [payload].  A transport that reports [KM_ERROR_OK] had the
    command answered, decoded exactly that answer, and the answer carries no
    error.  Connecting an idle transport makes it ready, whether or not it
    succeeds; calls that open and close nothing disturb neither state. *)
Definition delivers {W G R} `{KeymasterResponse R}
    (answered : Z -> bytes -> bytes -> list event -> Prop) (cmd : Z) (req : bytes) (rsp : R)
    (s : proc W G) (o : outcome (Z * R)) (s' : proc W G) : Prop :=
  forall rsp', o = Ret (KM_ERROR_OK, rsp') ->
    exists payload evs, trace s' = trace s ++ evs /\ answered cmd req payload evs /\
      Deserialize rsp payload = (true, rsp') /\ rsp_error rsp' = KM_ERROR_OK.

(** [P] holds of the state in which a function returns. *)
Definition returned {W G A} (P : proc W G -> Prop) (o : outcome A) (s : proc W G) : Prop :=
  match o with Ret _ => P s | Stop _ => True end.

Class KeymasterIpcLaws (W G : Type) `{K : Kernel W} `{I : !KeymasterIpc W G} := {
  ipc_idle : proc W G -> Prop;
  ipc_ready : proc W G -> Prop;
  ipc_answered : G -> Z -> bytes -> bytes -> list event -> Prop;
  ipc_send_ok : forall {R} `{KeymasterResponse R} c q (rsp : R) s,
    ipc_ready s -> serializable_wf q ->
    wp (ipc_send (command_id c) q rsp) (fun o s' => returned ipc_ready o s' /\
      delivers (ipc_answered (globals s)) (command_id c) (Serialize q (SerializedSize q)) rsp s o s') s;
  ipc_send_no_request_ok : forall {R} `{KeymasterResponse R} c (rsp : R) s,
    ipc_ready s ->
    wp (ipc_send_no_request (command_id c) rsp) (fun o s' => returned ipc_ready o s' /\
      delivers (ipc_answered (globals s)) (command_id c) [] rsp s o s') s;
  ipc_connect_ok : forall s, ipc_idle s ->
    wp ipc_connect (fun o s' => exists rc, o = Ret rc /\ grows s s' /\ ipc_ready s') s;
  ipc_idle_quiet : forall s s' evs, ipc_idle s -> globals s' = globals s ->
    trace s' = trace s ++ evs -> Forall no_fd evs -> ipc_idle s';
  ipc_ready_quiet : forall s s' evs, ipc_ready s -> globals s' = globals s ->
    trace s' = trace s ++ evs -> Forall no_fd evs -> ipc_ready s';
}.

(** ** Facts about the commands *)

Lemma command_id_inj c c' : command_id c = command_id c' -> c = c'.
Proof. destruct c, c'; first [reflexivity | discriminate]. Qed.

(** A command that leaves the two flag bits free. *)
Definition plain_cmd (cmd : Z) : Prop := cmd mod 4 = 0 /\ is_u32 cmd.

Lemma plain_cmd_id c : plain_cmd (command_id c).
Proof. destruct c; (split; [reflexivity|]); unfold is_u32; vm_compute; done. Qed.

(** Setting a flag bit of such a command adds it. *)
Lemma plain_cmd_lor cmd f : plain_cmd cmd -> 0 <= f < 4 -> Z.lor cmd f = cmd + f.
Proof.
  intros [Hm _] Hf. symmetry. apply Z.add_nocarry_lor.
  rewrite <- (Z.mod_small f (2 ^ 2)) by lia. rewrite <- Z.land_ones by lia.
  rewrite Z.land_assoc, (Z.land_comm cmd), <- Z.land_assoc, Z.land_ones by lia.
  change (2 ^ 2) with 4. rewrite Hm. apply Z.land_0_r.
Qed.

Lemma translate_error_neg rc : rc < 0 -> translate_error rc < 0.
Proof.
  intros H. unfold translate_error. repeat (case_match; [|]); try lia; done.
Qed.
