(* ===== verification/KmTipc.v ===== *)
(** * The keymaster transport over tipc (lite/km4.1/common/beanpod_keymaster_ipc.cpp)

    A request is cut into messages of at most three kilobytes, all but the last
    with the stop bit set; a response arrives in messages that are gathered in
    the receive buffer until one with the stop bit.  After an error the
    connection is set up anew. *)

From S2P Require Import Prelude Kernel Libtrusty KmLib.

Definition KM_DEVICE_NAME : bytes := cstr "/dev/trusty-ipc-dev0".
Definition KEYMASTER_PORT : bytes := cstr "com.android.trusty.keymaster".
Definition KEYMASTER_MAX_BUFFER_LENGTH := 4096.
Definition BP_KEYMASTER_RECV_BUF_SIZE := 17 * KEYMASTER_MAX_BUFFER_LENGTH.
Definition BP_KEYMASTER_SEND_BUF_SIZE := 17 * KEYMASTER_MAX_BUFFER_LENGTH.
Definition MAX_SEND_BUF_SIZE := 3 * 1024.

(** The static [handle_] and the two global buffers. *)
Record km_st := KmSt { handle_ : Z; send_buf : bytes; recv_buf : bytes }.
Definition km_st0 : km_st :=
  KmSt (-1) (replicate (Z.to_nat BP_KEYMASTER_SEND_BUF_SIZE) 0)
       (replicate (Z.to_nat BP_KEYMASTER_RECV_BUF_SIZE) 0).
Definition set_handle h g := KmSt h (send_buf g) (recv_buf g).
Definition set_send_buf b g := KmSt (handle_ g) b (recv_buf g).
Definition set_recv_buf b g := KmSt (handle_ g) (send_buf g) b.

Section KmTipc.
Context {W : Type} `{K : Kernel W}.
Abbreviation KM := (M W km_st).
(** What keymaster::Eraser leaves of a buffer at the end of its scope. *)
Context (erase : bytes -> bytes).
(** Messages a response may have before the model gives up. *)
Context (fuel : nat).

Definition bp_keymaster_connect : KM Z :=
  rc ← tipc_connect KM_DEVICE_NAME KEYMASTER_PORT;
  if rc <? 0 then mret rc
  else modify (set_handle rc);; mret 0.

(** One message of a request: [Some rc] returns [rc] from the call. *)
Definition send_part (cmd : Z) (payload : bytes) : KM (option Z) :=
  ok ← malloc (zlen payload + sizeof_keymaster_message);
  if negb ok then mret (Some (- EINVAL))
  else
    h ← gets handle_;
    r ← sys (Sys_write h (keymaster_message_enc cmd payload));
    free;;
    if sr_ret r <? 0 then e ← get_errno; mret (Some (- e)) else mret None.

(** The first loop of [bp_keymaster_call]; [send] is what is left to send. *)
Fixpoint send_loop (n : nat) (cmd : Z) (send : bytes) : KM (option Z) :=
  match n with
  | O => halt OutOfFuel
  | S n' =>
      if MAX_SEND_BUF_SIZE <? zlen send then
        e ← send_part (Z.lor cmd KEYMASTER_STOP_BIT) (take (Z.to_nat MAX_SEND_BUF_SIZE) send);
        match e with
        | Some rc => mret (Some rc)
        | None => send_loop n' cmd (drop (Z.to_nat MAX_SEND_BUF_SIZE) send)
        end
      else send_part cmd send
  end.

(** One round of the second loop: return from the call, or read on.  Status,
    contents of [out], [*out_size]. *)
Inductive recv_step := Return (rc : Z) (out : bytes) (out_size : Z) | Continue (out : bytes) (out_size : Z).

Definition recv_part (cmd : Z) (out : bytes) (out_max_size out_size : Z) : KM recv_step :=
  h ← gets handle_;
  let iov_len := Z.min KEYMASTER_MAX_BUFFER_LENGTH (u32 (out_max_size - out_size)) in
  r ← sys (Sys_readv h [sizeof_keymaster_message; iov_len]);
  let rc := sr_ret r in
  if rc <? 0 then e ← get_errno; mret (Return (- e) out out_size)
  else
    let header_cmd := get_u32 (sr_data r) 0 in
    let out := splice out out_size (drop (Z.to_nat sizeof_keymaster_message) (sr_data r)) in
    if rc <? sizeof_keymaster_message then mret (Return (- EINVAL) out out_size)
    else if negb (Z.lor cmd KEYMASTER_RESP_BIT
                  =? Z.land header_cmd (u32 (Z.lnot KEYMASTER_STOP_BIT)))
    then mret (Return (- EINVAL) out out_size)
    else
      let out_size := u32 (out_size + (rc - sizeof_keymaster_message)) in
      if has_flag header_cmd KEYMASTER_STOP_BIT then mret (Return (s32 rc) out out_size)
      else mret (Continue out out_size).

Fixpoint recv_loop (n : nat) (cmd : Z) (out : bytes) (out_max_size out_size : Z)
    : KM (Z * bytes * Z) :=
  match n with
  | O => halt OutOfFuel
  | S n' =>
      step ← recv_part cmd out out_max_size out_size;
      match step with
      | Return rc out out_size => mret (rc, out, out_size)
      | Continue out out_size => recv_loop n' cmd out out_max_size out_size
      end
  end.

Definition bp_keymaster_call (cmd : Z) (inb out : bytes) (out_size : Z) : KM (Z * bytes * Z) :=
  h ← gets handle_;
  if h <? 0 then mret (- EINVAL, out, out_size)
  else
    e ← send_loop (S (length inb)) cmd inb;
    match e with
    | Some rc => mret (rc, out, out_size)
    | None => recv_loop fuel cmd out out_size 0
    end.

Definition bp_keymaster_disconnect : KM unit :=
  h ← gets handle_;
  (if 0 <=? h then tipc_close h else mret tt);;
  modify (set_handle (-1)).

(** The common tail of the two send functions, [recv_buf] holding the answer. *)
Definition handle_response {R} `{KeymasterResponse R} (rc rsp_size : Z) (rsp : R) : KM (Z * R) :=
  if rc <? 0 then
    bp_keymaster_disconnect;;
    bp_keymaster_connect;;
    mret (translate_error rc, rsp)
  else
    p ← gets recv_buf;
    let '(ok, rsp) := Deserialize rsp (slice 0 rsp_size p) in
    if negb ok then mret (KM_ERROR_UNKNOWN_ERROR, rsp) else mret (rsp_error rsp, rsp).

(** The call into [recv_buf] and that tail. *)
Definition call_and_handle {R} `{KeymasterResponse R} (command : Z) (inb : bytes) (rsp : R)
    : KM (Z * R) :=
  out ← gets recv_buf;
  '(rc, out, rsp_size) ← bp_keymaster_call command inb out BP_KEYMASTER_RECV_BUF_SIZE;
  modify (set_recv_buf out);;
  handle_response rc rsp_size rsp.

Definition bp_keymaster_send {R} `{KeymasterResponse R} (command : Z) (req : Serializable) (rsp : R)
    : KM (Z * R) :=
  let req_size := u32 (SerializedSize req) in
  if BP_KEYMASTER_SEND_BUF_SIZE <? req_size then mret (BEANPOD_KM_INVALID_INPUT_LENGTH, rsp)
  else
    modify (fun g => set_send_buf (splice (send_buf g) 0 (Serialize req req_size)) g);;
    inb ← gets send_buf;
    res ← call_and_handle command (slice 0 req_size inb) rsp;
    modify (fun g => set_recv_buf (erase (recv_buf g)) g);;
    modify (fun g => set_send_buf (erase (send_buf g)) g);;
    mret res.

Definition bp_keymaster_send_no_request {R} `{KeymasterResponse R} (command : Z) (rsp : R)
    : KM (Z * R) :=
  res ← call_and_handle command [] rsp;
  modify (fun g => set_recv_buf (erase (recv_buf g)) g);;
  mret res.
End KmTipc.

(** The transport BeanpodKeymaster of the lite HAL links against. *)
Definition tipc_ipc {W} `{K : Kernel W} (erase : bytes -> bytes) (fuel : nat)
    : KeymasterIpc W km_st := {|
  ipc_connect := bp_keymaster_connect;
  ipc_disconnect := bp_keymaster_disconnect;
  ipc_send := fun R H => bp_keymaster_send erase fuel;
  ipc_send_no_request := fun R H => bp_keymaster_send_no_request erase fuel;
|}.
