(* ===== verification/KmTipcSpec.v ===== *)
(** * What the tipc keymaster transport achieves

    The receiving side of the protocol as a reference: [gather] puts a request
    together from its messages, [assemble] a response.  The two loops of
    [bp_keymaster_call] are proved against them, then the send functions. *)

From S2P Require Import Prelude Kernel Libtrusty KmLib KmTipc.

(** ** The reference *)

(** What a receiver makes of the messages of a request: a message with the stop
    bit is continued by the next one, which must repeat the command. *)
Fixpoint gather (frames : list bytes) : option (Z * bytes) :=
  match frames with
  | [] => None
  | f :: fs =>
      let c := get_u32 f 0 in
      let p := drop 4 f in
      if has_flag c KEYMASTER_STOP_BIT then
        match gather fs with
        | Some (c', p') => if c =? Z.lor c' KEYMASTER_STOP_BIT then Some (c', p ++ p') else None
        | None => None
        end
      else match fs with [] => Some (c, p) | _ => None end
  end.

(** A message of the response to [cmd], last or not. *)
Definition answers_cmd (cmd : Z) (m : bytes) : bool :=
  (4 <=? zlen m) && (Z.land (get_u32 m 0) (u32 (Z.lnot KEYMASTER_STOP_BIT))
                     =? Z.lor cmd KEYMASTER_RESP_BIT).
Definition last_part (m : bytes) : bool := has_flag (get_u32 m 0) KEYMASTER_STOP_BIT.

(** The payload of a complete response to [cmd]: only the last message carries
    the stop bit. *)
Fixpoint assemble (cmd : Z) (msgs : list bytes) : option bytes :=
  match msgs with
  | [] => None
  | m :: ms =>
      if negb (answers_cmd cmd m) then None
      else if last_part m then match ms with [] => Some (drop 4 m) | _ => None end
      else match assemble cmd ms with Some p => Some (drop 4 m ++ p) | None => None end
  end.

(** The messages a trace received, in order. *)
Fixpoint received (tr : list event) : list bytes :=
  match tr with
  | [] => []
  | Ev (Sys_readv _ _) r :: tr' => if sr_ret r <? 0 then received tr' else sr_data r :: received tr'
  | _ :: tr' => received tr'
  end.

Lemma received_app tr tr' : received (tr ++ tr') = received tr ++ received tr'.
Proof. induction tr as [|[[] r] tr IH]; simpl; try done. case_match; simpl; by rewrite IH. Qed.

(** The stop bit of a command word. *)
Lemma stop_flag z : has_flag z KEYMASTER_STOP_BIT = Z.testbit z 1.
Proof.
  unfold has_flag, KEYMASTER_STOP_BIT. change 2 with (2 ^ 1).
  destruct (Z.testbit z 1) eqn:E.
  - apply negb_true_iff, Z.eqb_neq. intros H0.
    assert (Z.testbit (Z.land z (2 ^ 1)) 1 = true) as Ht
      by (rewrite Z.land_spec, E, Z.pow2_bits_eqb by lia; done).
    rewrite H0 in Ht. done.
  - apply negb_false_iff, Z.eqb_eq, Z.bits_inj'. intros i Hi.
    rewrite Z.land_spec, Z.pow2_bits_eqb, Z.bits_0 by lia.
    destruct (Z.eqb_spec 1 i) as [<-|]; [by rewrite E|apply andb_false_r].
Qed.

Lemma plain_cmd_stop cmd : plain_cmd cmd ->
  has_flag cmd KEYMASTER_STOP_BIT = false /\
  has_flag (Z.lor cmd KEYMASTER_STOP_BIT) KEYMASTER_STOP_BIT = true /\
  is_u32 (Z.lor cmd KEYMASTER_STOP_BIT).
Proof.
  intros Hc. rewrite !stop_flag, Z.lor_spec, orb_true_r. split_and!; [|done|].
  - destruct Hc as [Hm _]. rewrite <- (Z.mod_pow2_bits_low cmd 2) by lia.
    change (2 ^ 2) with 4. by rewrite Hm, Z.bits_0.
  - rewrite plain_cmd_lor; [|done|done]. destruct Hc as [Hm [H1 H2]]. unfold KEYMASTER_STOP_BIT, is_u32 in *. lia.
Qed.

(** ** Sending *)

(** Calls that exchange messages: nothing is opened or closed. *)
Section Loops.
Context {W : Type} `{K : Kernel W} `{KE : !KernelErrno W} `{KB : !KernelBounds W}.
Implicit Types s : proc W km_st.

Lemma send_part_spec cmd payload s :
  wp (send_part cmd payload) (fun o s' => exists e evs, o = Ret e /\
    globals s' = globals s /\ trace s' = trace s ++ evs /\ Forall no_fd evs /\ received evs = [] /\
    match e with
    | None => written (handle_ (globals s)) evs = [keymaster_message_enc cmd payload]
    | Some rc => rc < 0 /\
        written (handle_ (globals s)) evs `prefix_of` [keymaster_message_enc cmd payload]
    end) s.
Proof.
  unfold send_part, malloc, free. apply wp_bind, wp_bind. apply wp_sys; intros r0 w0 Hk0. apply wp_ret.
  apply wp_if; intros Hm.
  { apply wp_ret. eexists _, [_]. split_and!; try done; [by repeat constructor|].
    split; [unfold EINVAL; lia|apply prefix_nil]. }
  apply wp_bind, wp_gets, wp_bind. apply wp_sys; intros r1 w1 Hk1. apply wp_bind, wp_bind.
  apply wp_sys; intros r2 w2 Hk2. apply wp_ret.
  assert (forall h x, written h [Ev (Lib_malloc x) r0;
    Ev (Sys_write h (keymaster_message_enc cmd payload)) r1; Ev Lib_free r2]
    = [keymaster_message_enc cmd payload]) as Hw by (intros; simpl; by rewrite Z.eqb_refl).
  apply wp_if; intros Hr.
  - pose proof (errno_after _ _ _ _ Hk1 ltac:(right; lia)) as He.
    pose proof (errno_after _ _ _ _ Hk2 (or_introl He)). apply wp_bind, wp_get_errno, wp_ret.
    eexists _, [_; _; _]. split_and!; [done|done|simpl; by rewrite <- !app_assoc|by repeat constructor|done|].
    split; [lia|]. by rewrite Hw.
  - apply wp_ret. eexists _, [_; _; _].
    split_and!; [done|done|simpl; by rewrite <- !app_assoc|by repeat constructor|done|apply Hw].
Qed.

Lemma message_fields cmd p : is_u32 cmd ->
  get_u32 (keymaster_message_enc cmd p) 0 = cmd /\ drop 4 (keymaster_message_enc cmd p) = p /\
  zlen (keymaster_message_enc cmd p) = 4 + zlen p.
Proof.
  intros Hc. unfold keymaster_message_enc. rewrite get_u32_app_l, zlen_app, zlen_le_enc by done.
  split_and!; [done| |done]. by rewrite drop_app_length' by (by rewrite length_le_enc).
Qed.

(** The messages written are the beginning of a request a receiver gathers to
    the command and the bytes given, all of it unless an error is returned. *)
Lemma send_loop_spec cmd n send s :
  plain_cmd cmd -> zlen send < Z.of_nat n ->
  wp (send_loop n cmd send) (fun o s' => exists e evs frames, o = Ret e /\
    globals s' = globals s /\ trace s' = trace s ++ evs /\ Forall no_fd evs /\ received evs = [] /\
    gather frames = Some (cmd, send) /\ Forall (fun f => zlen f <= 4 + MAX_SEND_BUF_SIZE) frames /\
    written (handle_ (globals s)) evs `prefix_of` frames /\
    match e with
    | None => written (handle_ (globals s)) evs = frames
    | Some rc => rc < 0
    end) s.
Proof.
  intros Hc. destruct (plain_cmd_stop cmd Hc) as (Hf0 & Hf1 & Hu). pose proof Hc as [_ Hu0].
  revert send s. induction n as [|n IH]; intros send s Hn; [pose proof (zlen_nonneg send); lia|].
  cbn [send_loop]. apply wp_if; intros Hl.
  2:{ destruct (message_fields cmd send Hu0) as (E1 & E2 & E3).
      eapply wp_mono; [apply send_part_spec|].
      intros o s' (e & evs & -> & Hg & Ht & Hno & Hr & Hw).
      exists e, evs, [keymaster_message_enc cmd send]. split_and!; try done.
      - cbn [gather]. by rewrite E1, E2, Hf0.
      - constructor; [|done]. lia.
      - destruct e; [apply Hw|by rewrite Hw].
      - destruct e; [apply Hw|done]. }
  set (part := take (Z.to_nat MAX_SEND_BUF_SIZE) send). set (rest := drop (Z.to_nat MAX_SEND_BUF_SIZE) send).
  destruct (message_fields (Z.lor cmd KEYMASTER_STOP_BIT) part Hu) as (E1 & E2 & E3).
  assert (zlen part = MAX_SEND_BUF_SIZE /\ zlen rest = zlen send - MAX_SEND_BUF_SIZE) as [Hp Hs].
  { unfold part, rest, zlen, MAX_SEND_BUF_SIZE in *. rewrite length_take, length_drop. lia. }
  assert (forall frames, gather frames = Some (cmd, rest) ->
    gather (keymaster_message_enc (Z.lor cmd KEYMASTER_STOP_BIT) part :: frames) = Some (cmd, send)) as Hgat.
  { intros frames Hg. cbn [gather]. rewrite E1, E2, Hf1, Hg, Z.eqb_refl.
    unfold part, rest. by rewrite take_drop. }
  assert (zlen rest < Z.of_nat n) as Hn' by (unfold MAX_SEND_BUF_SIZE in *; lia).
  apply wp_bind. eapply wp_mono; [apply send_part_spec|].
  intros o s1 (e & evs & -> & Hg & Ht & Hno & Hr & Hw). destruct e as [rc|].
  - apply wp_ret. destruct Hw as [Hrc Hw].
    destruct (IH rest s1 Hn') as (e & evs' & frames & _ & _ & _ & _ & _ & Hga & Hfa & _).
    eexists _, evs, (_ :: frames). split_and!; [done|done|done|done|done|by apply Hgat| | |done].
    + constructor; [lia|done].
    + change (?x :: ?l) with ([x] ++ l). by apply prefix_app_r.
  - eapply wp_mono; [by apply IH|].
    intros o s2 (e & evs' & frames & -> & Hg' & Ht' & Hno' & Hr' & Hga & Hfa & Hpre & He).
    rewrite Hg in *. eexists _, (evs ++ evs'), (_ :: frames).
    split_and!; [done|done|by rewrite Ht', Ht, app_assoc|by apply Forall_app
      |by rewrite received_app, Hr, Hr'|by apply Hgat| | |].
    + constructor; [lia|done].
    + rewrite written_app, Hw. simpl. by apply prefix_cons.
    + destruct e; [done|]. by rewrite written_app, Hw, He.
Qed.

(** ** Receiving *)

(** A message that answers the command and is not the last one. *)
Definition unfinished (cmd : Z) (m : bytes) : Prop :=
  answers_cmd cmd m = true /\ last_part m = false.

(** What a round leaves: a failure, the last message or another one, its
    payload gathered behind the [sz] bytes already in [out]. *)
Definition recv_step_ok (cmd sz : Z) (out : bytes) (msgs : list bytes) (st : recv_step) : Prop :=
  match st with
  | Return rc out' sz' => zlen out' = zlen out /\ 0 <= sz' <= zlen out /\
      (rc < 0 \/ exists m, msgs = [m] /\ answers_cmd cmd m = true /\ last_part m = true /\ 4 <= rc /\
         sz' = sz + zlen (drop 4 m) /\ slice 0 sz' out' = slice 0 sz out ++ drop 4 m)
  | Continue out' sz' => zlen out' = zlen out /\ 0 <= sz' <= zlen out /\
      exists m, msgs = [m] /\ unfinished cmd m /\
         sz' = sz + zlen (drop 4 m) /\ slice 0 sz' out' = slice 0 sz out ++ drop 4 m
  end.

Lemma recv_part_spec cmd out sz s :
  0 <= sz <= zlen out -> zlen out < 2 ^ 31 ->
  wp (recv_part cmd out (zlen out) sz) (fun o s' => exists st e, o = Ret st /\
    globals s' = globals s /\ trace s' = trace s ++ [e] /\ no_fd e /\
    (forall h, written h [e] = []) /\ recv_step_ok cmd sz out (received [e]) st) s.
Proof.
  intros Hsz Hmax. unfold recv_part. apply wp_bind, wp_gets, wp_bind.
  rewrite (u32_small (zlen out - sz)) by wide_lia.
  unfold sizeof_keymaster_message, KEYMASTER_MAX_BUFFER_LENGTH.
  set (len := Z.min 4096 (zlen out - sz)). apply wp_sys; intros r w Hk.
  destruct (kb_readv (handle_ (globals s)) [4; len] (world s)) as [Hle Hdat];
    [repeat constructor; unfold len; lia|].
  rewrite Hk in Hle, Hdat; simpl in Hle, Hdat.
  set (ev := Ev (Sys_readv (handle_ (globals s)) [4; len]) r).
  assert (forall st s', s' = after s (Sys_readv (handle_ (globals s)) [4; len]) r w ->
    recv_step_ok cmd sz out (received [ev]) st -> exists st' e, Ret st = Ret st' /\
    globals s' = globals s /\ trace s' = trace s ++ [e] /\ no_fd e /\
    (forall h, written h [e] = []) /\ recv_step_ok cmd sz out (received [e]) st') as Hfin.
  { intros st s' -> Hok. by exists st, ev. }
  apply wp_if; intros Hneg.
  { pose proof (errno_after _ _ _ _ Hk ltac:(right; lia)). apply wp_bind, wp_get_errno, wp_ret.
    apply Hfin; [done|]. split_and!; [done|lia|lia|left; lia]. }
  destruct (Hdat ltac:(lia)) as [Hl _]. change (Z.to_nat 4) with 4%nat.
  assert (zlen (drop 4 (sr_data r)) = Z.max 0 (sr_ret r - 4)) as Hd
    by (unfold zlen in *; rewrite length_drop; lia).
  destruct (splice_part out sz (drop 4 (sr_data r))) as [Hsl Hsp]; [lia|unfold len in *; lia|].
  assert (received [ev] = [sr_data r]) as Hrec by (simpl; by rewrite Hneg). rewrite Hrec in Hfin.
  apply wp_if; intros Hshort; [apply wp_ret, Hfin; [done|]; split_and!; [lia|lia|lia|left; unfold EINVAL; lia]|].
  apply wp_if; intros Hcmd; [apply wp_ret, Hfin; [done|]; split_and!; [lia|lia|lia|left; unfold EINVAL; lia]|].
  assert (answers_cmd cmd (sr_data r) = true) as Hans.
  { unfold answers_cmd. apply negb_false_iff, Z.eqb_eq in Hcmd. rewrite Hcmd, Z.eqb_refl. lia. }
  rewrite u32_small by (unfold len in *; wide_lia).
  rewrite Hd in Hsp. replace (sz + Z.max 0 (sr_ret r - 4)) with (sz + (sr_ret r - 4)) in Hsp by lia.
  apply wp_if; intros Hstop; apply wp_ret, Hfin; try done; (split_and!; [done|lia|unfold len in *; lia|]).
  - right. exists (sr_data r). split_and!; try done; [|lia]. rewrite s32_small by (unfold len in *; wide_lia). lia.
  - exists (sr_data r). split_and!; try done. lia.
Qed.

(** The messages of a response are gathered in the buffer, which is never
    overrun; without an end of the response the loop keeps reading. *)
Lemma recv_loop_spec cmd n out sz s :
  0 <= sz <= zlen out -> zlen out < 2 ^ 31 ->
  wp (recv_loop n cmd out (zlen out) sz) (fun o s' => exists evs,
    globals s' = globals s /\ trace s' = trace s ++ evs /\ Forall no_fd evs /\
    (forall h, written h evs = []) /\
    match o with
    | Ret (rc, out', sz') => zlen out' = zlen out /\ 0 <= sz' <= zlen out /\
        (rc < 0 \/ exists p, assemble cmd (received evs) = Some p /\ 4 <= rc /\
           sz' = sz + zlen p /\ slice 0 sz' out' = slice 0 sz out ++ p)
    | Stop e => e = OutOfFuel /\ length (received evs) = n /\ Forall (unfinished cmd) (received evs)
    end) s.
Proof.
  revert out sz s. induction n as [|n IH]; intros out sz s Hsz Hmax.
  { apply wp_halt. exists []. rewrite app_nil_r. by split_and!. }
  cbn [recv_loop]. apply wp_bind. eapply wp_mono; [by apply recv_part_spec|].
  intros o s1 (st & e & -> & Hg & Ht & Hno & Hw & Hok). destruct st as [rc out1 sz1|out1 sz1].
  - destruct Hok as (Hl & Hs1 & Hr). apply wp_ret. exists [e].
    split_and!; [done|done|by repeat constructor|done|done|lia|lia|].
    destruct Hr as [Hr|(m & Hm & Ha & Hlast & Hrc & -> & Hsl)]; [by left|right].
    exists (drop 4 m). rewrite Hm. cbn [assemble]. by rewrite Ha, Hlast.
  - destruct Hok as (Hl & Hs1 & m & Hm & [Ha Hlast] & -> & Hsl). rewrite <- Hl in Hs1, Hmax |- *.
    eapply wp_mono; [by apply IH|]. intros o s2 (evs & Hg2 & Ht2 & Hno2 & Hw2 & Ho).
    exists (e :: evs). change (e :: evs) with ([e] ++ evs). rewrite received_app, Hm.
    split_and!; [congruence|by rewrite Ht2, Ht, <- app_assoc|by constructor
      |intros h; by rewrite written_app, Hw, Hw2|].
    destruct o as [[[rc out2] sz2]|x].
    + destruct Ho as (Hl2 & Hs2 & Hr). split_and!; [done|lia|lia|].
      destruct Hr as [Hr|(p & Hp & Hrc & -> & Hsl2)]; [by left|right]. exists (drop 4 m ++ p).
      cbn [app assemble]. rewrite Ha, Hlast, Hp. cbn [negb].
      split_and!; [done|done|rewrite zlen_app; lia|by rewrite Hsl2, Hsl, app_assoc].
    + destruct Ho as (-> & Hlen & Hall). split_and!; [done|simpl; by rewrite Hlen|by constructor].
Qed.
End Loops.

(** ** Calls *)

(** The service behind [h] was sent command [cmd] with the bytes [req], and
    answered with [payload]. *)
Definition answered (h cmd : Z) (req payload : bytes) (evs : list event) : Prop :=
  gather (written h evs) = Some (cmd, req) /\ assemble cmd (received evs) = Some payload.

(** The service was sent the whole command, and answered with [n] messages none
    of which ends the response. *)
Definition unanswered (h cmd : Z) (req : bytes) (n : nat) (evs : list event) : Prop :=
  gather (written h evs) = Some (cmd, req) /\
  length (received evs) = n /\ Forall (unfinished cmd) (received evs).

(** What is said of the connection and of the descriptors left open has to
    survive connecting without a connection, and disconnecting. *)
Class Descriptors (P : Z -> list Z -> Prop) := {
  d_connect h fds evs rc : h < 0 -> P h fds ->
    P (if rc <? 0 then h else rc) (filter (fun fd => closes fd evs = false) fds ++ if rc <? 0 then [] else [rc]);
  d_close h fds r : 0 <= h -> P h fds -> P (-1) (filter (fun fd => closes fd [Ev (Sys_close h) r] = false) fds);
  d_reset h fds : h < 0 -> P h fds -> P (-1) fds
}.

(** The state of the transport: both buffers have their sizes. *)
Definition km_inv_with (P : Z -> list Z -> Prop) {W} (s : proc W km_st) : Prop :=
  zlen (send_buf (globals s)) = BP_KEYMASTER_SEND_BUF_SIZE /\
  zlen (recv_buf (globals s)) = BP_KEYMASTER_RECV_BUF_SIZE /\
  P (handle_ (globals s)) (open_fds (trace s)).

(** The descriptors left open are the connection, and nothing else. *)
Definition only_handle (h : Z) (fds : list Z) : Prop := fds = if h <? 0 then [] else [h].
Definition km_inv {W} : proc W km_st -> Prop := km_inv_with only_handle.

#[export] Instance only_handle_descriptors : Descriptors only_handle.
Proof.
  split; unfold only_handle.
  - intros h fds evs rc Hh ->. replace (h <? 0) with true by lia. destruct (rc <? 0) eqn:E; simpl; [|by rewrite E].
    by replace (h <? 0) with true by lia.
  - intros h fds r Hh ->. replace (h <? 0) with false by lia. rewrite filter_cons_False; [done|].
    unfold closes. simpl. by rewrite Z.eqb_refl.
  - intros h fds Hh ->. by replace (h <? 0) with true by lia.
Qed.

(** They are among the connection and the connections [over] that were replaced
    by connecting again. *)
Definition among (over : list Z) (h : Z) (fds : list Z) : Prop :=
  fds `sublist_of` over ++ if h <? 0 then [] else [h].

Lemma filter_sublist (f : Z -> bool) (l : list Z) : filter (fun x => f x = false) l `sublist_of` l.
Proof.
  induction l as [|x l IH]; [done|]. destruct (f x) eqn:E.
  - rewrite filter_cons_False by (by rewrite E). by apply sublist_cons.
  - rewrite filter_cons_True by done. by apply sublist_skip.
Qed.
Lemma sublist_filtered (f : Z -> bool) (l k : list Z) :
  l `sublist_of` k -> filter (fun x => f x = false) l `sublist_of` filter (fun x => f x = false) k.
Proof.
  induction 1 as [|x l k _ IH|x l k _ IH]; [done|..]; destruct (f x) eqn:E.
  - by rewrite !filter_cons_False by (by rewrite E).
  - rewrite !filter_cons_True by done. by apply sublist_skip.
  - by rewrite filter_cons_False by (by rewrite E).
  - rewrite filter_cons_True by done. by apply sublist_cons.
Qed.

#[export] Instance among_descriptors over : Descriptors (among over).
Proof.
  split; unfold among.
  - intros h fds evs rc Hh Hs. replace (h <? 0) with true in Hs by lia. rewrite app_nil_r in Hs.
    pose proof (transitivity (filter_sublist (fun x => closes x evs) fds) Hs) as Hs'.
    destruct (rc <? 0) eqn:E; rewrite ?E; [replace (h <? 0) with true by lia|]; by apply sublist_app.
  - intros h fds r Hh Hs. replace (h <? 0) with false in Hs by lia. replace (-1 <? 0) with true by done. rewrite app_nil_r.
    etrans; [apply (sublist_filtered (fun x => closes x [Ev (Sys_close h) r])), Hs|].
    rewrite filter_app, filter_cons_False, app_nil_r; [apply (filter_sublist (fun x => closes x _))|].
    unfold closes. simpl. by rewrite Z.eqb_refl.
  - intros h fds Hh. by replace (h <? 0) with true by lia.
Qed.

Section Calls.
Context {W : Type} `{K : Kernel W} `{KE : !KernelErrno W} `{KB : !KernelBounds W}.
Context (erase : bytes -> bytes) (fuel : nat).
Context {P : Z -> list Z -> Prop} {DP : Descriptors P}.
Implicit Types s : proc W km_st.

Lemma tipc_call_spec cmd inb out s :
  plain_cmd cmd -> zlen out = BP_KEYMASTER_RECV_BUF_SIZE ->
  wp (bp_keymaster_call fuel cmd inb out BP_KEYMASTER_RECV_BUF_SIZE) (fun o s' => exists evs,
    globals s' = globals s /\ trace s' = trace s ++ evs /\ Forall no_fd evs /\
    match o with
    | Ret (rc, out', sz') => zlen out' = BP_KEYMASTER_RECV_BUF_SIZE /\
        (rc < 0 \/ answered (handle_ (globals s)) cmd inb (slice 0 sz' out') evs)
    | Stop e => e = OutOfFuel /\ unanswered (handle_ (globals s)) cmd inb fuel evs
    end) s.
Proof.
  intros Hc Hout. unfold bp_keymaster_call. apply wp_bind, wp_gets. apply wp_if; intros Hh.
  { apply wp_ret. exists []. rewrite app_nil_r. split_and!; try done. left. unfold EINVAL. lia. }
  apply wp_bind. eapply wp_mono; [apply (send_loop_spec cmd (S (length inb)) inb s Hc); unfold zlen; lia|].
  intros o s1 (e & evs & frames & -> & Hg & Ht & Hno & Hr & Hga & _ & Hpre & He).
  destruct e as [rc|]; [apply wp_ret; exists evs; split_and!; try done; by left|].
  rewrite <- Hout. eapply wp_mono.
  { apply recv_loop_spec; rewrite Hout; [|done]. unfold BP_KEYMASTER_RECV_BUF_SIZE, KEYMASTER_MAX_BUFFER_LENGTH. lia. }
  intros o s2 (evs2 & Hg2 & Ht2 & Hno2 & Hw2 & Ho). exists (evs ++ evs2).
  unfold answered, unanswered. rewrite written_app, Hw2, app_nil_r, received_app, Hr, app_nil_l, He.
  split_and!; [congruence|by rewrite Ht2, Ht, app_assoc|by apply Forall_app|].
  destruct o as [[[rc out'] sz']|x]; [|by destruct Ho].
  destruct Ho as (Hl & _ & Hor). split; [done|].
  destruct Hor as [Hor|(p & Hp & _ & -> & Hsl)]; [by left|right]. split; [done|].
  rewrite Hp. f_equal. rewrite Hsl. by rewrite slice_0.
Qed.

(** The buffers are left alone. *)
Definition same_bufs s s' : Prop :=
  send_buf (globals s') = send_buf (globals s) /\ recv_buf (globals s') = recv_buf (globals s).

(** Connecting. *)
Lemma connect_outcome s :
  wp bp_keymaster_connect (fun o s' => exists rc evs, tipc_outcome KM_DEVICE_NAME KEYMASTER_PORT rc evs /\
    trace s' = trace s ++ evs /\ same_bufs s s' /\ o = Ret (if rc <? 0 then rc else 0) /\
    handle_ (globals s') = if rc <? 0 then handle_ (globals s) else rc) s.
Proof.
  unfold bp_keymaster_connect. apply wp_bind.
  destruct (tipc_connect_outcome KM_DEVICE_NAME KEYMASTER_PORT s) as (rc & evs & E1 & E2 & E3 & Hout).
  unfold wp at 1. rewrite E1. apply wp_if; intros Hrc.
  - apply wp_ret. exists rc, evs. rewrite Hrc. unfold same_bufs. rewrite E3. split_and!; done.
  - apply wp_bind, wp_modify, wp_ret. exists rc, evs. rewrite Hrc. unfold same_bufs. cbn [globals trace set_handle handle_ send_buf recv_buf].
    rewrite E3. split_and!; done.
Qed.

(** Without a connection, connecting gives one or none. *)
Lemma tipc_connect_spec s :
  km_inv_with P s -> handle_ (globals s) < 0 ->
  wp bp_keymaster_connect (fun o s' => km_inv_with P s' /\ grows s s' /\ same_bufs s s' /\
    exists rc, o = Ret rc /\ rc <= 0 /\ (rc = 0 <-> 0 <= handle_ (globals s'))) s.
Proof.
  intros (Hs & Hr & Hf) Hh. eapply wp_mono; [apply connect_outcome|].
  intros o s' (rc & evs & Hout & Ht & [Hb1 Hb2] & -> & Hhandle). apply tipc_outcome_fds in Hout.
  split; [|split_and!; [by exists evs|done|]].
  - unfold km_inv_with. rewrite Hb1, Hb2, Hhandle, Ht, open_fds_app, Hout. split_and!; [done|done|]. by apply d_connect.
  - eexists. split; [done|]. rewrite Hhandle. destruct (rc <? 0) eqn:E; lia.
Qed.

Lemma tipc_disconnect_spec s :
  km_inv_with P s ->
  wp bp_keymaster_disconnect (fun o s' => km_inv_with P s' /\ grows s s' /\ same_bufs s s' /\
    o = Ret tt /\ handle_ (globals s') = -1) s.
Proof.
  intros (Hs & Hr & Hf). unfold bp_keymaster_disconnect, tipc_close. apply wp_bind, wp_gets, wp_bind.
  apply wp_if; intros Hh.
  - apply wp_bind. apply wp_sys; intros r w Hk. apply wp_ret, wp_modify.
    split; [|split_and!; try done; by exists [Ev (Sys_close (handle_ (globals s))) r]].
    split_and!; [done|done|]. cbn [globals trace handle_ set_handle after]. rewrite open_fds_app.
    change (open_fds [Ev (Sys_close (handle_ (globals s))) r]) with (@nil Z). rewrite app_nil_r. apply d_close; [lia|done].
  - apply wp_ret, wp_modify. split; [|split_and!; try done; exists []; by rewrite app_nil_r].
    split_and!; [done|done|]. cbn [globals trace handle_ set_handle]. apply (d_reset (handle_ (globals s))); [lia|done].
Qed.

(** The tail of the send functions: a failed call resets the connection, any
    other hands the buffer to the response object. *)
Lemma handle_response_spec {R} `{KeymasterResponse R} rc sz (rsp : R) s :
  km_inv_with P s ->
  wp (handle_response rc sz rsp) (fun o s' => km_inv_with P s' /\ same_bufs s s' /\ exists err rsp', o = Ret (err, rsp') /\
    ((rc < 0 /\ err = translate_error rc /\ rsp' = rsp /\ grows s s') \/
     (0 <= rc /\ s' = s /\ exists ok, Deserialize rsp (slice 0 sz (recv_buf (globals s))) = (ok, rsp') /\
        err = if ok then rsp_error rsp' else KM_ERROR_UNKNOWN_ERROR))) s.
Proof.
  intros Hi. unfold handle_response. apply wp_if; intros Hrc.
  - apply wp_bind. eapply wp_mono; [by apply tipc_disconnect_spec|].
    intros o s1 (Hi1 & Hg1 & [Hb1 Hb1'] & -> & Hh). apply wp_bind.
    eapply wp_mono; [apply tipc_connect_spec; [done|lia]|]. intros o s2 (Hi2 & Hg2 & [Hb2 Hb2'] & rc' & -> & _).
    apply wp_ret. split; [done|]. split; [split; congruence|]. exists (translate_error rc), rsp.
    split; [done|]. left. split_and!; [lia|done|done|by etrans].
  - apply wp_bind, wp_gets. destruct (Deserialize rsp _) as [ok rsp'] eqn:E.
    destruct ok; apply wp_ret; (split; [done|]; split; [done|]; do 2 eexists; split; [done|]; right;
      split_and!; [lia|done|]; by eexists).
Qed.
End Calls.

(** ** A remote procedure call *)

(** The contract of the send functions: the command is answered and the answer
    decoded, or the call failed and the response object is as before. *)
Inductive rpc {R} `{KeymasterResponse R} (h cmd : Z) (req : bytes) (rsp : R)
  : list event -> Z -> R -> Prop :=
| Rpc_answered payload ok rsp' evs :
    answered h cmd req payload evs -> Deserialize rsp payload = (ok, rsp') ->
    rpc h cmd req rsp evs (if ok then rsp_error rsp' else KM_ERROR_UNKNOWN_ERROR) rsp'
| Rpc_failed rc evs :
    rc < 0 -> rpc h cmd req rsp evs (translate_error rc) rsp.

Lemma rpc_ok {R} `{KeymasterResponse R} h cmd req (rsp : R) evs rsp' :
  rpc h cmd req rsp evs KM_ERROR_OK rsp' ->
  exists payload, answered h cmd req payload evs /\
    Deserialize rsp payload = (true, rsp') /\ rsp_error rsp' = KM_ERROR_OK.
Proof.
  inversion 1 as [payload ok r es Ha Hd He|rc es Hrc He]; subst.
  - destruct ok; [|done]. eauto.
  - apply translate_error_neg in Hrc. unfold KM_ERROR_OK in *. lia.
Qed.

Section Send.
Context {W : Type} `{K : Kernel W} `{KE : !KernelErrno W} `{KB : !KernelBounds W}.
Context (erase : bytes -> bytes) (fuel : nat).
Hypothesis erase_zeroes : forall b, erase b = replicate (length b) 0.
Context {P : Z -> list Z -> Prop} {DP : Descriptors P}.
Implicit Types s : proc W km_st.

Lemma call_and_handle_spec {R} `{KeymasterResponse R} cmd inb (rsp : R) s :
  plain_cmd cmd -> km_inv_with P s ->
  wp (call_and_handle fuel cmd inb rsp) (fun o s' => send_buf (globals s') = send_buf (globals s) /\
    exists evs, trace s' = trace s ++ evs /\
    match o with
    | Ret (err, rsp') => km_inv_with P s' /\ rpc (handle_ (globals s)) cmd inb rsp evs err rsp'
    | Stop e => e = OutOfFuel /\ unanswered (handle_ (globals s)) cmd inb fuel evs
    end) s.
Proof.
  intros Hc Hi. pose proof Hi as (Hs & Hr & Hf). unfold call_and_handle. apply wp_bind, wp_gets, wp_bind.
  eapply wp_mono; [by apply tipc_call_spec|].
  intros o s1 (evs & Hg & Ht & Hno & Ho). destruct o as [[[rc out] sz]|x].
  2:{ destruct Ho as [-> Hu]. split; [by rewrite Hg|]. by exists evs. }
  destruct Ho as [Hl Ho]. apply wp_bind, wp_modify. eapply wp_mono; [apply handle_response_spec|].
  { unfold km_inv_with. cbn [globals trace set_recv_buf send_buf recv_buf handle_].
    rewrite Hg, Ht, open_fds_quiet by done. done. }
  intros o s2 (Hi2 & [Hb _] & err & rsp' & -> & Hcase). cbn [globals set_recv_buf send_buf] in Hb.
  split; [by rewrite Hb, Hg|]. destruct Hcase as [(Hrc & -> & -> & evs2 & Ht2)|(Hrc & -> & ok & Hd & ->)].
  - exists (evs ++ evs2). split; [cbn [trace] in Ht2; by rewrite Ht2, Ht, app_assoc|].
    split; [done|]. by constructor.
  - exists evs. split; [done|]. split; [done|]. destruct Ho as [Ho|Ho]; [lia|]. by econstructor.
Qed.

(** All bytes are zero. *)
Definition wiped (b : bytes) : Prop := Forall (fun z => z = 0) b.

Lemma erase_wiped b : wiped (erase b) /\ zlen (erase b) = zlen b.
Proof.
  rewrite erase_zeroes. split; [by apply Forall_replicate|]. unfold zlen. by rewrite length_replicate.
Qed.

Definition request_too_long (q : Serializable) : bool :=
  BP_KEYMASTER_SEND_BUF_SIZE <? SerializedSize q.

Lemma tipc_send_spec {R} `{KeymasterResponse R} cmd q (rsp : R) s :
  plain_cmd cmd -> km_inv_with P s -> serializable_wf q ->
  wp (bp_keymaster_send erase fuel cmd q rsp) (fun o s' =>
    if request_too_long q then o = Ret (BEANPOD_KM_INVALID_INPUT_LENGTH, rsp) /\ s' = s
    else exists evs, trace s' = trace s ++ evs /\
      let req := Serialize q (SerializedSize q) in
      match o with
      | Ret (err, rsp') => km_inv_with P s' /\ wiped (send_buf (globals s')) /\ wiped (recv_buf (globals s')) /\
          rpc (handle_ (globals s)) cmd req rsp evs err rsp'
      | Stop e => e = OutOfFuel /\ unanswered (handle_ (globals s)) cmd req fuel evs
      end) s.
Proof.
  intros Hc Hi [Hu Hlen]. pose proof Hi as (Hs & Hr & Hf). unfold bp_keymaster_send, request_too_long.
  rewrite u32_small by done. apply wp_if; intros Hl; rewrite Hl; [by apply wp_ret|].
  apply wp_bind, wp_modify, wp_bind, wp_gets, wp_bind. cbn [globals send_buf set_send_buf].
  assert (forall b, slice 0 (SerializedSize q) (splice b 0 (Serialize q (SerializedSize q)))
    = Serialize q (SerializedSize q)) as ->.
  { intros b. rewrite <- Hlen at 1. apply slice_splice_here; [done|apply zlen_nonneg]. }
  eapply wp_mono; [apply call_and_handle_spec; [done|]|].
  { split_and!; [|done|done]. cbn [globals send_buf set_send_buf].
    rewrite <- Hs. unfold zlen at 1. rewrite length_splice; [done|lia|lia]. }
  intros o s1 (Hb & evs & Ht & Ho). destruct o as [[err rsp']|x]; [|by exists evs].
  destruct Ho as [(Hs1 & Hr1 & Hf1) Hrpc]. apply wp_bind, wp_modify, wp_bind, wp_modify, wp_ret.
  exists evs. split; [done|]. cbn. split_and!.
  - split_and!; cbn; [|by rewrite (proj2 (erase_wiped _))|done]. by rewrite (proj2 (erase_wiped _)).
  - apply erase_wiped.
  - apply erase_wiped.
  - done.
Qed.

Lemma tipc_send_no_request_spec {R} `{KeymasterResponse R} cmd (rsp : R) s :
  plain_cmd cmd -> km_inv_with P s ->
  wp (bp_keymaster_send_no_request erase fuel cmd rsp) (fun o s' =>
    exists evs, trace s' = trace s ++ evs /\
      match o with
      | Ret (err, rsp') => km_inv_with P s' /\ wiped (recv_buf (globals s')) /\
          rpc (handle_ (globals s)) cmd [] rsp evs err rsp'
      | Stop e => e = OutOfFuel /\ unanswered (handle_ (globals s)) cmd [] fuel evs
      end) s.
Proof.
  intros Hc Hi. unfold bp_keymaster_send_no_request. apply wp_bind.
  eapply wp_mono; [by apply call_and_handle_spec|].
  intros o s1 (Hb & evs & Ht & Ho). destruct o as [[err rsp']|x]; [|by exists evs].
  destruct Ho as [(Hs1 & Hr1 & Hf1) Hrpc]. apply wp_bind, wp_modify, wp_ret.
  exists evs. split; [done|]. split_and!; [|apply erase_wiped|done].
  split_and!; cbn; [done|by rewrite (proj2 (erase_wiped _))|done].
Qed.

Lemma km_inv_quiet s s' evs :
  km_inv_with P s -> globals s' = globals s -> trace s' = trace s ++ evs -> Forall no_fd evs -> km_inv_with P s'.
Proof. intros (Hs & Hr & Hf) Hg Ht Hno. unfold km_inv_with. rewrite Hg, Ht, open_fds_quiet by done. done. Qed.

End Send.

Section Laws.
Context {W : Type} `{K : Kernel W} `{KE : !KernelErrno W} `{KB : !KernelBounds W}.
Context (erase : bytes -> bytes) (fuel : nat).
Hypothesis erase_zeroes : forall b, erase b = replicate (length b) 0.
Implicit Types s : proc W km_st.

(** The transport keeps what BeanpodKeymaster relies on. *)
#[export] Instance tipc_ipc_laws : @KeymasterIpcLaws W km_st K (tipc_ipc erase fuel).
Proof.
  refine {| ipc_idle := fun s => km_inv s /\ handle_ (globals s) = -1; ipc_ready := km_inv; ipc_answered := fun g => answered (handle_ g) |}.
  - intros R HR c q rsp s Hi Hq. eapply wp_mono; [apply (tipc_send_spec erase fuel erase_zeroes (P := only_handle)); [apply plain_cmd_id|exact Hi|exact Hq]|].
    intros o s' Ho. destruct (request_too_long q).
    + destruct Ho as [-> ->]. split; [done|]. by intros rsp' [=].
    + destruct Ho as (evs & Ht & Ho). destruct o as [[err rsp1]|x]; [|by split].
      destruct Ho as (Hi' & _ & _ & Hr). split; [done|]. intros rsp' [= -> ->].
      destruct (rpc_ok _ _ _ _ _ _ Hr) as (p & H1 & H2 & H3). by exists p, evs.
  - intros R HR c rsp s Hi. eapply wp_mono; [apply (tipc_send_no_request_spec erase fuel erase_zeroes (P := only_handle)); [apply plain_cmd_id|exact Hi]|].
    intros o s' (evs & Ht & Ho). destruct o as [[err rsp1]|x]; [|by split].
    destruct Ho as (Hi' & _ & Hr). split; [done|]. intros rsp' [= -> ->].
    destruct (rpc_ok _ _ _ _ _ _ Hr) as (p & H1 & H2 & H3). by exists p, evs.
  - intros s [Hi Hh]. eapply wp_mono; [apply (tipc_connect_spec (P := only_handle)); [exact Hi|lia]|]. intros o s' (Hi' & Hg & _ & rc & -> & _). by exists rc.
  - intros s s' evs [Hi Hh] Hg Ht Hno. rewrite Hg. split; [by eapply (km_inv_quiet (P := only_handle))|done].
  - intros s s' evs Hi Hg Ht Hno. by eapply (km_inv_quiet (P := only_handle)).
Defined.
End Laws.
