(* ===== verification/BeanpodKeymaster.v ===== *)
(** * BeanpodKeymaster (lite and 400, km4.1/common/BeanpodKeymaster.cpp)

    The keymaster implementation behind the HAL: each method forwards its
    request to the secure keymaster as one command and writes a transport error
    into the response.  The methods are written and proved against the
    transport interface of [KmLib]. *)

From S2P Require Import Prelude Kernel KmLib.

(** keymaster::AuthorizationSet, as far as the key description is changed: the
    library's [Contains(TAG_CREATION_DATETIME)] and
    [push_back(TAG_CREATION_DATETIME, t)]. *)
Class AuthorizationSet (A : Type) := {
  contains_creation : A -> bool;
  push_creation : Z -> A -> A;
  contains_push : forall t a, contains_creation (push_creation t a) = true;
}.

(** keymaster::GenerateKeyRequest *)
Record GenerateKeyRequest (A : Type) := MkGenerateKeyRequest {
  message_version : Z; key_description : A
}.
Arguments MkGenerateKeyRequest {A} message_version key_description.
Arguments message_version {A} g.
Arguments key_description {A} g.

Section BeanpodKeymaster.
Context {W G : Type} `{K : Kernel W} `{I : !KeymasterIpc W G}.

Definition ForwardCommand {R} `{KeymasterResponse R} (command : keymaster_command)
    (req : Serializable) (rsp : R) : M W G R :=
  '(err, rsp) ← ipc_send (command_id command) req rsp;
  mret (if negb (err =? KM_ERROR_OK) then set_error rsp err else rsp).

Definition ForwardCommandNoRequest {R} `{KeymasterResponse R} (command : keymaster_command)
    (rsp : R) : M W G R :=
  '(err, rsp) ← ipc_send_no_request (command_id command) rsp;
  mret (if negb (err =? KM_ERROR_OK) then set_error rsp err else rsp).

Section Methods.
Context {R : Type} `{KeymasterResponse R}.

Definition GetVersion (request : Serializable) (response : R) : M W G R :=
  ForwardCommand KM_GET_VERSION request response.
Definition SupportedAlgorithms (request : Serializable) (response : R) : M W G R :=
  ForwardCommand KM_GET_SUPPORTED_ALGORITHMS request response.
Definition SupportedBlockModes (request : Serializable) (response : R) : M W G R :=
  ForwardCommand KM_GET_SUPPORTED_BLOCK_MODES request response.
Definition SupportedPaddingModes (request : Serializable) (response : R) : M W G R :=
  ForwardCommand KM_GET_SUPPORTED_PADDING_MODES request response.
Definition SupportedDigests (request : Serializable) (response : R) : M W G R :=
  ForwardCommand KM_GET_SUPPORTED_DIGESTS request response.
Definition SupportedImportFormats (request : Serializable) (response : R) : M W G R :=
  ForwardCommand KM_GET_SUPPORTED_IMPORT_FORMATS request response.
Definition SupportedExportFormats (request : Serializable) (response : R) : M W G R :=
  ForwardCommand KM_GET_SUPPORTED_EXPORT_FORMATS request response.
Definition AddRngEntropy (request : Serializable) (response : R) : M W G R :=
  ForwardCommand KM_ADD_RNG_ENTROPY request response.
Definition Configure (request : Serializable) (response : R) : M W G R :=
  ForwardCommand KM_CONFIGURE request response.
Definition GetKeyCharacteristics (request : Serializable) (response : R) : M W G R :=
  ForwardCommand KM_GET_KEY_CHARACTERISTICS request response.
Definition ImportKey (request : Serializable) (response : R) : M W G R :=
  ForwardCommand KM_IMPORT_KEY request response.
Definition ImportWrappedKey (request : Serializable) (response : R) : M W G R :=
  ForwardCommand KM_IMPORT_WRAPPED_KEY request response.
Definition ExportKey (request : Serializable) (response : R) : M W G R :=
  ForwardCommand KM_EXPORT_KEY request response.
Definition AttestKey (request : Serializable) (response : R) : M W G R :=
  ForwardCommand KM_ATTEST_KEY request response.
Definition UpgradeKey (request : Serializable) (response : R) : M W G R :=
  ForwardCommand KM_UPGRADE_KEY request response.
Definition DeleteKey (request : Serializable) (response : R) : M W G R :=
  ForwardCommand KM_DELETE_KEY request response.
Definition DeleteAllKeys (request : Serializable) (response : R) : M W G R :=
  ForwardCommand KM_DELETE_ALL_KEYS request response.
Definition BeginOperation (request : Serializable) (response : R) : M W G R :=
  ForwardCommand KM_BEGIN_OPERATION request response.
Definition UpdateOperation (request : Serializable) (response : R) : M W G R :=
  ForwardCommand KM_UPDATE_OPERATION request response.
Definition FinishOperation (request : Serializable) (response : R) : M W G R :=
  ForwardCommand KM_FINISH_OPERATION request response.
Definition AbortOperation (request : Serializable) (response : R) : M W G R :=
  ForwardCommand KM_ABORT_OPERATION request response.
Definition GetHmacSharingParameters (response : R) : M W G R :=
  ForwardCommandNoRequest KM_GET_HMAC_SHARING_PARAMETERS response.
Definition ComputeSharedHmac (request : Serializable) (response : R) : M W G R :=
  ForwardCommand KM_COMPUTE_SHARED_HMAC request response.
Definition VerifyAuthorization (request : Serializable) (response : R) : M W G R :=
  ForwardCommand KM_VERIFY_AUTHORIZATION request response.
Definition deviceLocked (request : Serializable) (response : R) : M W G R :=
  ForwardCommand KM_DEVICE_LOCKED request response.
Definition earlyBootEnded (response : R) : M W G R :=
  ForwardCommandNoRequest KM_EARLY_BOOT_ENDED response.

(** [time(NULL)] is a library call, [java_time] and the serialisation of the
    request belong to the keymaster library. *)
Context {A : Type} `{AuthorizationSet A}.
Context (java_time : Z -> Z) (ser_generate : GenerateKeyRequest A -> Serializable).

Definition GenerateKey (request : GenerateKeyRequest A) (response : R) : M W G R :=
  let datedRequest := MkGenerateKeyRequest (message_version request) (key_description request) in
  datedRequest ← (if negb (contains_creation (key_description request)) then
                    t ← sys (Lib_extern (cstr "time"));
                    mret (MkGenerateKeyRequest (message_version datedRequest)
                            (push_creation (java_time (sr_ret t)) (key_description datedRequest)))
                  else mret datedRequest);
  ForwardCommand KM_GENERATE_KEY (ser_generate datedRequest) response.
End Methods.

(** ** Setting up *)

(** ConfigureRequest and a fresh ConfigureResponse of the library, for message
    version 3, and the version of the running system. *)
Context {CR : Type} `{KeymasterResponse CR} (configure_request : Z -> Z -> Serializable) (configure_response : CR).
Context (GetOsVersion GetOsPatchlevel : Z).

Definition Initialize : M W G Z :=
  err ← ipc_connect;
  if negb (err =? 0) then mret err
  else
    rsp ← Configure (configure_request GetOsVersion GetOsPatchlevel) configure_response;
    if negb (rsp_error rsp =? KM_ERROR_OK) then mret (-1) else mret 0.

Definition BeanpodKeymaster_destroy : M W G unit := ipc_disconnect.
End BeanpodKeymaster.

(** ** What a method guarantees over any transport *)

Section Forwarding.
Context {W G : Type} `{L : KeymasterIpcLaws W G}.

(** The outcome of a method: a response without error is the decoded answer of
    the secure keymaster to exactly this command and request. *)
Definition forwarded {R} `{KeymasterResponse R} (c : keymaster_command) (req : bytes) (rsp : R)
    (s : proc W G) (o : outcome R) (s' : proc W G) : Prop :=
  returned ipc_ready o s' /\
  forall rsp', o = Ret rsp' -> rsp_error rsp' = KM_ERROR_OK ->
    exists payload evs, trace s' = trace s ++ evs /\
      ipc_answered (globals s) (command_id c) req payload evs /\
      Deserialize rsp payload = (true, rsp').

(** The tail both forwarding functions share. *)
Lemma forward_tail {R} `{KeymasterResponse R} c req (rsp : R) s (m : M W G (Z * R)) :
  wp m (fun o s' => returned ipc_ready o s' /\
    delivers (ipc_answered (globals s)) (command_id c) req rsp s o s') s ->
  wp ('(err, rsp) ← m; mret (if negb (err =? KM_ERROR_OK) then set_error rsp err else rsp))
    (forwarded c req rsp s) s.
Proof.
  intros Hm. apply wp_bind. eapply wp_mono; [exact Hm|]. intros o s' [Hr Hd].
  destruct o as [[err rsp1]|e]; [|by split]. apply wp_ret. split; [done|]. intros rsp' [= <-] He.
  destruct (Z.eqb_spec err KM_ERROR_OK) as [->|Hne]; simpl in He.
  - destruct (Hd rsp1 eq_refl) as (p & evs & H1 & H2 & H3 & _). by exists p, evs.
  - by rewrite rsp_error_set in He.
Qed.

Lemma ForwardCommand_spec {R} `{KeymasterResponse R} c q (rsp : R) s :
  ipc_ready s -> serializable_wf q ->
  wp (ForwardCommand c q rsp) (forwarded c (Serialize q (SerializedSize q)) rsp s) s.
Proof. intros Hr Hq. by apply forward_tail, ipc_send_ok. Qed.

Lemma ForwardCommandNoRequest_spec {R} `{KeymasterResponse R} c (rsp : R) s :
  ipc_ready s -> wp (ForwardCommandNoRequest c rsp) (forwarded c [] rsp s) s.
Proof. intros Hr. by apply forward_tail, ipc_send_no_request_ok. Qed.
End Forwarding.
