(* ===== verification/KmTheorems.v ===== *)
(** * Theorems on the lite keymaster

    The transport over tipc as a remote procedure call, the states it can be in,
    and what a method of BeanpodKeymaster returns, with concrete runs on the
    in-memory kernel. *)

From S2P Require Import Prelude Kernel Libtrusty MemKernel KmLib KmTipc KmTipcSpec BeanpodKeymaster.

(** ** A response and a service *)

(** A response of an error code and data. *)
Record plain_rsp := PlainRsp { pr_error : Z; pr_data : bytes }.
#[export] Instance plain_response : KeymasterResponse plain_rsp.
Proof.
  refine {| Deserialize := fun r b => (4 <=? zlen b, PlainRsp (get_s32 b 0) (drop 4 b));
            rsp_error := pr_error; set_error := fun r e => PlainRsp e (pr_data r) |}.
  done.
Defined.
Definition rsp0 : plain_rsp := PlainRsp (-1) [].

Definition zero_all (b : bytes) : bytes := replicate (length b) 0.
Definition req_of (b : bytes) : Serializable := MkSerializable (zlen b) (fun _ => b).

Lemma req_of_wf b : is_u32 (zlen b) -> serializable_wf (req_of b).
Proof. by split. Qed.

(** A service with the messages [inbox] waiting. *)
Definition km_world (inbox : list bytes) : mem_world :=
  MemWorld {[ KM_DEVICE_NAME := [] ]} {[ 3 := KM_DEVICE_NAME ]} inbox 0 64 [].
Definition km_connected (inbox : list bytes) : proc mem_world km_st :=
  Proc (set_handle 3 km_st0) (km_world inbox) 0 [Ev (Sys_open KM_DEVICE_NAME O_RDWR 0) (SysRet 3 0 [])].

Lemma km_connected_inv inbox : km_inv (km_connected inbox).
Proof. split_and!; [by vm_compute..|reflexivity]. Qed.

(** An answer in two messages to the command GET_VERSION. *)
Definition version_answer : list bytes :=
  [le_enc 4 29 ++ le_enc 4 0 ++ [4]; le_enc 4 31 ++ [1]].

Example send_runs :
  (bp_keymaster_send zero_all 5 (command_id KM_GET_VERSION) (req_of [1; 2]) rsp0 (km_connected version_answer)).1
    = Ret (0, PlainRsp 0 [4; 1]).
Proof. vm_compute. reflexivity. Qed.

(** ** The claims *)

(** C9. Sending is a remote procedure call.  A request that fits is written to
    the service in messages that gather to exactly the command and the request;
    the send returns what the service answered, decoded, or a transport error
    with the response as before.  Both buffers are zero afterwards, and the
    transport is in a well-formed state again.  It fails to return only if the
    service keeps sending messages of an answer without end. *)
Theorem send_refines_rpc {W} `{K : Kernel W} `{KE : !KernelErrno W} `{KB : !KernelBounds W} {R} `{KeymasterResponse R}
    erase fuel c q (rsp : R) (s : proc W km_st) :
  (forall b, erase b = replicate (length b) 0) -> km_inv s -> serializable_wf q ->
  let run := bp_keymaster_send erase fuel (command_id c) q rsp s in
  let h := handle_ (globals s) in
  let req := Serialize q (SerializedSize q) in
  if request_too_long q then run = (Ret (BEANPOD_KM_INVALID_INPUT_LENGTH, rsp), s)
  else exists evs, trace run.2 = trace s ++ evs /\
    match run.1 with
    | Ret (err, rsp') => km_inv run.2 /\ wiped (send_buf (globals run.2)) /\ wiped (recv_buf (globals run.2)) /\
        rpc h (command_id c) req rsp evs err rsp'
    | Stop e => e = OutOfFuel /\ unanswered h (command_id c) req fuel evs
    end.
Proof.
  intros He Hi Hq. pose proof (tipc_send_spec erase fuel He (command_id c) q rsp s (plain_cmd_id c) Hi Hq) as Hs.
  unfold wp in Hs. cbn zeta. destruct (request_too_long q); [|exact Hs].
  destruct Hs as [H1 H2]. rewrite <- H1. rewrite <- H2 at 3. by destruct (bp_keymaster_send _ _ _ _ _ _).
Qed.

Lemma send_refines_rpc_witness :
  let run := bp_keymaster_send zero_all 5 (command_id KM_GET_VERSION) (req_of [1; 2]) rsp0 (km_connected version_answer) in
  exists evs, trace run.2 = trace (km_connected version_answer) ++ evs /\
    match run.1 with
    | Ret (err, rsp') => km_inv run.2 /\ wiped (send_buf (globals run.2)) /\ wiped (recv_buf (globals run.2)) /\
        rpc 3 (command_id KM_GET_VERSION) [1; 2] rsp0 evs err rsp'
    | Stop e => e = OutOfFuel /\ unanswered 3 (command_id KM_GET_VERSION) [1; 2] 5 evs
    end.
Proof.
  apply (send_refines_rpc zero_all 5 KM_GET_VERSION (req_of [1; 2]) rsp0 (km_connected version_answer)).
  - done.
  - apply km_connected_inv.
  - apply req_of_wf. vm_compute. intuition congruence.
Defined.

(** ** The states of the transport *)

Section Reach.
Context {W : Type} `{K : Kernel W} (erase : bytes -> bytes) (fuel : nat).

(** What a program that links the transport can do with it, with the connections
    it lost by connecting while it was connected: [bp_keymaster_connect] has no
    guard and overwrites [handle_].  A send that does not return has no
    successor. *)
Inductive km_step : list Z * proc W km_st -> list Z * proc W km_st -> Prop :=
| Step_connect over s :
    km_step (over, s)
      (over ++ (if handle_ (globals s) <? 0 then [] else [handle_ (globals s)]), (bp_keymaster_connect s).2)
| Step_disconnect over s : km_step (over, s) (over, (bp_keymaster_disconnect s).2)
| Step_send {R} `{KeymasterResponse R} c q (rsp : R) v over s :
    serializable_wf q -> (bp_keymaster_send erase fuel (command_id c) q rsp s).1 = Ret v ->
    km_step (over, s) (over, (bp_keymaster_send erase fuel (command_id c) q rsp s).2)
| Step_send_no_request {R} `{KeymasterResponse R} c (rsp : R) v over s :
    (bp_keymaster_send_no_request erase fuel (command_id c) rsp s).1 = Ret v ->
    km_step (over, s) (over, (bp_keymaster_send_no_request erase fuel (command_id c) rsp s).2).
End Reach.

Section States.
Context {W : Type} `{K : Kernel W} `{KE : !KernelErrno W} `{KB : !KernelBounds W}.
Context (erase : bytes -> bytes) (fuel : nat).
Hypothesis erase_zeroes : forall b, erase b = replicate (length b) 0.
Implicit Types s : proc W km_st.

Lemma connect_again over s :
  km_inv_with (among over) s ->
  km_inv_with (among (over ++ if handle_ (globals s) <? 0 then [] else [handle_ (globals s)])) (bp_keymaster_connect s).2.
Proof.
  intros (Hs & Hr & Hf). destruct (connect_outcome s) as (rc & evs & Hout & Ht & [Hb1 Hb2] & _ & Hh).
  apply tipc_outcome_fds in Hout. unfold km_inv_with, among in *. rewrite Hb1, Hb2, Hh, Ht, open_fds_app, Hout.
  split_and!; [done|done|]. etrans; [apply sublist_app; [etrans; [apply (filter_sublist (fun x => closes x evs))|exact Hf]|reflexivity]|].
  apply sublist_app; [done|]. destruct (rc <? 0) eqn:E; [apply sublist_nil_l|by rewrite E].
Qed.

(** Any invariant on the descriptors is kept by the other steps. *)
Lemma km_step_keeps P `{!Descriptors P} c c' :
  km_step erase fuel c c' -> km_inv_with P c.2 ->
  c' = (c.1 ++ (if handle_ (globals c.2) <? 0 then [] else [handle_ (globals c.2)]), (bp_keymaster_connect c.2).2) \/
  c'.1 = c.1 /\ km_inv_with P c'.2.
Proof.
  intros Hstep Hi. destruct Hstep as [o s|o s|R HR c q rsp v o s Hq Hv|R HR c rsp v o s Hv]; cbn [fst snd] in *.
  - by left.
  - right. split; [done|]. apply (tipc_disconnect_spec s Hi).
  - right. split; [done|]. pose proof (tipc_send_spec erase fuel erase_zeroes (command_id c) q rsp s (plain_cmd_id c) Hi Hq) as Hs.
    unfold wp in Hs. rewrite Hv in Hs. destruct (request_too_long q); [by destruct Hs as [_ ->]|].
    destruct Hs as (evs & _ & Ho). destruct v as [err rsp']. apply Ho.
  - right. split; [done|]. pose proof (tipc_send_no_request_spec erase fuel erase_zeroes (command_id c) rsp s (plain_cmd_id c) Hi) as Hs.
    unfold wp in Hs. rewrite Hv in Hs. destruct Hs as (evs & _ & Ho). destruct v as [err rsp']. apply Ho.
Qed.

Definition reach_inv (c : list Z * proc W km_st) : Prop :=
  km_inv_with (among c.1) c.2 /\ (c.1 = [] -> km_inv c.2).

Lemma km_step_inv c c' : km_step erase fuel c c' -> reach_inv c -> reach_inv c'.
Proof.
  intros Hstep [Ha He]. split.
  - destruct (km_step_keeps _ c c' Hstep Ha) as [->|[-> H]]; [|done]. by apply connect_again.
  - intros Hn. destruct c as [over s]. cbn [fst snd] in *. assert (over = []) as ->.
    { destruct (km_step_keeps _ _ c' Hstep Ha) as [->|[E _]]; [cbn [fst] in Hn; by apply app_eq_nil in Hn as [Hn _]|by cbn in E; rewrite <- E]. }
    destruct (km_step_keeps _ _ c' Hstep (He eq_refl)) as [->|[_ H]]; [|done]. cbn [fst snd app] in *.
    destruct (handle_ (globals s) <? 0) eqn:E; [|done]. apply (tipc_connect_spec s (He eq_refl)). lia.
Qed.
End States.

(** C30. Every state the transport can reach from its initial one, by connecting,
    disconnecting and sending in any order, is well formed: both buffers have
    their declared sizes, and no descriptor is left open but the one in
    [handle_] and those that were lost by connecting while connected, which
    overwrites [handle_].  If that never happened the descriptors left open are
    exactly the one in [handle_], or none when that is negative. *)
Theorem transport_states_wf {W} `{K : Kernel W} `{KE : !KernelErrno W} `{KB : !KernelBounds W} erase fuel
    w e over (s : proc W km_st) :
  (forall b, erase b = replicate (length b) 0) ->
  rtc (km_step erase fuel) ([], Proc km_st0 w e []) (over, s) ->
  let current := if handle_ (globals s) <? 0 then [] else [handle_ (globals s)] in
  zlen (send_buf (globals s)) = BP_KEYMASTER_SEND_BUF_SIZE /\
  zlen (recv_buf (globals s)) = BP_KEYMASTER_RECV_BUF_SIZE /\
  open_fds (trace s) `sublist_of` over ++ current /\
  (over = [] -> open_fds (trace s) = current).
Proof.
  intros He Hrtc. assert (reach_inv (over, s)) as [(Hs & Hr & Ha) Hx].
  { assert (reach_inv ([], Proc km_st0 w e [])) as H0 by (split; [|intros _]; (split_and!; [by vm_compute..|first [apply sublist_nil_l|reflexivity]])).
    revert H0 Hrtc. generalize (@nil Z, Proc km_st0 w e []), (over, s). intros c c' H0 Hrtc.
    induction Hrtc as [|c1 c2 c3 Hst _ IH]; [done|]. apply IH. by eapply km_step_inv. }
  split_and!; [done|done|done|]. intros Hn. apply (Hx Hn).
Qed.

(** Connecting twice loses the first connection. *)
Definition connected_twice : proc mem_world km_st :=
  (bp_keymaster_connect (bp_keymaster_connect (Proc km_st0 (km_world version_answer) 0 [])).2).2.
Lemma transport_states_wf_witness :
  let s := connected_twice in
  (let current := if handle_ (globals s) <? 0 then [] else [handle_ (globals s)] in
  zlen (send_buf (globals s)) = BP_KEYMASTER_SEND_BUF_SIZE /\
  zlen (recv_buf (globals s)) = BP_KEYMASTER_RECV_BUF_SIZE /\
  open_fds (trace s) `sublist_of` [4] ++ current /\
  ([4] = [] -> open_fds (trace s) = current)) /\
  open_fds (trace s) = [4; 5] /\ handle_ (globals s) = 5.
Proof.
  split; [|by vm_compute].
  apply (transport_states_wf zero_all 5 (km_world version_answer) 0 [4]); [done|].
  eapply rtc_l; [constructor|]. apply rtc_once.
  replace [4] with ([] ++ (if handle_ (globals (bp_keymaster_connect (Proc km_st0 (km_world version_answer) 0 [])).2) <? 0 then []
    else [handle_ (globals (bp_keymaster_connect (Proc km_st0 (km_world version_answer) 0 [])).2)])) by (by vm_compute).
  constructor.
Defined.

(** ** Methods *)

(** Over any transport that keeps its interface, a method of BeanpodKeymaster
    returns a response without error only if the secure keymaster answered
    exactly this command with this request, and the response is that answer
    decoded; the transport stays usable. *)
Theorem forward_authentic {W G} `{L : KeymasterIpcLaws W G} {R} `{KeymasterResponse R} c q (rsp rsp' : R) (s : proc W G) :
  ipc_ready s -> serializable_wf q ->
  let run := ForwardCommand c q rsp s in
  run.1 = Ret rsp' -> rsp_error rsp' = KM_ERROR_OK ->
  ipc_ready run.2 /\
  exists payload evs, trace run.2 = trace s ++ evs /\
    ipc_answered (globals s) (command_id c) (Serialize q (SerializedSize q)) payload evs /\
    Deserialize rsp payload = (true, rsp').
Proof.
  intros Hr Hq run Hret He. pose proof (ForwardCommand_spec c q rsp s Hr Hq) as [H1 H2]. fold run in H1, H2.
  rewrite Hret in H1, H2. split; [exact H1|]. by apply H2.
Qed.

Lemma forward_authentic_witness :
  let I := tipc_ipc zero_all 5 in
  let s := km_connected version_answer in
  let run := ForwardCommand (I := I) KM_GET_VERSION (req_of [1; 2]) rsp0 s in
  km_inv run.2 /\
  exists payload evs, trace run.2 = trace s ++ evs /\
    answered 3 (command_id KM_GET_VERSION) [1; 2] payload evs /\
    Deserialize rsp0 payload = (true, PlainRsp 0 [4; 1]).
Proof.
  apply (forward_authentic (L := tipc_ipc_laws zero_all 5 (fun b => eq_refl)) KM_GET_VERSION (req_of [1; 2]) rsp0
    (PlainRsp 0 [4; 1]) (km_connected version_answer)).
  - apply km_connected_inv.
  - apply req_of_wf. vm_compute. intuition congruence.
  - vm_compute. reflexivity.
  - reflexivity.
Defined.
