(* ===== verification/KeyMint.v ===== *)
(** * The KeyMint implementation (400/keymint1.0/common/BeanpodKeymaster.cpp)

    As BeanpodKeymaster of km4.1, but the connection is set up by the first
    method that needs it: wait for the TEE daemon, connect, send the identity of
    the device and the patch levels, and remember that it is done.  Methods that
    use an operation begun before do not ask again. *)

From S2P Require Import Prelude Kernel Libtrusty KmLib BeanpodKeymaster.

Definition km_debug_prop : bytes := cstr "vendor.soter.teei.km.init".
Definition TEEI_INIT_PROP : bytes := cstr "vendor.soter.teei.init".
Definition MAX_ANDROID_PROP_LEN := 92.

(** ** BPConfigureRequest *)

Record BPConfigureRequest := MkConfigure {
  os_version : Z; os_patchlevel : Z;
  brand : bytes; manufacturer : bytes; product : bytes; model : bytes; board : bytes
}.

Definition configure_size := 4 + 4 + MAX_ANDROID_PROP_LEN * 5.
Definition configure_enc (r : BPConfigureRequest) : bytes :=
  le_enc 4 (os_version r) ++ le_enc 4 (os_patchlevel r) ++ brand r ++ manufacturer r
  ++ product r ++ model r ++ board r.
Definition ser_configure (r : BPConfigureRequest) : Serializable :=
  MkSerializable configure_size (fun _ => configure_enc r).

(** The transport's state and the static [initialized]. *)
Record mint_st (G : Type) := MintSt { mint_ipc : G; initialized : bool }.
Arguments MintSt {G} mint_ipc initialized.
Arguments mint_ipc {G} m.
Arguments initialized {G} m.
Definition set_mint_ipc {G} (i : G) (g : mint_st G) := MintSt i (initialized g).
Definition set_initialized {G} (b : bool) (g : mint_st G) := MintSt (mint_ipc g) b.

(** keymaster::GenerateKeyRequest of the KeyMint message version. *)
Record MintGenerateKeyRequest (A B : Type) := MkMintGenerate {
  gen_version : Z; gen_description : A;
  attestation_signing_key_blob : B; attest_key_params : A; issuer_subject : B
}.
Arguments MkMintGenerate {A B}.
Arguments gen_version {A B} m.
Arguments gen_description {A B} m.
Arguments attestation_signing_key_blob {A B} m.
Arguments attest_key_params {A B} m.
Arguments issuer_subject {A B} m.

Section KeyMint.
Context {W G : Type} `{K : Kernel W} `{I : !KeymasterIpc W G}.
Abbreviation MM := (M W (mint_st G)).
(** How often a missing property is polled before the model gives up. *)
Context (fuel : nat).

Definition ipc {A} (m : M W G A) : MM A := zoom mint_ipc set_mint_ipc m.

Definition property_set (key value : bytes) : MM unit := sys (Lib_property_set key value);; mret tt.

(** A C string in a buffer: up to its terminator. *)
Definition c_str (b : bytes) : bytes :=
  match strlen b with Some n => slice 0 n b | None => b end.

(** Each round of the loop waits 15 seconds for the property. *)
Fixpoint wait_and_get_property_loop (n : nat) (prop : bytes) : MM bytes :=
  match n with
  | O => halt OutOfFuel
  | S n' =>
      r ← sys (Lib_extern (cstr "WaitForPropertyCreation"));
      if sr_ret r =? 0 then wait_and_get_property_loop n' prop
      else v ← sys (Lib_property_get prop); mret (c_str (sr_data v))
  end.
Definition wait_and_get_property (prop : bytes) : MM bytes := wait_and_get_property_loop fuel prop.

(** [memcpy(req.field, prop.c_str(), strlen(prop.c_str()))] into a zeroed field. *)
Definition fill_field (prop : bytes) : MM bytes :=
  v ← wait_and_get_property prop;
  if MAX_ANDROID_PROP_LEN <? zlen v then halt Undefined
  else mret (splice (replicate (Z.to_nat MAX_ANDROID_PROP_LEN) 0) 0 v).

Definition ForwardCommand {R} `{KeymasterResponse R} (command : keymaster_command)
    (req : Serializable) (rsp : R) : MM R :=
  '(err, rsp) ← ipc (ipc_send (command_id command) req rsp);
  mret (if negb (err =? KM_ERROR_OK) then set_error rsp err else rsp).

Definition ForwardCommandNoRequest {R} `{KeymasterResponse R} (command : keymaster_command)
    (rsp : R) : MM R :=
  '(err, rsp) ← ipc (ipc_send_no_request (command_id command) rsp);
  mret (if negb (err =? KM_ERROR_OK) then set_error rsp err else rsp).

Definition Configure {R} `{KeymasterResponse R} (request : Serializable) (response : R) : MM R :=
  ForwardCommand KM_CONFIGURE request response.
Definition ConfigureVendorPatchLevel {R} `{KeymasterResponse R} (request : Serializable) (response : R) : MM R :=
  ForwardCommand KM_CONFIGURE_VENDOR_PATCHLEVEL request response.
Definition ConfigureBootPatchLevel {R} `{KeymasterResponse R} (request : Serializable) (response : R) : MM R :=
  ForwardCommand KM_CONFIGURE_BOOT_PATCHLEVEL request response.

(** ** Setting up *)

(** Of the keymaster library: fresh responses, the patch level requests, the
    version and patch levels of the running system. *)
Context {CR : Type} `{KeymasterResponse CR} (configure_response vendor_pl_rsp boot_pl_rsp : CR).
Context (vendor_pl_req boot_pl_req : Z -> Serializable).
Context (GetOsVersion GetOsPatchlevel GetVendorPatchlevel : Z).

Definition ConfigDeviceInfo : MM Z :=
  brand ← fill_field (cstr "ro.product.brand");
  manufacturer ← fill_field (cstr "ro.product.manufacturer");
  product ← fill_field (cstr "ro.product.name");
  model ← fill_field (cstr "ro.product.model");
  board ← fill_field (cstr "ro.product.board");
  let req := MkConfigure GetOsVersion GetOsPatchlevel brand manufacturer product model board in
  property_set km_debug_prop (cstr "configure");;
  rsp ← Configure (ser_configure req) configure_response;
  if negb (rsp_error rsp =? KM_ERROR_OK) then
    property_set km_debug_prop (cstr "configure_failed");;
    mret (-1)
  else
    property_set km_debug_prop (cstr "configure_success");;
    mret 0.

Definition ConfigPatchLevel : MM Z :=
  property_set km_debug_prop (cstr "config_patch_level");;
  rsp ← ConfigureVendorPatchLevel (vendor_pl_req GetVendorPatchlevel) vendor_pl_rsp;
  if negb (rsp_error rsp =? KM_ERROR_OK) then
    property_set km_debug_prop (cstr "configure_vendor_pl_failed");;
    mret (-1)
  else
    rsp ← ConfigureBootPatchLevel (boot_pl_req (u32 (GetOsPatchlevel * 100 + 1))) boot_pl_rsp;
    if negb (rsp_error rsp =? KM_ERROR_OK) then
      property_set km_debug_prop (cstr "configure_boot_pl_failed");;
      mret (-1)
    else
      property_set km_debug_prop (cstr "config_patch_level_sucess");;
      mret 0.

(** [property_get] of the daemon's property, its length, until it is set. *)
Fixpoint wait_teei_daemon (n : nat) : MM unit :=
  match n with
  | O => halt OutOfFuel
  | S n' =>
      v ← sys (Lib_property_get TEEI_INIT_PROP);
      if zlen (c_str (sr_data v)) <? 1 then
        property_set km_debug_prop (cstr "wait_teei_daemon");;
        sys (Sys_usleep 200000);;
        wait_teei_daemon n'
      else mret tt
  end.

Definition Initialize : MM Z :=
  done ← gets initialized;
  if (done : bool) then mret 0
  else
    property_set km_debug_prop (cstr "load_ta");;
    wait_teei_daemon fuel;;
    err ← ipc ipc_connect;
    if negb (err =? 0) then
      property_set km_debug_prop (cstr "load_ta_failed");;
      mret err
    else
      property_set km_debug_prop (cstr "load_ta_success");;
      e ← ConfigDeviceInfo;
      if negb (e =? 0) then mret (-1)
      else
        e ← ConfigPatchLevel;
        if negb (e =? 0) then mret (-1)
        else modify (set_initialized true);; mret 0.

Definition BeanpodKeymaster_destroy : MM unit := ipc ipc_disconnect.

(** ** The methods *)

Section Methods.
Context {R : Type} `{KeymasterResponse R}.

(** The macro INITIALIZE in front of [m]. *)
Definition INITIALIZE (response : R) (m : MM R) : MM R :=
  e ← Initialize;
  if negb (e =? 0) then mret (set_error response (-1000)) else m.

Definition GetVersion (request : Serializable) (response : R) : MM R :=
  INITIALIZE response (ForwardCommand KM_GET_VERSION request response).
Definition SupportedAlgorithms (request : Serializable) (response : R) : MM R :=
  INITIALIZE response (ForwardCommand KM_GET_SUPPORTED_ALGORITHMS request response).
Definition SupportedBlockModes (request : Serializable) (response : R) : MM R :=
  INITIALIZE response (ForwardCommand KM_GET_SUPPORTED_BLOCK_MODES request response).
Definition SupportedPaddingModes (request : Serializable) (response : R) : MM R :=
  INITIALIZE response (ForwardCommand KM_GET_SUPPORTED_PADDING_MODES request response).
Definition SupportedDigests (request : Serializable) (response : R) : MM R :=
  INITIALIZE response (ForwardCommand KM_GET_SUPPORTED_DIGESTS request response).
Definition SupportedImportFormats (request : Serializable) (response : R) : MM R :=
  INITIALIZE response (ForwardCommand KM_GET_SUPPORTED_IMPORT_FORMATS request response).
Definition SupportedExportFormats (request : Serializable) (response : R) : MM R :=
  INITIALIZE response (ForwardCommand KM_GET_SUPPORTED_EXPORT_FORMATS request response).
Definition AddRngEntropy (request : Serializable) (response : R) : MM R :=
  INITIALIZE response (ForwardCommand KM_ADD_RNG_ENTROPY request response).
Definition GetKeyCharacteristics (request : Serializable) (response : R) : MM R :=
  INITIALIZE response (ForwardCommand KM_GET_KEY_CHARACTERISTICS request response).
Definition ImportKey (request : Serializable) (response : R) : MM R :=
  INITIALIZE response (ForwardCommand KM_IMPORT_KEY request response).
Definition ImportWrappedKey (request : Serializable) (response : R) : MM R :=
  INITIALIZE response (ForwardCommand KM_IMPORT_WRAPPED_KEY request response).
Definition ExportKey (request : Serializable) (response : R) : MM R :=
  INITIALIZE response (ForwardCommand KM_EXPORT_KEY request response).
Definition AttestKey (request : Serializable) (response : R) : MM R :=
  INITIALIZE response (ForwardCommand KM_ATTEST_KEY request response).
Definition UpgradeKey (request : Serializable) (response : R) : MM R :=
  INITIALIZE response (ForwardCommand KM_UPGRADE_KEY request response).
Definition DeleteKey (request : Serializable) (response : R) : MM R :=
  INITIALIZE response (ForwardCommand KM_DELETE_KEY request response).
Definition DeleteAllKeys (request : Serializable) (response : R) : MM R :=
  INITIALIZE response (ForwardCommand KM_DELETE_ALL_KEYS request response).
Definition BeginOperation (request : Serializable) (response : R) : MM R :=
  INITIALIZE response (ForwardCommand KM_BEGIN_OPERATION request response).
Definition UpdateOperation (request : Serializable) (response : R) : MM R :=
  ForwardCommand KM_UPDATE_OPERATION request response.
Definition FinishOperation (request : Serializable) (response : R) : MM R :=
  ForwardCommand KM_FINISH_OPERATION request response.
Definition AbortOperation (request : Serializable) (response : R) : MM R :=
  ForwardCommand KM_ABORT_OPERATION request response.
Definition GetHmacSharingParameters (response : R) : MM R :=
  INITIALIZE response (ForwardCommandNoRequest KM_GET_HMAC_SHARING_PARAMETERS response).
Definition ComputeSharedHmac (request : Serializable) (response : R) : MM R :=
  INITIALIZE response (ForwardCommand KM_COMPUTE_SHARED_HMAC request response).
Definition VerifyAuthorization (request : Serializable) (response : R) : MM R :=
  INITIALIZE response (ForwardCommand KM_VERIFY_AUTHORIZATION request response).
Definition DeviceLocked (request : Serializable) (response : R) : MM R :=
  INITIALIZE response (ForwardCommand KM_DEVICE_LOCKED request response).
Definition EarlyBootEnded (response : R) : MM R :=
  INITIALIZE response (ForwardCommandNoRequest KM_EARLY_BOOT_ENDED response).
Definition GenerateRkpKey (request : Serializable) (response : R) : MM R :=
  INITIALIZE response (ForwardCommand KM_GENERATE_RKP_KEY request response).
Definition GenerateCsr (request : Serializable) (response : R) : MM R :=
  INITIALIZE response (ForwardCommand KM_GENERATE_CSR request response).
Definition GenerateTimestampToken (request : Serializable) (response : R) : MM R :=
  INITIALIZE response (ForwardCommand KM_GENERATE_TIMESTAMPTOKEN request response).

Context {A B : Type} `{AuthorizationSet A}.
Context (java_time : Z -> Z) (ser_generate : MintGenerateKeyRequest A B -> Serializable).

(** The date is added when the description already has one. *)
Definition GenerateKey (request : MintGenerateKeyRequest A B) (response : R) : MM R :=
  INITIALIZE response (
    key_description ← (if contains_creation (gen_description request) then
                         t ← sys (Lib_extern (cstr "time"));
                         mret (push_creation (java_time (sr_ret t)) (gen_description request))
                       else mret (gen_description request));
    ForwardCommand KM_GENERATE_KEY
      (ser_generate (MkMintGenerate (gen_version request) key_description
         (attestation_signing_key_blob request) (attest_key_params request) (issuer_subject request)))
      response).
End Methods.
End KeyMint.
