(* ===== verification/KeyMintSpec.v ===== *)
(** * What the KeyMint implementation guarantees

    Over any transport that keeps its interface: [initialized] is set only once
    the secure side accepted the identity of the device and both patch levels,
    in this order; a guarded method forwards its command only after that; what
    is sent as identity are the properties of the device. *)

From S2P Require Import Prelude Kernel Libtrusty KmLib BeanpodKeymaster KeyMint.

(** ** The identity request *)

Definition pad_field (v : bytes) : bytes := splice (replicate (Z.to_nat MAX_ANDROID_PROP_LEN) 0) 0 v.

Lemma zlen_pad_field v : zlen v <= MAX_ANDROID_PROP_LEN -> zlen (pad_field v) = MAX_ANDROID_PROP_LEN.
Proof.
  intros H. unfold pad_field, zlen at 1. rewrite length_splice, length_replicate; [done|done|].
  rewrite Z.add_0_l. by unfold zlen at 2; rewrite length_replicate.
Qed.

Definition fields_ok (r : BPConfigureRequest) : Prop :=
  Forall (fun f => zlen f = MAX_ANDROID_PROP_LEN) [brand r; manufacturer r; product r; model r; board r].

Lemma configure_wf r : fields_ok r -> serializable_wf (ser_configure r).
Proof.
  intros H. repeat (apply Forall_cons in H as [? H]). split; [done|]. cbn [SerializedSize Serialize ser_configure].
  unfold configure_enc. rewrite !zlen_app, !zlen_le_enc. unfold configure_size. lia.
Qed.

(** The secure side's view of the request. *)
Definition configure_dec (b : bytes) : BPConfigureRequest :=
  MkConfigure (get_u32 b 0) (get_u32 b 4) (slice 8 92 b) (slice 100 92 b) (slice 192 92 b)
    (slice 284 92 b) (slice 376 92 b).

(** The identity request is read back by the secure side as it was built. *)
Theorem configure_roundtrip r :
  fields_ok r -> is_u32 (os_version r) -> is_u32 (os_patchlevel r) -> configure_dec (configure_enc r) = r.
Proof.
  intros H Hv Hp. repeat (apply Forall_cons in H as [? H]). destruct r as [v p b1 b2 b3 b4 b5]. unfold MAX_ANDROID_PROP_LEN in *. simpl in *.
  unfold configure_dec, configure_enc. cbn [os_version os_patchlevel brand manufacturer product model board].
  f_equal; [by fields|by fields|..].
  all: repeat rewrite slice_app_r by (rewrite ?zlen_le_enc; lia).
  all: rewrite ?zlen_le_enc, ?slice_app_l by (rewrite ?zlen_le_enc; lia).
  all: match goal with |- slice ?o ?l ?b = ?b => replace o with 0 by lia; replace l with (zlen b) by lia end; apply slice_full.
Qed.

Definition request0 : BPConfigureRequest :=
  MkConfigure 130000 202212 (pad_field [1]) (pad_field [2]) (pad_field []) (pad_field [3; 4]) (pad_field [5]).

Lemma configure_roundtrip_witness : configure_dec (configure_enc request0) = request0.
Proof. apply configure_roundtrip; [repeat constructor|vm_compute; intuition congruence..]. Defined.

(** ** Reading properties *)

Section Properties.
Context {W G : Type} `{K : Kernel W} (fuel : nat).
Implicit Types s : proc W (mint_st G).

(** Calls [evs] that leave the variables alone and open and close nothing. *)
Definition quietly s (evs : list event) s' : Prop :=
  globals s' = globals s /\ trace s' = trace s ++ evs /\ Forall no_fd evs.

Lemma quietly_nil s : quietly s [] s.
Proof. split_and!; [done|by rewrite app_nil_r|constructor]. Qed.

Lemma quietly_app s1 e1 s2 e2 s3 : quietly s1 e1 s2 -> quietly s2 e2 s3 -> quietly s1 (e1 ++ e2) s3.
Proof.
  intros (G1 & T1 & F1) (G2 & T2 & F2).
  split_and!; [congruence|by rewrite T2, T1, app_assoc|by apply Forall_app].
Qed.

Lemma property_set_spec key v s :
  wp (property_set key v) (fun o s' => o = Ret tt /\ exists evs, quietly s evs s') s.
Proof.
  apply wp_bind. apply wp_sys; intros r w _. apply wp_ret. split; [done|]. eexists [_].
  split_and!; [done|done|by repeat constructor].
Qed.

(** A field filled from property [prop], as read in [evs]. *)
Definition field_of (prop f : bytes) (evs : list event) : Prop :=
  exists r, Ev (Lib_property_get prop) r ∈ evs /\
    zlen (c_str (sr_data r)) <= MAX_ANDROID_PROP_LEN /\ f = pad_field (c_str (sr_data r)).

(** Waiting ends with the value, unless every one of [n] waits timed out. *)
Lemma wait_property_spec n prop s :
  wp (wait_and_get_property_loop n prop) (fun o s' => exists evs, quietly s evs s' /\
    match o with
    | Ret v => exists r, Ev (Lib_property_get prop) r ∈ evs /\ v = c_str (sr_data r)
    | Stop e => e = OutOfFuel /\ length evs = n /\ Forall (fun e => sr_ret (ev_res e) = 0) evs
    end) s.
Proof.
  revert s. induction n as [|n IH]; intros s; cbn [wait_and_get_property_loop].
  { apply wp_halt. exists []. split; [apply quietly_nil|]. by split_and!. }
  apply wp_bind. apply wp_sys; intros r w _.
  set (ev := Ev (Lib_extern (cstr "WaitForPropertyCreation")) r). assert (quietly s [ev] (after s (Lib_extern (cstr "WaitForPropertyCreation")) r w)) as Hq
    by (split_and!; [done|done|by repeat constructor]).
  apply wp_if; intros Hr.
  - eapply wp_mono; [apply IH|]. intros o s' (evs & Hq' & Ho). exists (ev :: evs).
    split; [exact (quietly_app _ _ _ _ _ Hq Hq')|]. destruct o as [v|e].
    + destruct Ho as (r' & Hin & ->). exists r'. split; [by right|done].
    + destruct Ho as (-> & Hl & Hall). split_and!; [done|simpl; by rewrite Hl|]. constructor; [simpl; lia|done].
  - apply wp_bind. apply wp_sys; intros v wv _. apply wp_ret. exists [ev; Ev (Lib_property_get prop) v].
    split; [|exists v; split; [by right; left|done]].
    split_and!; [done|simpl; by rewrite <- app_assoc|by repeat constructor].
Qed.

Lemma fill_field_spec prop s :
  wp (fill_field fuel prop) (fun o s' => exists evs, quietly s evs s' /\
    match o with Ret f => field_of prop f evs | Stop _ => True end) s.
Proof.
  unfold fill_field, wait_and_get_property. apply wp_bind. eapply wp_mono; [apply wait_property_spec|].
  intros o s' (evs & Hq & Ho). destruct o as [v|e]; [|by exists evs]. destruct Ho as (r & Hin & ->).
  apply wp_if; intros Hl; [apply wp_halt; by exists evs|]. apply wp_ret. exists evs. split; [done|].
  exists r. split_and!; [done|lia|done].
Qed.

(** Waiting for the daemon, and the name it is asked under. *)
Lemma wait_daemon_spec n s :
  wp (wait_teei_daemon n) (fun o s' => exists evs, quietly s evs s' /\
    (o = Ret tt -> exists r, Ev (Lib_property_get TEEI_INIT_PROP) r ∈ evs /\ 1 <= zlen (c_str (sr_data r)))) s.
Proof.
  revert s. induction n as [|n IH]; intros s; cbn [wait_teei_daemon].
  { apply wp_halt. exists []. split; [apply quietly_nil|done]. }
  apply wp_bind. apply wp_sys; intros v wv _. set (s1 := after _ _ v wv).
  assert (quietly s [Ev (Lib_property_get TEEI_INIT_PROP) v] s1) as Hq by (split_and!; [done|done|by repeat constructor]).
  apply wp_if; intros Hv.
  - apply wp_bind. eapply wp_mono; [apply property_set_spec|]. intros o s2 (-> & e2 & Hq2).
    apply wp_bind. apply wp_sys; intros r w _. eapply wp_mono; [apply IH|]. intros o s4 (e4 & Hq4 & Ho).
    pose proof (quietly_app _ _ _ _ _ Hq Hq2) as Hq3.
    assert (quietly s2 [Ev (Sys_usleep 200000) r] (after s2 (Sys_usleep 200000) r w)) as Hu
      by (split_and!; [done|done|by repeat constructor]).
    pose proof (quietly_app _ _ _ _ _ (quietly_app _ _ _ _ _ Hq3 Hu) Hq4) as Hall.
    eexists. split; [exact Hall|]. intros E. destruct (Ho E) as (r' & Hin & Hl). exists r'.
    split; [|done]. rewrite elem_of_app. by right.
  - apply wp_ret. eexists. split; [exact Hq|]. intros _. exists v. split; [by left|lia].
Qed.

(** The identity of the device, as its properties were read in [evs]. *)
Definition identity (ver patch : Z) (r : BPConfigureRequest) (evs : list event) : Prop :=
  os_version r = ver /\ os_patchlevel r = patch /\
  field_of (cstr "ro.product.brand") (brand r) evs /\
  field_of (cstr "ro.product.manufacturer") (manufacturer r) evs /\
  field_of (cstr "ro.product.name") (product r) evs /\
  field_of (cstr "ro.product.model") (model r) evs /\
  field_of (cstr "ro.product.board") (board r) evs.

Lemma field_of_sub prop f evs evs' : field_of prop f evs -> evs ⊆ evs' -> field_of prop f evs'.
Proof. intros (r & Hin & H) Hsub. exists r. split; [by apply Hsub|done]. Qed.

Lemma field_of_size prop f evs : field_of prop f evs -> zlen f = MAX_ANDROID_PROP_LEN.
Proof. intros (r & _ & Hl & ->). by apply zlen_pad_field. Qed.

Lemma identity_sub ver patch r evs evs' : identity ver patch r evs -> evs ⊆ evs' -> identity ver patch r evs'.
Proof.
  intros (H1 & H2 & F1 & F2 & F3 & F4 & F5) Hsub. split; [done|]. split; [done|].
  split; [by eapply field_of_sub|]. split; [by eapply field_of_sub|]. split; [by eapply field_of_sub|].
  split; by eapply field_of_sub.
Qed.

Lemma identity_fields ver patch r evs : identity ver patch r evs -> fields_ok r.
Proof. intros (_ & _ & H1 & H2 & H3 & H4 & H5). repeat constructor; by eapply field_of_size. Qed.
End Properties.

(** ** Setting up *)

Section SetUp.
Context {W G : Type} `{L : KeymasterIpcLaws W G} (fuel : nat).
(** Connecting a transport that is ready does no harm. *)
Context (ready_idle : forall s, ipc_ready s -> ipc_idle s).
Context {CR : Type} `{RC : KeymasterResponse CR} (configure_response vendor_pl_rsp boot_pl_rsp : CR).
Context (vendor_pl_req boot_pl_req : Z -> Serializable).
Context (vendor_wf : forall p, serializable_wf (vendor_pl_req p)) (boot_wf : forall p, serializable_wf (boot_pl_req p)).
Context (ver patch vendor_patch : Z).
Implicit Types s : proc W (mint_st G).

(** The transport's part of the state. *)
Definition transport s : proc W G := Proc (mint_ipc (globals s)) (world s) (errno s) (trace s).
Definition mint_inv s : Prop := ipc_ready (transport s).

Lemma mint_inv_quiet s evs s' : quietly s evs s' -> mint_inv s -> mint_inv s'.
Proof.
  intros (Hg & Ht & Hno) Hi. eapply ipc_ready_quiet; [exact Hi| |exact Ht|exact Hno].
  unfold transport. simpl. by rewrite Hg.
Qed.

(** A forwarded command: the transport stays ready, [initialized] is as it was,
    and a response without error decodes the answer. *)
Definition mint_forwarded {R} `{KeymasterResponse R} (c : keymaster_command) (req : bytes) (rsp : R) s
    (o : outcome R) s' : Prop :=
  returned mint_inv o s' /\ initialized (globals s') = initialized (globals s) /\
  forall rsp', o = Ret rsp' -> rsp_error rsp' = KM_ERROR_OK ->
    exists payload evs, trace s' = trace s ++ evs /\
      ipc_answered (mint_ipc (globals s)) (command_id c) req payload evs /\
      Deserialize rsp payload = (true, rsp').

Lemma zoomed_forward {R} `{KeymasterResponse R} c req (rsp : R) s (m : M W G (Z * R)) :
  wp m (fun o t => returned ipc_ready o t /\
    delivers (ipc_answered (mint_ipc (globals s))) (command_id c) req rsp (transport s) o t) (transport s) ->
  wp ('(err, rsp) ← ipc m; mret (if negb (err =? KM_ERROR_OK) then set_error rsp err else rsp))
    (mint_forwarded c req rsp s) s.
Proof.
  intros Hm. apply wp_bind, wp_zoom. eapply wp_mono; [exact Hm|]. intros o t [Hr Hd].
  destruct o as [[err rsp1]|e]; [|by split_and!]. apply wp_ret. split; [by destruct t|]. split; [done|].
  intros rsp' [= <-] He. destruct (Z.eqb_spec err KM_ERROR_OK) as [->|Hne]; simpl in He.
  - destruct (Hd rsp1 eq_refl) as (p & evs & H1 & H2 & H3 & _). by exists p, evs.
  - by rewrite rsp_error_set in He.
Qed.

Lemma mint_forward_spec {R} `{KeymasterResponse R} c q (rsp : R) s :
  mint_inv s -> serializable_wf q ->
  wp (ForwardCommand c q rsp) (mint_forwarded c (Serialize q (SerializedSize q)) rsp s) s.
Proof. intros Hi Hq. apply zoomed_forward. by apply (ipc_send_ok c q rsp (transport s)). Qed.

Lemma mint_forward_no_request_spec {R} `{KeymasterResponse R} c (rsp : R) s :
  mint_inv s -> wp (ForwardCommandNoRequest c rsp) (mint_forwarded c [] rsp s) s.
Proof. intros Hi. apply zoomed_forward. by apply (ipc_send_no_request_ok c rsp (transport s)). Qed.

(** The secure side accepted command [c] with the bytes [req] in the calls [evs]. *)
Definition accepted (c : keymaster_command) (req : bytes) (evs : list event) : Prop :=
  exists g payload, ipc_answered g (command_id c) req payload evs.

(** What a part of the set-up leaves, [P] describing the calls of a success. *)
Definition sets_up (P : list event -> Prop) s (o : outcome Z) s' : Prop :=
  returned mint_inv o s' /\ initialized (globals s') = initialized (globals s) /\
  (o = Ret 0 -> exists evs, trace s' = trace s ++ evs /\ P evs).

(** The end of a part: report, and return the status. *)
Lemma report_spec key v (e : Z) s0 (P : list event -> Prop) s :
  mint_inv s -> initialized (globals s) = initialized (globals s0) ->
  (e = 0 -> exists evs, trace s = trace s0 ++ evs /\ forall post, P (evs ++ post)) ->
  wp (property_set key v;; mret e) (sets_up P s0) s.
Proof.
  intros Hi Hin He. apply wp_bind. eapply wp_mono; [apply property_set_spec|].
  intros o s' (-> & post & Hq). apply wp_ret. pose proof Hq as (Hg & Ht & _).
  split; [by eapply mint_inv_quiet|]. split; [by rewrite Hg|]. intros [= E].
  destruct (He E) as (evs & Ht0 & HP). exists (evs ++ post). split; [by rewrite Ht, Ht0, app_assoc|apply HP].
Qed.

(** The identity was read, and accepted by the secure side. *)
Definition identified (evs : list event) : Prop :=
  exists r pre mid post, evs = pre ++ mid ++ post /\ identity ver patch r pre /\
    accepted KM_CONFIGURE (configure_enc r) mid.

Lemma fill_then prop (k : bytes -> M W (mint_st G) Z) (Q : outcome Z -> proc W (mint_st G) -> Prop) s :
  (forall f evs s', quietly s evs s' -> field_of prop f evs -> wp (k f) Q s') ->
  (forall e evs s', quietly s evs s' -> Q (Stop e) s') ->
  wp (fill_field fuel prop ≫= k) Q s.
Proof.
  intros Hk Hs. apply wp_bind. eapply wp_mono; [apply fill_field_spec|].
  intros o s' (evs & Hq & Ho). destruct o as [f|e]; [by eapply Hk|by eapply Hs].
Qed.

Lemma device_info_spec s :
  mint_inv s -> wp (ConfigDeviceInfo fuel configure_response ver patch) (sets_up identified s) s.
Proof.
  intros Hi. unfold ConfigDeviceInfo.
  assert (forall s0 e0, quietly s e0 s0 -> forall e evs s', quietly s0 evs s' -> sets_up identified s (Stop e) s') as Hstop.
  { intros s0 e0 (Hg0 & _) e evs s' (Hg & _). split; [done|]. split; [by rewrite Hg, Hg0|done]. }
  apply fill_then; [|exact (Hstop _ _ (quietly_nil s))]. intros f1 e1 s1 Q1 F1.
  apply fill_then; [|exact (Hstop _ _ Q1)]. intros f2 e2 s2 Q2 F2. pose proof (quietly_app _ _ _ _ _ Q1 Q2) as R2.
  apply fill_then; [|exact (Hstop _ _ R2)]. intros f3 e3 s3 Q3 F3. pose proof (quietly_app _ _ _ _ _ R2 Q3) as R3.
  apply fill_then; [|exact (Hstop _ _ R3)]. intros f4 e4 s4 Q4 F4. pose proof (quietly_app _ _ _ _ _ R3 Q4) as R4.
  apply fill_then; [|exact (Hstop _ _ R4)]. intros f5 e5 s5 Q5 F5. pose proof (quietly_app _ _ _ _ _ R4 Q5) as R5.
  set (req := MkConfigure _ _ _ _ _ _ _). set (pre := (_ ++ e5)) in R5.
  assert (identity ver patch req pre) as Hid.
  { split_and!; try done; (eapply field_of_sub; [done|]); unfold pre; intros x Hx; rewrite !elem_of_app; tauto. }
  apply wp_bind. eapply wp_mono; [apply property_set_spec|]. intros o s6 (-> & e6 & Q6).
  pose proof (quietly_app _ _ _ _ _ R5 Q6) as (Hg & Ht & Hno).
  assert (mint_inv s6) as Hi6 by (by eapply mint_inv_quiet; [exact (quietly_app _ _ _ _ _ R5 Q6)|]).
  apply wp_bind. eapply wp_mono; [apply mint_forward_spec; [done|by eapply configure_wf, identity_fields]|].
  intros o s7 (Hr & Hin & Hok). rewrite Hg in Hin. destruct o as [rsp|e]; [|by split_and!].
  apply wp_if; intros He; apply report_spec; try done. intros _.
  destruct (Hok rsp eq_refl ltac:(lia)) as (payload & evs & Ht7 & Hans & _).
  exists ((pre ++ e6) ++ evs). split; [by rewrite Ht7, Ht, <- !app_assoc|]. intros post.
  exists req, (pre ++ e6), evs, post. split; [by rewrite <- app_assoc|]. split; [|by eexists _, payload].
  eapply identity_sub; [exact Hid|]. intros x Hx. apply elem_of_app. by left.
Qed.

(** Both patch levels were accepted, the vendor's first. *)
Definition patched (evs : list event) : Prop :=
  exists pre c1 mid c2 post, evs = pre ++ c1 ++ mid ++ c2 ++ post /\
    (let q := vendor_pl_req vendor_patch in accepted KM_CONFIGURE_VENDOR_PATCHLEVEL (Serialize q (SerializedSize q)) c1) /\
    (let q := boot_pl_req (u32 (patch * 100 + 1)) in
     accepted KM_CONFIGURE_BOOT_PATCHLEVEL (Serialize q (SerializedSize q)) c2).

Lemma patch_level_spec s :
  mint_inv s ->
  wp (ConfigPatchLevel vendor_pl_rsp boot_pl_rsp vendor_pl_req boot_pl_req patch vendor_patch) (sets_up patched s) s.
Proof.
  intros Hi. unfold ConfigPatchLevel. apply wp_bind. eapply wp_mono; [apply property_set_spec|].
  intros o s1 (-> & e1 & Q1). pose proof Q1 as (Hg1 & Ht1 & _).
  apply wp_bind. eapply wp_mono; [apply mint_forward_spec; [by eapply mint_inv_quiet|apply vendor_wf]|].
  intros o s2 (Hi2 & Hin2 & Hok2). rewrite Hg1 in Hin2. destruct o as [rsp|e]; [|by split_and!].
  apply wp_if; intros He; [by apply report_spec|].
  destruct (Hok2 rsp eq_refl ltac:(lia)) as (p2 & e2 & Ht2 & Ha2 & _).
  apply wp_bind. eapply wp_mono; [apply mint_forward_spec; [done|apply boot_wf]|].
  intros o s3 (Hi3 & Hin3 & Hok3). rewrite Hin2 in Hin3. destruct o as [rsp3|e]; [|by split_and!].
  apply wp_if; intros He3; apply report_spec; try done. intros _.
  destruct (Hok3 rsp3 eq_refl ltac:(lia)) as (p3 & e3 & Ht3 & Ha3 & _).
  exists (e1 ++ e2 ++ e3). split; [by rewrite Ht3, Ht2, Ht1, <- !app_assoc|]. intros post.
  exists e1, e2, [], e3, post. split; [by rewrite <- !app_assoc|]. split; by do 2 eexists.
Qed.

(** The secure side knows the device: identity, vendor and boot patch level. *)
Definition provisioned (evs : list event) : Prop :=
  exists pre e1 e2, evs = pre ++ e1 ++ e2 /\ identified e1 /\ patched e2.

(** The secure side was told, in the course of a trace. *)
Definition told (tr : list event) : Prop :=
  exists pre setup post, tr = pre ++ setup ++ post /\ provisioned setup.
(** [initialized] is set only once it was. *)
Definition known s : Prop := initialized (globals s) = true -> told (trace s).

Lemma told_app tr evs : told tr -> told (tr ++ evs).
Proof. intros (pre & setup & post & -> & H). exists pre, setup, (post ++ evs). by rewrite <- !app_assoc. Qed.

(** What setting up leaves. *)
Definition initializes s (o : outcome Z) s' : Prop :=
  returned mint_inv o s' /\
  match o with
  | Ret rc => if rc =? 0 then initialized (globals s') = true /\
      exists evs, trace s' = trace s ++ evs /\ (initialized (globals s) = false -> provisioned evs)
      else initialized (globals s') = false
  | Stop _ => initialized (globals s') = false
  end.

Lemma mint_initialize_spec s :
  mint_inv s ->
  wp (Initialize fuel configure_response vendor_pl_rsp boot_pl_rsp vendor_pl_req boot_pl_req ver patch vendor_patch)
    (initializes s) s.
Proof.
  intros Hi. unfold Initialize. apply wp_bind, wp_gets. destruct (initialized (globals s)) eqn:Hin.
  { apply wp_ret. split; [done|]. cbn. split; [done|]. exists []. rewrite app_nil_r. by rewrite Hin. }
  apply wp_bind. eapply wp_mono; [apply property_set_spec|]. intros o s1 (-> & e1 & Q1).
  apply wp_bind. eapply wp_mono; [apply wait_daemon_spec|]. intros o s2 (e2 & Q2 & _).
  pose proof (quietly_app _ _ _ _ _ Q1 Q2) as Q12. pose proof Q12 as (Hg2 & Ht2 & _).
  destruct o as [[]|e]; [|by split; [done|]; cbn; rewrite Hg2].
  pose proof (mint_inv_quiet _ _ _ Q12 Hi) as Hi2. apply wp_bind, wp_zoom.
  eapply wp_mono; [apply (ipc_connect_ok (transport s2)), ready_idle, Hi2|].
  intros o t (rc & -> & [e3 Ht3] & Hi3). set (s3 := Proc _ _ _ _).
  assert (mint_inv s3) as Hr3 by (by destruct t). assert (initialized (globals s3) = false) as Hin3
    by (unfold s3; simpl; by rewrite Hg2).
  apply wp_if; intros Hrc.
  { apply wp_bind. eapply wp_mono; [apply property_set_spec|]. intros o s4 (-> & e4 & Q4). apply wp_ret.
    split; [by eapply mint_inv_quiet|]. cbn. replace (rc =? 0) with false by lia. by destruct Q4 as [-> _]. }
  apply wp_bind. eapply wp_mono; [apply property_set_spec|]. intros o s4 (-> & e4 & Q4). pose proof Q4 as (Hg4 & Ht4 & _).
  apply wp_bind. eapply wp_mono; [apply device_info_spec; by eapply mint_inv_quiet|].
  intros o s5 (Hi5 & Hin5 & Hok5). rewrite Hg4, Hin3 in Hin5. destruct o as [rc5|e]; [|by split].
  apply wp_if; intros Hrc5; [by apply wp_ret|].
  apply wp_bind. eapply wp_mono; [by apply patch_level_spec|].
  intros o s6 (Hi6 & Hin6 & Hok6). rewrite Hin5 in Hin6. destruct o as [rc6|e]; [|by split].
  apply wp_if; intros Hrc6; [by apply wp_ret|]. assert (rc5 = 0) as -> by lia. assert (rc6 = 0) as -> by lia.
  apply wp_bind, wp_modify, wp_ret. split; [by destruct s6|]. cbn. split; [done|].
  destruct (Hok5 eq_refl) as (e5 & Ht5 & Hid). destruct (Hok6 eq_refl) as (e6 & Ht6 & Hpt).
  simpl in Ht3. exists (((e1 ++ e2) ++ e3 ++ e4) ++ e5 ++ e6).
  split; [by rewrite Ht6, Ht5, Ht4; unfold s3; cbn [trace]; rewrite Ht3, Ht2, <- !app_assoc|].
  intros _. by exists ((e1 ++ e2) ++ e3 ++ e4), e5, e6.
Qed.

(** In a process that set [initialized] itself, the set-up is on the trace. *)
Lemma initializes_told s rc s' :
  known s -> initializes s (Ret rc) s' ->
  mint_inv s' /\ (rc = 0 -> initialized (globals s') = true /\ exists setup, trace s' = trace s ++ setup /\ told (trace s ++ setup)) /\
  (rc <> 0 -> initialized (globals s') = false).
Proof.
  intros Hk [Hr Hs]. split; [done|]. destruct (Z.eqb_spec rc 0) as [->|Hne]; [|by split].
  destruct Hs as (Hin & evs & Ht & Hp). split; [|done]. intros _. split; [done|]. exists evs. split; [done|].
  destruct (initialized (globals s)) eqn:E; [by apply told_app, Hk|]. exists (trace s), evs, []. rewrite app_nil_r. auto.
Qed.

(** ** Guarded methods *)

(** A guarded method answers without error only if the secure side knows the
    device by then and answered exactly this command. *)
Definition guarded {R} `{KeymasterResponse R} (c : keymaster_command) (req : bytes) (rsp : R) s
    (o : outcome R) s' : Prop :=
  returned mint_inv o s' /\
  forall rsp', o = Ret rsp' -> rsp_error rsp' = KM_ERROR_OK ->
    initialized (globals s') = true /\
    exists g setup payload evs, trace s' = trace s ++ setup ++ evs /\
      told (trace s ++ setup) /\
      ipc_answered g (command_id c) req payload evs /\ Deserialize rsp payload = (true, rsp').

(** What a method achieves by itself it achieves behind the guard, after the
    set-up. *)
Lemma guard_with {R} `{KeymasterResponse R} (rsp : R) (m : M W (mint_st G) R)
    (good : proc W (mint_st G) -> proc W (mint_st G) -> R -> Prop) s :
  mint_inv s -> known s ->
  (forall s1, mint_inv s1 -> wp m (fun o s2 => returned mint_inv o s2 /\
     initialized (globals s2) = initialized (globals s1) /\
     forall rsp', o = Ret rsp' -> rsp_error rsp' = KM_ERROR_OK -> good s1 s2 rsp') s1) ->
  wp (INITIALIZE fuel configure_response vendor_pl_rsp boot_pl_rsp vendor_pl_req boot_pl_req ver patch vendor_patch rsp m)
    (fun o s' => returned mint_inv o s' /\
       forall rsp', o = Ret rsp' -> rsp_error rsp' = KM_ERROR_OK ->
         initialized (globals s') = true /\
         exists setup s1, trace s1 = trace s ++ setup /\ told (trace s ++ setup) /\ good s1 s' rsp') s.
Proof.
  intros Hi Hk Hm. unfold INITIALIZE. apply wp_bind. eapply wp_mono; [by apply mint_initialize_spec|].
  intros o s1 Hs. destruct o as [rc|e]; [|by split]. destruct (initializes_told s rc s1 Hk Hs) as (Hr & Hok & _).
  apply wp_if; intros Hrc.
  { apply wp_ret. split; [done|]. intros rsp' [= <-]. by rewrite rsp_error_set. }
  destruct (Hok ltac:(lia)) as (Hin & setup & Ht & Hp). clear Hok.
  eapply wp_mono; [by apply Hm|]. intros o s2 (Hr2 & Hin2 & Hok). split; [done|]. intros rsp' -> He.
  split; [by rewrite Hin2|]. exists setup, s1. split_and!; [done|done|by apply Hok].
Qed.

Lemma guard_spec {R} `{KeymasterResponse R} c req (rsp : R) (m : M W (mint_st G) R) s :
  mint_inv s -> known s -> (forall s1, mint_inv s1 -> wp m (mint_forwarded c req rsp s1) s1) ->
  wp (INITIALIZE fuel configure_response vendor_pl_rsp boot_pl_rsp vendor_pl_req boot_pl_req ver patch vendor_patch rsp m)
    (guarded c req rsp s) s.
Proof.
  intros Hi Hk Hm. eapply wp_mono; [apply (guard_with rsp m (fun s1 s2 rsp' => exists payload evs,
    trace s2 = trace s1 ++ evs /\ ipc_answered (mint_ipc (globals s1)) (command_id c) req payload evs /\
    Deserialize rsp payload = (true, rsp'))); [done|done|exact Hm]|].
  intros o s' [Hr Hok]. split; [done|]. intros rsp' Ho He.
  destruct (Hok rsp' Ho He) as (Hin & setup & s1 & Ht & Hp & payload & evs & Ht2 & Ha & Hd). split; [done|].
  exists (mint_ipc (globals s1)), setup, payload, evs. split; [by rewrite Ht2, Ht, app_assoc|]. by split_and!.
Qed.

(** ** The life of the process *)

(** A method, guarded or not, seen as a step: it keeps the transport, leaves
    [initialized] alone and adds to the trace. *)
Definition tame {R} (m : M W (mint_st G) R) : Prop := forall s, mint_inv s ->
  wp m (fun o s' => returned mint_inv o s' /\ initialized (globals s') = initialized (globals s) /\ grows s s') s.

Definition sound s : Prop := mint_inv s /\ known s.

Lemma tame_sound {R} (m : M W (mint_st G) R) v s : tame m -> sound s -> (m s).1 = Ret v -> sound (m s).2.
Proof.
  intros Hm [Hi Hk] Hv. destruct (Hm s Hi) as (Hr & Hin & [evs Ht]). rewrite Hv in Hr. split; [done|].
  intros H. rewrite Ht. apply told_app, Hk. by rewrite <- Hin.
Qed.

Lemma guarded_sound {R} `{KeymasterResponse R} (rsp : R) (m : M W (mint_st G) R) v s :
  tame m -> sound s ->
  let run := INITIALIZE fuel configure_response vendor_pl_rsp boot_pl_rsp vendor_pl_req boot_pl_req ver patch vendor_patch rsp m s in
  run.1 = Ret v -> sound run.2.
Proof.
  intros Hm [Hi Hk] run Hv. pose proof (mint_initialize_spec s Hi) as Hs. unfold wp in Hs.
  unfold run, INITIALIZE, mbind, M_bind in *. destruct (Initialize _ _ _ _ _ _ _ _ _ s) as [[rc|e] s1]; [|done].
  destruct (initializes_told s rc s1 Hk Hs) as (Hr & Hok & Hbad). destruct (Z.eqb_spec rc 0) as [E|E]; simpl in *.
  - apply (tame_sound m v); [done| |done]. split; [done|]. intros _. destruct (Hok E) as (_ & setup & -> & ?). done.
  - split; [done|]. intros H1. by rewrite Hbad in H1.
Qed.

(** What the transport adds for it. *)
Context (send_grows : forall R (HR : KeymasterResponse R) c q (rsp : R) t, ipc_ready t -> serializable_wf q ->
  grows t (ipc_send (command_id c) q rsp t).2).
Context (send_no_request_grows : forall R (HR : KeymasterResponse R) c (rsp : R) t, ipc_ready t ->
  grows t (ipc_send_no_request (command_id c) rsp t).2).

Lemma forward_tame {R} `{KeymasterResponse R} c q (rsp : R) : serializable_wf q -> tame (ForwardCommand c q rsp).
Proof.
  intros Hq s Hi. destruct (mint_forward_spec c q rsp s Hi Hq) as (Hr & Hin & _). split_and!; [done|done|].
  destruct (send_grows R _ c q rsp (transport s) Hi Hq) as [evs He]. exists evs. revert He.
  unfold ForwardCommand, ipc, zoom, mbind, M_bind, transport. destruct (ipc_send _ _ _ _) as [[[err x]|e] t]; done.
Qed.
Lemma forward_no_request_tame {R} `{KeymasterResponse R} c (rsp : R) : tame (ForwardCommandNoRequest c rsp).
Proof.
  intros s Hi. destruct (mint_forward_no_request_spec c rsp s Hi) as (Hr & Hin & _). split_and!; [done|done|].
  destruct (send_no_request_grows R _ c rsp (transport s) Hi) as [evs He]. exists evs. revert He.
  unfold ForwardCommandNoRequest, ipc, zoom, mbind, M_bind, transport.
  destruct (ipc_send_no_request _ _ _) as [[[err x]|e] t]; done.
Qed.

(** A call to the clock before the command. *)
Lemma dated_tame {R B} (b : bool) (f : sysret -> B) (d : B) (k : B -> M W (mint_st G) R) :
  (forall x, tame (k x)) -> tame ((if b then t ← sys (Lib_extern (cstr "time")); mret (f t) else mret d) ≫= k).
Proof.
  intros Hk s Hi. apply wp_bind. apply wp_if; intros _; [|apply wp_ret; by apply Hk].
  apply wp_bind. apply wp_sys; intros t w _. apply wp_ret.
  assert (quietly s [Ev (Lib_extern (cstr "time")) t] (after s (Lib_extern (cstr "time")) t w)) as Hq
    by (split_and!; [done|done|by repeat constructor]).
  eapply wp_mono; [apply Hk, (mint_inv_quiet _ _ _ Hq Hi)|]. intros o s' (Hr & Hin & Hg). split_and!; [done|done|].
  etransitivity; [|exact Hg]. by eexists.
Qed.

(** The states of a process: after any guarded and unguarded commands. *)
Inductive mint_reach (s0 : proc W (mint_st G)) : proc W (mint_st G) -> Prop :=
| Reach_start : mint_reach s0 s0
| Reach_guarded {R} `{KeymasterResponse R} c q (rsp v : R) s : mint_reach s0 s -> serializable_wf q ->
    let run := INITIALIZE fuel configure_response vendor_pl_rsp boot_pl_rsp vendor_pl_req boot_pl_req ver patch vendor_patch rsp
      (ForwardCommand c q rsp) s in
    run.1 = Ret v -> mint_reach s0 run.2
| Reach_guarded_no_request {R} `{KeymasterResponse R} c (rsp v : R) s : mint_reach s0 s ->
    let run := INITIALIZE fuel configure_response vendor_pl_rsp boot_pl_rsp vendor_pl_req boot_pl_req ver patch vendor_patch rsp
      (ForwardCommandNoRequest c rsp) s in
    run.1 = Ret v -> mint_reach s0 run.2
| Reach_generate {R A B} `{KeymasterResponse R} `{AuthorizationSet A} java_time (ser : MintGenerateKeyRequest A B -> Serializable)
    request (rsp v : R) s : mint_reach s0 s -> (forall q, serializable_wf (ser q)) ->
    let run := GenerateKey fuel configure_response vendor_pl_rsp boot_pl_rsp vendor_pl_req boot_pl_req ver patch vendor_patch
      java_time ser request rsp s in
    run.1 = Ret v -> mint_reach s0 run.2
| Reach_forward {R} `{KeymasterResponse R} c q (rsp v : R) s : mint_reach s0 s -> serializable_wf q ->
    (ForwardCommand c q rsp s).1 = Ret v -> mint_reach s0 (ForwardCommand c q rsp s).2.

Lemma mint_reach_sound s0 s : sound s0 -> mint_reach s0 s -> sound s.
Proof.
  intros H0. induction 1 as [|R HR c q rsp v s _ IH Hq run Hv|R HR c rsp v s _ IH run Hv
    |R A B HR HA jt ser rq rsp v s _ IH Hq run Hv|R HR c q rsp v s _ IH Hq Hv]; [done|..].
  - by apply (guarded_sound rsp _ v); [apply forward_tame|..].
  - by apply (guarded_sound rsp _ v); [apply forward_no_request_tame|..].
  - apply (guarded_sound rsp _ v); [|done|done]. apply dated_tame. intros x. by apply forward_tame.
  - by apply (tame_sound _ v); [apply forward_tame|..].
Qed.
End SetUp.
