(* ===== verification/KeyMintOperation.v ===== *)
(** * Operations of KeyMint (400/keymint1.0/BeanpodKeyMintOperation.cpp)

    The object behind a begun operation keeps the handle of the secure side and
    forwards updates, the end and the abort of the operation with it.  The
    authentication token is passed as a packed structure in which two fields are
    turned to network order by [SwapBytes]. *)

From S2P Require Import Prelude Kernel Libtrusty MemKernel KmLib KmTipc KmTipcSpec BeanpodKeymaster KmTheorems KeyMint KeyMintSpec.

(** ** SwapBytes *)

(** The loop: exchange the bytes at [first] and [last] and move both inwards. *)
Fixpoint swap_loop (n : nat) (first last : Z) (b : bytes) : bytes :=
  match n with
  | O => b
  | S n' =>
      if first <? last then
        let x := default 0 (b !! Z.to_nat first) in
        let y := default 0 (b !! Z.to_nat last) in
        swap_loop n' (first + 1) (last - 1) (<[Z.to_nat last := x]> (<[Z.to_nat first := y]> b))
      else b
  end.
Definition SwapBytes (b : bytes) : bytes := swap_loop (length b) 0 (zlen b - 1) b.

(** ** hw_auth_token_t *)

Record HardwareAuthToken := MkToken {
  challenge : Z; user_id : Z; authenticator_id : Z; authenticator_type : Z; timestamp : Z; mac : bytes
}.
Definition sizeof_hmac := 32.

(** The packed structure, version 0. *)
Definition hw_auth_token_enc (t : HardwareAuthToken) (hmac : bytes) : bytes :=
  [0] ++ le_enc 8 (challenge t) ++ le_enc 8 (user_id t) ++ le_enc 8 (authenticator_id t)
  ++ SwapBytes (le_enc 4 (authenticator_type t)) ++ SwapBytes (le_enc 8 (timestamp t)) ++ hmac.

(** ** Requests and responses of the keymaster library *)

Inductive op_tag := TAG_ASSOCIATED_DATA | TAG_AUTH_TOKEN.
Record UpdateOperationRequest := MkUpdate {
  up_handle : Z; up_input : bytes; up_params : list (op_tag * bytes)
}.
Record FinishOperationRequest := MkFinish {
  fin_handle : Z; fin_input : bytes; fin_signature : bytes; fin_params : list (op_tag * bytes)
}.

Class OperationResponse (R : Type) := {
  op_response :: KeymasterResponse R;
  input_consumed : R -> Z;
  output : R -> bytes;
}.

Definition KM_ERROR_OUTPUT_PARAMETER_NULL := -27.

(** The object's handle, next to the state of the implementation. *)
Record op_st (G : Type) := OpSt { op_impl : mint_st G; opHandle_ : Z }.
Arguments OpSt {G} op_impl opHandle_.
Arguments op_impl {G} o.
Arguments opHandle_ {G} o.
Definition set_impl {G} (i : mint_st G) (g : op_st G) := OpSt i (opHandle_ g).
Definition set_opHandle {G} (h : Z) (g : op_st G) := OpSt (op_impl g) h.

Section Operation.
Context {W G : Type} `{K : Kernel W} `{I : !KeymasterIpc W G}.
Abbreviation OM := (M W (op_st G)).
Context {R : Type} `{O : OperationResponse R}.
(** Of the library: serialisation, and a fresh response. *)
Context (ser_update : UpdateOperationRequest -> Serializable) (ser_finish : FinishOperationRequest -> Serializable)
  (ser_abort : Z -> Serializable) (response0 : R).

Definition impl {A} (m : M W (mint_st G) A) : OM A := zoom op_impl set_impl m.

Definition abort : OM Z :=
  h ← gets opHandle_;
  response ← impl (AbortOperation (ser_abort h) response0);
  modify (set_opHandle 0);;
  mret (rsp_error response).

(** What follows a failed request: too long a request ends the operation. *)
Definition failed (error : Z) : OM Z :=
  if error =? BEANPOD_KM_INVALID_INPUT_LENGTH then abort;; mret KM_ERROR_INVALID_INPUT_LENGTH
  else mret error.

Definition updateAad (input : bytes) : OM Z :=
  h ← gets opHandle_;
  response ← impl (UpdateOperation (ser_update (MkUpdate h [] [(TAG_ASSOCIATED_DATA, input)])) response0);
  if negb (rsp_error response =? KM_ERROR_OK) then failed (rsp_error response)
  else mret (rsp_error response).

(** The parameter with the token; [memcpy] into its [hmac] is not bounded. *)
Definition auth_params (authToken : option HardwareAuthToken) : OM (list (op_tag * bytes)) :=
  match authToken with
  | None => mret []
  | Some t =>
      if sizeof_hmac <? zlen (mac t) then halt Undefined
      else mret [(TAG_AUTH_TOKEN, hw_auth_token_enc t (splice (replicate (Z.to_nat sizeof_hmac) 0) 0 (mac t)))]
  end.

(** [has_output]: the caller gave a place for the output. *)
Definition update (input : bytes) (authToken : option HardwareAuthToken) (has_output : bool) : OM (Z * option bytes) :=
  if negb has_output then mret (KM_ERROR_OUTPUT_PARAMETER_NULL, None)
  else
    h ← gets opHandle_;
    params ← auth_params authToken;
    response ← impl (UpdateOperation (ser_update (MkUpdate h input params)) response0);
    if negb (rsp_error response =? KM_ERROR_OK) then
      e ← failed (rsp_error response);
      mret (e, None)
    else if negb (input_consumed response =? zlen input) then mret (KM_ERROR_UNKNOWN_ERROR, None)
    else mret (KM_ERROR_OK, Some (output response)).

Definition finish (input signature : option bytes) (authToken : option HardwareAuthToken) (has_output : bool)
    : OM (Z * option bytes) :=
  if negb has_output then mret (KM_ERROR_OUTPUT_PARAMETER_NULL, None)
  else
    h ← gets opHandle_;
    params ← auth_params authToken;
    response ← impl (FinishOperation (ser_finish (MkFinish h (default [] input) (default [] signature) params)) response0);
    if negb (rsp_error response =? KM_ERROR_OK) then
      e ← failed (rsp_error response);
      modify (set_opHandle 0);;
      mret (e, None)
    else
      modify (set_opHandle 0);;
      mret (KM_ERROR_OK, Some (output response)).

(** The destructor. *)
Definition destroy : OM unit :=
  h ← gets opHandle_;
  if negb (h =? 0) then abort;; mret tt else mret tt.
End Operation.

(** ** Swapping *)

Lemma insert_mid (p m q : bytes) (x x' y y' : Z) :
  <[(length p + S (length m))%nat := x']> (<[length p := y']> (p ++ x :: m ++ y :: q)) = p ++ y' :: m ++ x' :: q.
Proof.
  rewrite insert_app_r_alt by lia. rewrite Nat.sub_diag. simpl.
  rewrite insert_app_r_alt by lia. replace (length p + S (length m) - length p)%nat with (S (length m)) by lia. simpl.
  f_equal. f_equal. rewrite insert_app_r_alt by lia. by rewrite Nat.sub_diag.
Qed.

(** A list is empty, a single element, or has two ends. *)
Lemma two_ends (m : bytes) : m = [] \/ (exists x, m = [x]) \/ exists x m' y, m = x :: m' ++ [y].
Proof.
  destruct m as [|x m]; [by left|right]. induction m as [|y m _] using rev_ind; [left; by exists x|right; by exists x, m, y].
Qed.

(** The loop reverses what lies between its two indices. *)
Lemma swap_loop_spec n p m q :
  (length m <= n)%nat ->
  swap_loop n (zlen p) (zlen p + zlen m - 1) (p ++ m ++ q) = p ++ reverse m ++ q.
Proof.
  revert p m q. induction n as [|n IH]; intros p m q Hn; cbn [swap_loop].
  { destruct m; [done|simpl in Hn; lia]. }
  destruct (two_ends m) as [->|[[x ->]|(x & m' & y & ->)]].
  - replace (zlen p <? _) with false; [done|]. change (zlen []) with 0. lia.
  - replace (zlen p <? _) with false; [done|]. change (zlen [x]) with 1. lia.
  - assert (zlen (x :: m' ++ [y]) = zlen m' + 2) as Hz
      by (unfold zlen; simpl; rewrite length_app; simpl; lia).
    pose proof (zlen_nonneg m'). replace (zlen p <? _) with true by lia.
    set (b := p ++ (x :: m' ++ [y]) ++ q). assert (b = p ++ x :: m' ++ y :: q) as Hb
      by (unfold b; simpl; by rewrite <- app_assoc).
    assert (Z.to_nat (zlen p) = length p) as -> by (unfold zlen; lia).
    assert (Z.to_nat (zlen p + zlen (x :: m' ++ [y]) - 1) = (length p + S (length m'))%nat) as ->
      by (rewrite Hz; unfold zlen; lia).
    assert (b !! length p = Some x) as -> by (rewrite Hb; by rewrite lookup_app_r, Nat.sub_diag by lia).
    assert (b !! (length p + S (length m'))%nat = Some y) as ->.
    { rewrite Hb, lookup_app_r by lia. replace (length p + S (length m') - length p)%nat with (S (length m')) by lia.
      simpl. by rewrite lookup_app_r, Nat.sub_diag by lia. }
    cbn [default from_option id]. rewrite Hb, insert_mid.
    specialize (IH (p ++ [y]) m' (x :: q)). rewrite !zlen_app, <- !app_assoc in IH. change (zlen [y]) with 1 in IH.
    replace (zlen p + zlen (x :: m' ++ [y]) - 1 - 1) with (zlen p + 1 + zlen m' - 1) by lia. simpl in IH |- *.
    rewrite IH by (simpl in Hn; rewrite length_app in Hn; simpl in Hn; lia).
    by rewrite reverse_cons, reverse_app, <- !app_assoc.
Qed.

Lemma swap_all b : SwapBytes b = reverse b.
Proof.
  unfold SwapBytes. pose proof (swap_loop_spec (length b) [] b []) as H. simpl in H. rewrite !app_nil_r in H.
  apply H. lia.
Qed.

(** [SwapBytes], which exchanges bytes in place from both ends, is reversal. *)
Theorem SwapBytes_reverse b : SwapBytes b = reverse b.
Proof. apply swap_all. Qed.

(** ** The token *)

(** The secure side's view: two fields are in network order. *)
Definition be_dec (b : bytes) : Z := le_dec (reverse b).
Definition token_dec (b : bytes) : HardwareAuthToken :=
  MkToken (get_u64 b 1) (get_u64 b 9) (get_u64 b 17) (be_dec (slice 25 4 b)) (be_dec (slice 29 8 b)) (slice 37 32 b).

Definition token_wf (t : HardwareAuthToken) : Prop :=
  is_u64 (challenge t) /\ is_u64 (user_id t) /\ is_u64 (authenticator_id t) /\
  is_u32 (authenticator_type t) /\ is_u64 (timestamp t) /\ zlen (mac t) = sizeof_hmac.

Lemma swap_le n z : exists b, SwapBytes (le_enc n z) = b /\ zlen b = Z.of_nat n /\ le_dec (reverse b) = le_dec (le_enc n z).
Proof.
  exists (reverse (le_enc n z)). rewrite swap_all.
  split_and!; [done|unfold zlen; by rewrite length_reverse, length_le_enc|by rewrite reverse_involutive].
Qed.

(** The token arrives as it was given. *)
Lemma token_roundtrip t : token_wf t -> token_dec (hw_auth_token_enc t (mac t)) = t.
Proof.
  intros (H1 & H2 & H3 & H4 & H5 & H6). destruct t as [c u a ty ts m].
  unfold token_dec, hw_auth_token_enc. cbn [challenge user_id authenticator_id authenticator_type timestamp mac] in *.
  destruct (swap_le 4 ty) as (b4 & -> & L4 & D4). destruct (swap_le 8 ts) as (b8 & -> & L8 & D8).
  unfold sizeof_hmac in *. change [0] with (le_enc 1 0).
  f_equal; try (by fields).
  - unfold be_dec. rewrite !slice_app_r by (rewrite ?zlen_le_enc; lia). rewrite !zlen_le_enc, slice_app_l by (simpl; lia).
    simpl. replace 4 with (zlen b4) by lia. rewrite slice_full, D4, le_dec_enc. apply Z.mod_small. exact H4.
  - unfold be_dec. rewrite !slice_app_r by (rewrite ?zlen_le_enc, ?L4; simpl; lia).
    rewrite !zlen_le_enc, L4, slice_app_l by (simpl; lia). simpl.
    replace 8 with (zlen b8) by lia. rewrite slice_full, D8, le_dec_enc. apply Z.mod_small. exact H5.
  - rewrite !slice_app_r by (rewrite ?zlen_le_enc, ?L4, ?L8; simpl; lia). rewrite !zlen_le_enc, L4, L8. simpl.
    rewrite <- H6. apply slice_full.
Qed.

(** ** Ending an operation *)

Section Finish.
Context {W G : Type} `{L : KeymasterIpcLaws W G} {R : Type} `{O : OperationResponse R}.
Context (ser_finish : FinishOperationRequest -> Serializable) (ser_abort : Z -> Serializable) (response0 : R).
Context (finish_wf : forall r, serializable_wf (ser_finish r)) (abort_wf : forall h, serializable_wf (ser_abort h)).
Implicit Types s : proc W (op_st G).

Definition implementation s : proc W (mint_st G) := Proc (op_impl (globals s)) (world s) (errno s) (trace s).
Definition op_inv s : Prop := mint_inv (implementation s).

(** The parameters a token is passed in. *)
Definition token_params (authToken : option HardwareAuthToken) : list (op_tag * bytes) :=
  match authToken with
  | None => []
  | Some t => [(TAG_AUTH_TOKEN, hw_auth_token_enc t (splice (replicate (Z.to_nat sizeof_hmac) 0) 0 (mac t)))]
  end.

Lemma auth_params_spec authToken (Q : outcome (list (op_tag * bytes)) -> proc W (op_st G) -> Prop) s :
  (forall t, authToken = Some t -> sizeof_hmac < zlen (mac t) -> Q (Stop Undefined) s) ->
  Q (Ret (token_params authToken)) s -> wp (auth_params authToken) Q s.
Proof.
  intros Hbad HQ. destruct authToken as [t|]; cbn [auth_params]; [|by apply wp_ret].
  apply wp_if; intros Hl; [apply wp_halt, (Hbad t); [done|lia]|by apply wp_ret].
Qed.

(** Forwarding through the object: its handle is not touched. *)
Lemma op_forward_spec c q (Q : outcome R -> proc W (op_st G) -> Prop) s :
  op_inv s -> serializable_wf q ->
  (forall o s', opHandle_ (globals s') = opHandle_ (globals s) -> returned op_inv o s' ->
     (forall rsp', o = Ret rsp' -> rsp_error rsp' = KM_ERROR_OK ->
        exists payload evs, trace s' = trace s ++ evs /\
          ipc_answered (mint_ipc (op_impl (globals s))) (command_id c) (Serialize q (SerializedSize q)) payload evs /\
          Deserialize response0 payload = (true, rsp')) -> Q o s') ->
  wp (impl (KeyMint.ForwardCommand c q response0)) Q s.
Proof.
  intros Hi Hq HQ. apply wp_zoom. eapply wp_mono; [by apply (mint_forward_spec c q response0 (implementation s))|].
  intros o t (Hr & _ & Hok). apply HQ; [done| |exact Hok]. by destruct o, t.
Qed.

Lemma abort_spec s :
  op_inv s ->
  wp (abort ser_abort response0) (fun o s' => returned op_inv o s' /\
    match o with Ret _ => opHandle_ (globals s') = 0 | Stop _ => True end) s.
Proof.
  intros Hi. unfold abort, KeyMint.AbortOperation. apply wp_bind, wp_gets, wp_bind. apply op_forward_spec; [done|done|].
  intros o s' _ Hr _. destruct o as [rsp|e]; [|done]. by apply wp_bind, wp_modify, wp_ret.
Qed.

Lemma failed_spec e s :
  e <> KM_ERROR_OK -> op_inv s ->
  wp (failed ser_abort response0 e) (fun o s' => returned op_inv o s' /\
    match o with Ret st => st <> KM_ERROR_OK | Stop _ => True end) s.
Proof.
  intros He Hi. unfold failed. apply wp_if; intros Ht; [|by apply wp_ret].
  apply wp_bind. eapply wp_mono; [by apply abort_spec|]. intros o s' [Hr _]. destruct o as [st|x]; [|done]. by apply wp_ret.
Qed.

(** How [finish] ends: the handle is given up whatever the answer, and an output
    is the secure side's answer to exactly this end of the operation. *)
Definition finishes (input signature : option bytes) (authToken : option HardwareAuthToken) s
    (o : outcome (Z * option bytes)) s' : Prop :=
  match o with
  | Ret (st, out) => op_inv s' /\ opHandle_ (globals s') = 0 /\
      (st = KM_ERROR_OK ->
       let q := ser_finish (MkFinish (opHandle_ (globals s)) (default [] input) (default [] signature) (token_params authToken)) in
       exists payload evs rsp', trace s' = trace s ++ evs /\
         ipc_answered (mint_ipc (op_impl (globals s))) (command_id KM_FINISH_OPERATION) (Serialize q (SerializedSize q)) payload evs /\
         Deserialize response0 payload = (true, rsp') /\ out = Some (output rsp'))
  | Stop _ => True
  end.

Lemma op_finish_spec input signature authToken s :
  op_inv s ->
  wp (finish ser_finish ser_abort response0 input signature authToken true) (finishes input signature authToken s) s.
Proof.
  intros Hi. unfold finish, KeyMint.FinishOperation. cbn [negb]. apply wp_bind, wp_gets, wp_bind, auth_params_spec; [done|].
  apply wp_bind. apply op_forward_spec; [done|done|]. intros o s1 _ Hr Hok. destruct o as [rsp|x]; [|done].
  apply wp_if; intros He.
  - apply wp_bind. eapply wp_mono; [apply failed_spec; [lia|exact Hr]|].
    intros o s2 [Hr2 Hst]. destruct o as [st|x]; [|done]. apply wp_bind, wp_modify, wp_ret. split_and!; try done.
  - apply wp_bind, wp_modify, wp_ret. split; [exact Hr|]. split; [done|]. intros _.
    destruct (Hok rsp eq_refl ltac:(lia)) as (payload & evs & Ht & Ha & Hd). by exists payload, evs, rsp.
Qed.
End Finish.

(** Ending an operation.  When [finish] returns, the object has given up the
    handle, so that its destructor does not abort the operation again, whatever
    the secure side said; and an output with status OK is the secure side's
    answer to the finish command with this handle, input, signature and token. *)
Theorem finish_ends_operation {W G} `{L : KeymasterIpcLaws W G} {R} `{O : OperationResponse R} ser_finish ser_abort (response0 : R)
    input signature authToken st out (s : proc W (op_st G)) :
  (forall r, serializable_wf (ser_finish r)) -> (forall h, serializable_wf (ser_abort h)) -> op_inv s ->
  let run := finish ser_finish ser_abort response0 input signature authToken true s in
  run.1 = Ret (st, out) ->
  opHandle_ (globals run.2) = 0 /\ destroy ser_abort response0 run.2 = (Ret tt, run.2) /\
  (st = KM_ERROR_OK ->
   let q := ser_finish (MkFinish (opHandle_ (globals s)) (default [] input) (default [] signature) (token_params authToken)) in
   exists payload evs rsp', trace run.2 = trace s ++ evs /\
     ipc_answered (mint_ipc (op_impl (globals s))) (command_id KM_FINISH_OPERATION) (Serialize q (SerializedSize q)) payload evs /\
     Deserialize response0 payload = (true, rsp') /\ out = Some (output rsp')).
Proof.
  intros Hf Ha Hi run Hret. pose proof (op_finish_spec ser_finish ser_abort response0 Hf Ha input signature authToken s Hi) as Hs.
  unfold wp in Hs. fold run in Hs. rewrite Hret in Hs. destruct Hs as (_ & Hh & Hok). split; [done|]. split; [|exact Hok].
  unfold destroy, mbind, M_bind, gets. by rewrite Hh.
Qed.

(** ** A concrete end *)

#[export] Instance plain_operation_response : OperationResponse plain_rsp :=
  {| op_response := plain_response; input_consumed := fun r => zlen (pr_data r); output := pr_data |}.

Definition finish_req (r : FinishOperationRequest) : Serializable := req_of (le_enc 8 (fin_handle r)).
Definition abort_req (h : Z) : Serializable := req_of (le_enc 8 h).
Definition op_start : proc mem_world (op_st km_st) :=
  let s := km_connected [le_enc 4 15 ++ le_enc 4 0 ++ [42]] in
  Proc (OpSt (MintSt (globals s) true) 77) (world s) (errno s) (trace s).
Abbreviation lite_ipc := (tipc_ipc zero_all 5).
Abbreviation lite_laws := (tipc_ipc_laws zero_all 5 (fun b => eq_refl)).

Lemma finish_ends_operation_witness :
  let run := finish (I := lite_ipc) finish_req abort_req rsp0 (Some [1; 2]) None None true op_start in
  opHandle_ (globals run.2) = 0 /\ destroy (I := lite_ipc) abort_req rsp0 run.2 = (Ret tt, run.2) /\
  (KM_ERROR_OK = KM_ERROR_OK ->
   exists payload evs rsp', trace run.2 = trace op_start ++ evs /\
     answered 3 (command_id KM_FINISH_OPERATION) (le_enc 8 77) payload evs /\
     Deserialize rsp0 payload = (true, rsp') /\ Some [42] = Some (output rsp')).
Proof.
  refine (finish_ends_operation (L := lite_laws) finish_req abort_req rsp0 (Some [1; 2]) None None KM_ERROR_OK (Some [42]) op_start
    _ _ _ _).
  - intros r. by apply req_of_wf.
  - intros h. by apply req_of_wf.
  - apply km_connected_inv.
  - vm_compute. reflexivity.
Defined.
