(* ===== verification/KeyMintDevice.v ===== *)
(** * KeyMint: the device and its companion services (400/keymint1.0)

    BeanpodKeyMintDevice.cpp, BeanpodSharedSecret.cpp, BeanpodSecureClock.cpp and
    BeanpodRemotelyProvisionedComponent.cpp: the classes the framework calls.
    They build a request, have it forwarded by [KeyMint.v] and convert the
    response.  A status is its error code, [KM_ERROR_OK] for success; an out
    parameter is [None] while it was not written; enumerations are numbers, as
    the library's legacy_enum_conversion leaves them. *)

From S2P Require Import Prelude Kernel KmLib BeanpodKeymaster KeyMint KeyMintOperation.

(** ** Authorizations *)

(** The tags convertKeyCharacteristics names; all others. *)
Inductive keymaster_tag_t :=
| KM_TAG_ECIES_SINGLE_HASH_MODE | KM_TAG_INVALID | KM_TAG_KDF | KM_TAG_ROLLBACK_RESISTANCE
| KM_TAG_ALLOW_WHILE_ON_BODY | KM_TAG_BOOTLOADER_ONLY | KM_TAG_ROLLBACK_RESISTANT | KM_TAG_STORAGE_KEY
| KM_TAG_CREATION_DATETIME
| KM_TAG_APPLICATION_DATA | KM_TAG_ATTESTATION_APPLICATION_ID
| KM_TAG_ASSOCIATED_DATA | KM_TAG_ATTESTATION_CHALLENGE | KM_TAG_ATTESTATION_ID_BRAND | KM_TAG_ATTESTATION_ID_DEVICE
| KM_TAG_ATTESTATION_ID_IMEI | KM_TAG_ATTESTATION_ID_MANUFACTURER | KM_TAG_ATTESTATION_ID_MEID
| KM_TAG_ATTESTATION_ID_MODEL | KM_TAG_ATTESTATION_ID_PRODUCT | KM_TAG_ATTESTATION_ID_SERIAL | KM_TAG_AUTH_TOKEN
| KM_TAG_CERTIFICATE_SERIAL | KM_TAG_CERTIFICATE_SUBJECT | KM_TAG_CERTIFICATE_NOT_AFTER | KM_TAG_CERTIFICATE_NOT_BEFORE
| KM_TAG_CONFIRMATION_TOKEN | KM_TAG_DEVICE_UNIQUE_ATTESTATION | KM_TAG_IDENTITY_CREDENTIAL_KEY | KM_TAG_MAC_LENGTH
| KM_TAG_NONCE | KM_TAG_RESET_SINCE_ID_ROTATION | KM_TAG_ROOT_OF_TRUST | KM_TAG_UNIQUE_ID
| KM_TAG_ALGORITHM | KM_TAG_APPLICATION_ID | KM_TAG_AUTH_TIMEOUT | KM_TAG_BLOB_USAGE_REQUIREMENTS | KM_TAG_BLOCK_MODE
| KM_TAG_BOOT_PATCHLEVEL | KM_TAG_CALLER_NONCE | KM_TAG_DIGEST | KM_TAG_EARLY_BOOT_ONLY | KM_TAG_EC_CURVE
| KM_TAG_EXPORTABLE | KM_TAG_INCLUDE_UNIQUE_ID | KM_TAG_KEY_SIZE | KM_TAG_MAX_USES_PER_BOOT | KM_TAG_MIN_MAC_LENGTH
| KM_TAG_MIN_SECONDS_BETWEEN_OPS | KM_TAG_NO_AUTH_REQUIRED | KM_TAG_ORIGIN | KM_TAG_OS_PATCHLEVEL | KM_TAG_OS_VERSION
| KM_TAG_PADDING | KM_TAG_PURPOSE | KM_TAG_RSA_OAEP_MGF_DIGEST | KM_TAG_RSA_PUBLIC_EXPONENT
| KM_TAG_TRUSTED_CONFIRMATION_REQUIRED | KM_TAG_TRUSTED_USER_PRESENCE_REQUIRED | KM_TAG_UNLOCKED_DEVICE_REQUIRED
| KM_TAG_USER_AUTH_TYPE | KM_TAG_USER_SECURE_ID | KM_TAG_VENDOR_PATCHLEVEL
| KM_TAG_ACTIVE_DATETIME | KM_TAG_ALL_APPLICATIONS | KM_TAG_ALL_USERS | KM_TAG_MAX_BOOT_LEVEL
| KM_TAG_ORIGINATION_EXPIRE_DATETIME | KM_TAG_USAGE_EXPIRE_DATETIME | KM_TAG_USER_ID | KM_TAG_USAGE_COUNT_LIMIT
| KM_TAG_OTHER (tag : Z).

(** keymaster_key_param_t: a tag and a value of the library's union [V]. *)
Record keymaster_key_param_t (V : Type) := MkParam { tag : keymaster_tag_t; param_value : V }.
Arguments MkParam {V} tag param_value.
Arguments tag {V} k.
Arguments param_value {V} k.

(** SecurityLevel of the AIDL interface. *)
Inductive SecurityLevel := SOFTWARE | TRUSTED_ENVIRONMENT | STRONGBOX | KEYSTORE.

Record KeyCharacteristics (P : Type) := MkCharacteristics { securityLevel : SecurityLevel; authorizations : list P }.
Arguments MkCharacteristics {P} securityLevel authorizations.
Arguments securityLevel {P} k.
Arguments authorizations {P} k.

(** KeyMintUtils.h and the value constructors of the keymaster library: [P] are
    the key parameters of the AIDL interface. *)
Class KeyMintUtils (V P : Type) := {
  kmParam2Aidl : keymaster_key_param_t V -> P;
  kmParamSet2Aidl : list (keymaster_key_param_t V) -> list P;
  KmParamSet : list P -> list (keymaster_key_param_t V);
  authToken2AidlVec : option HardwareAuthToken -> bytes;
  blob_value : bytes -> V;
  date_value : Z -> V;
}.

Definition is_creation (t : keymaster_tag_t) : bool := match t with KM_TAG_CREATION_DATETIME => true | _ => false end.

(** [Contains] and [push_back] of a set of parameters. *)
#[export] Instance param_set {V P} `{U : KeyMintUtils V P} : AuthorizationSet (list (keymaster_key_param_t V)).
Proof.
  refine {| contains_creation := existsb (fun p => is_creation (tag p));
            push_creation := fun t a => a ++ [MkParam KM_TAG_CREATION_DATETIME (date_value t)] |}.
  intros t a. rewrite existsb_app. simpl. by rewrite orb_true_r.
Defined.

Definition is_empty {A} (l : list A) : bool := match l with [] => true | _ => false end.

Section Characteristics.
Context {V P : Type} `{U : KeyMintUtils V P}.

(** The walk through the software list: [CHECK(false)] is [None]. *)
Fixpoint sort_entries (requestParams sw_enforced : list (keymaster_key_param_t V)) (keyMint keystore : list P)
    : option (list P * list P) :=
  match sw_enforced with
  | [] => Some (keyMint, keystore)
  | entry :: rest =>
      match tag entry with
      | KM_TAG_ECIES_SINGLE_HASH_MODE | KM_TAG_INVALID | KM_TAG_KDF | KM_TAG_ROLLBACK_RESISTANCE => None
      | KM_TAG_ALLOW_WHILE_ON_BODY | KM_TAG_BOOTLOADER_ONLY | KM_TAG_ROLLBACK_RESISTANT | KM_TAG_STORAGE_KEY =>
          sort_entries requestParams rest keyMint keystore
      | KM_TAG_CREATION_DATETIME =>
          if contains_creation requestParams
          then sort_entries requestParams rest keyMint (keystore ++ [kmParam2Aidl entry])
          else sort_entries requestParams rest keyMint keystore
      | KM_TAG_APPLICATION_DATA | KM_TAG_ATTESTATION_APPLICATION_ID =>
          sort_entries requestParams rest keyMint keystore
      | KM_TAG_ASSOCIATED_DATA | KM_TAG_ATTESTATION_CHALLENGE | KM_TAG_ATTESTATION_ID_BRAND
      | KM_TAG_ATTESTATION_ID_DEVICE | KM_TAG_ATTESTATION_ID_IMEI | KM_TAG_ATTESTATION_ID_MANUFACTURER
      | KM_TAG_ATTESTATION_ID_MEID | KM_TAG_ATTESTATION_ID_MODEL | KM_TAG_ATTESTATION_ID_PRODUCT
      | KM_TAG_ATTESTATION_ID_SERIAL | KM_TAG_AUTH_TOKEN | KM_TAG_CERTIFICATE_SERIAL | KM_TAG_CERTIFICATE_SUBJECT
      | KM_TAG_CERTIFICATE_NOT_AFTER | KM_TAG_CERTIFICATE_NOT_BEFORE | KM_TAG_CONFIRMATION_TOKEN
      | KM_TAG_DEVICE_UNIQUE_ATTESTATION | KM_TAG_IDENTITY_CREDENTIAL_KEY | KM_TAG_MAC_LENGTH | KM_TAG_NONCE
      | KM_TAG_RESET_SINCE_ID_ROTATION | KM_TAG_ROOT_OF_TRUST | KM_TAG_UNIQUE_ID =>
          sort_entries requestParams rest keyMint keystore
      | KM_TAG_ALGORITHM | KM_TAG_APPLICATION_ID | KM_TAG_AUTH_TIMEOUT | KM_TAG_BLOB_USAGE_REQUIREMENTS
      | KM_TAG_BLOCK_MODE | KM_TAG_BOOT_PATCHLEVEL | KM_TAG_CALLER_NONCE | KM_TAG_DIGEST | KM_TAG_EARLY_BOOT_ONLY
      | KM_TAG_EC_CURVE | KM_TAG_EXPORTABLE | KM_TAG_INCLUDE_UNIQUE_ID | KM_TAG_KEY_SIZE | KM_TAG_MAX_USES_PER_BOOT
      | KM_TAG_MIN_MAC_LENGTH | KM_TAG_MIN_SECONDS_BETWEEN_OPS | KM_TAG_NO_AUTH_REQUIRED | KM_TAG_ORIGIN
      | KM_TAG_OS_PATCHLEVEL | KM_TAG_OS_VERSION | KM_TAG_PADDING | KM_TAG_PURPOSE | KM_TAG_RSA_OAEP_MGF_DIGEST
      | KM_TAG_RSA_PUBLIC_EXPONENT | KM_TAG_TRUSTED_CONFIRMATION_REQUIRED | KM_TAG_TRUSTED_USER_PRESENCE_REQUIRED
      | KM_TAG_UNLOCKED_DEVICE_REQUIRED | KM_TAG_USER_AUTH_TYPE | KM_TAG_USER_SECURE_ID | KM_TAG_VENDOR_PATCHLEVEL =>
          sort_entries requestParams rest (keyMint ++ [kmParam2Aidl entry]) keystore
      | KM_TAG_ACTIVE_DATETIME | KM_TAG_ALL_APPLICATIONS | KM_TAG_ALL_USERS | KM_TAG_MAX_BOOT_LEVEL
      | KM_TAG_ORIGINATION_EXPIRE_DATETIME | KM_TAG_USAGE_EXPIRE_DATETIME | KM_TAG_USER_ID
      | KM_TAG_USAGE_COUNT_LIMIT =>
          sort_entries requestParams rest keyMint (keystore ++ [kmParam2Aidl entry])
      | KM_TAG_OTHER _ => sort_entries requestParams rest keyMint keystore
      end
  end.

(** A failed CHECK is [None]. *)
Definition convertKeyCharacteristics (keyMintSecurityLevel : SecurityLevel)
    (requestParams sw_enforced hw_enforced : list (keymaster_key_param_t V)) (include_keystore_enforced : bool)
    : option (list (KeyCharacteristics P)) :=
  match keyMintSecurityLevel with
  | SOFTWARE =>
      if negb (is_empty hw_enforced) then None
      else
        '(keyMint, keystore) ← sort_entries requestParams sw_enforced [] [];
        Some ((if is_empty keyMint then [] else [MkCharacteristics SOFTWARE keyMint])
              ++ (if include_keystore_enforced && negb (is_empty keystore)
                  then [MkCharacteristics KEYSTORE keystore] else []))
  | level =>
      let keyMintEnforced := MkCharacteristics level (kmParamSet2Aidl hw_enforced) in
      if include_keystore_enforced && negb (is_empty sw_enforced)
      then Some [keyMintEnforced; MkCharacteristics KEYSTORE (kmParamSet2Aidl sw_enforced)]
      else Some [keyMintEnforced]
  end.

Definition addClientAndAppData (appId appData : bytes) : list (keymaster_key_param_t V) :=
  (if negb (zlen appId =? 0) then [MkParam KM_TAG_APPLICATION_ID (blob_value appId)] else [])
  ++ (if negb (zlen appData =? 0) then [MkParam KM_TAG_APPLICATION_DATA (blob_value appData)] else []).
End Characteristics.

Record Certificate := MkCertificate { encodedCertificate : bytes }.
Definition convertCertificate (cert : bytes) : Certificate := MkCertificate cert.
Definition convertCertificateChain (chain : list bytes) : list Certificate := map convertCertificate chain.

(** ** Messages of the keymaster library *)

Record AttestationKey (P : Type) := MkAttestationKey { keyBlob : bytes; attestKeyParams : list P; issuerSubjectName : bytes }.
Arguments MkAttestationKey {P} keyBlob attestKeyParams issuerSubjectName.
Arguments keyBlob {P} a.
Arguments attestKeyParams {P} a.
Arguments issuerSubjectName {P} a.

Record ImportKeyRequest (V : Type) := MkImport {
  imp_description : list (keymaster_key_param_t V); imp_format : Z; imp_data : bytes;
  imp_signing_key : bytes; imp_attest_params : list (keymaster_key_param_t V); imp_issuer : bytes
}.
Arguments MkImport {V}.

Record ImportWrappedKeyRequest (V : Type) := MkImportWrapped {
  wrapped_material : bytes; wrapping_material : bytes; masking_key : bytes;
  unwrap_params : list (keymaster_key_param_t V); password_sid : Z; biometric_sid : Z
}.
Arguments MkImportWrapped {V}.

Record BeginOperationRequest (V : Type) := MkBegin {
  begin_purpose : Z; begin_key : bytes; begin_params : list (keymaster_key_param_t V)
}.
Arguments MkBegin {V}.

Record TimeStampToken := MkTimeStamp { ts_challenge : Z; ts_milliSeconds : Z; ts_mac : bytes }.

Record CsrRequest := MkCsr {
  csr_test_mode : bool; keys_to_sign : list bytes; endpoint_enc_cert_chain : bytes; csr_challenge : bytes
}.

(** How the library writes the requests. *)
Class KeyMintMessages (V : Type) := {
  ser_entropy : bytes -> Serializable;
  ser_generate : MintGenerateKeyRequest (list (keymaster_key_param_t V)) bytes -> Serializable;
  ser_import : ImportKeyRequest V -> Serializable;
  ser_import_wrapped : ImportWrappedKeyRequest V -> Serializable;
  ser_upgrade : bytes -> list (keymaster_key_param_t V) -> Serializable;
  ser_delete : bytes -> Serializable;
  ser_delete_all : Serializable;
  ser_begin : BeginOperationRequest V -> Serializable;
  ser_device_locked : bool -> option TimeStampToken -> Serializable;
  ser_characteristics : bytes -> list (keymaster_key_param_t V) -> Serializable;
  ser_shared_hmac : list (bytes * bytes) -> Serializable;
  ser_timestamp : Z -> Serializable;
  ser_rkp : bool -> Serializable;
  ser_csr : CsrRequest -> Serializable;
}.

(** The fields of the responses that are read. *)
Class CreationResponse (V R : Type) := {
  creation_response :: KeymasterResponse R;
  key_blob : R -> bytes;
  unenforced : R -> list (keymaster_key_param_t V);
  enforced : R -> list (keymaster_key_param_t V);
  certificate_chain : R -> list bytes;
}.
Class UpgradeResponse (R : Type) := { upgrade_response :: KeymasterResponse R; upgraded_key : R -> bytes }.
Class BeginResponse (V R : Type) := {
  begin_response :: KeymasterResponse R;
  op_handle : R -> Z;
  output_params : R -> list (keymaster_key_param_t V);
}.
Class CharacteristicsResponse (V R : Type) := {
  characteristics_response :: KeymasterResponse R;
  ch_unenforced : R -> list (keymaster_key_param_t V);
  ch_enforced : R -> list (keymaster_key_param_t V);
}.
Class HmacParametersResponse (R : Type) := {
  hmac_parameters_response :: KeymasterResponse R; seed : R -> bytes; nonce : R -> bytes
}.
Class SharedHmacResponse (R : Type) := { shared_hmac_response :: KeymasterResponse R; sharing_check : R -> bytes }.
Class TimestampResponse (R : Type) := { timestamp_response :: KeymasterResponse R; rsp_token : R -> TimeStampToken }.
Class RkpResponse (R : Type) := {
  rkp_response :: KeymasterResponse R; maced_public_key : R -> bytes; rkp_key_blob : R -> bytes
}.
Class CsrResponse (R : Type) := {
  csr_response :: KeymasterResponse R;
  device_info_blob : R -> bytes; protected_data_blob : R -> bytes; keys_to_sign_mac : R -> bytes
}.

Definition KM_ERROR_INVALID_ARGUMENT := -38.

(** ** BeanpodKeyMintDevice *)

Record KeyMintHardwareInfo := MkHardwareInfo {
  versionNumber : Z; hwSecurityLevel : SecurityLevel; keyMintName : bytes; keyMintAuthorName : bytes;
  timestampTokenRequired : bool
}.

Record KeyCreationResult (P : Type) := MkCreation {
  result_blob : bytes; keyCharacteristics : list (KeyCharacteristics P); certificateChain : list Certificate
}.
Arguments MkCreation {P}.
Arguments result_blob {P} k.
Arguments keyCharacteristics {P} k.
Arguments certificateChain {P} k.

(** The operation of a result is the handle of its object, see [new_operation]. *)
Record BeginResult (P : Type) := MkBeginResult { begin_out : list P; begin_challenge : Z; operation : Z }.
Arguments MkBeginResult {P}.
Arguments begin_out {P} b.
Arguments begin_challenge {P} b.
Arguments operation {P} b.

Definition new_operation {G} (g : mint_st G) (opHandle : Z) : op_st G := OpSt g opHandle.

(** Set by the constructor and never changed. *)
Definition securityLevel_ : SecurityLevel := TRUSTED_ENVIRONMENT.

Section Device.
Context {W G : Type} `{K : Kernel W} `{I : !KeymasterIpc W G}.
Abbreviation MM := (M W (mint_st G)).
Context {V P : Type} `{U : KeyMintUtils V P} `{MS : KeyMintMessages V}.
(** What [Initialize] needs, see [KeyMint.v]. *)
Context (fuel : nat) {CR : Type} `{KeymasterResponse CR} (configure_response vendor_pl_rsp boot_pl_rsp : CR).
Context (vendor_pl_req boot_pl_req : Z -> Serializable) (GetOsVersion GetOsPatchlevel GetVendorPatchlevel : Z).
Context (java_time : Z -> Z) (msg_version : Z).
(** [impl_->m] *)
Abbreviation via m := (m W G _ _ fuel CR _ configure_response vendor_pl_rsp boot_pl_rsp vendor_pl_req boot_pl_req
  GetOsVersion GetOsPatchlevel GetVendorPatchlevel _ _).

Definition getHardwareInfo : KeyMintHardwareInfo :=
  MkHardwareInfo 1 securityLevel_ (cstr "KeyMint") (cstr "Beanpod") false.

Section Plain.
Context {R : Type} `{KeymasterResponse R} (response0 : R).

Definition addRngEntropy (data : bytes) : MM Z :=
  if zlen data =? 0 then mret KM_ERROR_OK
  else
    response ← via (@KeyMint.AddRngEntropy) (ser_entropy data) response0;
    mret (rsp_error response).

Definition deleteKey (keyBlob : bytes) : MM Z :=
  response ← via (@KeyMint.DeleteKey) (ser_delete keyBlob) response0;
  mret (rsp_error response).

Definition deleteAllKeys : MM Z :=
  response ← via (@KeyMint.DeleteAllKeys) ser_delete_all response0;
  mret (rsp_error response).

Definition deviceLocked (passwordOnly : bool) (timestampToken : option TimeStampToken) : MM Z :=
  response ← via (@KeyMint.DeviceLocked) (ser_device_locked passwordOnly timestampToken) response0;
  mret (rsp_error response).

Definition earlyBootEnded : MM Z :=
  response ← via (@KeyMint.EarlyBootEnded) response0;
  mret (rsp_error response).
End Plain.

Definition destroyAttestationIds : Z := KM_ERROR_UNIMPLEMENTED.
Definition convertStorageKeyToEphemeral : Z := KM_ERROR_UNIMPLEMENTED.

Section Creation.
Context {R : Type} `{CreationResponse V R} (response0 : R).

(** The end of the three ways to create a key. *)
Definition created (requestParams : list (keymaster_key_param_t V)) (response : R)
    : MM (Z * option (KeyCreationResult P)) :=
  if negb (rsp_error response =? KM_ERROR_OK) then mret (rsp_error response, None)
  else
    let include_keystore_enforced := negb (is_empty (unenforced response)) in
    match convertKeyCharacteristics securityLevel_ requestParams (unenforced response) (enforced response)
            include_keystore_enforced with
    | None => halt AssertFailed
    | Some kc =>
        mret (KM_ERROR_OK, Some (MkCreation (key_blob response) kc
                                   (convertCertificateChain (certificate_chain response))))
    end.

Definition generate_request (keyParams : list P) (attestationKey : option (AttestationKey P))
    : MintGenerateKeyRequest (list (keymaster_key_param_t V)) bytes :=
  match attestationKey with
  | Some a => MkMintGenerate msg_version (KmParamSet keyParams) (keyBlob a) (KmParamSet (attestKeyParams a)) (issuerSubjectName a)
  | None => MkMintGenerate msg_version (KmParamSet keyParams) [] [] []
  end.

Definition generateKey (keyParams : list P) (attestationKey : option (AttestationKey P))
    : MM (Z * option (KeyCreationResult P)) :=
  let request := generate_request keyParams attestationKey in
  response ← via (@KeyMint.GenerateKey) java_time ser_generate request response0;
  created (gen_description request) response.

Definition import_request (keyParams : list P) (keyFormat : Z) (keyData : bytes)
    (attestationKey : option (AttestationKey P)) : ImportKeyRequest V :=
  match attestationKey with
  | Some a => MkImport (KmParamSet keyParams) keyFormat keyData (keyBlob a) (KmParamSet (attestKeyParams a)) (issuerSubjectName a)
  | None => MkImport (KmParamSet keyParams) keyFormat keyData [] [] []
  end.

Definition importKey (keyParams : list P) (keyFormat : Z) (keyData : bytes)
    (attestationKey : option (AttestationKey P)) : MM (Z * option (KeyCreationResult P)) :=
  response ← via (@KeyMint.ImportKey) (ser_import (import_request keyParams keyFormat keyData attestationKey)) response0;
  created (KmParamSet keyParams) response.

Definition importWrappedKey (wrappedKeyData wrappingKeyBlob maskingKey : bytes) (unwrappingParams : list P)
    (passwordSid biometricSid : Z) : MM (Z * option (KeyCreationResult P)) :=
  response ← via (@KeyMint.ImportWrappedKey)
               (ser_import_wrapped (MkImportWrapped wrappedKeyData wrappingKeyBlob maskingKey
                  (KmParamSet unwrappingParams) (u64 passwordSid) (u64 biometricSid))) response0;
  created (KmParamSet unwrappingParams) response.
End Creation.

Definition upgradeKey {R} `{UpgradeResponse R} (response0 : R) (keyBlobToUpgrade : bytes) (upgradeParams : list P)
    : MM (Z * option bytes) :=
  response ← via (@KeyMint.UpgradeKey) (ser_upgrade keyBlobToUpgrade (KmParamSet upgradeParams)) response0;
  if negb (rsp_error response =? KM_ERROR_OK) then mret (rsp_error response, None)
  else mret (KM_ERROR_OK, Some (upgraded_key response)).

Definition begin_request (purpose : Z) (keyBlob : bytes) (params : list P) (authToken : option HardwareAuthToken)
    : BeginOperationRequest V :=
  MkBegin purpose keyBlob (KmParamSet params ++ [MkParam KM_TAG_AUTH_TOKEN (blob_value (authToken2AidlVec authToken))]).

Definition begin {R} `{BeginResponse V R} (response0 : R) (purpose : Z) (keyBlob : bytes) (params : list P)
    (authToken : option HardwareAuthToken) : MM (Z * option (BeginResult P)) :=
  response ← via (@KeyMint.BeginOperation) (ser_begin (begin_request purpose keyBlob params authToken)) response0;
  if negb (rsp_error response =? KM_ERROR_OK) then mret (rsp_error response, None)
  else mret (KM_ERROR_OK, Some (MkBeginResult (kmParamSet2Aidl (output_params response)) (s64 (op_handle response))
                                  (op_handle response))).

Definition getKeyCharacteristics {R} `{CharacteristicsResponse V R} (response0 : R) (keyBlob appId appData : bytes)
    : MM (Z * option (list (KeyCharacteristics P))) :=
  response ← via (@KeyMint.GetKeyCharacteristics) (ser_characteristics keyBlob (addClientAndAppData appId appData)) response0;
  if negb (rsp_error response =? KM_ERROR_OK) then mret (rsp_error response, None)
  else
    match convertKeyCharacteristics securityLevel_ [] (ch_unenforced response) (ch_enforced response) false with
    | None => halt AssertFailed
    | Some kc => mret (KM_ERROR_OK, Some kc)
    end.

(** ** BeanpodSharedSecret *)

(** Seed and nonce are handed out whatever the status. *)
Definition getSharedSecretParameters {R} `{HmacParametersResponse R} (response0 : R) : MM (Z * (bytes * bytes)) :=
  response ← via (@KeyMint.GetHmacSharingParameters) response0;
  mret (rsp_error response, (seed response, nonce response)).

(** The size of the library's nonce field. *)
Context (nonce_size : Z).

(** The loop over the parameters. *)
Fixpoint share_params (params : list (bytes * bytes)) : option (list (bytes * bytes)) :=
  match params with
  | [] => Some []
  | (seed, nonce) :: rest =>
      if negb (nonce_size =? zlen nonce) then None
      else array ← share_params rest; Some ((seed, nonce) :: array)
  end.

Definition computeSharedSecret {R} `{SharedHmacResponse R} (response0 : R) (params : list (bytes * bytes))
    : MM (Z * option bytes) :=
  match share_params params with
  | None => mret (KM_ERROR_INVALID_ARGUMENT, None)
  | Some params_array =>
      response ← via (@KeyMint.ComputeSharedHmac) (ser_shared_hmac params_array) response0;
      mret (rsp_error response,
            if rsp_error response =? KM_ERROR_OK then Some (sharing_check response) else None)
  end.

(** ** BeanpodSecureClock *)

Definition generateTimeStamp {R} `{TimestampResponse R} (response0 : R) (challenge : Z) : MM (Z * option TimeStampToken) :=
  response ← via (@KeyMint.GenerateTimestampToken) (ser_timestamp challenge) response0;
  if negb (rsp_error response =? KM_ERROR_OK) then mret (rsp_error response, None)
  else
    let t := rsp_token response in
    mret (KM_ERROR_OK, Some (MkTimeStamp (ts_challenge t) (s64 (ts_milliSeconds t)) (ts_mac t))).

(** ** BeanpodRemotelyProvisionedComponent *)

Definition generateEcdsaP256KeyPair {R} `{RkpResponse R} (response0 : R) (testMode : bool) : MM (Z * option (bytes * bytes)) :=
  response ← via (@KeyMint.GenerateRkpKey) (ser_rkp testMode) response0;
  if negb (rsp_error response =? KM_ERROR_OK) then mret (s32 (- s32 (rsp_error response)), None)
  else mret (KM_ERROR_OK, Some (maced_public_key response, rkp_key_blob response)).

Definition generateCertificateRequest {R} `{CsrResponse R} (response0 : R) (testMode : bool) (keysToSign : list bytes)
    (endpointEncCertChain challenge : bytes) : MM (Z * option (bytes * bytes * bytes)) :=
  response ← via (@KeyMint.GenerateCsr) (ser_csr (MkCsr testMode keysToSign endpointEncCertChain challenge)) response0;
  if negb (rsp_error response =? KM_ERROR_OK) then mret (s32 (- s32 (rsp_error response)), None)
  else mret (KM_ERROR_OK, Some (device_info_blob response, protected_data_blob response, keys_to_sign_mac response)).
End Device.
