(* ===== verification/TeeiList.v ===== *)
(** * Intrusive doubly linked lists (400/teei_daemon/teei_list.h)

    A heap maps addresses to list nodes; the operations are pointer
    assignments on it, [None] standing for an access through a pointer that is
    not a node.  The abstraction of a list is the sequence of its entries;
    every operation is shown to implement its counterpart on sequences. *)

From S2P Require Import Prelude.

Record teei_list := Node { next : Z; prev : Z }.
Abbreviation heap := (gmap Z teei_list).

(** Addresses no node has. *)
Definition LIST_POISON_NEXT := 4208900798.
Definition LIST_POISON_PREV := 3735928559.

(** [p->next], [p->prev] and assignments to them. *)
Definition get_next (h : heap) (p : Z) : option Z := next <$> h !! p.
Definition get_prev (h : heap) (p : Z) : option Z := prev <$> h !! p.
Definition set_next (p v : Z) (h : heap) : option heap :=
  n ← h !! p; Some (<[p := Node v (prev n)]> h).
Definition set_prev (p v : Z) (h : heap) : option heap :=
  n ← h !! p; Some (<[p := Node (next n) v]> h).

Definition INIT_LIST_HEAD (p : Z) (h : heap) : option heap :=
  h ← set_next p p h; set_prev p p h.

Definition __teei_list_add (prev_ next_ entry : Z) (h : heap) : option heap :=
  h ← set_prev entry prev_ h;
  h ← set_next entry next_ h;
  h ← set_next prev_ entry h;
  set_prev next_ entry h.

Definition teei_list_add (head entry : Z) (h : heap) : option heap :=
  n ← get_next h head; __teei_list_add head n entry h.

Definition teei_list_add_tail (tnode entry : Z) (h : heap) : option heap :=
  p ← get_prev h tnode; __teei_list_add p tnode entry h.

Definition __teei_list_del (entry prev_ next_ : Z) (h : heap) : option heap :=
  n ← get_next h entry;
  h ← set_next prev_ n h;
  p ← get_prev h entry;
  h ← set_prev next_ p h;
  h ← set_next entry LIST_POISON_NEXT h;
  set_prev entry LIST_POISON_PREV h.

Definition teei_list_del (entry : Z) (h : heap) : option heap :=
  p ← get_prev h entry; n ← get_next h entry; __teei_list_del entry p n h.

Definition teei_list_pop_tail (head : Z) (h : heap) : option (Z * heap) :=
  entry ← get_prev h head; h ← teei_list_del entry h; Some (entry, h).

Definition teei_list_pop (head : Z) (h : heap) : option (Z * heap) :=
  entry ← get_next h head; h ← teei_list_del entry h; Some (entry, h).

Definition teei_list_empty (head : Z) (h : heap) : option Z :=
  n ← get_next h head; Some (if n =? head then 1 else 0).

(** [list_for_each]: the entries visited from [curr] on. *)
Fixpoint list_for_each (fuel : nat) (curr head : Z) (h : heap) : option (list Z) :=
  match fuel with
  | O => None
  | S fuel' =>
      if curr =? head then Some []
      else n ← get_next h curr; l ← list_for_each fuel' n head h; Some (curr :: l)
  end.

(** ** Field access lemmas *)

Section Fields.
Implicit Types h : heap.

Definition alloc h p : Prop := is_Some (h !! p).

Lemma set_next_ok h p v :
  alloc h p -> exists h', set_next p v h = Some h' /\
    (forall q, get_next h' q = if decide (q = p) then Some v else get_next h q) /\
    (forall q, get_prev h' q = get_prev h q) /\ (forall q, alloc h' q <-> alloc h q).
Proof.
  intros [n Hn]. unfold set_next, get_next, get_prev, alloc. rewrite Hn. eexists. split; [done|].
  split_and!; intros q; destruct (decide (q = p)) as [->|Hne];
    rewrite ?lookup_insert_eq, ?lookup_insert_ne by done; rewrite ?Hn; try done; split; eauto.
Qed.

Lemma set_prev_ok h p v :
  alloc h p -> exists h', set_prev p v h = Some h' /\
    (forall q, get_prev h' q = if decide (q = p) then Some v else get_prev h q) /\
    (forall q, get_next h' q = get_next h q) /\ (forall q, alloc h' q <-> alloc h q).
Proof.
  intros [n Hn]. unfold set_prev, get_next, get_prev, alloc. rewrite Hn. eexists. split; [done|].
  split_and!; intros q; destruct (decide (q = p)) as [->|Hne];
    rewrite ?lookup_insert_eq, ?lookup_insert_ne by done; rewrite ?Hn; try done; split; eauto.
Qed.

Lemma get_next_alloc h p q : get_next h p = Some q -> alloc h p.
Proof. unfold get_next, alloc. destruct (h !! p); naive_solver. Qed.
Lemma get_prev_alloc h p q : get_prev h p = Some q -> alloc h p.
Proof. unfold get_prev, alloc. destruct (h !! p); naive_solver. Qed.

(** What inserting [e] between [p] and [n] does to the fields. *)
Lemma list_add_fields h p n e :
  alloc h p -> alloc h n -> alloc h e -> e <> p -> e <> n ->
  exists h', __teei_list_add p n e h = Some h' /\
    (forall q, get_next h' q = if decide (q = p) then Some e else
                               if decide (q = e) then Some n else get_next h q) /\
    (forall q, get_prev h' q = if decide (q = n) then Some e else
                               if decide (q = e) then Some p else get_prev h q) /\
    (forall q, alloc h' q <-> alloc h q).
Proof.
  intros Hp Hn He Hep Hen. unfold __teei_list_add.
  destruct (set_prev_ok h e p He) as (h1 & -> & P1 & N1 & A1). simpl.
  destruct (set_next_ok h1 e n) as (h2 & -> & N2 & P2 & A2); [by apply A1|]. simpl.
  destruct (set_next_ok h2 p e) as (h3 & -> & N3 & P3 & A3); [by apply A2, A1|]. simpl.
  destruct (set_prev_ok h3 n e) as (h4 & -> & P4 & N4 & A4); [by apply A3, A2, A1|].
  exists h4. split; [done|]. split_and!; intros q.
  - rewrite N4, N3, N2, N1. done.
  - rewrite P4, P3, P2, P1. done.
  - by rewrite A4, A3, A2, A1.
Qed.

(** What unlinking [e] from between [p] and [n] does. *)
Lemma list_del_fields h p n e :
  get_prev h e = Some p -> get_next h e = Some n -> alloc h p -> alloc h n ->
  e <> p -> e <> n ->
  exists h', teei_list_del e h = Some h' /\
    (forall q, get_next h' q = if decide (q = e) then Some LIST_POISON_NEXT else
                               if decide (q = p) then Some n else get_next h q) /\
    (forall q, get_prev h' q = if decide (q = e) then Some LIST_POISON_PREV else
                               if decide (q = n) then Some p else get_prev h q) /\
    (forall q, alloc h' q <-> alloc h q).
Proof.
  intros Hpe Hne Hp Hn Hep Hen. unfold teei_list_del, __teei_list_del. rewrite Hpe, Hne. simpl.
  destruct (set_next_ok h p n Hp) as (h1 & -> & N1 & P1 & A1). simpl.
  rewrite P1, Hpe; simpl.
  destruct (set_prev_ok h1 n p) as (h2 & -> & P2 & N2 & A2); [by apply A1|]. simpl.
  assert (alloc h e) as He by (by eapply get_next_alloc).
  destruct (set_next_ok h2 e LIST_POISON_NEXT) as (h3 & -> & N3 & P3 & A3); [by apply A2, A1|]. simpl.
  destruct (set_prev_ok h3 e LIST_POISON_PREV) as (h4 & -> & P4 & N4 & A4); [by apply A3, A2, A1|].
  exists h4. split; [done|]. split_and!; intros q.
  - by rewrite N4, N3, N2, N1.
  - by rewrite P4, P3, P2, P1.
  - by rewrite A4, A3, A2, A1.
Qed.
End Fields.

(** ** Lists as sequences *)

Section Rep.
Implicit Types h : heap.

(** [h] links the addresses of [l], one after the other, in both directions. *)
Fixpoint chain h (l : list Z) : Prop :=
  match l with
  | x :: ((y :: _) as t) => get_next h x = Some y /\ get_prev h y = Some x /\ chain h t
  | _ => True
  end.

(** The circular list with head [hd] and entries [l]. *)
Definition is_list h (hd : Z) (l : list Z) : Prop :=
  NoDup (hd :: l) /\ chain h (hd :: l ++ [hd]).

Lemma chain_cut h l1 x l2 :
  chain h (l1 ++ x :: l2) <-> chain h (l1 ++ [x]) /\ chain h (x :: l2).
Proof.
  induction l1 as [|a [|b l1] IH]; simpl in *; [tauto| |].
  - destruct l2; tauto.
  - rewrite IH. tauto.
Qed.

(** Only the links between neighbours matter. *)
Lemma chain_frame h h' l :
  (forall l1 x y l2, l = l1 ++ x :: y :: l2 ->
     get_next h' x = get_next h x /\ get_prev h' y = get_prev h y) ->
  chain h l -> chain h' l.
Proof.
  induction l as [|a [|b l] IH]; [done|done|]. intros Hf (Hn & Hp & Hc).
  destruct (Hf [] a b l eq_refl) as [E1 E2]. cbn [chain]. rewrite E1, E2. split_and!; [done..|].
  apply IH; [|done]. intros l1 x y l2 El. apply (Hf (a :: l1) x y l2). by rewrite El.
Qed.

(** The neighbours around a gap in the list. *)
Lemma is_list_gap h hd l1 l2 :
  is_list h hd (l1 ++ l2) ->
  exists p n A B, hd :: l1 = A ++ [p] /\ l2 ++ [hd] = n :: B /\
    get_next h p = Some n /\ get_prev h n = Some p /\
    chain h (A ++ [p]) /\ chain h (n :: B).
Proof.
  intros [_ Hc]. destruct (exists_last (l := hd :: l1) ltac:(done)) as (A & p & HA).
  destruct (l2 ++ [hd]) as [|n B] eqn:HB; [by destruct l2|]. exists p, n, A, B.
  assert (hd :: (l1 ++ l2) ++ [hd] = A ++ p :: n :: B) as E.
  { rewrite <- app_assoc, HB. change (hd :: l1 ++ n :: B) with ((hd :: l1) ++ n :: B).
    rewrite HA, <- app_assoc. done. }
  rewrite E, chain_cut in Hc. destruct Hc as [H1 (H2 & H3 & H4)]. done.
Qed.

(** In a list without duplicates: the next pointers of all but the last and
    the previous pointers of all but the first. *)
Lemma chain_frame_nodup h h' l :
  NoDup l ->
  (forall x, x ∈ l -> last l <> Some x -> get_next h' x = get_next h x) ->
  (forall y, y ∈ l -> head l <> Some y -> get_prev h' y = get_prev h y) ->
  chain h l -> chain h' l.
Proof.
  intros Hnd Hn Hp. apply chain_frame. intros l1 x y l2 ->.
  apply NoDup_app in Hnd as (Hnd1 & Hdis & Hnd2). apply NoDup_cons in Hnd2 as [Hx Hnd2]. split.
  - apply Hn; [apply elem_of_app; right; left|]. rewrite last_app_cons, last_cons_cons. intros Hl.
    apply Hx. apply last_Some_elem_of in Hl. exact Hl.
  - apply Hp; [apply elem_of_app; right; right; left|]. destruct l1 as [|a l1]; simpl.
    + intros [= ->]. apply Hx. left.
    + intros [= ->]. apply (Hdis y); [left|right; left].
Qed.

(** Two stretches of the list that a change at the gap leaves linked. *)
Lemma gap_frame h h' hd l1 l2 p n e :
  NoDup (hd :: l1 ++ l2) -> e ∉ hd :: l1 ++ l2 ->
  last (hd :: l1) = Some p -> head (l2 ++ [hd]) = Some n ->
  (forall q, q <> p -> q <> e -> get_next h' q = get_next h q) ->
  (forall q, q <> n -> q <> e -> get_prev h' q = get_prev h q) ->
  chain h (hd :: l1) -> chain h (l2 ++ [hd]) -> chain h' (hd :: l1) /\ chain h' (l2 ++ [hd]).
Proof.
  intros Hnd He Hp Hn Hnx Hpx C1 C2.
  pose proof Hnd as Hnd'. apply NoDup_cons in Hnd' as [Hhd Hnd'].
  pose proof (proj1 (NoDup_app _ _) Hnd') as (N1 & Ndis & N2).
  rewrite not_elem_of_cons, not_elem_of_app in He. destruct He as (He0 & He1 & He2).
  rewrite not_elem_of_app in Hhd. destruct Hhd as [Hhd1 Hhd2].
  assert (forall q, q ∈ l1 -> q <> n) as Hq1.
  { intros q Hq ->. destruct l2 as [|m l2]; simpl in Hn; injection Hn as <-; [done|].
    apply (Ndis m); [done|left]. }
  assert (forall q, q ∈ l2 -> q <> p) as Hq2.
  { intros q Hq ->. apply last_Some_elem_of in Hp. apply elem_of_cons in Hp as [->|Hp]; [done|].
    by apply (Ndis p). }
  split; [apply (chain_frame_nodup h); [| | |exact C1]|apply (chain_frame_nodup h); [| | |exact C2]].
  - apply NoDup_cons. done.
  - intros x Hx Hl. apply Hnx; [congruence|]. intros ->.
    apply elem_of_cons in Hx as [->|Hx]; done.
  - intros y Hy Hh. apply elem_of_cons in Hy as [->|Hy]; [done|].
    apply Hpx; [by apply Hq1|]. by intros ->.
  - apply NoDup_app. split_and!; [done| |apply NoDup_singleton].
    intros x Hx Hx'. apply list_elem_of_singleton in Hx' as ->. done.
  - intros x Hx Hl. rewrite last_snoc in Hl.
    apply elem_of_app in Hx as [Hx|Hx%list_elem_of_singleton]; [|congruence].
    apply Hnx; [by apply Hq2|]. by intros ->.
  - intros y Hy Hh. apply Hpx; [congruence|]. intros ->.
    apply elem_of_app in Hy as [Hy|Hy%list_elem_of_singleton]; done.
Qed.

Lemma gap_fresh (hd p n e : Z) (l1 l2 : list Z) :
  e ∉ hd :: l1 ++ l2 -> last (hd :: l1) = Some p -> head (l2 ++ [hd]) = Some n ->
  e <> p /\ e <> n.
Proof.
  intros Hne Hlast Hhead. split; intros ->; apply Hne.
  - apply last_Some_elem_of in Hlast. rewrite app_comm_cons. apply elem_of_app. by left.
  - apply head_Some_elem_of, elem_of_app in Hhead as [Hin|Hin%list_elem_of_singleton];
      [|subst; left]. right. apply elem_of_app. by right.
Qed.

(** Inserting [e] between the entries [l1] and [l2]. *)
Lemma is_list_insert h hd l1 l2 e :
  is_list h hd (l1 ++ l2) -> alloc h e -> e ∉ hd :: l1 ++ l2 ->
  exists p n h', last (hd :: l1) = Some p /\ head (l2 ++ [hd]) = Some n /\
    get_next h p = Some n /\ get_prev h n = Some p /\
    __teei_list_add p n e h = Some h' /\ is_list h' hd (l1 ++ e :: l2).
Proof.
  intros Hl He Hnew.
  destruct (is_list_gap _ _ _ _ Hl) as (p & n & A & B & HA & HB & Hpn & Hnp & CA & CB).
  pose proof Hl as [Hnd _].
  assert (last (hd :: l1) = Some p) as Hlast by (rewrite HA; apply last_snoc).
  assert (head (l2 ++ [hd]) = Some n) as Hhead by (by rewrite HB).
  destruct (gap_fresh hd p n e l1 l2 Hnew Hlast Hhead) as [Hep Hen].
  destruct (list_add_fields h p n e) as (h' & Ha & Hn' & Hp' & _);
    [by eapply get_next_alloc|by eapply get_prev_alloc|done|done|done|].
  exists p, n, h'. split_and!; [done..|].
  split.
  { rewrite app_comm_cons in Hnd |- *. rewrite <- (Permutation_middle (hd :: l1) l2 e).
    apply NoDup_cons. done. }
  rewrite <- HA in CA. rewrite <- HB in CB.
  destruct (gap_frame h h' hd l1 l2 p n e) as [C1 C2]; try done.
  { intros q H1 H2. rewrite Hn'. by rewrite !decide_False. }
  { intros q H1 H2. rewrite Hp'. by rewrite !decide_False. }
  replace (hd :: (l1 ++ e :: l2) ++ [hd]) with (A ++ p :: e :: n :: B).
  2:{ rewrite <- app_assoc; simpl. rewrite HB, app_comm_cons, HA, <- app_assoc. done. }
  rewrite chain_cut, <- HA. split; [done|]. rewrite HB in C2.
  change (get_next h' p = Some e /\ get_prev h' e = Some p /\ get_next h' e = Some n /\
    get_prev h' n = Some e /\ chain h' (n :: B)).
  rewrite !Hn', !Hp'. repeat case_decide; done.
Qed.

(** Unlinking the entry between [l1] and [l2]. *)
Lemma is_list_unlink h hd l1 e l2 :
  is_list h hd (l1 ++ e :: l2) ->
  exists h', teei_list_del e h = Some h' /\ is_list h' hd (l1 ++ l2) /\
    get_next h' e = Some LIST_POISON_NEXT /\ get_prev h' e = Some LIST_POISON_PREV.
Proof.
  intros Hl. pose proof Hl as [Hnd _].
  assert (NoDup (hd :: l1 ++ l2) /\ e ∉ hd :: l1 ++ l2) as [Hnd' Hne].
  { rewrite app_comm_cons in Hnd |- *. rewrite <- (Permutation_middle (hd :: l1) l2 e) in Hnd.
    apply NoDup_cons in Hnd as [? ?]. done. }
  destruct (is_list_gap _ _ l1 (e :: l2) Hl) as (p & x & A & B' & HA & HB' & Hpe & Hep & CA & CB').
  injection HB' as <- <-. destruct (l2 ++ [hd]) as [|n B] eqn:HB; [by destruct l2|].
  destruct CB' as (Hen & Hne' & CB).
  assert (last (hd :: l1) = Some p) as Hlast by (rewrite HA; apply last_snoc).
  assert (head (l2 ++ [hd]) = Some n) as Hhead by (by rewrite HB).
  destruct (gap_fresh hd p n e l1 l2 Hne Hlast Hhead) as [Hp Hn].
  destruct (list_del_fields h p n e) as (h' & Hd & Hn' & Hp' & _);
    [done|done|by eapply get_next_alloc|by eapply get_prev_alloc|done|done|].
  exists h'. split; [done|]. rewrite Hn', Hp', !decide_True by done. split; [|done].
  split; [done|]. rewrite <- HA in CA.
  destruct (gap_frame h h' hd l1 l2 p n e) as [C1 C2]; try done.
  { intros q H1 H2. rewrite Hn'. by rewrite !decide_False. }
  { intros q H1 H2. rewrite Hp'. by rewrite !decide_False. }
  { by rewrite HB. }
  rewrite HB in C2. replace (hd :: (l1 ++ l2) ++ [hd]) with (A ++ p :: n :: B).
  2:{ rewrite <- app_assoc; simpl. rewrite HB, app_comm_cons, HA, <- app_assoc. done. }
  rewrite chain_cut, <- HA. split; [done|].
  change (get_next h' p = Some n /\ get_prev h' n = Some p /\ chain h' (n :: B)).
  rewrite Hn', Hp'. repeat case_decide; done.
Qed.

(** *** The operations on sequences *)

Lemma INIT_LIST_HEAD_spec h hd :
  alloc h hd -> exists h', INIT_LIST_HEAD hd h = Some h' /\ is_list h' hd [].
Proof.
  intros Ha. unfold INIT_LIST_HEAD.
  destruct (set_next_ok h hd hd Ha) as (h1 & -> & N1 & P1 & A1). simpl.
  destruct (set_prev_ok h1 hd hd) as (h2 & -> & P2 & N2 & A2); [by apply A1|].
  exists h2. split; [done|]. split; [apply NoDup_singleton|]. simpl.
  rewrite N2, N1, P2. by rewrite !decide_True.
Qed.

Lemma teei_list_add_spec h hd l e :
  is_list h hd l -> alloc h e -> e ∉ hd :: l ->
  exists h', teei_list_add hd e h = Some h' /\ is_list h' hd (e :: l).
Proof.
  intros Hl He Hne. destruct (is_list_insert h hd [] l e Hl He Hne)
    as (p & n & h' & [= <-] & _ & Hn & _ & Ha & Hl'). exists h'.
  unfold teei_list_add. by rewrite Hn.
Qed.

Lemma teei_list_add_tail_spec h hd l e :
  is_list h hd l -> alloc h e -> e ∉ hd :: l ->
  exists h', teei_list_add_tail hd e h = Some h' /\ is_list h' hd (l ++ [e]).
Proof.
  intros Hl He Hne. rewrite <- (app_nil_r l) in Hl, Hne.
  destruct (is_list_insert h hd l [] e Hl He Hne)
    as (p & n & h' & _ & [= <-] & _ & Hp & Ha & Hl'). exists h'.
  unfold teei_list_add_tail. by rewrite Hp.
Qed.

Lemma teei_list_pop_spec h hd x l :
  is_list h hd (x :: l) ->
  exists h', teei_list_pop hd h = Some (x, h') /\ is_list h' hd l.
Proof.
  intros Hl. destruct (is_list_unlink h hd [] x l Hl) as (h' & Hd & Hl' & _). exists h'.
  destruct Hl as [_ (Hn & _)]. unfold teei_list_pop. rewrite Hn; simpl. by rewrite Hd.
Qed.

Lemma teei_list_pop_tail_spec h hd l x :
  is_list h hd (l ++ [x]) ->
  exists h', teei_list_pop_tail hd h = Some (x, h') /\ is_list h' hd l.
Proof.
  intros Hl. destruct (is_list_unlink h hd l x [] Hl) as (h' & Hd & Hl' & _). exists h'.
  rewrite app_nil_r in Hl'. destruct Hl as [_ Hc].
  replace (hd :: (l ++ [x]) ++ [hd]) with ((hd :: l) ++ x :: [hd]) in Hc
    by (simpl; by rewrite <- app_assoc).
  rewrite chain_cut in Hc. destruct Hc as [_ (_ & Hp & _)].
  unfold teei_list_pop_tail. rewrite Hp; simpl. by rewrite Hd.
Qed.

Lemma teei_list_empty_spec h hd l :
  is_list h hd l -> teei_list_empty hd h = Some (if decide (l = []) then 1 else 0).
Proof.
  intros [Hnd Hc]. unfold teei_list_empty. destruct l as [|x l]; destruct Hc as (Hn & _);
    rewrite Hn; simpl; [by rewrite Z.eqb_refl|].
  apply NoDup_cons in Hnd as [Hx _]. destruct (Z.eqb_spec x hd) as [->|_]; [|done].
  exfalso. apply Hx. left.
Qed.

(** Walking from an entry to the head visits the rest of the list. *)
Lemma list_for_each_suffix h hd l fuel :
  hd ∉ l -> (length l < fuel)%nat -> chain h (l ++ [hd]) ->
  forall c, head (l ++ [hd]) = Some c -> list_for_each fuel c hd h = Some l.
Proof.
  revert l; induction fuel as [|fuel IH]; intros l Hhd Hf Hc c Hh; [lia|]. simpl.
  destruct l as [|x l]; simplify_eq/=; [by rewrite Z.eqb_refl|].
  apply not_elem_of_cons in Hhd as [Hne Hhd].
  destruct (Z.eqb_spec c hd); [congruence|]. simpl in Hf.
  destruct (l ++ [hd]) as [|y t] eqn:E; [by destruct l|]. destruct Hc as (Hn & _ & Hc).
  rewrite Hn; simpl. rewrite (IH l) by (done || lia || by rewrite E). done.
Qed.

Lemma list_for_each_spec h hd l fuel :
  is_list h hd l -> (length l < fuel)%nat ->
  exists c, get_next h hd = Some c /\ list_for_each fuel c hd h = Some l.
Proof.
  intros [Hnd Hc] Hf. apply NoDup_cons in Hnd as [Hhd _].
  destruct (l ++ [hd]) as [|y t] eqn:E; [by destruct l|]. destruct Hc as (Hn & _ & Hc).
  exists y. split; [done|]. apply (list_for_each_suffix h hd l); try done; by rewrite E.
Qed.

(** Unlinking the head of an empty list is possible: it poisons the head. *)
Lemma teei_list_del_alone h hd : is_list h hd [] -> exists h', teei_list_del hd h = Some h'.
Proof.
  intros [_ (Hn & Hp & _)]. unfold teei_list_del, __teei_list_del. rewrite Hp, Hn. simpl.
  assert (alloc h hd) as Ha by (by eapply get_next_alloc).
  destruct (set_next_ok h hd hd Ha) as (h1 & -> & N1 & P1 & A1). simpl. rewrite P1, Hp. simpl.
  destruct (set_prev_ok h1 hd hd) as (h2 & -> & P2 & N2 & A2); [by apply A1|]. simpl.
  destruct (set_next_ok h2 hd LIST_POISON_NEXT) as (h3 & -> & N3 & P3 & A3); [by apply A2, A1|]. simpl.
  destruct (set_prev_ok h3 hd LIST_POISON_PREV) as (h4 & -> & _); [by apply A3, A2, A1|]. eauto.
Qed.

(** Freeing a node that is not on the list. *)
Lemma is_list_free h hd l e : e ∉ hd :: l -> is_list h hd l -> is_list (delete e h) hd l.
Proof.
  intros He [Hnd Hc]. split; [done|]. revert Hc. apply chain_frame. intros l1 x y l2 E.
  assert (forall q, q ∈ hd :: l ++ [hd] -> q <> e) as Hq.
  { intros q Hq ->. apply He. rewrite app_comm_cons in Hq.
    apply elem_of_app in Hq as [Hq|Hq%list_elem_of_singleton]; [done|subst; left]. }
  unfold get_next, get_prev. rewrite !lookup_delete_ne; [done|..];
    apply not_eq_sym, Hq; rewrite E; apply elem_of_app; right; [right; left|left].
Qed.
End Rep.
