(* ===== verification/Daemon.v ===== *)
(** * teei_daemon (400/teei_daemon/main.c)

    The daemon collects the UUIDs of the drivers and trusted applications to
    load, hands them to the kernel driver, unlocks the keymaster once user data
    can be decrypted, and sets system properties queued by the VFS handler.
    The VFS handler itself ([read_property], [handle_vfs_command]) is a prebuilt
    library: calls to it are opaque.  [ta_support] and [min_mem] stand for the
    build switches MTK_DRM/CAM/SDSP_SUPPORT and MIN_MEM_SUPPORT. *)

From S2P Require Import Prelude Kernel TeeiList.

Definition MAX_DRV_UUIDS := 30.
Definition UUID_LEN := 32.
Definition BUFFER_SIZE := 524288.
Definition DEV_FILE : bytes := cstr "/dev/tz_vfs".
Definition TEEI_CONFIG : bytes := cstr "/dev/teei_config".
Definition TEEI_IOC_MAGIC := 84.

(** [_IOWR(TEEI_IOC_MAGIC, nr, size)] *)
Definition teei_iowr (nr size : Z) : Z :=
  Z.lor (Z.shiftl 3 30) (Z.lor (Z.shiftl size 16) (Z.lor (Z.shiftl TEEI_IOC_MAGIC 8) nr)).
Definition sizeof_init_param := 1000.
Definition TEEI_CONFIG_IOCTL_INIT_TEEI := teei_iowr 3 sizeof_init_param.
Definition TEEI_CONFIG_IOCTL_UNLOCK := teei_iowr 4 4.

(** struct init_param; each UUID slot has [UUID_LEN + 1] bytes. *)
Record init_param := InitParam { uuids : list bytes; uuid_count : Z; param_flag : Z }.

(** [memset(&init_param, 0, sizeof(struct init_param))] *)
Definition init_param0 : init_param :=
  InitParam (replicate (Z.to_nat MAX_DRV_UUIDS) (replicate (Z.to_nat (UUID_LEN + 1)) 0)) 0 0.

(** Bytes of the structure; two bytes of padding precede the words. *)
Definition init_param_enc (p : init_param) : bytes :=
  mjoin (uuids p) ++ [0; 0] ++ le_enc 4 (uuid_count p) ++ le_enc 4 (param_flag p).

Definition drv_uuid : list bytes := [cstr "93feffccd8ca11e796c7c7a21acb4932"].

(** A queued property: path and value. *)
Record teei_property_struct := Property { path : bytes; property_context : bytes }.

Record daemon_st := DaemonSt {
  d_param : init_param;
  unlock_state : Z;
  g_property_list : Z;                          (* address of the list head *)
  d_nodes : gmap Z teei_list;                   (* list nodes by address *)
  d_entries : gmap Z teei_property_struct       (* entries by address of their [head] member *)
}.

Definition set_param v st := DaemonSt v (unlock_state st) (g_property_list st) (d_nodes st)
  (d_entries st).
Definition set_unlock v st := DaemonSt (d_param st) v (g_property_list st) (d_nodes st)
  (d_entries st).
Definition set_nodes v st := DaemonSt (d_param st) (unlock_state st) (g_property_list st) v
  (d_entries st).
Definition set_entries v st := DaemonSt (d_param st) (unlock_state st) (g_property_list st)
  (d_nodes st) v.

Section Daemon.
Context {W : Type} `{K : Kernel W} (ta_support min_mem : bool).
Abbreviation DM := (M W daemon_st).

(** ** Command line *)

(** [memcpy(init_param.uuids[init_param.uuid_count], src, UUID_LEN)]: past
    the last slot the copy leaves the array. *)
Definition copy_uuid (src : bytes) : DM unit :=
  p ← gets d_param;
  if uuid_count p <? MAX_DRV_UUIDS then
    match uuids p !! Z.to_nat (uuid_count p) with
    | Some slot =>
        modify (set_param (InitParam
          (<[Z.to_nat (uuid_count p) := splice slot 0 (slice 0 UUID_LEN src)]> (uuids p))
          (uuid_count p) (param_flag p)))
    | None => halt Undefined
    end
  else halt Undefined.

Definition count_uuid (f : Z -> Z -> Z) : DM unit :=
  p ← gets d_param;
  modify (set_param (InitParam (uuids p) (u32 (uuid_count p + 1)) (f (param_flag p) (uuid_count p)))).

(** [flag & ~(0x1 << n)] and [flag | (0x1 << n)] *)
Definition clear_bit (flag n : Z) : Z := Z.land flag (u32 (Z.lnot (Z.shiftl 1 n))).
Definition set_bit (flag n : Z) : Z := Z.lor flag (u32 (Z.shiftl 1 n)).

(** One option of the [getopt] loop: -r <uuid>, -t <uuid>, anything else. *)
Definition parse_uuid_opt (opt : Z) (optarg : bytes) : DM unit :=
  if (opt =? 114) || (opt =? 116) then
    if negb ta_support then mret tt
    else if negb (zlen optarg =? UUID_LEN) then halt (Exit 1)
    else
      p ← gets d_param;
      if MAX_DRV_UUIDS <=? uuid_count p then mret tt
      else
        copy_uuid optarg;;
        count_uuid (if opt =? 114 then clear_bit else set_bit)
  else halt (Exit 1).

Fixpoint parse_uuid_opts (opts : list (Z * bytes)) : DM unit :=
  match opts with
  | [] => mret tt
  | (opt, optarg) :: opts' => parse_uuid_opt opt optarg;; parse_uuid_opts opts'
  end.

(** The loop over [drv_uuid]; it copies without checking the count. *)
Fixpoint add_drv_uuids (drvs : list bytes) : DM unit :=
  match drvs with
  | [] => mret tt
  | u :: drvs' =>
      if negb (zlen u =? UUID_LEN) then mret tt
      else
        copy_uuid u;;
        count_uuid (fun flag _ => flag);;
        add_drv_uuids drvs'
  end.

Definition collect_uuids (opts : list (Z * bytes)) : DM unit :=
  parse_uuid_opts opts;;
  if min_mem then mret tt else add_drv_uuids drv_uuid.

(** ** Threads *)

Definition init_soter_fn : DM Z :=
  fd ← sys (Sys_open TEEI_CONFIG O_RDWR 0);
  if sr_ret fd <? 0 then mret (-1)
  else
    p ← gets d_param;
    r ← sys (Sys_ioctl (sr_ret fd) TEEI_CONFIG_IOCTL_INIT_TEEI (Arg_buf (init_param_enc p)));
    (if negb (sr_ret r =? 0) then mret tt
     else sys (Lib_property_set (cstr "vendor.soter.teei.init") (cstr "INIT_OK"));; mret tt);;
    sys (Sys_close (sr_ret fd));;
    mret 0.

Definition keymaster_unlock : DM unit :=
  fd ← sys (Sys_open TEEI_CONFIG O_RDWR 0);
  if sr_ret fd <? 0 then mret tt
  else
    sys (Sys_ioctl (sr_ret fd) TEEI_CONFIG_IOCTL_UNLOCK (Arg_int 0));;
    sys (Sys_close (sr_ret fd));;
    mret tt.

(** [property_get(key, value, "")] *)
Definition property_get (key : string) : DM bytes :=
  r ← sys (Lib_property_get (cstr key)); mret (sr_data r).

Definition str_eq (b : bytes) (s : string) : bool := bool_decide (b = cstr s).

(** The wait loop; [value] is the last value of vold.decrypt. *)
Fixpoint wait_decrypt (fuel : nat) (value : bytes) : DM unit :=
  match fuel with
  | O => halt OutOfFuel
  | S fuel' =>
      if str_eq value "trigger_restart_framework" then mret tt
      else
        vendor ← property_get "vendor.soter.teei.crypto.state";
        if str_eq vendor "unencrypted" then mret tt
        else
          state ← property_get "ro.crypto.state";
          if str_eq state "unencrypted" || str_eq state "unsupported" then mret tt
          else
            type ← property_get "ro.crypto.type";
            if str_eq type "file" then mret tt
            else
              sys (Sys_usleep 10000);;
              value ← property_get "vold.decrypt";
              wait_decrypt fuel' value
  end.

Definition load_tee_fn (fuel : nat) : DM Z :=
  value ← property_get "ro.crypto.state";
  value_type ← property_get "ro.crypto.type";
  (if negb (str_eq value "unencrypted") && negb (str_eq value "unsupported") then
     if negb (str_eq value_type "file") then
       value ← property_get "vold.decrypt"; wait_decrypt fuel value
     else mret tt
   else mret tt);;
  keymaster_unlock;;
  modify (set_unlock 1);;
  mret 0.

(** One iteration of [property_setting_fn]; [Some rc] leaves the loop.  An
    entry is known by the address of its [head] member, 16 bytes into it. *)
Definition property_setting_step : DM (option Z) :=
  r ← sys Lib_sem_wait;
  if negb (sr_ret r =? 0) then mret None
  else
    st ← gets id;
    match get_next (d_nodes st) (g_property_list st) with
    | None => halt Undefined
    | Some e =>
        if e - 16 =? 0 then mret None
        else
          l ← sys Lib_mutex_lock;
          if negb (sr_ret l =? 0) then mret (Some (-1))
          else
            st ← gets id;
            match teei_list_del e (d_nodes st) with
            | None => halt Undefined
            | Some nodes =>
                modify (set_nodes nodes);;
                sys Lib_mutex_unlock;;
                st ← gets id;
                match d_entries st !! e with
                | None => halt Undefined
                | Some p =>
                    sys (Lib_property_set (path p) (property_context p));;
                    free;; free;; free;;
                    modify (fun st => set_entries (delete e (d_entries st))
                                        (set_nodes (delete e (d_nodes st)) st));;
                    mret None
                end
            end
    end.

Fixpoint property_setting_fn (fuel : nat) : DM Z :=
  match fuel with
  | O => halt OutOfFuel
  | S fuel' =>
      r ← property_setting_step;
      match r with Some rc => mret rc | None => property_setting_fn fuel' end
  end.

(** ** main *)

Fixpoint open_vfs (fuel : nat) : DM Z :=
  match fuel with
  | O => halt OutOfFuel
  | S fuel' =>
      fd ← sys (Sys_open DEV_FILE O_RDWR 0);
      if sr_ret fd <? 0 then open_vfs fuel' else mret (sr_ret fd)
  end.

Fixpoint serve_vfs (fuel : nat) : DM unit :=
  match fuel with
  | O => halt OutOfFuel
  | S fuel' => sys (Lib_extern (cstr "handle_vfs_command"));; serve_vfs fuel'
  end.

Definition daemon_main (fuel : nat) (opts : list (Z * bytes)) : DM Z :=
  sys (Lib_property_set (cstr "vendor.soter.teei.init") (cstr "INIT_START"));;
  modify (set_param init_param0);;
  ok ← malloc BUFFER_SIZE;
  if negb ok then mret (-1)
  else
    collect_uuids opts;;
    open_vfs fuel;;
    st ← gets id;
    match INIT_LIST_HEAD (g_property_list st) (d_nodes st) with
    | None => halt Undefined
    | Some nodes =>
        modify (set_nodes nodes);;
        sys Lib_sem_init;;
        m ← sys Lib_mutex_init;
        if negb (sr_ret m =? 0) then mret (-1)
        else
          sys (Lib_extern (cstr "read_property"));;
          sys (Lib_pthread_create (cstr "init_soter_fn"));;
          sys (Lib_pthread_create (cstr "load_tee_fn"));;
          sys (Lib_pthread_create (cstr "property_setting_fn"));;
          serve_vfs fuel;;
          mret 0
    end.
End Daemon.

(** ** The table of UUIDs *)

(** Bits of the 't' options, the first option at bit [i]. *)
Fixpoint flags_from (i : Z) (l : list (Z * bytes)) : Z :=
  match l with
  | [] => 0
  | (o, _) :: l' => Z.lor (if o =? 116 then Z.shiftl 1 i else 0) (flags_from (i + 1) l')
  end.

Definition uuid_slot (x : Z * bytes) : bytes := x.2 ++ [0].
Definition empty_slot : bytes := replicate (Z.to_nat (UUID_LEN + 1)) 0.

(** The parameters after the options [l] were taken: one terminated UUID per
    option, the rest zero. *)
Definition params_of (l : list (Z * bytes)) : init_param :=
  InitParam (map uuid_slot l ++ replicate (Z.to_nat MAX_DRV_UUIDS - length l) empty_slot)
    (zlen l) (flags_from 0 l).

(** An option the daemon accepts. *)
Definition uuid_opt (x : Z * bytes) : Prop :=
  (x.1 = 114 \/ x.1 = 116) /\ zlen x.2 = UUID_LEN.

Lemma flags_from_app i l x :
  flags_from i (l ++ [x]) =
  Z.lor (flags_from i l) (if x.1 =? 116 then Z.shiftl 1 (i + zlen l) else 0).
Proof.
  revert i; induction l as [|[o a] l IH]; intros i; simpl.
  - destruct x. unfold zlen; simpl. by rewrite Z.add_0_r, Z.lor_0_r.
  - rewrite IH, <- Z.lor_assoc. do 2 f_equal. unfold zlen; simpl.
    by replace (i + 1 + Z.of_nat (length l)) with (i + Z.pos (Pos.of_succ_nat (length l))) by lia.
Qed.

(** Bit [j] is set exactly for a 't' option at position [j]. *)
Lemma flags_from_testbit i l j :
  0 <= i -> i <= j ->
  Z.testbit (flags_from i l) j = match l !! Z.to_nat (j - i) with
                                 | Some (o, _) => o =? 116
                                 | None => false
                                 end.
Proof.
  revert i; induction l as [|[o a] l IH]; intros i Hi Hj; simpl.
  { by rewrite Z.testbit_0_l. }
  rewrite Z.lor_spec. destruct (decide (j = i)) as [->|Hne].
  - rewrite Z.sub_diag; simpl. assert (Z.testbit (flags_from (i + 1) l) i = false) as ->.
    { clear IH. assert (forall k, i < k -> Z.testbit (flags_from k l) i = false) as H; [|apply H; lia].
      induction l as [|[o' a'] l IH]; intros k Hk; simpl; [apply Z.testbit_0_l|].
      rewrite Z.lor_spec, IH by lia. destruct (o' =? 116); [|by rewrite Z.testbit_0_l].
      by rewrite Z.shiftl_spec_low by lia. }
    destruct (o =? 116); [|by rewrite Z.testbit_0_l].
    rewrite Z.shiftl_spec, Z.sub_diag by lia. done.
  - rewrite IH by lia. replace (Z.to_nat (j - i)) with (S (Z.to_nat (j - (i + 1)))) by lia. simpl.
    destruct (o =? 116); [|by rewrite Z.testbit_0_l].
    rewrite Z.shiftl_spec by lia. replace (Z.testbit 1 (j - i)) with false; [done|].
    symmetry. rewrite (Z.testbit_odd 1 (j - i)). rewrite Z.shiftr_div_pow2 by lia.
    rewrite Z.div_small; [done|]. split; [lia|]. apply Z.pow_gt_1; lia.
Qed.

Lemma set_bit_spec flag n : 0 <= n < 30 -> set_bit flag n = Z.lor flag (Z.shiftl 1 n).
Proof.
  intros. unfold set_bit. rewrite u32_small; [done|]. rewrite Z.shiftl_1_l.
  pose proof (Z.pow_pos_nonneg 2 n ltac:(lia) ltac:(lia)).
  pose proof (Z.pow_lt_mono_r 2 n 32 ltac:(lia) ltac:(lia) ltac:(lia)). wide_lia.
Qed.

(** Clearing a bit above the options taken so far changes nothing. *)
Lemma clear_bit_spec l : (length l < 30)%nat -> clear_bit (flags_from 0 l) (zlen l) = flags_from 0 l.
Proof.
  intros Hl. unfold clear_bit. apply Z.bits_inj'. intros j Hj. rewrite Z.land_spec.
  destruct (Z.testbit (flags_from 0 l) j) eqn:E; [|done]. simpl.
  rewrite flags_from_testbit in E by lia. rewrite Z.sub_0_r in E.
  destruct (l !! Z.to_nat j) eqn:El; [|done]. apply lookup_lt_Some in El.
  unfold u32. rewrite Z.mod_pow2_bits_low by lia. rewrite Z.lnot_spec by lia.
  rewrite Z.shiftl_spec_low; [done|]. unfold zlen. lia.
Qed.

Lemma copied_slot a : zlen a = UUID_LEN -> splice empty_slot 0 (slice 0 UUID_LEN a) = a ++ [0].
Proof.
  intros Ha. rewrite <- Ha, slice_full. unfold splice. simpl. f_equal.
  unfold empty_slot. rewrite drop_replicate. unfold zlen, UUID_LEN in *.
  by replace (Z.to_nat (32 + 1) - length a)%nat with 1%nat by lia.
Qed.

Section Uuids.
Context {W : Type} `{K : Kernel W}.
Implicit Types s : proc W daemon_st.

(** [s'] is [s] with other parameters. *)
Definition with_param (p : init_param) s : proc W daemon_st :=
  Proc (set_param p (globals s)) (world s) (errno s) (trace s).

Lemma with_param_param p s : d_param (globals (with_param p s)) = p.
Proof. done. Qed.

(** Taking one more UUID. *)
Lemma take_uuid_spec l a f s :
  d_param (globals s) = params_of l -> (length l < 30)%nat -> zlen a = UUID_LEN ->
  (copy_uuid a;; count_uuid f) s =
  (Ret tt, with_param (InitParam
    (map uuid_slot l ++ (a ++ [0]) :: replicate (29 - length l) empty_slot)
    (zlen l + 1) (f (flags_from 0 l) (zlen l))) s).
Proof.
  intros Hp Hl Ha. unfold copy_uuid, count_uuid, mbind, M_bind, gets, modify. rewrite Hp.
  unfold params_of; cbn [uuid_count uuids param_flag].
  replace (zlen l <? MAX_DRV_UUIDS) with true by (unfold zlen, MAX_DRV_UUIDS; lia).
  change (Z.to_nat MAX_DRV_UUIDS) with 30%nat.
  replace (30 - length l)%nat with (S (29 - length l)) by lia.
  assert ((map uuid_slot l ++ replicate (S (29 - length l)) empty_slot) !! Z.to_nat (zlen l) =
    Some empty_slot) as ->.
  { unfold zlen. rewrite Nat2Z.id, lookup_app_r by (rewrite length_map; lia).
    by rewrite length_map, Nat.sub_diag. }
  assert (<[Z.to_nat (zlen l) := splice empty_slot 0 (slice 0 UUID_LEN a)]>
    (map uuid_slot l ++ replicate (S (29 - length l)) empty_slot) =
    map uuid_slot l ++ (a ++ [0]) :: replicate (29 - length l) empty_slot) as ->.
  { rewrite copied_slot by done. unfold zlen. rewrite Nat2Z.id.
    rewrite insert_app_r_alt by (rewrite length_map; lia). by rewrite length_map, Nat.sub_diag. }
  assert (u32 (zlen l + 1) = zlen l + 1) as Hc by (apply u32_small; unfold zlen; wide_lia).
  cbn [globals d_param set_param uuid_count uuids param_flag]. by rewrite Hc.
Qed.

Lemma parse_uuid_opt_spec l x s :
  d_param (globals s) = params_of l -> (length l < 30)%nat -> uuid_opt x ->
  parse_uuid_opt true x.1 x.2 s = (Ret tt, with_param (params_of (l ++ [x])) s).
Proof.
  intros Hp Hl [Ho Ha]. destruct x as [o a]; simpl in *. unfold parse_uuid_opt.
  replace ((o =? 114) || (o =? 116)) with true by (destruct Ho; subst; reflexivity).
  cbn [negb]. rewrite Ha, Z.eqb_refl. cbn [negb].
  unfold mbind at 1, M_bind at 1, gets at 1. rewrite Hp. cbn [params_of uuid_count].
  replace (MAX_DRV_UUIDS <=? zlen l) with false by (unfold zlen, MAX_DRV_UUIDS; lia).
  rewrite (take_uuid_spec l) by done. f_equal. f_equal. unfold params_of.
  rewrite map_app, length_app, zlen_app, flags_from_app, <- app_assoc. simpl. f_equal.
  - do 3 f_equal. change (Z.to_nat MAX_DRV_UUIDS) with 30%nat. lia.
  - destruct Ho as [-> | ->]; simpl.
    + rewrite Z.lor_0_r. by apply clear_bit_spec.
    + apply set_bit_spec. unfold zlen. lia.
Qed.

Lemma parse_uuid_opts_spec opts l s :
  d_param (globals s) = params_of l -> (length (l ++ opts) <= 30)%nat -> Forall uuid_opt opts ->
  parse_uuid_opts true opts s =
  (Ret tt, match opts with [] => s | _ => with_param (params_of (l ++ opts)) s end).
Proof.
  revert l s; induction opts as [|x opts IH]; intros l s Hp Hl Hf; [done|].
  inversion_clear Hf as [|? ? Hx Hf']. rewrite length_app in Hl. simpl in Hl.
  pose proof (parse_uuid_opt_spec l x s Hp ltac:(lia) Hx) as H.
  destruct x as [o a]; cbn [fst snd parse_uuid_opts] in *. unfold mbind, M_bind. rewrite H.
  set (x := (o, a)) in *.
  rewrite (IH (l ++ [x])); [|done|rewrite <- app_assoc, length_app; simpl; lia|done].
  rewrite <- app_assoc. by destruct opts.
Qed.
End Uuids.

Section Collect.
Context {W : Type} `{K : Kernel W}.
Implicit Types s : proc W daemon_st.

Definition drv_opt : Z * bytes := (114, cstr "93feffccd8ca11e796c7c7a21acb4932").

(** The entries a build takes: the options, with one of the switches for
    trusted applications, and the driver, without the switch for small memory. *)
Definition entries (ta_support min_mem : bool) (opts : list (Z * bytes)) : list (Z * bytes) :=
  (if ta_support then opts else []) ++ (if min_mem then [] else [drv_opt]).

Lemma parse_uuid_opts_ignored opts s : Forall uuid_opt opts -> parse_uuid_opts false opts s = (Ret tt, s).
Proof.
  induction 1 as [|[o a] opts [Ho _] _ IH]; [done|]. cbn [parse_uuid_opts fst] in *. unfold mbind, M_bind, parse_uuid_opt.
  replace ((o =? 114) || (o =? 116)) with true by (destruct Ho; subst; reflexivity). exact IH.
Qed.

(** When they fit, the table holds these entries. *)
Lemma collect_uuids_spec ta mm opts s :
  d_param (globals s) = init_param0 -> Forall uuid_opt opts -> (length (entries ta mm opts) <= 30)%nat ->
  exists s', collect_uuids ta mm opts s = (Ret tt, s') /\
    d_param (globals s') = params_of (entries ta mm opts) /\ trace s' = trace s.
Proof.
  intros Hp Hf Hl. unfold entries in *. unfold collect_uuids, mbind at 1, M_bind at 1. rewrite length_app in Hl.
  assert (exists s1, parse_uuid_opts ta opts s = (Ret tt, s1) /\
    d_param (globals s1) = params_of (if ta then opts else []) /\ trace s1 = trace s) as (s1 & -> & Hp1 & Ht).
  { destruct ta; [|eexists; by rewrite (parse_uuid_opts_ignored opts s Hf)].
    eexists. rewrite (parse_uuid_opts_spec opts [] s Hp) by (simpl; lia || done).
    split; [done|]. by destruct opts. }
  set (l := if ta then opts else []) in *.
  destruct mm; [exists s1; by rewrite app_nil_r|].
  cbn [add_drv_uuids drv_uuid]. change (negb (zlen (cstr _) =? UUID_LEN)) with false. cbn iota.
  pose proof (take_uuid_spec l (cstr "93feffccd8ca11e796c7c7a21acb4932") (fun flag _ => flag) s1
    Hp1 ltac:(simpl in Hl; lia) eq_refl) as H.
  unfold mbind, M_bind in H |- *. destruct (copy_uuid _ s1) as [[[]|e] s2]; [|done]. rewrite H.
  eexists. split; [done|]. split; [|done]. simpl. unfold params_of.
  rewrite map_app, length_app, zlen_app, flags_from_app, <- app_assoc. simpl.
  rewrite Z.lor_0_r. do 4 f_equal. change (Z.to_nat MAX_DRV_UUIDS) with 30%nat. lia.
Qed.

(** Slots of a table of slots of the same size. *)
Lemma slice_mjoin n (l : list bytes) b i x rest :
  (forall y, y ∈ l -> zlen y = n) -> l !! i = Some x -> b = mjoin l ++ rest -> slice (n * Z.of_nat i) n b = x.
Proof.
  intros Hn Hi ->. revert i Hi. induction l as [|y l IH]; intros i Hi; [done|].
  pose proof (Hn y ltac:(left)) as Hy. pose proof (zlen_nonneg y).
  change (mjoin (y :: l)) with (y ++ mjoin l). rewrite <- app_assoc.
  destruct i as [|i]; cbn in Hi.
  - injection Hi as ->. rewrite Z.mul_0_r. rewrite <- Hy. rewrite slice_app_l by lia. apply slice_full.
  - rewrite slice_app_r by lia. rewrite Hy. replace (n * Z.of_nat (S i) - n) with (n * Z.of_nat i) by lia.
    apply IH; [|done]. intros z Hz. apply Hn. by right.
Qed.
Lemma zlen_mjoin n (l : list bytes) : (forall y, y ∈ l -> zlen y = n) -> zlen (mjoin l) = n * zlen l.
Proof.
  intros Hn. induction l as [|y l IH]; [unfold zlen; simpl; lia|].
  change (mjoin (y :: l)) with (y ++ mjoin l).
  rewrite zlen_app, IH by (intros z Hz; apply Hn; by right). rewrite (Hn y) by left. unfold zlen; cbn [length]. lia.
Qed.

Lemma flags_from_range l : (length l <= 30)%nat -> is_u32 (flags_from 0 l).
Proof.
  enough (forall i, 0 <= i -> i + zlen l <= 30 -> 0 <= flags_from i l < 2 ^ 30) as H.
  { intros Hl. pose proof (H 0 ltac:(lia)). unfold is_u32, zlen in *. lia. }
  induction l as [|[o a] l IH]; intros i Hi Hl; [simpl; lia|]. unfold zlen in Hl, IH; simpl in Hl. specialize (IH (i + 1) ltac:(lia) ltac:(lia)).
  cbn [flags_from]. assert (0 <= (if o =? 116 then Z.shiftl 1 i else 0) < 2 ^ 30) as Hb.
  { destruct (o =? 116); [|lia]. rewrite Z.shiftl_1_l. split; [lia|]. apply Z.pow_lt_mono_r; lia. }
  split; [apply Z.lor_nonneg; lia|]. set (x := if o =? 116 then _ else _) in *. set (y := flags_from (i + 1) l) in *.
  destruct (decide (Z.lor x y = 0)) as [->|Hne]; [lia|]. apply Z.log2_lt_pow2.
  - pose proof (proj2 (Z.lor_nonneg x y) ltac:(lia)). lia.
  - rewrite Z.log2_lor by lia. apply Z.max_lub_lt.
    + destruct (decide (x = 0)) as [->|]; [simpl; lia|]. apply Z.log2_lt_pow2; lia.
    + destruct (decide (y = 0)) as [->|]; [simpl; lia|]. apply Z.log2_lt_pow2; lia.
Qed.

(** Layout of struct init_param as the kernel driver reads it: 30 slots of 33
    bytes, the number of entries at offset 992, the flags at offset 996. *)
Definition loads (b : bytes) (l : list (Z * bytes)) : Prop :=
  zlen b = 1000 /\ get_u32 b 992 = zlen l /\
  (forall i o a, l !! i = Some (o, a) -> slice (33 * Z.of_nat i) 33 b = a ++ [0]) /\
  (forall i, (length l <= i < 30)%nat -> slice (33 * Z.of_nat i) 33 b = replicate 33 0) /\
  (forall i, 0 <= i -> Z.testbit (get_u32 b 996) i =
     match l !! Z.to_nat i with Some (o, _) => o =? 116 | None => false end).

Lemma init_param_enc_loads l :
  (length l <= 30)%nat -> Forall uuid_opt l -> loads (init_param_enc (params_of l)) l.
Proof.
  intros Hl Hf. unfold params_of, init_param_enc. cbn [uuids uuid_count param_flag].
  change (Z.to_nat MAX_DRV_UUIDS) with 30%nat. set (tbl := map uuid_slot l ++ replicate (30 - length l) empty_slot).
  assert (forall y, y ∈ tbl -> zlen y = 33) as Hslot.
  { intros y [(x & -> & Hx)%list_elem_of_fmap|[-> _]%elem_of_replicate]%elem_of_app; [|done].
    rewrite Forall_forall in Hf. destruct (Hf x Hx) as [_ H]. unfold uuid_slot. rewrite zlen_app, H. done. }
  assert (zlen (mjoin tbl) = 990) as Htbl.
  { rewrite (zlen_mjoin 33) by done. unfold tbl, zlen. rewrite length_app, length_map, length_replicate. lia. }
  assert (is_u32 (zlen l)) as Hc by (unfold is_u32, zlen; lia). pose proof (flags_from_range l Hl) as Hfl.
  set (w1 := le_enc 4 (zlen l)). set (w2 := le_enc 4 (flags_from 0 l)).
  unfold loads, get_u32. split_and!.
  - rewrite !zlen_app, Htbl. done.
  - rewrite app_assoc. rewrite (slice_at (mjoin tbl ++ [0; 0]) w1 w2); [by apply get_u32_enc| |done].
    rewrite zlen_app, Htbl. done.
  - intros i o a Hi. apply (slice_mjoin 33 tbl _ i _ ([0; 0] ++ w1 ++ w2) Hslot); [|done].
    unfold tbl. apply lookup_app_l_Some. rewrite list_lookup_fmap, Hi. done.
  - intros i Hi. apply (slice_mjoin 33 tbl _ i _ ([0; 0] ++ w1 ++ w2) Hslot); [|done].
    unfold tbl. rewrite lookup_app_r by (rewrite length_map; lia). apply lookup_replicate. split; [done|].
    rewrite length_map. lia.
  - intros i Hi. replace (mjoin tbl ++ [0; 0] ++ w1 ++ w2) with ((mjoin tbl ++ [0; 0] ++ w1) ++ w2 ++ [])
      by (rewrite <- !app_assoc, app_nil_r; done).
    rewrite (slice_at _ w2 []); [|rewrite !zlen_app, Htbl; done|done]. unfold w2. rewrite get_u32_enc by done.
    rewrite flags_from_testbit by lia. by rewrite Z.sub_0_r.
Qed.

(** The parameters reach the driver through the initialisation thread. *)
Lemma init_soter_passes s l :
  d_param (globals s) = params_of l -> (length l <= 30)%nat -> Forall uuid_opt l ->
  wp init_soter_fn (fun o s' => exists fd, let opened := Ev (Sys_open TEEI_CONFIG O_RDWR 0) fd in
    (sr_ret fd < 0 /\ o = Ret (-1) /\ trace s' = trace s ++ [opened]) \/
    (0 <= sr_ret fd /\ o = Ret 0 /\ exists b r rest c, loads b l /\
       trace s' = trace s ++ [opened; Ev (Sys_ioctl (sr_ret fd) TEEI_CONFIG_IOCTL_INIT_TEEI (Arg_buf b)) r] ++ rest ++
         [Ev (Sys_close (sr_ret fd)) c] /\
       (sr_ret r = 0 -> exists x, rest = [Ev (Lib_property_set (cstr "vendor.soter.teei.init") (cstr "INIT_OK")) x]) /\
       (sr_ret r <> 0 -> rest = []))) s.
Proof.
  intros Hp Hl Hf. pose proof (init_param_enc_loads l Hl Hf) as Hloads.
  unfold init_soter_fn. apply wp_bind. apply wp_sys; intros fd w1 _.
  apply wp_if; intros Hfd; [apply wp_ret; exists fd; left; split_and!; [lia|done|done]|].
  apply wp_bind, wp_gets. cbn [globals after]. rewrite Hp. apply wp_bind. apply wp_sys; intros r w2 _. apply wp_bind.
  apply wp_if; intros Hr.
  - apply wp_ret, wp_bind. apply wp_sys; intros c w3 _. apply wp_ret. exists fd. right. split_and!; [lia|done|].
    exists (init_param_enc (params_of l)), r, [], c. split_and!; [done|simpl; by rewrite <- !app_assoc|lia|done].
  - apply wp_bind. apply wp_sys; intros x w3 _. apply wp_ret, wp_bind. apply wp_sys; intros c w4 _. apply wp_ret.
    exists fd. right. split_and!; [lia|done|]. exists (init_param_enc (params_of l)), r, [Ev (Lib_property_set (cstr "vendor.soter.teei.init") (cstr "INIT_OK")) x], c.
    split_and!; [done|simpl; by rewrite <- !app_assoc|by exists x|lia].
Qed.

(** With 30 options the table is full and the driver is copied past it. *)
Lemma collect_uuids_full opts s :
  d_param (globals s) = init_param0 -> Forall uuid_opt opts -> length opts = 30%nat ->
  (collect_uuids true false opts s).1 = Stop Undefined.
Proof.
  intros Hp Hf Hl. unfold collect_uuids, mbind, M_bind.
  rewrite (parse_uuid_opts_spec opts [] s Hp) by (simpl; lia || done).
  set (s1 := match opts with [] => s | _ => with_param (params_of ([] ++ opts)) s end).
  assert (d_param (globals s1) = params_of opts) as Hp1 by (by destruct opts).
  cbn [add_drv_uuids drv_uuid]. change (negb (zlen (cstr _) =? UUID_LEN)) with false. cbn iota.
  unfold copy_uuid, mbind, M_bind, gets. rewrite Hp1. cbn [params_of uuid_count].
  by replace (zlen opts <? MAX_DRV_UUIDS) with false by (unfold zlen; rewrite Hl; done).
Qed.
End Collect.

(** ** Unlocking the keymaster *)

(** An observation that user data is available or not encrypted. *)
Definition evidence (e : event) : bool :=
  match ev_call e with
  | Lib_property_get key =>
      let v := sr_data (ev_res e) in
      (bool_decide (key = cstr "ro.crypto.state") &&
         (str_eq v "unencrypted" || str_eq v "unsupported"))
      || (bool_decide (key = cstr "ro.crypto.type") && str_eq v "file")
      || (bool_decide (key = cstr "vold.decrypt") && str_eq v "trigger_restart_framework")
      || (bool_decide (key = cstr "vendor.soter.teei.crypto.state") && str_eq v "unencrypted")
  | _ => false
  end.

Definition is_unlock (e : event) : bool :=
  match ev_call e with
  | Sys_ioctl _ req _ => req =? TEEI_CONFIG_IOCTL_UNLOCK
  | _ => false
  end.

Section Unlock.
Context {W : Type} `{K : Kernel W}.
Implicit Types s : proc W daemon_st.

(** [m] makes no unlock call; if it returns [a] with [ok a], the events since
    the trace [tr] contain an observation. *)
Definition observes {A} (ok : A -> bool) (tr : list event) (m : M W daemon_st A) s : Prop :=
  wp m (fun o s' => exists evs, trace s' = tr ++ evs /\ existsb is_unlock evs = false /\
    match o with Ret a => ok a = true -> existsb evidence evs = true | Stop _ => True end) s.

Lemma property_get_run key s :
  wp (property_get key) (fun o s' => exists r, o = Ret (sr_data r) /\
    trace s' = trace s ++ [Ev (Lib_property_get (cstr key)) r]) s.
Proof. unfold property_get. apply wp_bind. wp_sys_intro. apply wp_ret. eauto. Qed.

(** The loop ends only with an observation. *)
Lemma wait_decrypt_observes fuel value tr evs s :
  trace s = tr ++ evs -> existsb is_unlock evs = false ->
  (str_eq value "trigger_restart_framework" = true -> existsb evidence evs = true) ->
  observes (fun _ => true) tr (wait_decrypt fuel value) s.
Proof.
  revert value evs s; induction fuel as [|fuel IH]; intros value evs s Ht Hu Hv; simpl.
  { apply wp_halt. eauto. }
  assert (forall s' evs', trace s' = trace s ++ evs' -> existsb is_unlock evs' = false ->
    existsb evidence evs' = true -> exists evs0, trace s' = tr ++ evs0 /\
      existsb is_unlock evs0 = false /\ (true = true -> existsb evidence evs0 = true)) as Hdone.
  { intros s' evs' Ht' Hu' He'. exists (evs ++ evs'). rewrite Ht', Ht, app_assoc, !existsb_app, Hu, Hu', He'.
    split_and!; [done|done|]. intros _. apply orb_true_r. }
  apply wp_if; intros Hval; [apply wp_ret; exists evs; auto|].
  apply wp_bind. eapply wp_mono; [apply property_get_run|]. intros o s1 (r1 & -> & H1).
  apply wp_if; intros E1.
  { apply wp_ret. eapply Hdone; [exact H1|done|]. cbn. by rewrite E1. }
  apply wp_bind. eapply wp_mono; [apply property_get_run|]. intros o s2 (r2 & -> & H2).
  rewrite H1, <- app_assoc in H2.
  apply wp_if; intros E2.
  { apply wp_ret. eapply Hdone; [exact H2|done|]. cbn. rewrite E2. by rewrite !orb_true_r. }
  apply wp_bind. eapply wp_mono; [apply property_get_run|]. intros o s3 (r3 & -> & H3).
  rewrite H2, <- app_assoc in H3.
  apply wp_if; intros E3.
  { apply wp_ret. eapply Hdone; [exact H3|done|]. cbn. rewrite E3. by rewrite !orb_true_r. }
  apply wp_bind. apply wp_sys; intros r4 w4 _.
  apply wp_bind. eapply wp_mono; [apply property_get_run|]. intros o s5 (r5 & -> & H5).
  simpl in H5. rewrite H3, Ht in H5. rewrite <- !app_assoc in H5.
  eapply IH; [exact H5|by rewrite existsb_app, Hu|].
  intros Ev5. rewrite existsb_app. cbn. rewrite Ev5. by rewrite !orb_true_r.
Qed.

Lemma keymaster_unlock_run s :
  wp keymaster_unlock (fun o s' => o = Ret tt /\ exists evs, trace s' = trace s ++ evs) s.
Proof.
  unfold keymaster_unlock. apply wp_bind. wp_sys_intro. apply wp_if; intros _.
  - apply wp_ret. eauto.
  - apply wp_bind. apply wp_sys; intros r2 w2 _. apply wp_bind. apply wp_sys; intros r3 w3 _.
    apply wp_ret. split; [done|]. simpl. rewrite <- !app_assoc. eauto.
Qed.

(** Before [load_tee_fn] unlocks the keymaster it has made an observation. *)
Lemma load_tee_spec fuel s :
  wp (load_tee_fn fuel) (fun o s' => exists pre post, trace s' = trace s ++ pre ++ post /\
    existsb is_unlock pre = false /\
    match o with
    | Ret rc => rc = 0 /\ existsb evidence pre = true /\ unlock_state (globals s') = 1
    | Stop _ => post = []
    end) s.
Proof.
  unfold load_tee_fn. apply wp_bind. eapply wp_mono; [apply property_get_run|].
  intros o s1 (r1 & -> & H1). apply wp_bind. eapply wp_mono; [apply property_get_run|].
  intros o s2 (r2 & -> & H2). rewrite H1, <- app_assoc in H2.
  apply wp_bind. eapply (wp_mono _ (fun o s' => exists evs, trace s' = trace s ++ evs /\
    existsb is_unlock evs = false /\
    match o with Ret _ => existsb evidence evs = true | Stop _ => True end)).
  - destruct (negb _ && negb _) eqn:E.
    + destruct (negb (str_eq (sr_data r2) "file")) eqn:E2.
      * apply wp_bind. eapply wp_mono; [apply property_get_run|]. intros o s3 (r3 & -> & H3).
        rewrite H2, <- app_assoc in H3. eapply wp_mono.
        { eapply wait_decrypt_observes; [exact H3|done|]. intros E3. cbn. rewrite E3.
          by rewrite !orb_true_r. }
        intros [a|e] s' (evs & ? & ? & Hev); exists evs; auto.
      * apply wp_ret. eexists. split; [exact H2|]. split; [done|]. cbn.
        apply negb_false_iff in E2. rewrite E2. by rewrite !orb_true_r.
    + apply wp_ret. eexists. split; [exact H2|]. split; [done|]. cbn.
      destruct (str_eq (sr_data r1) "unencrypted"); [done|]. simpl in *.
      apply negb_false_iff in E. by rewrite E.
  - intros [u|e] s3 (evs & Ht & Hu & He).
    + apply wp_bind. eapply wp_mono; [apply keymaster_unlock_run|].
      intros o s4 (-> & post & H4). apply wp_bind, wp_modify, wp_ret.
      exists evs, post. simpl. by rewrite H4, Ht, app_assoc.
    + exists evs, []. by rewrite app_nil_r.
Qed.
End Unlock.

(** ** The property queue *)

(** What the property thread does with the queue [q], call by call, until [q']
    is left: waits that fail are repeated, and every token taken is spent on the
    property in front, which is unlinked under the mutex, set and freed. *)
Inductive served : list teei_property_struct -> list event -> list teei_property_struct -> Prop :=
| Served_nothing q : served q [] q
| Served_retry r q evs q' : sr_ret r <> 0 -> served q evs q' -> served q (Ev Lib_sem_wait r :: evs) q'
| Served_front r l u x f1 f2 f3 p q evs q' :
    sr_ret r = 0 -> sr_ret l = 0 -> served q evs q' ->
    served (p :: q)
      ([Ev Lib_sem_wait r; Ev Lib_mutex_lock l; Ev Lib_mutex_unlock u;
        Ev (Lib_property_set (path p) (property_context p)) x;
        Ev Lib_free f1; Ev Lib_free f2; Ev Lib_free f3] ++ evs) q'.

(** Iterations of the loop. *)
Fixpoint waits (tr : list event) : nat :=
  match tr with [] => 0 | Ev Lib_sem_wait _ :: tr' => S (waits tr') | _ :: tr' => waits tr' end.

Section Properties.
Context {W : Type} `{K : Kernel W}.
Implicit Types s : proc W daemon_st.

(** The queue of a state: the entries on the list, each with its data; the head
    of the list is not an entry.  No node is at address 16, where
    [list_first_entry] would give NULL. *)
Definition queue (st : daemon_st) (q : list (Z * teei_property_struct)) : Prop :=
  is_list (d_nodes st) (g_property_list st) (map fst q) /\
  Forall (fun x => d_entries st !! x.1 = Some x.2) q /\
  Forall (fun x => x <> 16) (g_property_list st :: map fst q) /\
  d_entries st !! g_property_list st = None.

(** An entry leaves the queue at the front. *)
Lemma queue_pop st e p q nodes :
  queue st ((e, p) :: q) -> teei_list_del e (d_nodes st) = Some nodes ->
  queue (set_entries (delete e (d_entries st)) (set_nodes (delete e nodes) st)) q.
Proof.
  intros (Hl & Hd & Hz & Hh) Hdel. pose proof Hl as [Hnd _].
  destruct (is_list_unlink _ _ [] e (map fst q) Hl) as (nodes' & Hdel' & Hl' & _).
  rewrite Hdel in Hdel'. injection Hdel' as <-.
  cbn [map fst] in Hnd. apply NoDup_cons in Hnd as [H1 Hnd]. apply NoDup_cons in Hnd as [H2 _].
  inversion_clear Hd as [|? ? _ Hd']. inversion_clear Hz as [|? ? Hz1 Hz']. inversion_clear Hz' as [|? ? _ Hz2].
  split_and!; simpl.
  - apply is_list_free; [|done]. rewrite not_elem_of_cons. split; [|done].
    intros ->. apply H1. left.
  - rewrite Forall_forall in Hd' |- *. intros x Hx. rewrite lookup_delete_ne; [by apply Hd'|].
    intros ->. apply H2. by apply (list_elem_of_fmap_2 fst q x).
  - by constructor.
  - by apply lookup_delete_None; right.
Qed.

(** How an iteration of the loop ends. *)
Definition iteration (q : list (Z * teei_property_struct)) s (o : outcome (option Z)) s' : Prop :=
  (exists r, sr_ret r <> 0 /\ o = Ret None /\ globals s' = globals s /\ trace s' = trace s ++ [Ev Lib_sem_wait r]) \/
  exists r l, sr_ret r = 0 /\
  ((sr_ret l <> 0 /\ o = Ret (Some (-1)) /\ globals s' = globals s /\
    trace s' = trace s ++ [Ev Lib_sem_wait r; Ev Lib_mutex_lock l]) \/
   (sr_ret l = 0 /\ exists u, let locked := [Ev Lib_sem_wait r; Ev Lib_mutex_lock l; Ev Lib_mutex_unlock u] in
    match q with
    | [] => o = Stop Undefined /\ d_entries (globals s') = d_entries (globals s) /\ trace s' = trace s ++ locked
    | (e, p) :: q' => o = Ret None /\ queue (globals s') q' /\
        d_entries (globals s') = delete e (d_entries (globals s)) /\
        exists x f1 f2 f3, trace s' = trace s ++ locked ++
          [Ev (Lib_property_set (path p) (property_context p)) x; Ev Lib_free f1; Ev Lib_free f2; Ev Lib_free f3]
    end)).

Lemma property_step_spec q s : queue (globals s) q -> wp property_setting_step (iteration q s) s.
Proof.
  intros Hq. pose proof Hq as (Hl & Hd & Hz & Hh).
  unfold property_setting_step, free. apply wp_bind. apply wp_sys; intros r1 w1 _.
  apply wp_if; intros Hr1; [apply wp_ret; left; exists r1; split_and!; [lia|done..]|].
  apply wp_bind, wp_gets. unfold id. cbn [globals after].
  set (e := match q with [] => g_property_list (globals s) | x :: _ => x.1 end).
  assert (get_next (d_nodes (globals s)) (g_property_list (globals s)) = Some e /\ e <> 16) as [Hn He].
  { split; [destruct Hl as [_ Hc]; destruct q; apply Hc|].
    inversion_clear Hz as [|? ? H1 H2]. destruct q; [done|]. by inversion_clear H2. }
  rewrite Hn. replace (e - 16 =? 0) with false by lia. apply wp_bind. apply wp_sys; intros r2 w2 _.
  apply wp_if; intros Hr2.
  { apply wp_ret. right. exists r1, r2. split; [lia|]. left. split_and!; [lia|done..|]. simpl. by rewrite <- app_assoc. }
  assert (exists nodes, teei_list_del e (d_nodes (globals s)) = Some nodes) as [nodes Hdel].
  { destruct q as [|[e' p] q]; [by apply (teei_list_del_alone _ _ Hl)|].
    destruct (is_list_unlink _ _ [] e' (map fst q) Hl) as (nodes & Hdel & _). eauto. }
  apply wp_bind, wp_gets. cbn [globals after]. rewrite Hdel.
  apply wp_bind, wp_modify, wp_bind. apply wp_sys; intros r3 w3 _.
  apply wp_bind, wp_gets. cbn [globals after set_nodes d_entries].
  destruct q as [|[e' p] q]; subst e; cbn [fst] in *.
  - rewrite Hh. apply wp_halt. right. exists r1, r2. split; [lia|]. right. split; [lia|]. exists r3.
    split_and!; [done..|]. simpl. by rewrite <- !app_assoc.
  - inversion_clear Hd as [|? ? Hp _]. cbn [fst snd] in Hp. rewrite Hp.
    apply wp_bind. apply wp_sys; intros r4 w4 _.
    do 3 (apply wp_bind, wp_bind; wp_sys_intro; apply wp_ret).
    apply wp_bind, wp_modify, wp_ret. right. exists r1, r2. split; [lia|]. right. split; [lia|]. exists r3.
    split; [done|]. split; [exact (queue_pop _ _ _ _ _ Hq Hdel)|]. split; [done|].
    do 4 eexists. simpl. rewrite <- !app_assoc. done.
Qed.

(** The entries that were served are freed. *)
Definition freed (dn : list (Z * teei_property_struct)) (m : gmap Z teei_property_struct) : gmap Z teei_property_struct :=
  foldl (fun m x => delete x.1 m) m dn.

(** How the loop ends, after serving the queue [q] down to [q']. *)
Definition loop_end (fuel : nat) s (o : outcome Z) s' (evs : list event) (q' : list (Z * teei_property_struct)) : Prop :=
  (o = Stop OutOfFuel /\ trace s' = trace s ++ evs /\ waits evs = fuel /\ queue (globals s') q') \/
  exists r l, sr_ret r = 0 /\
  ((sr_ret l <> 0 /\ o = Ret (-1) /\ trace s' = trace s ++ evs ++ [Ev Lib_sem_wait r; Ev Lib_mutex_lock l] /\
    queue (globals s') q') \/
   (sr_ret l = 0 /\ o = Stop Undefined /\ q' = [] /\
    exists u, trace s' = trace s ++ evs ++ [Ev Lib_sem_wait r; Ev Lib_mutex_lock l; Ev Lib_mutex_unlock u])).

Lemma loop_end_more fuel s s1 o s' pre evs q' :
  trace s1 = trace s ++ pre -> waits (pre ++ evs) = S (waits evs) ->
  loop_end fuel s1 o s' evs q' -> loop_end (S fuel) s o s' (pre ++ evs) q'.
Proof.
  intros Ht Hw [(-> & H1 & <- & H3)|(r & l & Hr & [(Hl & -> & H1 & H2)|(Hl & -> & -> & u & H1)])];
    rewrite Ht, <- ?app_assoc in H1.
  - left. split_and!; [done|done|lia|done].
  - right. exists r, l. split; [done|]. left. split_and!; [done|done| |done]. by rewrite <- !app_assoc.
  - right. exists r, l. split; [done|]. right. split_and!; [done|done|done|]. exists u. by rewrite <- !app_assoc.
Qed.

Lemma property_setting_loop fuel q s :
  queue (globals s) q ->
  wp (property_setting_fn fuel) (fun o s' => exists dn evs q', q = dn ++ q' /\
    served (map snd q) evs (map snd q') /\ d_entries (globals s') = freed dn (d_entries (globals s)) /\
    loop_end fuel s o s' evs q') s.
Proof.
  revert q s. induction fuel as [|fuel IH]; intros q s Hq; cbn [property_setting_fn].
  { apply wp_halt. exists [], [], q. split_and!; [done|constructor|done|]. left. by rewrite app_nil_r. }
  apply wp_bind. eapply wp_mono; [by apply property_step_spec|].
  intros o s1 [(r & Hr & -> & Hg & Ht)|(r & l & Hr & [(Hl & -> & Hg & Ht)|(Hl & u & H)])].
  - eapply wp_mono; [apply (IH q); by rewrite Hg|]. rewrite Hg. intros o' s' (dn & evs & q' & Hqq & Hserved & Hent & Hend).
    exists dn, (Ev Lib_sem_wait r :: evs), q'. split_and!; [done|by constructor|done|].
    by apply (loop_end_more fuel s s1 o' s' [Ev Lib_sem_wait r] evs).
  - apply wp_ret. exists [], [], q. split_and!; [done|constructor|by rewrite Hg|]. right. exists r, l. split; [done|]. left.
    split_and!; [done|done|done|by rewrite Hg].
  - destruct q as [|[e p] q].
    + destruct H as (-> & He & Ht). exists [], [], []. split_and!; [done|constructor|done|]. right. exists r, l. split; [done|].
      right. split_and!; [done..|]. by exists u.
    + destruct H as (-> & Hq' & He & x & f1 & f2 & f3 & Ht). eapply wp_mono; [by apply (IH q)|].
      intros o' s' (dn & evs & q' & Hqq & Hserved & Hent & Hend). exists ((e, p) :: dn). do 2 eexists.
      split; [by rewrite Hqq|].
      split; [by apply Served_front with (r := r) (l := l) (u := u) (x := x) (f1 := f1) (f2 := f2) (f3 := f3)|].
      split; [by rewrite Hent, He|]. by eapply loop_end_more.
Qed.
End Properties.
