(* ===== verification/DaemonTheorems.v ===== *)
(** * What teei_daemon and its lists guarantee

    The theorems about 400/teei_daemon, each followed by an application to a
    concrete state. *)

From S2P Require Import Prelude Kernel TeeiList Daemon Storage StorageFiles MemKernel.

(** ** Concrete states *)

Definition three_nodes : gmap Z teei_list :=
  {[ 100 := Node 200 300; 200 := Node 300 100; 300 := Node 100 200; 400 := Node 0 0 ]}.

Lemma three_nodes_list : is_list three_nodes 100 [200; 300].
Proof.
  split; [|by vm_compute]. by apply (bool_decide_unpack _); vm_compute.
Qed.

Definition demo_queue : daemon_st :=
  DaemonSt init_param0 0 100 three_nodes
    {[ 200 := Property [1] [2]; 300 := Property [3] [4] ]}.

Definition demo_daemon : proc mem_world daemon_st :=
  Proc demo_queue (MemWorld ∅ ∅ [] 0 7 []) 0 [].

Definition demo_uuid : bytes := replicate (Z.to_nat 32) 97.

Lemma demo_uuids_ok n o : o = 114 \/ o = 116 -> Forall uuid_opt (replicate n (o, demo_uuid)).
Proof. intros. by apply Forall_replicate. Qed.

(** ** Lists *)

(** C32. Insertion.  On a well-formed list with entries [l], adding a fresh
    node at the head or at the tail succeeds and the list then has the entries
    [e :: l] or [l ++ [e]]; walking the new list visits exactly them. *)
Theorem list_insertion_refines (h : heap) hd l e :
  is_list h hd l -> alloc h e -> e ∉ hd :: l ->
  (exists h', teei_list_add hd e h = Some h' /\ is_list h' hd (e :: l) /\
     exists c, get_next h' hd = Some c /\
       list_for_each (S (S (length l))) c hd h' = Some (e :: l)) /\
  (exists h', teei_list_add_tail hd e h = Some h' /\ is_list h' hd (l ++ [e]) /\
     exists c, get_next h' hd = Some c /\
       list_for_each (S (S (length l))) c hd h' = Some (l ++ [e])).
Proof.
  intros Hl Ha He. split.
  - destruct (teei_list_add_spec h hd l e Hl Ha He) as (h' & Hadd & Hl'). exists h'.
    split_and!; [done|done|]. apply list_for_each_spec; [done|]. simpl; lia.
  - destruct (teei_list_add_tail_spec h hd l e Hl Ha He) as (h' & Hadd & Hl'). exists h'.
    split_and!; [done|done|]. apply list_for_each_spec; [done|]. rewrite length_app; simpl; lia.
Qed.

Lemma list_insertion_refines_witness :
  (exists h', teei_list_add 100 400 three_nodes = Some h' /\ is_list h' 100 [400; 200; 300] /\
     exists c, get_next h' 100 = Some c /\ list_for_each 4 c 100 h' = Some [400; 200; 300]) /\
  (exists h', teei_list_add_tail 100 400 three_nodes = Some h' /\ is_list h' 100 [200; 300; 400] /\
     exists c, get_next h' 100 = Some c /\ list_for_each 4 c 100 h' = Some [200; 300; 400]).
Proof.
  apply (list_insertion_refines three_nodes 100 [200; 300] 400).
  - apply three_nodes_list.
  - by eexists.
  - by apply (bool_decide_unpack _); vm_compute.
Defined.

(** C33. Removal.  Removing an entry leaves the list of the others and poisons
    the removed node; popping at either end returns the entry at that end; the
    emptiness test is exact. *)
Theorem list_removal_refines (h : heap) hd l1 e l2 :
  is_list h hd (l1 ++ e :: l2) ->
  (exists h', teei_list_del e h = Some h' /\ is_list h' hd (l1 ++ l2) /\
     get_next h' e = Some LIST_POISON_NEXT /\ get_prev h' e = Some LIST_POISON_PREV) /\
  (l1 = [] -> exists h', teei_list_pop hd h = Some (e, h') /\ is_list h' hd l2) /\
  (l2 = [] -> exists h', teei_list_pop_tail hd h = Some (e, h') /\ is_list h' hd l1) /\
  teei_list_empty hd h = Some 0 /\
  (forall h', is_list h' hd [] -> teei_list_empty hd h' = Some 1).
Proof.
  intros Hl. split_and!.
  - by apply is_list_unlink.
  - intros ->. by apply teei_list_pop_spec.
  - intros ->. by apply teei_list_pop_tail_spec.
  - rewrite (teei_list_empty_spec h hd _ Hl). by destruct l1.
  - intros h' Hl'. by rewrite (teei_list_empty_spec h' hd _ Hl').
Qed.

Lemma list_removal_refines_witness :
  (exists h', teei_list_del 200 three_nodes = Some h' /\ is_list h' 100 [300] /\
     get_next h' 200 = Some LIST_POISON_NEXT /\ get_prev h' 200 = Some LIST_POISON_PREV) /\
  (@nil Z = [] -> exists h', teei_list_pop 100 three_nodes = Some (200, h') /\ is_list h' 100 [300]) /\
  ([300] = [] -> exists h', teei_list_pop_tail 100 three_nodes = Some (200, h') /\ is_list h' 100 []) /\
  teei_list_empty 100 three_nodes = Some 0 /\
  (forall h', is_list h' 100 [] -> teei_list_empty 100 h' = Some 1).
Proof. apply (list_removal_refines three_nodes 100 [] 200 [300]), three_nodes_list. Defined.

(** ** Drivers to load *)

(** C35. The table handed to the kernel driver.  With options -r and -t of 32
    characters and at most 30 entries in all (the options, which a build without
    the switches for trusted applications ignores, and the built-in driver,
    which a build for small memory leaves out: so at most 29 options in a full
    build), the initialisation thread passes to the driver, in the bytes of
    struct init_param, the UUIDs in the order of the options, zero-terminated,
    then the built-in driver, the other slots zero, with the number of entries
    and with bit [i] of the flag word set exactly when entry [i] came from a -t
    option.  It does so unless the device cannot be opened, and announces
    INIT_OK exactly when the driver accepts. *)
Theorem uuid_table_exact {W} `{K : Kernel W} ta_support min_mem opts (s : proc W daemon_st) :
  d_param (globals s) = init_param0 -> Forall uuid_opt opts -> (length (entries ta_support min_mem opts) <= 30)%nat ->
  let run := (collect_uuids ta_support min_mem opts;; init_soter_fn) s in
  exists fd, let opened := Ev (Sys_open TEEI_CONFIG O_RDWR 0) fd in
    (sr_ret fd < 0 /\ run.1 = Ret (-1) /\ trace run.2 = trace s ++ [opened]) \/
    (0 <= sr_ret fd /\ run.1 = Ret 0 /\ exists b r rest c, loads b (entries ta_support min_mem opts) /\
       trace run.2 = trace s ++ [opened; Ev (Sys_ioctl (sr_ret fd) TEEI_CONFIG_IOCTL_INIT_TEEI (Arg_buf b)) r] ++
         rest ++ [Ev (Sys_close (sr_ret fd)) c] /\
       (sr_ret r = 0 -> exists x, rest = [Ev (Lib_property_set (cstr "vendor.soter.teei.init") (cstr "INIT_OK")) x]) /\
       (sr_ret r <> 0 -> rest = [])).
Proof.
  intros Hp Hf Hl. destruct (collect_uuids_spec ta_support min_mem opts s Hp Hf Hl) as (s' & Hc & Hp' & Ht).
  unfold mbind, M_bind. rewrite Hc, <- Ht. apply (init_soter_passes s' _ Hp' Hl).
  apply Forall_app. split; [by destruct ta_support|]. destruct min_mem; [constructor|].
  apply Forall_singleton. split; [by left|done].
Qed.

Definition demo_driver : proc mem_world daemon_st :=
  Proc demo_queue (MemWorld {[ TEEI_CONFIG := [] ]} ∅ [] 0 7 []) 0 [].

(** Three -t options, and a driver that accepts the table. *)
Lemma uuid_table_exact_witness :
  let opts := replicate 3 (116, demo_uuid) in
  let run := (collect_uuids true false opts;; init_soter_fn) demo_driver in
  (exists fd, let opened := Ev (Sys_open TEEI_CONFIG O_RDWR 0) fd in
    (sr_ret fd < 0 /\ run.1 = Ret (-1) /\ trace run.2 = trace demo_driver ++ [opened]) \/
    (0 <= sr_ret fd /\ run.1 = Ret 0 /\ exists b r rest c, loads b (entries true false opts) /\
       trace run.2 = trace demo_driver ++ [opened; Ev (Sys_ioctl (sr_ret fd) TEEI_CONFIG_IOCTL_INIT_TEEI (Arg_buf b)) r] ++
         rest ++ [Ev (Sys_close (sr_ret fd)) c] /\
       (sr_ret r = 0 -> exists x, rest = [Ev (Lib_property_set (cstr "vendor.soter.teei.init") (cstr "INIT_OK")) x]) /\
       (sr_ret r <> 0 -> rest = []))) /\ run.1 = Ret 0.
Proof.
  split; [|by vm_compute].
  apply (uuid_table_exact true false); [done|apply demo_uuids_ok; by right|vm_compute; lia].
Defined.

(** With 30 UUID options the table is full and the built-in driver is
    copied past its end: the check the option loop makes is missing there. *)
Theorem uuid_table_overflow {W} `{K : Kernel W} opts (s : proc W daemon_st) :
  d_param (globals s) = init_param0 -> Forall uuid_opt opts -> length opts = 30%nat ->
  (parse_uuid_opts true opts s).1 = Ret tt /\
  (collect_uuids true false opts s).1 = Stop Undefined.
Proof.
  intros Hp Hf Hl. split; [|by apply collect_uuids_full].
  rewrite (parse_uuid_opts_spec opts [] s Hp) by (simpl; lia || done). done.
Qed.

Lemma uuid_table_overflow_witness :
  (parse_uuid_opts true (replicate 30 (114, demo_uuid)) demo_daemon).1 = Ret tt /\
  (collect_uuids true false (replicate 30 (114, demo_uuid)) demo_daemon).1 = Stop Undefined.
Proof. apply uuid_table_overflow; [done|apply demo_uuids_ok; by left|done]. Defined.

(** ** Unlocking and properties *)

(** C36. The keymaster is unlocked only after the daemon has seen that user
    data is available: before the first unlock command [load_tee_fn] has read a
    property that says the device is not encrypted, uses file-based encryption,
    or has been decrypted.  When it returns, the unlock state is set. *)
Theorem unlock_after_evidence {W} `{K : Kernel W} fuel (s : proc W daemon_st) :
  let run := load_tee_fn fuel s in
  exists pre post, trace run.2 = trace s ++ pre ++ post /\ existsb is_unlock pre = false /\
    (existsb is_unlock post = true -> existsb evidence pre = true) /\
    (forall rc, run.1 = Ret rc ->
       rc = 0 /\ existsb evidence pre = true /\ unlock_state (globals run.2) = 1).
Proof.
  destruct (load_tee_spec fuel s) as (pre & post & Ht & Hu & Ho). exists pre, post.
  split_and!; [done|done| |].
  - destruct (load_tee_fn fuel s).1; [by destruct Ho as (_ & ? & _)|by subst post].
  - intros rc Hrc. by rewrite Hrc in Ho.
Qed.


Lemma demo_queue_ok : queue demo_queue [(200, Property [1] [2]); (300, Property [3] [4])].
Proof. split; [apply three_nodes_list|]. by split_and!; repeat constructor. Qed.


(** An empty queue is not detected: woken up with no entry queued, the
    property thread takes the list head itself for an entry and reads a
    property that does not exist. *)
Theorem empty_queue_undefined :
  let st := DaemonSt init_param0 0 100 {[ 100 := Node 100 100 ]} ∅ in
  queue st [] /\
  (property_setting_step (Proc st (MemWorld ∅ ∅ [] 0 7 []) 0 [])).1 = Stop Undefined.
Proof.
  split; [|by vm_compute]. split; [split; [apply NoDup_singleton|by vm_compute]|]. by split_and!; repeat constructor.
Qed.
