(* ===== verification/Teec.v ===== *)
(** * libteec (400/optee_client/libteec): the GlobalPlatform client API

    tee_client_api.cpp drives the isee_tee device: contexts and sessions, which
    the [Common] singleton records in two maps, shared memory, and operations,
    whose four parameters are marshalled into the argument buffer of an ioctl
    and unmarshalled from it afterwards.  tee.h fixes the layout of that
    buffer, tee_client_api.h the client's structures. *)

From S2P Require Import Prelude Kernel.

(** ** Constants of tee_client_api.h *)

Definition TEEC_CONFIG_PAYLOAD_REF_COUNT : nat := 4.

Definition TEEC_NONE := 0.
Definition TEEC_VALUE_INPUT := 1.
Definition TEEC_VALUE_OUTPUT := 2.
Definition TEEC_VALUE_INOUT := 3.
Definition TEEC_MEMREF_TEMP_INPUT := 5.
Definition TEEC_MEMREF_TEMP_OUTPUT := 6.
Definition TEEC_MEMREF_TEMP_INOUT := 7.
Definition TEEC_MEMREF_WHOLE := 12.
Definition TEEC_MEMREF_PARTIAL_INPUT := 13.
Definition TEEC_MEMREF_PARTIAL_OUTPUT := 14.
Definition TEEC_MEMREF_PARTIAL_INOUT := 15.

Definition TEEC_MEM_INPUT := 1.
Definition TEEC_MEM_OUTPUT := 2.

Definition TEEC_SUCCESS := 0.
Definition TEEC_ERROR_GENERIC := 4294901760.
Definition TEEC_ERROR_BAD_PARAMETERS := 4294901766.
Definition TEEC_ERROR_ITEM_NOT_FOUND := 4294901768.
Definition TEEC_ERROR_NOT_SUPPORTED := 4294901770.
Definition TEEC_ERROR_OUT_OF_MEMORY := 4294901772.

Definition TEEC_ORIGIN_API := 1.
Definition TEEC_ORIGIN_COMMS := 2.
Definition TEEC_ORIGIN_TEE := 3.
Definition TEEC_ORIGIN_TRUSTED_APP := 4.

Definition TEEC_LOGIN_PUBLIC := 0.
Definition TEEC_LOGIN_USER := 1.
Definition TEEC_LOGIN_GROUP := 2.
Definition TEEC_LOGIN_APPLICATION := 4.
Definition TEEC_LOGIN_USER_APPLICATION := 5.
Definition TEEC_LOGIN_GROUP_APPLICATION := 6.

Definition TEEC_PARAM_TYPES (p0 p1 p2 p3 : Z) : Z :=
  Z.lor (Z.lor (Z.lor p0 (Z.shiftl p1 4)) (Z.shiftl p2 8)) (Z.shiftl p3 12).
Definition TEEC_PARAM_TYPE_GET (p i : Z) : Z := Z.land (Z.shiftr p (i * 4)) 15.

(** ** Structures of tee_client_api.h *)

Record TEEC_UUID := Uuid {
  timeLow : Z; timeMid : Z; timeHiAndVersion : Z; clockSeqAndNode : bytes
}.

(** A pointer into a buffer: null, a block of the application's own memory, or
    an address [mmap] returned. *)
Inductive ptr := PNull | PLocal (block : Z) | PMap (addr : Z).
#[export] Instance ptr_eq_dec : EqDecision ptr.
Proof. solve_decision. Defined.

Definition is_null (p : ptr) : bool := match p with PNull => true | _ => false end.

Record TEEC_SharedMemory := Shm {
  shm_buffer : ptr; shm_size : Z; shm_flags : Z; shm_id : Z; alloced_size : Z;
  shadow_buffer : ptr; registered_fd : Z
}.

(** [memset(shm, 0, sizeof *shm)] *)
Definition shm0 : TEEC_SharedMemory := Shm PNull 0 0 0 0 PNull 0.

Record TEEC_TempMemoryReference := Tmpref { tmp_buffer : ptr; tmp_size : Z }.
(** [parent] is a pointer the operations only read through. *)
Record TEEC_RegisteredMemoryReference := Memref {
  parent : option TEEC_SharedMemory; mem_size : Z; mem_offset : Z
}.
Record TEEC_Value := Value { value_a : Z; value_b : Z }.

(** The union of the three; the parameter type selects the member, so the
    members are kept side by side. *)
Record TEEC_Parameter := MkParameter {
  tmpref : TEEC_TempMemoryReference; memref : TEEC_RegisteredMemoryReference; value : TEEC_Value
}.
Definition set_tmp_size (p : TEEC_Parameter) (n : Z) : TEEC_Parameter :=
  MkParameter (Tmpref (tmp_buffer (tmpref p)) n) (memref p) (value p).
Definition set_mem_size (p : TEEC_Parameter) (n : Z) : TEEC_Parameter :=
  MkParameter (tmpref p) (Memref (parent (memref p)) n (mem_offset (memref p))) (value p).
Definition set_value (p : TEEC_Parameter) (a b : Z) : TEEC_Parameter :=
  MkParameter (tmpref p) (memref p) (Value a b).

(** [op_session] is the pointer the last invocation left. *)
Record TEEC_Operation := Operation {
  paramTypes : Z; op_params : list TEEC_Parameter; op_session : option Z
}.
Definition set_params (op : TEEC_Operation) ps : TEEC_Operation :=
  Operation (paramTypes op) ps (op_session op).

Record TEEC_Session := Session { ctx : Z; session_id : Z }.

(** ** tee.h *)

Definition TEE_IOC_MAGIC := 164.
Definition _IOC (dir nr size : Z) : Z :=
  Z.lor (Z.shiftl dir 30) (Z.lor (Z.shiftl size 16) (Z.lor (Z.shiftl TEE_IOC_MAGIC 8) nr)).
Definition _IOR := _IOC 2.
Definition _IOWR := _IOC 3.
Definition TEE_MAX_HOSTNAME_SIZE := 16.
Definition TEE_GEN_CAP_GP := 1.
Definition TEE_IOC_VERSION := _IOR 0 12.
Definition TEE_IOC_SHM_ALLOC := _IOWR 1 16.
Definition TEE_IOC_OPEN_SESSION := _IOR 2 16.
Definition TEE_IOC_INVOKE := _IOR 3 16.
Definition TEE_IOC_CANCEL := _IOR 4 8.
Definition TEE_IOC_CLOSE_SESSION := _IOR 5 4.
Definition TEE_IOC_SET_HOSTNAME := _IOR 8 16.
Definition TEE_IOC_SHM_RELEASE := _IOR 12 16.
Definition TEE_IOC_SHM_ID := _IOR 13 16.

Definition TEE_IOCTL_PARAM_ATTR_TYPE_MEMREF_INPUT := 5.
Definition TEE_IOCTL_PARAM_ATTR_TYPE_MEMREF_OUTPUT := 6.
Definition TEE_IOCTL_PARAM_ATTR_TYPE_MEMREF_INOUT := 7.

(** struct tee_ioctl_param: the union's memref (shm_offs, size, shm_id) and
    value (a, b, c) overlay the same three words. *)
Record tee_ioctl_param := Param { attr : Z; w0 : Z; w1 : Z; w2 : Z }.
Definition param0 : tee_ioctl_param := Param 0 0 0 0.
Definition value_param (attr a b : Z) : tee_ioctl_param := Param attr a b 0.
Definition memref_param (attr offs size id : Z) : tee_ioctl_param := Param attr offs size (u64 id).
Definition memref_size (p : tee_ioctl_param) : Z := w1 p.

Definition sizeof_param := 32.
Definition param_enc (p : tee_ioctl_param) : bytes :=
  le_enc 8 (attr p) ++ le_enc 8 (w0 p) ++ le_enc 8 (w1 p) ++ le_enc 8 (w2 p).
Definition param_dec (b : bytes) : tee_ioctl_param :=
  Param (get_u64 b 0) (get_u64 b 8) (get_u64 b 16) (get_u64 b 24).
Definition params_enc (ps : list tee_ioctl_param) : bytes := concat (map param_enc ps).
(** The parameters that follow a header of [hdr] bytes. *)
Definition params_dec (hdr : Z) (b : bytes) : list tee_ioctl_param :=
  map (fun i => param_dec (slice (hdr + i * sizeof_param) sizeof_param b)) [0; 1; 2; 3].

(** struct tee_ioctl_open_session_arg with its parameters. *)
Definition sizeof_open_session_arg := 56.
Definition open_session_enc (uuid : bytes) (clnt_login : Z) (ps : list tee_ioctl_param) : bytes :=
  uuid ++ replicate 16 0 ++ le_enc 4 clnt_login ++ replicate 16 0 ++ le_enc 4 4 ++ params_enc ps.

(** struct tee_ioctl_invoke_arg with its parameters. *)
Definition sizeof_invoke_arg := 24.
Definition invoke_enc (func session : Z) (ps : list tee_ioctl_param) : bytes :=
  le_enc 4 func ++ le_enc 4 session ++ replicate 12 0 ++ le_enc 4 4 ++ params_enc ps.

(** What the kernel leaves in a buffer it may write to: the bytes of [data] over
    its start, never beyond its end. *)
Definition copy_out (buf data : bytes) : bytes :=
  map u8 (take (length buf) data) ++ drop (length data) buf.

(** ** The library *)

(** The structures the application's pointers refer to, the application's
    buffers, and the two maps of the [Common] singleton, whose keys and values
    are the same pointer; a std::map is iterated in key order. *)
Record teec_st := TeecSt {
  contexts : gmap Z Z;
  sessions : gmap Z TEEC_Session;
  blocks : gmap Z bytes;
  _sessionMap : list Z;
  _contextMap : list Z
}.
Definition set_contexts f (g : teec_st) := TeecSt (f (contexts g)) (sessions g) (blocks g) (_sessionMap g) (_contextMap g).
Definition set_sessions f (g : teec_st) := TeecSt (contexts g) (f (sessions g)) (blocks g) (_sessionMap g) (_contextMap g).
Definition set_blocks f (g : teec_st) := TeecSt (contexts g) (sessions g) (f (blocks g)) (_sessionMap g) (_contextMap g).
Definition set_sessionMap f (g : teec_st) := TeecSt (contexts g) (sessions g) (blocks g) (f (_sessionMap g)) (_contextMap g).
Definition set_contextMap f (g : teec_st) := TeecSt (contexts g) (sessions g) (blocks g) (_sessionMap g) (f (_contextMap g)).

(** [m[k] = k] on a std::map *)
Fixpoint map_put (k : Z) (m : list Z) : list Z :=
  match m with
  | [] => [k]
  | x :: m' => if k <? x then k :: x :: m' else if k =? x then m else x :: map_put k m'
  end.
Definition map_erase (k : Z) (m : list Z) : list Z := filter (fun x => x <> k) m.
Definition map_has (k : Z) (m : list Z) : bool := bool_decide (k ∈ m).

Definition TEEC_MAX_DEV_SEQ : nat := 10.
Definition DEFAULT_CAPABILITY : bytes := cstr "bta_loader".
Definition TTA : bytes := cstr "tta".

(** [snprintf("/dev/isee_tee%zu", n)] for the one-digit numbers tried. *)
Definition devname (n : nat) : bytes := cstr "/dev/isee_tee" ++ [48 + Z.of_nat n].

(** [strncpy(arg.hostname, s, TEE_MAX_HOSTNAME_SIZE-1)] into a zeroed struct. *)
Definition hostname_arg (s : bytes) : bytes :=
  let s' := take 15 s in s' ++ replicate (16 - length s') 0.

Definition uuid_to_octets (s : TEEC_UUID) : bytes :=
  [u8 (Z.shiftr (timeLow s) 24); u8 (Z.shiftr (timeLow s) 16); u8 (Z.shiftr (timeLow s) 8);
   u8 (timeLow s);
   u8 (Z.shiftr (timeMid s) 8); u8 (timeMid s);
   u8 (Z.shiftr (timeHiAndVersion s) 8); u8 (timeHiAndVersion s)]
  ++ clockSeqAndNode s.

Definition ioctl_errno_to_res (err : Z) : Z :=
  if err =? ENOMEM then TEEC_ERROR_OUT_OF_MEMORY else TEEC_ERROR_GENERIC.

Section Teec.
Context {W : Type} `{K : Kernel W}.
Abbreviation TM := (M W teec_st).

(** ** Memory *)

(** A dereferenced pointer must point to a live object. *)
Definition deref {A} (o : option A) : TM A :=
  match o with Some a => mret a | None => halt Undefined end.

Definition load (p : ptr) (off n : Z) : TM bytes :=
  match p with
  | PNull => if n =? 0 then mret [] else halt Undefined
  | PLocal b =>
      m ← gets blocks;
      d ← deref (m !! b);
      if off + n <=? zlen d then mret (slice off n d) else halt Undefined
  | PMap a =>
      r ← sys (Mem_load (a + off) n);
      mret (copy_out (replicate (Z.to_nat n) 0) (sr_data r))
  end.

Definition store (p : ptr) (off : Z) (data : bytes) : TM unit :=
  match p with
  | PNull => if zlen data =? 0 then mret tt else halt Undefined
  | PLocal b =>
      m ← gets blocks;
      d ← deref (m !! b);
      if off + zlen data <=? zlen d
      then modify (set_blocks (<[b := splice d off data]>))
      else halt Undefined
  | PMap a => sys (Mem_store (a + off) data);; mret tt
  end.

(** [memcpy(dst + off, src + off, n)] *)
Definition memcpy (dst src : ptr) (off n : Z) : TM unit :=
  d ← load src off n; store dst off d.

(** [munmap(p, size)]: only mappings may be unmapped. *)
Definition munmap (p : ptr) (size : Z) : TM unit :=
  match p with
  | PMap a => sys (Sys_munmap a size);; mret tt
  | _ => halt Undefined
  end.

(** ** The device *)

Definition ut_close_session (s : TEEC_Session) : TM unit :=
  cs ← gets contexts;
  fd ← deref (cs !! ctx s);
  sys (Sys_ioctl fd TEE_IOC_CLOSE_SESSION (Arg_buf (le_enc 4 (session_id s))));;
  mret tt.

Definition ut_close_fd (fd : Z) : TM unit := sys (Sys_close fd);; mret tt.

(** The host name asked for; [gptee] is the build option DEFAULT_TEE_GPTEE. *)
Definition select_hostname (gptee : bool) (capabilities : option bytes) : option bytes :=
  if negb gptee then
    if bool_decide (capabilities = Some TTA) then Some TTA else Some DEFAULT_CAPABILITY
  else if bool_decide (capabilities = Some DEFAULT_CAPABILITY) then Some DEFAULT_CAPABILITY
  else if bool_decide (capabilities = None \/ capabilities = Some TTA) then Some TTA
  else None.

Definition teec_open_dev (gptee : bool) (dev : bytes) (capabilities : option bytes) : TM Z :=
  r ← sys (Sys_open dev O_RDWR 0);
  let fd := sr_ret r in
  if fd <? 0 then mret (-1)
  else
    v ← sys (Sys_ioctl fd TEE_IOC_VERSION (Arg_buf []));
    if negb (sr_ret v =? 0) then ut_close_fd fd;; mret (-1)
    else if negb (has_flag (get_u32 (copy_out (replicate 12 0) (sr_data v)) 8) TEE_GEN_CAP_GP)
    then ut_close_fd fd;; mret (-1)
    else
      match select_hostname gptee capabilities with
      | None => ut_close_fd fd;; mret (-1)
      | Some host =>
          h ← sys (Sys_ioctl fd TEE_IOC_SET_HOSTNAME (Arg_buf (hostname_arg host)));
          if negb (sr_ret h =? 0) then ut_close_fd fd;; mret (-1)
          else mret fd
      end.

(** [None] is the failure -1; otherwise the descriptor and [*id]. *)
Definition teec_shm_alloc (fd size : Z) : TM (option (Z * Z)) :=
  let data := le_enc 8 size ++ le_enc 4 0 ++ le_enc 4 0 in
  r ← sys (Sys_ioctl fd TEE_IOC_SHM_ALLOC (Arg_buf data));
  if sr_ret r <? 0 then mret None
  else mret (Some (sr_ret r, get_s32 (copy_out data (sr_data r)) 12)).

Definition teec_shm_get_id (fd uaddr : Z) : TM Z :=
  r ← sys (Sys_ioctl fd TEE_IOC_SHM_ID (Arg_int uaddr));
  if sr_ret r <? 0 then mret (-1) else mret (sr_ret r).

(** ** Contexts *)

(** The device loop of [TEEC_InitializeContext], with the devices left to try. *)
Fixpoint try_devices (gptee : bool) (name : option bytes) (c : Z) (ns : list nat) : TM Z :=
  match ns with
  | [] => mret TEEC_ERROR_ITEM_NOT_FOUND
  | n :: ns' =>
      fd ← teec_open_dev gptee (devname n) name;
      if 0 <=? fd then
        modify (set_contexts (<[c := fd]>));;
        modify (set_contextMap (map_put c));;
        mret TEEC_SUCCESS
      else try_devices gptee name c ns'
  end.

Definition TEEC_InitializeContext (gptee : bool) (name : option bytes) (c : option Z) : TM Z :=
  match c with
  | None => mret TEEC_ERROR_BAD_PARAMETERS
  | Some c => try_devices gptee name c (seq 0 TEEC_MAX_DEV_SEQ)
  end.

(** The session loop of [TEEC_FinalizeContext]: the iterator runs over [it];
    after [erase] returned the successor the loop header increments it again,
    which is undefined at the end of the map. *)
Fixpoint finalize_sessions (c : Z) (fuel : nat) (it : list Z) : TM unit :=
  match fuel, it with
  | _, [] => mret tt
  | O, _ => halt OutOfFuel
  | S fuel', p :: next =>
      ss ← gets sessions;
      s ← deref (ss !! p);
      if ctx s =? c then
        ut_close_session s;;
        modify (set_sessionMap (map_erase p));;
        match next with
        | [] => halt Undefined
        | _ :: next' => finalize_sessions c fuel' next'
        end
      else finalize_sessions c fuel' next
  end.

Definition TEEC_FinalizeContext (c : Z) : TM unit :=
  m ← gets _sessionMap;
  finalize_sessions c (length m) m;;
  cm ← gets _contextMap;
  if map_has c cm then
    cs ← gets contexts;
    fd ← deref (cs !! c);
    ut_close_fd fd;;
    modify (set_contextMap (map_erase c))
  else mret tt.

(** ** Shared memory *)

(** [!flags || (flags & ~(TEEC_MEM_INPUT | TEEC_MEM_OUTPUT))] *)
Definition bad_flags (flags : Z) : bool :=
  (flags =? 0) || negb (Z.land flags (Z.lnot (Z.lor TEEC_MEM_INPUT TEEC_MEM_OUTPUT)) =? 0).

Definition region_size (size : Z) : Z := if size =? 0 then 8 else size.

Definition TEEC_RegisterSharedMemory (c : option Z) (shm : option TEEC_SharedMemory)
    : TM (Z * option TEEC_SharedMemory) :=
  match c, shm with
  | Some c, Some m =>
      if bad_flags (shm_flags m) then mret (TEEC_ERROR_BAD_PARAMETERS, shm)
      else if is_null (shm_buffer m) then mret (TEEC_ERROR_BAD_PARAMETERS, shm)
      else
        let s := region_size (shm_size m) in
        cs ← gets contexts;
        fd ← deref (cs !! c);
        r ← sys (Sys_mmap s fd);
        let shadow := PMap (sr_ret r) in
        if sr_ret r =? -1 then
          mret (TEEC_ERROR_OUT_OF_MEMORY,
                Some (Shm (shm_buffer m) (shm_size m) (shm_flags m) (-1) (alloced_size m)
                          shadow (registered_fd m)))
        else
          id ← teec_shm_get_id fd (sr_ret r);
          mret (TEEC_SUCCESS,
                Some (Shm (shm_buffer m) (shm_size m) (shm_flags m) id s shadow fd))
  | _, _ => mret (TEEC_ERROR_BAD_PARAMETERS, shm)
  end.

(** Everything after its first statement is unreachable. *)
Definition TEEC_RegisterSharedMemoryFileDescriptor (c : option Z)
    (shm : option TEEC_SharedMemory) (fd : Z) : TM Z :=
  mret TEEC_ERROR_GENERIC.

Definition TEEC_AllocateSharedMemory (c : option Z) (shm : option TEEC_SharedMemory)
    : TM (Z * option TEEC_SharedMemory) :=
  match c, shm with
  | Some c, Some m =>
      if bad_flags (shm_flags m) then mret (TEEC_ERROR_BAD_PARAMETERS, shm)
      else
        let s := region_size (shm_size m) in
        cs ← gets contexts;
        fd ← deref (cs !! c);
        r ← sys (Sys_mmap s fd);
        let buf := PMap (sr_ret r) in
        if sr_ret r =? -1 then
          mret (TEEC_ERROR_OUT_OF_MEMORY,
                Some (Shm buf (shm_size m) (shm_flags m) (-1) (alloced_size m)
                          (shadow_buffer m) (registered_fd m)))
        else
          id ← teec_shm_get_id fd (sr_ret r);
          mret (TEEC_SUCCESS, Some (Shm buf (shm_size m) (shm_flags m) id s PNull fd))
  | _, _ => mret (TEEC_ERROR_BAD_PARAMETERS, shm)
  end.

Definition TEEC_ReleaseSharedMemory (shm : option TEEC_SharedMemory)
    : TM (option TEEC_SharedMemory) :=
  match shm with
  | None => mret shm
  | Some m =>
      if shm_id m =? -1 then mret shm
      else if registered_fd m <? 0 then mret shm
      else
        (if negb (is_null (shadow_buffer m)) then munmap (shadow_buffer m) (alloced_size m)
         else if negb (is_null (shm_buffer m)) then munmap (shm_buffer m) (alloced_size m)
         else ut_close_fd (registered_fd m));;
        let buf := if is_null (shadow_buffer m) then PNull else shm_buffer m in
        sys (Sys_ioctl (registered_fd m) TEE_IOC_SHM_RELEASE (Arg_int (shm_id m)));;
        mret (Some (Shm buf 0 (shm_flags m) (-1) (alloced_size m) PNull (-1)))
  end.

(** ** Operations: before the call *)

Definition teec_pre_process_whole (mr : TEEC_RegisteredMemoryReference)
    : TM (Z * tee_ioctl_param) :=
  shm ← deref (parent mr);
  let inout := Z.lor TEEC_MEM_INPUT TEEC_MEM_OUTPUT in
  let flags := Z.land (shm_flags shm) inout in
  match (if flags =? inout then Some TEE_IOCTL_PARAM_ATTR_TYPE_MEMREF_INOUT
         else if has_flag flags TEEC_MEM_INPUT then Some TEE_IOCTL_PARAM_ATTR_TYPE_MEMREF_INPUT
         else if has_flag flags TEEC_MEM_OUTPUT then Some TEE_IOCTL_PARAM_ATTR_TYPE_MEMREF_OUTPUT
         else None) with
  | None => mret (TEEC_ERROR_BAD_PARAMETERS, param0)
  | Some a =>
      (if negb (is_null (shadow_buffer shm)) && has_flag flags TEEC_MEM_INPUT
       then memcpy (shadow_buffer shm) (shm_buffer shm) 0 (shm_size shm)
       else mret tt);;
      mret (TEEC_SUCCESS, memref_param a 0 (shm_size shm) (shm_id shm))
  end.

(** The direction a partial or temporary reference asks for: the flags of the
    shared memory and the attribute of the parameter. *)
Definition ref_direction (input output inout param_type : Z) : option (Z * Z) :=
  if param_type =? input then Some (TEEC_MEM_INPUT, TEE_IOCTL_PARAM_ATTR_TYPE_MEMREF_INPUT)
  else if param_type =? output
  then Some (TEEC_MEM_OUTPUT, TEE_IOCTL_PARAM_ATTR_TYPE_MEMREF_OUTPUT)
  else if param_type =? inout
  then Some (Z.lor TEEC_MEM_OUTPUT TEEC_MEM_INPUT, TEE_IOCTL_PARAM_ATTR_TYPE_MEMREF_INOUT)
  else None.

Definition teec_pre_process_partial (param_type : Z) (mr : TEEC_RegisteredMemoryReference)
    : TM (Z * tee_ioctl_param) :=
  match ref_direction TEEC_MEMREF_PARTIAL_INPUT TEEC_MEMREF_PARTIAL_OUTPUT
          TEEC_MEMREF_PARTIAL_INOUT param_type with
  | None => mret (TEEC_ERROR_BAD_PARAMETERS, param0)
  | Some (req_shm_flags, a) =>
      shm ← deref (parent mr);
      if negb (Z.land (shm_flags shm) req_shm_flags =? req_shm_flags)
      then mret (TEEC_ERROR_BAD_PARAMETERS, Param a 0 0 0)
      else
        (if negb (is_null (shadow_buffer shm)) && negb (param_type =? TEEC_MEMREF_PARTIAL_OUTPUT)
         then memcpy (shadow_buffer shm) (shm_buffer shm) (mem_offset mr) (mem_size mr)
         else mret tt);;
        mret (TEEC_SUCCESS, memref_param a (mem_offset mr) (mem_size mr) (shm_id shm))
  end.

(** Result, parameter and temporary shared memory. *)
Definition teec_pre_process_tmpref (c : Z) (param_type : Z) (t : TEEC_TempMemoryReference)
    : TM (Z * tee_ioctl_param * TEEC_SharedMemory) :=
  match ref_direction TEEC_MEMREF_TEMP_INPUT TEEC_MEMREF_TEMP_OUTPUT
          TEEC_MEMREF_TEMP_INOUT param_type with
  | None => mret (TEEC_ERROR_BAD_PARAMETERS, param0, shm0)
  | Some (flags, a) =>
      '(res, m) ← TEEC_AllocateSharedMemory (Some c) (Some (Shm PNull (tmp_size t) flags 0 0 PNull 0));
      shm ← deref m;
      if negb (res =? TEEC_SUCCESS) then mret (res, Param a 0 0 0, shm)
      else
        memcpy (shm_buffer shm) (tmp_buffer t) 0 (tmp_size t);;
        mret (TEEC_SUCCESS, memref_param a 0 (tmp_size t) (shm_id shm), shm)
  end.

Definition is_value (ty : Z) : bool :=
  (ty =? TEEC_VALUE_INPUT) || (ty =? TEEC_VALUE_OUTPUT) || (ty =? TEEC_VALUE_INOUT).
Definition is_temp (ty : Z) : bool :=
  (ty =? TEEC_MEMREF_TEMP_INPUT) || (ty =? TEEC_MEMREF_TEMP_OUTPUT)
  || (ty =? TEEC_MEMREF_TEMP_INOUT).
Definition is_partial (ty : Z) : bool :=
  (ty =? TEEC_MEMREF_PARTIAL_INPUT) || (ty =? TEEC_MEMREF_PARTIAL_OUTPUT)
  || (ty =? TEEC_MEMREF_PARTIAL_INOUT).

(** One round of the loop of [teec_pre_process_operation]. *)
Definition pre_process_param (c : Z) (ty : Z) (p : TEEC_Parameter)
    : TM (Z * tee_ioctl_param * TEEC_SharedMemory) :=
  if ty =? TEEC_NONE then mret (TEEC_SUCCESS, Param ty 0 0 0, shm0)
  else if is_value ty
  then mret (TEEC_SUCCESS, value_param ty (value_a (value p)) (value_b (value p)), shm0)
  else if is_temp ty then teec_pre_process_tmpref c ty (tmpref p)
  else if ty =? TEEC_MEMREF_WHOLE then
    '(res, prm) ← teec_pre_process_whole (memref p); mret (res, prm, shm0)
  else if is_partial ty then
    '(res, prm) ← teec_pre_process_partial ty (memref p); mret (res, prm, shm0)
  else mret (TEEC_ERROR_BAD_PARAMETERS, param0, shm0).

(** The loop stops at the first error; the slots behind it stay zeroed. *)
Fixpoint pre_process_params (c : Z) (slots : list (Z * TEEC_Parameter))
    : TM (Z * list tee_ioctl_param * list TEEC_SharedMemory) :=
  match slots with
  | [] => mret (TEEC_SUCCESS, [], [])
  | (ty, p) :: rest =>
      '(res, prm, shm) ← pre_process_param c ty p;
      if negb (res =? TEEC_SUCCESS)
      then mret (res, prm :: replicate (length rest) param0, shm :: replicate (length rest) shm0)
      else
        '(res, prms, shms) ← pre_process_params c rest;
        mret (res, prm :: prms, shm :: shms)
  end.

Definition param_types (op : TEEC_Operation) : list Z :=
  map (TEEC_PARAM_TYPE_GET (paramTypes op)) [0; 1; 2; 3].
Definition slots (op : TEEC_Operation) : list (Z * TEEC_Parameter) :=
  zip (param_types op) (op_params op).

Definition teec_pre_process_operation (c : Z) (operation : option TEEC_Operation)
    : TM (Z * list tee_ioctl_param * list TEEC_SharedMemory) :=
  let params := replicate TEEC_CONFIG_PAYLOAD_REF_COUNT param0 in
  let shms := replicate TEEC_CONFIG_PAYLOAD_REF_COUNT shm0 in
  match operation with
  | None => mret (TEEC_SUCCESS, params, shms)
  | Some op =>
      if 65535 <? paramTypes op then mret (TEEC_ERROR_BAD_PARAMETERS, params, shms)
      else pre_process_params c (slots op)
  end.

(** ** Operations: after the call *)

Definition teec_post_process_tmpref (param_type : Z) (p : TEEC_Parameter)
    (prm : tee_ioctl_param) (shm : TEEC_SharedMemory) : TM TEEC_Parameter :=
  if negb (param_type =? TEEC_MEMREF_TEMP_INPUT) then
    let t := tmpref p in
    (if (memref_size prm <=? tmp_size t) && negb (is_null (tmp_buffer t))
     then memcpy (tmp_buffer t) (shm_buffer shm) 0 (memref_size prm)
     else mret tt);;
    mret (set_tmp_size p (memref_size prm))
  else mret p.

Definition teec_post_process_whole (p : TEEC_Parameter) (prm : tee_ioctl_param)
    : TM TEEC_Parameter :=
  shm ← deref (parent (memref p));
  if has_flag (shm_flags shm) TEEC_MEM_OUTPUT then
    (if negb (is_null (shadow_buffer shm)) && (memref_size prm <=? shm_size shm)
     then memcpy (shm_buffer shm) (shadow_buffer shm) 0 (memref_size prm)
     else mret tt);;
    mret (set_mem_size p (memref_size prm))
  else mret p.

Definition teec_post_process_partial (param_type : Z) (p : TEEC_Parameter)
    (prm : tee_ioctl_param) : TM TEEC_Parameter :=
  if negb (param_type =? TEEC_MEMREF_PARTIAL_INPUT) then
    shm ← deref (parent (memref p));
    (if negb (is_null (shadow_buffer shm)) && (memref_size prm <=? mem_size (memref p))
     then memcpy (shm_buffer shm) (shadow_buffer shm) (mem_offset (memref p)) (memref_size prm)
     else mret tt);;
    mret (set_mem_size p (memref_size prm))
  else mret p.

(** One round of the loop of [teec_post_process_operation]. *)
Definition post_process_param (ty : Z) (p : TEEC_Parameter) (prm : tee_ioctl_param)
    (shm : TEEC_SharedMemory) : TM TEEC_Parameter :=
  if ty =? TEEC_VALUE_INPUT then mret p
  else if (ty =? TEEC_VALUE_OUTPUT) || (ty =? TEEC_VALUE_INOUT)
  then mret (set_value p (u32 (w0 prm)) (u32 (w1 prm)))
  else if is_temp ty then teec_post_process_tmpref ty p prm shm
  else if ty =? TEEC_MEMREF_WHOLE then teec_post_process_whole p prm
  else if is_partial ty then teec_post_process_partial ty p prm
  else mret p.

Fixpoint post_process_params (slots : list (Z * TEEC_Parameter))
    (prms : list tee_ioctl_param) (shms : list TEEC_SharedMemory) : TM (list TEEC_Parameter) :=
  match slots, prms, shms with
  | (ty, p) :: slots', prm :: prms', shm :: shms' =>
      p' ← post_process_param ty p prm shm;
      ps ← post_process_params slots' prms' shms';
      mret (p' :: ps)
  | _, _, _ => mret []
  end.

Definition teec_post_process_operation (operation : option TEEC_Operation)
    (prms : list tee_ioctl_param) (shms : list TEEC_SharedMemory) : TM (option TEEC_Operation) :=
  match operation with
  | None => mret None
  | Some op => ps ← post_process_params (slots op) prms shms; mret (Some (set_params op ps))
  end.

(** The loop of [teec_free_temp_refs]. *)
Fixpoint free_temps (types : list Z) (shms : list TEEC_SharedMemory) : TM unit :=
  match types, shms with
  | ty :: types', shm :: shms' =>
      (if is_temp ty then TEEC_ReleaseSharedMemory (Some shm);; mret tt else mret tt);;
      free_temps types' shms'
  | _, _ => mret tt
  end.

Definition teec_free_temp_refs (operation : option TEEC_Operation)
    (shms : list TEEC_SharedMemory) : TM unit :=
  match operation with
  | None => mret tt
  | Some op => free_temps (param_types op) shms
  end.

(** ** Sessions *)

(** What a call of the API hands back: result, origin ([*ret_origin], when
    the pointer is not null) and the updated operation. *)
Definition api_ret : Type := Z * Z * option TEEC_Operation.

(** [None] when the login method and its data agree. *)
Definition login_error (connection_method : Z) (has_data : bool) : option (Z * Z) :=
  if (connection_method =? TEEC_LOGIN_PUBLIC) || (connection_method =? TEEC_LOGIN_USER)
     || (connection_method =? TEEC_LOGIN_APPLICATION)
     || (connection_method =? TEEC_LOGIN_USER_APPLICATION)
  then if has_data then Some (TEEC_ERROR_BAD_PARAMETERS, TEEC_ORIGIN_COMMS) else None
  else if (connection_method =? TEEC_LOGIN_GROUP)
          || (connection_method =? TEEC_LOGIN_GROUP_APPLICATION)
  then if has_data then None else Some (TEEC_ERROR_BAD_PARAMETERS, TEEC_ORIGIN_COMMS)
  else Some (TEEC_ERROR_NOT_SUPPORTED, TEEC_ORIGIN_API).

Definition TEEC_OpenSession (c session : option Z) (destination : TEEC_UUID)
    (connection_method : Z) (connection_data : bool) (operation : option TEEC_Operation)
    : TM api_ret :=
  match c, session with
  | Some c, Some sp =>
      match login_error connection_method connection_data with
      | Some (res, eorig) => mret (res, eorig, operation)
      | None =>
          '(res, params, shm) ← teec_pre_process_operation c operation;
          if negb (res =? TEEC_SUCCESS) then
            teec_free_temp_refs operation shm;;
            mret (res, TEEC_ORIGIN_API, operation)
          else
            cs ← gets contexts;
            fd ← deref (cs !! c);
            let buf := open_session_enc (uuid_to_octets destination) connection_method params in
            r ← sys (Sys_ioctl fd TEE_IOC_OPEN_SESSION (Arg_buf buf));
            if negb (sr_ret r =? 0) then
              e ← get_errno;
              teec_free_temp_refs operation shm;;
              mret (ioctl_errno_to_res e, TEEC_ORIGIN_COMMS, operation)
            else
              let buf := copy_out buf (sr_data r) in
              let res := get_u32 buf 44 in
              let eorig := get_u32 buf 48 in
              (if res =? TEEC_SUCCESS
               then modify (set_sessions (<[sp := Session c (get_u32 buf 40)]>))
               else mret tt);;
              op ← teec_post_process_operation operation
                     (params_dec sizeof_open_session_arg buf) shm;
              teec_free_temp_refs operation shm;;
              (if res =? TEEC_SUCCESS then modify (set_sessionMap (map_put sp)) else mret tt);;
              mret (res, eorig, op)
      end
  | _, _ => mret (TEEC_ERROR_BAD_PARAMETERS, TEEC_ORIGIN_API, operation)
  end.

Definition TEEC_CloseSession (sp : Z) : TM unit :=
  m ← gets _sessionMap;
  if map_has sp m then
    ss ← gets sessions;
    s ← deref (ss !! sp);
    ut_close_session s;;
    modify (set_sessionMap (map_erase sp))
  else mret tt.

Definition set_op_session (op : TEEC_Operation) (sp : Z) : TEEC_Operation :=
  Operation (paramTypes op) (op_params op) (Some sp).

Definition TEEC_InvokeCommand (session : option Z) (cmd_id : Z)
    (operation : option TEEC_Operation) : TM api_ret :=
  match session with
  | None => mret (TEEC_ERROR_BAD_PARAMETERS, TEEC_ORIGIN_API, operation)
  | Some sp =>
      ss ← gets sessions;
      s ← deref (ss !! sp);
      operation ← (match operation with
                   | None => mret None
                   | Some op =>
                       sys Lib_mutex_lock;; sys Lib_mutex_unlock;; mret (Some (set_op_session op sp))
                   end);
      '(res, params, shm) ← teec_pre_process_operation (ctx s) operation;
      if negb (res =? TEEC_SUCCESS) then
        teec_free_temp_refs operation shm;;
        mret (res, TEEC_ORIGIN_API, operation)
      else
        cs ← gets contexts;
        fd ← deref (cs !! ctx s);
        let buf := invoke_enc cmd_id (session_id s) params in
        r ← sys (Sys_ioctl fd TEE_IOC_INVOKE (Arg_buf buf));
        if negb (sr_ret r =? 0) then
          e ← get_errno;
          teec_free_temp_refs operation shm;;
          mret (ioctl_errno_to_res e, TEEC_ORIGIN_COMMS, operation)
        else
          let buf := copy_out buf (sr_data r) in
          op ← teec_post_process_operation operation (params_dec sizeof_invoke_arg buf) shm;
          teec_free_temp_refs operation shm;;
          mret (get_u32 buf 12, get_u32 buf 16, op)
  end.

Definition TEEC_RequestCancellation (operation : option TEEC_Operation) : TM unit :=
  match operation with
  | None => mret tt
  | Some op =>
      sys Lib_mutex_lock;;
      sys Lib_mutex_unlock;;
      match op_session op with
      | None => mret tt
      | Some sp =>
          ss ← gets sessions;
          s ← deref (ss !! sp);
          cs ← gets contexts;
          fd ← deref (cs !! ctx s);
          sys (Sys_ioctl fd TEE_IOC_CANCEL (Arg_buf (le_enc 4 0 ++ le_enc 4 (session_id s))));;
          mret tt
      end
  end.

(** [Common::~Common]: the loops post-increment the iterator they erase. *)
Fixpoint close_sessions (it : list Z) : TM unit :=
  match it with
  | [] => mret tt
  | p :: it' =>
      ss ← gets sessions;
      s ← deref (ss !! p);
      ut_close_session s;;
      modify (set_sessionMap (map_erase p));;
      close_sessions it'
  end.
Fixpoint close_contexts (it : list Z) : TM unit :=
  match it with
  | [] => mret tt
  | p :: it' =>
      cs ← gets contexts;
      fd ← deref (cs !! p);
      ut_close_fd fd;;
      modify (set_contextMap (map_erase p));;
      close_contexts it'
  end.
Definition Common_destroy : TM unit :=
  m ← gets _sessionMap;
  close_sessions m;;
  cm ← gets _contextMap;
  close_contexts cm.
End Teec.
