(* ===== verification/TeecMemory.v ===== *)
(** * libteec: memory safety and resource balance of an operation

    An operation reads and writes the application's buffers through pointers
    the application supplied and through temporary mappings of its own.  The
    specifications below say of every step: it returns, it keeps the library's
    records and the extent of every buffer ([frame]), and it changes the number
    of live mappings by a stated amount ([step]).  They hold for every kernel
    and every answer of the secure world. *)

From S2P Require Import Prelude Kernel Teec.

(** ** Well-formed operations *)

(** [n] bytes at [p + off] may be accessed. *)
Definition valid (m : gmap Z bytes) (p : ptr) (off n : Z) : Prop :=
  0 <= off /\ 0 <= n /\
  match p with
  | PNull => n = 0
  | PLocal b => exists d, m !! b = Some d /\ off + n <= zlen d
  | PMap _ => True
  end.

(** A shared memory block the application allocated or registered: a
    registered block has a shadow mapping, and its buffer is as large as its
    size says. *)
Definition shm_wf (m : gmap Z bytes) (shm : TEEC_SharedMemory) : Prop :=
  valid m (shm_buffer shm) 0 (shm_size shm) /\
  (shadow_buffer shm = PNull \/ exists a, shadow_buffer shm = PMap a).

Definition slot_wf (m : gmap Z bytes) (ty : Z) (p : TEEC_Parameter) : Prop :=
  (is_temp ty = true -> valid m (tmp_buffer (tmpref p)) 0 (tmp_size (tmpref p))) /\
  (ty = TEEC_MEMREF_WHOLE \/ is_partial ty = true ->
     exists shm, parent (memref p) = Some shm /\ shm_wf m shm /\
       (is_partial ty = true ->
          0 <= mem_offset (memref p) /\ 0 <= mem_size (memref p) /\
          mem_offset (memref p) + mem_size (memref p) <= shm_size shm)).

Definition op_wf (m : gmap Z bytes) (op : TEEC_Operation) : Prop :=
  length (op_params op) = TEEC_CONFIG_PAYLOAD_REF_COUNT /\
  Forall (fun '(ty, p) => slot_wf m ty p) (slots op).

(** ** What a step may change *)

(** The same blocks with the same extents. *)
Definition same_shape (m m' : gmap Z bytes) : Prop :=
  forall b, zlen <$> m' !! b = zlen <$> m !! b.

Definition frame (g g' : teec_st) : Prop :=
  contexts g' = contexts g /\ sessions g' = sessions g /\ _sessionMap g' = _sessionMap g /\
  _contextMap g' = _contextMap g /\ same_shape (blocks g) (blocks g').

#[export] Instance frame_preorder : PreOrder frame.
Proof.
  split; [by intros g|]. intros g1 g2 g3 (?&?&?&?&Hb1) (?&?&?&?&Hb2).
  split_and!; [congruence..|]. intros b. by rewrite Hb2, Hb1.
Qed.

Lemma valid_shape m m' p off n : same_shape m m' -> valid m p off n -> valid m' p off n.
Proof.
  intros Hs (? & ? & H). split_and!; try done. destruct p as [|b|a]; try done.
  destruct H as (d & Hd & ?). specialize (Hs b). rewrite Hd in Hs.
  destruct (m' !! b) as [d'|]; simplify_eq/=. exists d'. split; [done|lia].
Qed.

Lemma slot_wf_shape m m' ty p : same_shape m m' -> slot_wf m ty p -> slot_wf m' ty p.
Proof.
  intros Hs [Ht Hr]. split; [eauto using valid_shape|]. intros H.
  destruct (Hr H) as (shm & Hp & [Hv Hsh] & Hpart). exists shm. split; [done|].
  split; [|done]. split; eauto using valid_shape.
Qed.

(** ** Mappings *)

(** How an event changes the number of live mappings of [n] bytes at [a]. *)
Definition map_delta (a n : Z) (e : event) : Z :=
  match e with
  | Ev (Sys_mmap n' _) r => if (sr_ret r =? a) && (n' =? n) && negb (a =? -1) then 1 else 0
  | Ev (Sys_munmap a' n') _ => if (a' =? a) && (n' =? n) then -1 else 0
  | _ => 0
  end.
Definition balance (a n : Z) (evs : list event) : Z := foldr (fun e z => map_delta a n e + z) 0 evs.

Lemma balance_app a n e1 e2 : balance a n (e1 ++ e2) = balance a n e1 + balance a n e2.
Proof. induction e1 as [|e e1 IH]; simpl; [done|]. rewrite IH. lia. Qed.

(** The kernel assigned an id to every mapping it was asked about. *)
Definition id_given (e : event) : Prop :=
  match e with
  | Ev (Sys_ioctl _ req _) r => req = TEE_IOC_SHM_ID -> 0 <= sr_ret r
  | _ => True
  end.

(** The mapping a temporary shared memory block holds. *)
Definition held (shm : TEEC_SharedMemory) (a n : Z) : Z :=
  if negb (shm_id shm =? -1) && (0 <=? registered_fd shm) && bool_decide (shm_buffer shm = PMap a)
     && (alloced_size shm =? n) then 1 else 0.

(** Calls that do not enter a trusted application. *)
Definition quiet_call (c : syscall) : bool :=
  match c with
  | Sys_ioctl _ req _ => negb (req =? TEE_IOC_INVOKE) && negb (req =? TEE_IOC_OPEN_SESSION)
  | _ => true
  end.
Definition quiet (e : event) : Prop := quiet_call (ev_call e) = true.

(** [step β]: the state changes within [frame], the calls made do not enter a
    trusted application and change the number of mappings by [β], provided
    every id was assigned. *)
Definition step {W} (β : Z -> Z -> Z) (s s' : proc W teec_st) : Prop :=
  frame (globals s) (globals s') /\
  exists evs, trace s' = trace s ++ evs /\ Forall quiet evs /\
    (Forall id_given evs -> forall a n, balance a n evs = β a n).

Section Steps.
Context {W : Type} `{K : Kernel W}.
Implicit Types s : proc W teec_st.

Lemma step_refl s : step (fun _ _ => 0) s s.
Proof. split; [done|]. exists []. rewrite app_nil_r. split_and!; [done|constructor|done]. Qed.

Lemma step_trans β1 β2 β s1 s2 s3 :
  step β1 s1 s2 -> step β2 s2 s3 -> (forall a n, β a n = β1 a n + β2 a n) -> step β s1 s3.
Proof.
  intros [F1 (e1 & T1 & N1 & B1)] [F2 (e2 & T2 & N2 & B2)] Hβ. split; [by etrans|].
  exists (e1 ++ e2). split; [by rewrite T2, T1, app_assoc|]. split; [by apply Forall_app|].
  intros [H1 H2]%Forall_app a n. by rewrite balance_app, B1, B2.
Qed.

Lemma step_sys c r w s :
  quiet_call c = true -> step (fun a n => map_delta a n (Ev c r)) s (after s c r w).
Proof.
  split; [done|]. exists [Ev c r]. split_and!; [done|by repeat constructor|].
  intros _ a n. simpl. lia.
Qed.

Lemma step_ext β β' s s' : step β s s' -> (forall a n, β' a n = β a n) -> step β' s s'.
Proof.
  intros [F (e & T & N & B)] H. split; [done|]. exists e. split_and!; [done..|].
  intros. by rewrite B, H.
Qed.

(** A program that returns a value satisfying [Q] after a step of [β]. *)
Definition does {A} (m : M W teec_st A) (β : A -> Z -> Z -> Z) (Q : A -> Prop) s : Prop :=
  wp m (fun o s' => exists a, o = Ret a /\ step (β a) s s' /\ Q a) s.

Lemma does_ret {A} (a : A) β (Q : A -> Prop) s :
  (forall x n, β a x n = 0) -> Q a -> does (mret a) β Q s.
Proof. intros Hβ HQ. apply wp_ret. exists a. split_and!; try done. by eapply step_ext; [apply step_refl|]. Qed.

Lemma does_bind {A B} (m : M W teec_st A) (f : A -> M W teec_st B) β1 Q1 β2 β Q s :
  does m β1 Q1 s ->
  (forall a s', Q1 a -> frame (globals s) (globals s') -> does (f a) (β2 a) Q s') ->
  (forall a b x n, Q1 a -> Q b -> β b x n = β1 a x n + β2 a b x n) ->
  does (m ≫= f) β Q s.
Proof.
  intros Hm Hf Hβ. unfold does in *. apply wp_bind. eapply wp_mono; [apply Hm|].
  intros o s' (a & -> & Hst & HQ). eapply wp_mono; [apply Hf; [done|apply Hst]|].
  intros o' s'' (b & -> & Hst' & HQ'). exists b. split_and!; try done.
  eapply step_trans; [done|done|auto].
Qed.

Lemma does_seq {A B} (m : M W teec_st A) (f : A -> M W teec_st B) β1 Q1 β Q s :
  does m β1 Q1 s ->
  (forall a s', Q1 a -> frame (globals s) (globals s') ->
     does (f a) (fun b x n => β b x n - β1 a x n) Q s') ->
  does (m ≫= f) β Q s.
Proof.
  intros Hm Hf. eapply (does_bind _ _ β1 Q1 _ _ _ _ Hm Hf). intros. cbn beta. lia.
Qed.

(** The common case: the first program leaves the mappings alone. *)
Lemma does_bind0 {A B} (m : M W teec_st A) (f : A -> M W teec_st B) Q1 β Q s :
  does m (fun _ _ _ => 0) Q1 s ->
  (forall a s', Q1 a -> frame (globals s) (globals s') -> does (f a) β Q s') ->
  does (m ≫= f) β Q s.
Proof. intros. eapply (does_bind _ _ _ Q1 (fun _ => β)); [done..|]. done. Qed.

Lemma does_mono {A} (m : M W teec_st A) β β' (Q Q' : A -> Prop) s :
  does m β Q s -> (forall a, Q a -> Q' a /\ forall x n, β' a x n = β a x n) -> does m β' Q' s.
Proof.
  intros Hm H. unfold does in *. eapply wp_mono; [apply Hm|]. intros o s' (a & -> & Hst & HQ).
  destruct (H a HQ) as [HQ' Hβ]. exists a. split_and!; [done| |done]. by eapply step_ext.
Qed.

Lemma does_sys c (Q : sysret -> Prop) s :
  quiet_call c = true ->
  (forall r w, kcall c (world s) = (r, w) -> Q r) ->
  does (sys c) (fun r a n => map_delta a n (Ev c r)) Q s.
Proof.
  intros Hq H. apply wp_sys. intros r w Hk. exists r.
  split_and!; [done|by apply step_sys|eauto].
Qed.

Lemma does_sys0 c (Q : sysret -> Prop) s :
  quiet_call c = true ->
  (forall r a n, map_delta a n (Ev c r) = 0) ->
  (forall r w, kcall c (world s) = (r, w) -> Q r) ->
  does (sys c) (fun _ _ _ => 0) Q s.
Proof.
  intros Hq H ?. eapply does_mono; [by apply does_sys|]. intros r ?. split; [done|].
  intros. by rewrite H.
Qed.

Lemma does_gets {A} (f : teec_st -> A) (Q : A -> Prop) s :
  Q (f (globals s)) -> does (gets f) (fun _ _ _ => 0) Q s.
Proof. intros. apply wp_gets. eexists. split_and!; [done|apply step_refl|done]. Qed.
End Steps.

(** ** Copies *)

Section Copies.
Context {W : Type} `{K : Kernel W}.
Implicit Types s : proc W teec_st.
Abbreviation none := (fun _ _ _ => 0).

Lemma length_copy_out buf data : length (copy_out buf data) = length buf.
Proof. unfold copy_out. rewrite length_app, length_map, length_take, length_drop. lia. Qed.

Lemma copy_out_bytes buf data : Forall is_u8 buf -> Forall is_u8 (copy_out buf data).
Proof.
  intros. unfold copy_out. apply Forall_app. split; [|by apply Forall_drop].
  apply Forall_map, Forall_true. intros z. unfold u8. simpl. wide_lia.
Qed.

Lemma load_does p off n s :
  valid (blocks (globals s)) p off n -> does (load p off n) none (fun d => zlen d = n) s.
Proof.
  intros (Ho & Hn & Hv). destruct p as [|b|a]; simpl.
  - subst n. by apply does_ret.
  - destruct Hv as (d & Hd & Hlen).
    eapply (does_bind0 _ _ (fun m => m !! b = Some d)); [by apply does_gets|].
    intros m s' Hm _. rewrite Hm. simpl.
    eapply (does_bind0 _ _ (fun d' => d' = d)); [by apply does_ret|].
    intros d' s'' -> _. replace (off + n <=? zlen d) with true by lia.
    apply does_ret; [done|]. by apply zlen_slice.
  - eapply (does_bind0 _ _ (fun _ => True)); [by apply does_sys0|].
    intros r s' _ _. apply does_ret; [done|].
    unfold zlen. rewrite length_copy_out, length_replicate. lia.
Qed.

Lemma store_does p off data s :
  valid (blocks (globals s)) p off (zlen data) -> does (store p off data) none (fun _ => True) s.
Proof.
  intros (Ho & Hn & Hv). destruct p as [|b|a]; simpl.
  - rewrite Hv. by apply does_ret.
  - destruct Hv as (d & Hd & Hlen). unfold does. apply wp_bind, wp_gets. rewrite Hd. simpl.
    apply wp_bind, wp_ret. replace (off + zlen data <=? zlen d) with true by lia.
    apply wp_modify. exists tt. split_and!; [done| |done].
    split; [|exists []; rewrite app_nil_r; split_and!; [done|constructor|done]].
    split_and!; try done. simpl. intros b'.
    destruct (decide (b = b')) as [<-|Hne].
    + rewrite lookup_insert_eq, Hd. simpl. unfold zlen. by rewrite length_splice.
    + by rewrite lookup_insert_ne.
  - eapply (does_bind0 _ _ (fun _ => True)); [by apply does_sys0|].
    intros r s' _ _. by apply does_ret.
Qed.

Lemma memcpy_does dst src off n s :
  valid (blocks (globals s)) dst off n -> valid (blocks (globals s)) src off n ->
  does (memcpy dst src off n) none (fun _ => True) s.
Proof.
  intros Hd Hs. eapply does_bind0; [by apply load_does|]. intros d s' <- (_&_&_&_&Hf).
  apply store_does. eauto using valid_shape.
Qed.

(** A copy that only happens under a condition. *)
Lemma memcpy_if_does (b : bool) dst src off n s :
  (b = true -> valid (blocks (globals s)) dst off n /\ valid (blocks (globals s)) src off n) ->
  does (if b then memcpy dst src off n else mret tt) none (fun _ => True) s.
Proof. intros H. destruct b; [apply memcpy_does; apply H; done|by apply does_ret]. Qed.
End Copies.
