(* ===== verification/TeecOps.v ===== *)
(** * libteec: what preparing, finishing and releasing an operation does

    The specifications of allocation and release, of the loops over the four
    parameter slots and of the session calls, in the vocabulary of TeecMemory. *)

From S2P Require Import Prelude Kernel Teec TeecMemory.

(** A temporary shared memory block, in any state [teec_pre_process_operation]
    can leave it in. *)
Definition temp_shm (shm : TEEC_SharedMemory) : Prop :=
  shadow_buffer shm = PNull /\ (shm_buffer shm = PNull \/ exists a, shm_buffer shm = PMap a).

(** The mappings the temporary blocks hold. *)
Fixpoint held_temps (types : list Z) (shms : list TEEC_SharedMemory) (a n : Z) : Z :=
  match types, shms with
  | ty :: types', shm :: shms' =>
      (if is_temp ty then held shm a n else 0) + held_temps types' shms' a n
  | _, _ => 0
  end.

Lemma held_shm0 a n : held shm0 a n = 0.
Proof. reflexivity. Qed.

Lemma held_temps_zero types k a n : held_temps types (replicate k shm0) a n = 0.
Proof.
  revert k; induction types as [|ty types IH]; intros [|k]; try done. simpl.
  rewrite IH, held_shm0. by destruct (is_temp ty).
Qed.

(** A temporary reference that was prepared has its mapping. *)
Definition ready (ty : Z) (shm : TEEC_SharedMemory) : Prop :=
  is_temp ty = true -> exists a, shm_buffer shm = PMap a.

(** The parameter the driver is meant to receive for a slot: values by value;
    a memory reference as the id of its shared memory with the range of it that
    is meant, and the direction as 5, 6 or 7. *)
Definition marshal (ty : Z) (p : TEEC_Parameter) (shm : TEEC_SharedMemory) : tee_ioctl_param :=
  if is_value ty then value_param ty (value_a (value p)) (value_b (value p))
  else if is_temp ty then memref_param ty 0 (tmp_size (tmpref p)) (shm_id shm)
  else match parent (memref p) with
       | None => param0
       | Some sm =>
           if ty =? TEEC_MEMREF_WHOLE
           then memref_param (4 + Z.land (shm_flags sm) 3) 0 (shm_size sm) (shm_id sm)
           else if is_partial ty
           then memref_param (ty - 8) (mem_offset (memref p)) (mem_size (memref p)) (shm_id sm)
           else param0
       end.

Lemma is_temp_flags ty flags a :
  ref_direction TEEC_MEMREF_TEMP_INPUT TEEC_MEMREF_TEMP_OUTPUT TEEC_MEMREF_TEMP_INOUT ty
    = Some (flags, a) -> bad_flags flags = false.
Proof. unfold ref_direction. repeat case_match; intros; by simplify_eq. Qed.

Section Ops.
Context {W : Type} `{K : Kernel W}.
Implicit Types s : proc W teec_st.
Abbreviation none := (fun _ _ _ => 0).

Definition ctx_ok (g : teec_st) (c : Z) : Prop := exists fd, contexts g !! c = Some fd /\ 0 <= fd.

Lemma ctx_ok_frame g g' c : frame g g' -> ctx_ok g c -> ctx_ok g' c.
Proof. unfold ctx_ok. intros (-> & _) H. done. Qed.

Lemma deref_does {A} (o : option A) a s : o = Some a -> does (deref o) none (fun x => x = a) s.
Proof. intros ->. by apply does_ret. Qed.

Lemma get_fd_does {B} c fd (f : Z -> M W teec_st B) β Q s :
  contexts (globals s) !! c = Some fd ->
  (forall s', frame (globals s) (globals s') -> does (f fd) β Q s') ->
  does (cs ← gets contexts; fd ← deref (cs !! c); f fd) β Q s.
Proof.
  intros Hc Hf. eapply (does_bind0 _ _ (fun cs => cs !! c = Some fd)); [by apply does_gets|].
  intros cs s' Hcs F1. eapply does_bind0; [by apply deref_does|]. intros ? s'' -> F2.
  apply Hf. by etrans.
Qed.

Lemma mmap_delta size fd r a n :
  map_delta a n (Ev (Sys_mmap size fd) r)
  = if (sr_ret r =? a) && (size =? n) && negb (a =? -1) then 1 else 0.
Proof. done. Qed.

(** Allocation of a temporary block: a failed [mmap] leaves the id -1. *)
Lemma allocate_does c size flags s :
  ctx_ok (globals s) c -> bad_flags flags = false ->
  does (TEEC_AllocateSharedMemory (Some c) (Some (Shm PNull size flags 0 0 PNull 0)))
    (fun '(_, m) a n => match m with Some shm => held shm a n | None => 0 end)
    (fun '(res, m) => exists shm, m = Some shm /\ temp_shm shm /\
       (res = TEEC_SUCCESS -> exists a, shm_buffer shm = PMap a)) s.
Proof.
  intros (fd & Hc & Hfd) Hfl. simpl. rewrite Hfl.
  apply (get_fd_does _ fd); [done|]. intros s' _. unfold does.
  apply wp_bind. wp_sys_intro. destruct (Z.eqb_spec (sr_ret r) (-1)) as [Hr|Hr].
  { apply wp_ret. eexists. split_and!; [done| |].
    - eapply step_ext; [by apply step_sys|]. intros a n. cbn beta iota. rewrite mmap_delta.
      unfold held; simpl. rewrite Hr. destruct (Z.eqb_spec (-1) a) as [<-|]; [|done].
      by rewrite andb_false_r.
    - eexists. split_and!; [done|split; simpl; eauto|done]. }
  unfold teec_shm_get_id. apply wp_bind, wp_bind. wp_sys_intro.
  assert (forall id evs',
    (Forall id_given (evs' ++ [Ev (Sys_ioctl fd TEE_IOC_SHM_ID (Arg_int (sr_ret r))) r0]) -> id <> -1) ->
    evs' = [Ev (Sys_mmap (region_size size) fd) r] ->
    step (fun a n => held (Shm (PMap (sr_ret r)) size flags id (region_size size) PNull fd) a n) s'
      (after (after s' (Sys_mmap (region_size size) fd) r w)
         (Sys_ioctl fd TEE_IOC_SHM_ID (Arg_int (sr_ret r))) r0 w0)) as Hstep.
  { intros id evs' Hid ->. split; [done|]. eexists. split; [simpl; by rewrite <- app_assoc|].
    split; [by repeat constructor|].
    intros Hall a n. specialize (Hid Hall). cbn [app balance foldr]. rewrite mmap_delta.
    unfold held; simpl. replace (id =? -1) with false by lia. replace (0 <=? fd) with true by lia.
    simpl. destruct (Z.eqb_spec (sr_ret r) a) as [<-|Hne].
    - rewrite bool_decide_eq_true_2 by done. replace (sr_ret r =? -1) with false by lia. simpl.
      rewrite andb_true_r. lia.
    - rewrite bool_decide_eq_false_2 by (intros [=]; done). simpl. lia. }
  destruct (Z.ltb_spec (sr_ret r0) 0) as [Hneg|Hpos]; apply wp_ret, wp_ret; eexists;
    (split_and!; [done| |eexists; split_and!; [done|split; simpl; eauto|eauto]]);
    (eapply Hstep; [|done]); intros Hall; [|lia].
  apply Forall_app in Hall as [_ Hall]. inversion Hall as [|?? Hg]; subst.
  specialize (Hg eq_refl). lia.
Qed.

(** Release: exactly the held mapping goes. *)
Lemma release_does shm s :
  temp_shm shm ->
  does (TEEC_ReleaseSharedMemory (Some shm)) (fun _ a n => - held shm a n) (fun _ => True) s.
Proof.
  intros [Hsh Hb]. simpl. unfold held.
  destruct (Z.eqb_spec (shm_id shm) (-1)) as [?|Hid]; [by apply does_ret|].
  destruct (Z.ltb_spec (registered_fd shm) 0) as [?|Hfd].
  { replace (0 <=? registered_fd shm) with false by lia. by apply does_ret. }
  replace (0 <=? registered_fd shm) with true by lia. rewrite Hsh. simpl.
  destruct Hb as [->|[a0 ->]]; simpl.
  - eapply (does_bind0 _ _ (fun _ => True)).
    { eapply (does_bind0 _ _ (fun _ => True)); [by apply does_sys0|]. intros. by apply does_ret. }
    intros _ s1 _ _. eapply (does_bind0 _ _ (fun _ => True)); [by apply does_sys0|].
    intros. by apply does_ret.
  - eapply (does_bind _ _ (fun _ a n => - (if bool_decide (PMap a0 = PMap a) && (alloced_size shm =? n) then 1 else 0)) (fun _ => True) (fun _ => none)).
    + eapply (does_bind _ _ _ (fun _ => True) (fun _ => none)); [by apply does_sys|by intros; apply does_ret|].
      intros r _ a n _ _. simpl. destruct (Z.eqb_spec a0 a) as [<-|Hne].
      * rewrite bool_decide_eq_true_2 by done. simpl. by destruct (_ =? n).
      * by rewrite bool_decide_eq_false_2 by (intros [=]; done).
    + intros _ s1 _ _. eapply (does_bind0 _ _ (fun _ => True)); [by apply does_sys0|].
      intros. by apply does_ret.
    + intros. simpl. lia.
Qed.

Lemma free_temps_does types shms s :
  Forall temp_shm shms ->
  does (free_temps types shms) (fun _ a n => - held_temps types shms a n) (fun _ => True) s.
Proof.
  intros H. revert shms H s. induction types as [|ty types IH]; intros [|shm shms] H s;
    try by apply does_ret.
  inversion H; subst. simpl.
  eapply (does_bind _ _ (fun _ a n => - (if is_temp ty then held shm a n else 0)) (fun _ => True)
    (fun _ _ a n => - held_temps types shms a n)).
  - destruct (is_temp ty); [|by apply does_ret].
    eapply (does_bind _ _ _ (fun _ => True) (fun _ => none)); [by apply release_does|by intros; apply does_ret|].
    intros. cbn beta. lia.
  - intros. by apply IH.
  - intros. cbn beta. lia.
Qed.

Lemma pre_whole_does mr sm s :
  parent mr = Some sm -> shm_wf (blocks (globals s)) sm ->
  does (teec_pre_process_whole mr) none
    (fun '(res, prm) => res = TEEC_SUCCESS ->
       prm = memref_param (4 + Z.land (shm_flags sm) 3) 0 (shm_size sm) (shm_id sm)) s.
Proof.
  intros Hp [Hv Hsh]. unfold teec_pre_process_whole.
  eapply does_bind0; [by apply deref_does|]. intros ? s1 -> F1.
  change (Z.lor TEEC_MEM_INPUT TEEC_MEM_OUTPUT) with 3.
  assert (0 <= Z.land (shm_flags sm) 3 <= 3) as Hrange.
  { pose proof (Z.land_ones (shm_flags sm) 2 ltac:(lia)) as E.
    change (Z.ones 2) with 3 in E. change (2 ^ 2) with 4 in E. lia. }
  revert Hrange. generalize (Z.land (shm_flags sm) 3); intros f Hf.
  assert (f = 0 \/ f = 1 \/ f = 2 \/ f = 3) as [->|[->|[->| ->]]] by lia; simpl;
    [by apply does_ret|..];
    (eapply does_bind0; [apply memcpy_if_does|by intros; apply does_ret]);
    intros Hb; destruct Hsh as [He|[a He]]; rewrite He in Hb |- *; try done;
    (split; [split_and!; [lia|apply Hv|done]|]);
    by eapply valid_shape; [apply F1|].
Qed.

Lemma valid_sub m p n off k :
  valid m p 0 n -> 0 <= off -> 0 <= k -> off + k <= n -> valid m p off k.
Proof.
  intros (_ & Hn & H) ???. split_and!; try done.
  destruct p as [|b|a]; [lia| |done]. destruct H as (d & ? & ?). exists d. split; [done|lia].
Qed.

Lemma pre_partial_does ty mr sm s :
  is_partial ty = true ->
  parent mr = Some sm -> shm_wf (blocks (globals s)) sm ->
  0 <= mem_offset mr -> 0 <= mem_size mr -> mem_offset mr + mem_size mr <= shm_size sm ->
  does (teec_pre_process_partial ty mr) none
    (fun '(res, prm) => res = TEEC_SUCCESS ->
       prm = memref_param (ty - 8) (mem_offset mr) (mem_size mr) (shm_id sm)) s.
Proof.
  intros Hty Hp [Hv Hsh] Ho Hs Hle. unfold teec_pre_process_partial.
  assert (exists fl, ref_direction TEEC_MEMREF_PARTIAL_INPUT TEEC_MEMREF_PARTIAL_OUTPUT
    TEEC_MEMREF_PARTIAL_INOUT ty = Some (fl, ty - 8)) as [fl ->].
  { apply orb_true_iff in Hty as [[Hty|Hty]%orb_true_iff|Hty]; apply Z.eqb_eq in Hty; subst;
      eexists; reflexivity. }
  eapply does_bind0; [by apply deref_does|]. intros ? s1 -> F1.
  destruct (negb _); [by apply does_ret|].
  eapply does_bind0; [apply memcpy_if_does|by intros; apply does_ret].
  intros Hb. destruct Hsh as [He|[a He]]; rewrite He in Hb |- *; [done|].
  split; [done|]. eapply valid_shape; [apply F1|]. by eapply valid_sub.
Qed.

Lemma pre_tmpref_does c ty t s :
  ctx_ok (globals s) c -> is_temp ty = true ->
  valid (blocks (globals s)) (tmp_buffer t) 0 (tmp_size t) ->
  does (teec_pre_process_tmpref c ty t) (fun '(_, _, shm) => held shm)
    (fun '(res, prm, shm) => temp_shm shm /\
       (res = TEEC_SUCCESS -> ready ty shm /\ prm = memref_param ty 0 (tmp_size t) (shm_id shm))) s.
Proof.
  intros Hc Hty Hv. unfold teec_pre_process_tmpref.
  assert (exists fl, ref_direction TEEC_MEMREF_TEMP_INPUT TEEC_MEMREF_TEMP_OUTPUT
    TEEC_MEMREF_TEMP_INOUT ty = Some (fl, ty)) as [fl Hfl].
  { apply orb_true_iff in Hty as [[Hty|Hty]%orb_true_iff|Hty]; apply Z.eqb_eq in Hty; subst;
      eexists; reflexivity. }
  rewrite Hfl. apply is_temp_flags in Hfl.
  eapply (does_bind _ _ _ _ (fun '(_, m) '(_, _, shm) a n =>
    held shm a n - match m with Some x => held x a n | None => 0 end));
    [by apply allocate_does| |].
  2:{ intros [res m] [[res' prm] shm] a n _ _. lia. }
  intros [res m] s1 (shm & -> & Ht & Hok) F1. cbn [deref].
  eapply (does_bind0 _ _ (fun x => x = shm)); [by apply does_ret|]. intros ? s2 -> F2.
  destruct (Z.eqb_spec res TEEC_SUCCESS) as [->|Hne]; simpl.
  - destruct (Hok eq_refl) as [a0 Ha]. eapply does_bind0.
    + apply memcpy_does; [rewrite Ha; split_and!; [lia|apply Hv|done]|].
      eapply valid_shape; [|exact Hv]. by apply (transitivity F1 F2).
    + intros. apply does_ret; [intros; lia|].
      split_and!; [done|]. intros _. split; [|done]. intros _. eauto.
  - apply does_ret; [intros; lia|]. done.
Qed.

(** The kinds of parameter exclude each other. *)
Lemma kind_cases ty :
  ty = TEEC_NONE \/ is_value ty = true \/ is_temp ty = true \/ ty = TEEC_MEMREF_WHOLE \/
  is_partial ty = true \/
  (ty <> TEEC_NONE /\ is_value ty = false /\ is_temp ty = false /\ ty <> TEEC_MEMREF_WHOLE /\
   is_partial ty = false).
Proof.
  destruct (Z.eqb_spec ty TEEC_NONE); [by left|]. destruct (is_value ty); [tauto|].
  destruct (is_temp ty); [tauto|]. destruct (Z.eqb_spec ty TEEC_MEMREF_WHOLE); [tauto|].
  destruct (is_partial ty); tauto.
Qed.

Lemma value_kind ty : is_value ty = true -> ty = 1 \/ ty = 2 \/ ty = 3.
Proof. unfold is_value. rewrite !orb_true_iff, !Z.eqb_eq. tauto. Qed.
Lemma temp_kind ty : is_temp ty = true -> ty = 5 \/ ty = 6 \/ ty = 7.
Proof. unfold is_temp. rewrite !orb_true_iff, !Z.eqb_eq. tauto. Qed.
Lemma partial_kind ty : is_partial ty = true -> ty = 13 \/ ty = 14 \/ ty = 15.
Proof. unfold is_partial. rewrite !orb_true_iff, !Z.eqb_eq. tauto. Qed.

Lemma temp_shm0 : temp_shm shm0.
Proof. split; [done|by left]. Qed.

(** A slot that needs no temporary memory. *)
Lemma pre_untemp_does ty (m : M W teec_st (Z * tee_ioctl_param)) p s :
  is_temp ty = false ->
  does m none (fun '(res, prm) => res = TEEC_SUCCESS -> prm = marshal ty p shm0) s ->
  does ('(res, prm) ← m; mret (res, prm, shm0))
    (fun '(_, _, shm) a n => if is_temp ty then held shm a n else 0)
    (fun '(res, prm, shm) => temp_shm shm /\
       (res = TEEC_SUCCESS -> ready ty shm /\ prm = marshal ty p shm)) s.
Proof.
  intros Ht H. eapply does_bind0; [exact H|]. intros [res prm] s' Hm _. unfold ready.
  rewrite Ht. apply does_ret; [done|]. split; [apply temp_shm0|]. intros. by split; [|auto].
Qed.

Lemma pre_param_does c ty p s :
  ctx_ok (globals s) c -> slot_wf (blocks (globals s)) ty p ->
  does (pre_process_param c ty p)
    (fun '(_, _, shm) a n => if is_temp ty then held shm a n else 0)
    (fun '(res, prm, shm) => temp_shm shm /\
       (res = TEEC_SUCCESS -> ready ty shm /\ prm = marshal ty p shm)) s.
Proof.
  intros Hc [Ht Hr]. unfold pre_process_param.
  destruct (kind_cases ty) as [->|[Hk|[Hk|[->|[Hk|(H1 & H2 & H3 & H4 & H5)]]]]].
  - apply does_ret; [done|]. split; [apply temp_shm0|]. intros _. split; [done|].
    unfold marshal; simpl. by destruct (parent (memref p)).
  - destruct (value_kind _ Hk) as [->|[->| ->]]; (apply does_ret; [done|]);
      (split; [apply temp_shm0|done]).
  - pose proof (pre_tmpref_does c ty (tmpref p) s Hc Hk (Ht Hk)) as Hd.
    destruct (temp_kind _ Hk) as [->|[->| ->]]; exact Hd.
  - destruct Hr as (sm & Hp & Hwf & _); [by left|]. apply pre_untemp_does; [done|].
    eapply does_mono; [by apply pre_whole_does|]. intros [res prm] H. split; [|done].
    unfold marshal; simpl. by rewrite Hp.
  - destruct Hr as (sm & Hp & Hwf & Hx); [by right|]. destruct (Hx Hk) as (? & ? & ?).
    assert (does (teec_pre_process_partial ty (memref p)) none
      (fun '(res, prm) => res = TEEC_SUCCESS -> prm = marshal ty p shm0) s) as Hd.
    { eapply does_mono; [by apply pre_partial_does|]. intros [res prm] H'. split; [|done].
      unfold marshal. rewrite Hp.
      destruct (partial_kind _ Hk) as [->|[->| ->]]; exact H'. }
    destruct (partial_kind _ Hk) as [->|[->| ->]]; by apply pre_untemp_does.
  - replace (ty =? TEEC_NONE) with false by lia. rewrite H2, H3, H5.
    replace (ty =? TEEC_MEMREF_WHOLE) with false by lia. apply does_ret; [done|].
    split; [apply temp_shm0|done].
Qed.

(** The loop: on success every slot is marshalled and ready. *)
Lemma pre_params_does c sl s :
  ctx_ok (globals s) c -> Forall (fun '(ty, p) => slot_wf (blocks (globals s)) ty p) sl ->
  does (pre_process_params c sl)
    (fun '(_, _, shms) => held_temps sl.*1 shms)
    (fun '(res, prms, shms) => Forall temp_shm shms /\
       (res = TEEC_SUCCESS ->
          Forall2 (fun tp shm => ready tp.1 shm) sl shms /\
          prms = zip_with (fun tp shm => marshal tp.1 tp.2 shm) sl shms)) s.
Proof.
  revert s. induction sl as [|[ty p] sl IH]; intros s Hc Hwf; cbn [pre_process_params fmap list_fmap].
  { apply does_ret; [done|]. split_and!; [constructor|]. intros _. by split; [constructor|]. }
  inversion Hwf as [|?? Hp Hsl]; subst.
  eapply does_seq; [by apply pre_param_does|].
  intros [[res prm] shm] s1 [Ht Hok] F1. destruct (Z.eqb_spec res TEEC_SUCCESS) as [->|Hne]; simpl.
  - destruct (Hok eq_refl) as [Hrd Hm]. eapply does_seq.
    + apply IH; [by eapply ctx_ok_frame|]. eapply Forall_impl; [exact Hsl|].
      intros [ty' p']. apply slot_wf_shape, F1.
    + intros [[res' prms] shms] s2 [Hts Hoks] F2. apply does_ret; [intros; simpl; lia|].
      split; [by constructor|]. intros Hres. destruct (Hoks Hres) as [Hr ->]. subst prm.
      split; [by constructor|done].
  - apply does_ret.
    + intros a n. simpl. rewrite held_temps_zero. lia.
    + split; [|done]. constructor; [done|]. apply Forall_replicate, temp_shm0.
Qed.

(** ** After the call *)

Lemma post_param_does ty p prm shm s :
  slot_wf (blocks (globals s)) ty p -> 0 <= memref_size prm -> ready ty shm ->
  does (post_process_param ty p prm shm) none (fun _ => True) s.
Proof.
  intros [Ht Hr] Hn Hrd. unfold post_process_param.
  assert (forall p', does (mret p' : M W teec_st TEEC_Parameter) none (fun _ => True) s) as Hret
    by (intros; by apply does_ret).
  destruct (kind_cases ty) as [->|[Hk|[Hk|[->|[Hk|(H1 & H2 & H3 & H4 & H5)]]]]].
  - apply Hret.
  - destruct (value_kind _ Hk) as [->|[->| ->]]; apply Hret.
  - assert (does (teec_post_process_tmpref ty p prm shm) none (fun _ => True) s) as Hd.
    { unfold teec_post_process_tmpref. destruct (negb _); [|apply Hret].
      eapply does_bind0; [apply memcpy_if_does|by intros; apply does_ret].
      intros [Hle Hnn]%andb_true_iff. apply Z.leb_le in Hle.
      destruct (Hrd Hk) as [a ->]. split; [|done]. by eapply valid_sub; [apply Ht| |done|]. }
    destruct (temp_kind _ Hk) as [->|[->| ->]]; exact Hd.
  - destruct Hr as (sm & Hp & [Hv Hsh] & _); [by left|]. cbn -[teec_post_process_whole].
    eapply does_bind0; [by apply deref_does|]. intros ? s1 -> F1.
    destruct (has_flag _ _); [|by apply does_ret].
    eapply does_bind0; [apply memcpy_if_does|by intros; apply does_ret].
    intros [Hnn Hle]%andb_true_iff. apply Z.leb_le in Hle.
    destruct Hsh as [He|[a He]]; rewrite He in Hnn |- *; [done|]. split; [|done].
    eapply valid_shape; [apply F1|]. by eapply valid_sub.
  - destruct Hr as (sm & Hp & [Hv Hsh] & Hx); [by right|]. destruct (Hx Hk) as (? & ? & ?).
    assert (does (teec_post_process_partial ty p prm) none (fun _ => True) s) as Hd.
    { unfold teec_post_process_partial. destruct (negb _); [|apply Hret].
      eapply does_bind0; [by apply deref_does|]. intros ? s1 -> F1.
      eapply does_bind0; [apply memcpy_if_does|by intros; apply does_ret].
      intros [Hnn Hle]%andb_true_iff. apply Z.leb_le in Hle.
      destruct Hsh as [He|[a He]]; rewrite He in Hnn |- *; [done|]. split; [|done].
      eapply valid_shape; [apply F1|]. eapply valid_sub; [done..|lia]. }
    destruct (partial_kind _ Hk) as [->|[->| ->]]; exact Hd.
  - unfold is_value in H2. apply orb_false_iff in H2 as [[-> ->]%orb_false_iff ->]. simpl.
    rewrite H3, H5. replace (ty =? TEEC_MEMREF_WHOLE) with false by lia. apply Hret.
Qed.

Lemma post_params_does sl prms shms s :
  Forall (fun '(ty, p) => slot_wf (blocks (globals s)) ty p) sl ->
  Forall (fun prm => 0 <= memref_size prm) prms ->
  Forall2 (fun tp shm => ready tp.1 shm) sl shms ->
  does (post_process_params sl prms shms) none (fun _ => True) s.
Proof.
  revert prms shms s. induction sl as [|[ty p] sl IH]; intros prms shms s Hwf Hn Hr;
    [by apply does_ret|].
  inversion Hr as [|? shm ? shms' Hrd Hrest]; subst. destruct prms as [|prm prms]; [by apply does_ret|].
  inversion Hwf; inversion Hn; subst. cbn [post_process_params].
  eapply does_bind0; [by apply post_param_does|]. intros p' s1 _ F1.
  eapply does_bind0; [|by intros; apply does_ret]. apply IH; [|done..].
  eapply Forall_impl; [done|]. intros [ty' q]. apply slot_wf_shape, F1.
Qed.
End Ops.
