(* ===== verification/TeecSession.v ===== *)
(** * libteec: opening sessions and invoking commands

    The specification of the two calls that enter a trusted application:
    which request they send, what they make of the answer, and that they leave
    no temporary mapping behind. *)

From S2P Require Import Prelude Kernel Teec TeecMemory TeecOps.

(** The parameters sent for an operation whose temporary blocks are [shms]. *)
Definition request (op : option TEEC_Operation) (shms : list TEEC_SharedMemory)
    : list tee_ioctl_param :=
  match op with
  | None => replicate TEEC_CONFIG_PAYLOAD_REF_COUNT param0
  | Some op => zip_with (fun tp shm => marshal tp.1 tp.2 shm) (slots op) shms
  end.

(** What a call that enters a trusted application may do: [enc] lays out the
    argument buffer, [ret_off] is where the result stands in it. *)
Definition exchange (op : option TEEC_Operation) (fd req : Z)
    (enc : list tee_ioctl_param -> bytes) (ret_off res eorig : Z) (evs : list event) : Prop :=
  (Forall id_given evs -> forall a n, balance a n evs = 0) /\
  ((res <> TEEC_SUCCESS /\ eorig = TEEC_ORIGIN_API /\ Forall quiet evs) \/
   exists pre r post shms,
     evs = pre ++ Ev (Sys_ioctl fd req (Arg_buf (enc (request op shms)))) r :: post /\
     Forall quiet pre /\ Forall quiet post /\
     if sr_ret r =? 0 then
       let buf := copy_out (enc (request op shms)) (sr_data r) in
       res = get_u32 buf ret_off /\ eorig = get_u32 buf (ret_off + 4)
     else eorig = TEEC_ORIGIN_COMMS /\ (res = TEEC_ERROR_OUT_OF_MEMORY \/ res = TEEC_ERROR_GENERIC)).

Definition op_ok (m : gmap Z bytes) (op : option TEEC_Operation) : Prop :=
  match op with None => True | Some op => op_wf m op end.

Definition op_types (op : option TEEC_Operation) : list Z :=
  match op with None => [] | Some op => param_types op end.

Definition op_ready (op : option TEEC_Operation) (shms : list TEEC_SharedMemory) : Prop :=
  match op with None => True | Some op => Forall2 (fun tp shm => ready tp.1 shm) (slots op) shms end.

Lemma params_dec_size hdr b :
  Forall is_u8 b -> Forall (fun prm => 0 <= memref_size prm) (params_dec hdr b).
Proof.
  intros H. apply Forall_map, Forall_true. intros i. cbn -[slice].
  apply get_u64_range. by apply Forall_slice.
Qed.

Lemma param_enc_bytes p : Forall is_u8 (param_enc p).
Proof. unfold param_enc. rewrite !Forall_app. split_and!; apply le_enc_bytes. Qed.

Lemma params_enc_bytes ps : Forall is_u8 (params_enc ps).
Proof.
  unfold params_enc. induction ps as [|p ps IH]; cbn [map concat]; [constructor|].
  apply Forall_app. split; [apply param_enc_bytes|done].
Qed.

Lemma zeros_bytes n : Forall is_u8 (replicate n 0).
Proof. apply Forall_replicate. wide_lia. Qed.

Lemma invoke_enc_bytes func session ps : Forall is_u8 (invoke_enc func session ps).
Proof.
  unfold invoke_enc. rewrite !Forall_app.
  split_and!; auto using le_enc_bytes, params_enc_bytes, zeros_bytes.
Qed.

Lemma open_session_enc_bytes uuid login ps :
  Forall is_u8 uuid -> Forall is_u8 (open_session_enc uuid login ps).
Proof.
  intros. unfold open_session_enc. rewrite !Forall_app.
  split_and!; auto using le_enc_bytes, params_enc_bytes, zeros_bytes.
Qed.

Section Session.
Context {W : Type} `{K : Kernel W}.
Implicit Types s : proc W teec_st.
Abbreviation none := (fun _ _ _ => 0).

Lemma wp_does {A B} (m : M W teec_st A) (f : A -> M W teec_st B) β Q Φ s :
  does m β Q s ->
  (forall a s', step (β a) s s' -> Q a -> wp (f a) Φ s') -> wp (m ≫= f) Φ s.
Proof.
  intros Hm Hf. apply wp_bind. eapply wp_mono; [apply Hm|].
  intros o s' (a & -> & Hst & HQ). by apply Hf.
Qed.

Lemma slots_types op :
  length (op_params op) = TEEC_CONFIG_PAYLOAD_REF_COUNT -> (slots op).*1 = param_types op.
Proof. intros H. unfold slots. apply fst_zip. simpl. by rewrite H. Qed.

Lemma pre_operation_does c op s :
  ctx_ok (globals s) c -> op_ok (blocks (globals s)) op ->
  does (teec_pre_process_operation c op) (fun '(_, _, shms) => held_temps (op_types op) shms)
    (fun '(res, prms, shms) => Forall temp_shm shms /\
       (res = TEEC_SUCCESS -> op_ready op shms /\ prms = request op shms)) s.
Proof.
  intros Hc Hop. destruct op as [op|]; cbn [teec_pre_process_operation].
  2:{ apply does_ret; [done|]. split; [|done]. repeat constructor; auto. }
  destruct Hop as [Hlen Hwf]. destruct (_ <? _).
  { apply does_ret; [intros; apply (held_temps_zero (param_types op) 4)|]. split; [|done].
    repeat constructor; auto. }
  eapply does_mono; [by apply pre_params_does|]. intros [[res prms] shms] [Ht Hok].
  split; [done|]. intros. by rewrite slots_types.
Qed.

Lemma free_refs_does op shms s :
  Forall temp_shm shms ->
  does (teec_free_temp_refs op shms) (fun _ a n => - held_temps (op_types op) shms a n)
    (fun _ => True) s.
Proof. intros. destruct op; [by apply free_temps_does|by apply does_ret]. Qed.

Lemma post_operation_does op prms shms s :
  op_ok (blocks (globals s)) op -> op_ready op shms ->
  Forall (fun prm => 0 <= memref_size prm) prms ->
  does (teec_post_process_operation op prms shms) none
    (fun op' => paramTypes <$> op' = paramTypes <$> op) s.
Proof.
  intros Hop Hr Hn. destruct op as [op|]; [|by apply does_ret]. simpl in *.
  eapply does_bind0; [apply post_params_does; [apply Hop|done..]|]. intros. by apply does_ret.
Qed.

Lemma op_ok_shape m m' op : same_shape m m' -> op_ok m op -> op_ok m' op.
Proof.
  intros F. destruct op as [op|]; [|done]. intros [Hl Hwf]. split; [done|].
  eapply Forall_impl; [done|]. intros [ty p]. by apply slot_wf_shape.
Qed.

Lemma op_ok_frame g g' op : frame g g' -> op_ok (blocks g) op -> op_ok (blocks g') op.
Proof. intros F. apply op_ok_shape, F. Qed.

Lemma exchange_refused op fd req enc off res β s s1 s2 :
  res <> TEEC_SUCCESS ->
  step β s s1 -> step (fun a n => - β a n) s1 s2 ->
  frame (globals s) (globals s2) /\
  exists evs, trace s2 = trace s ++ evs /\ exchange op fd req enc off res TEEC_ORIGIN_API evs.
Proof.
  intros Hres S1 S2. destruct (step_trans _ _ (fun _ _ => 0) _ _ _ S1 S2) as [F (evs & T & N & B)];
    [intros; lia|]. split; [done|]. exists evs. split; [done|]. split; [done|by left].
Qed.

(** The calls around the ioctl, composed. *)
Lemma exchange_entered op fd req enc off res eorig β shms r s s1 s2 s3 :
  quiet_call (Sys_ioctl fd req (Arg_buf (enc (request op shms)))) = false ->
  step β s s1 ->
  trace s2 = trace s1 ++ [Ev (Sys_ioctl fd req (Arg_buf (enc (request op shms)))) r] ->
  step (fun a n => - β a n) s2 s3 ->
  (if sr_ret r =? 0 then
     let buf := copy_out (enc (request op shms)) (sr_data r) in
     res = get_u32 buf off /\ eorig = get_u32 buf (off + 4)
   else eorig = TEEC_ORIGIN_COMMS /\ (res = TEEC_ERROR_OUT_OF_MEMORY \/ res = TEEC_ERROR_GENERIC)) ->
  exists evs, trace s3 = trace s ++ evs /\ exchange op fd req enc off res eorig evs /\
    Ev (Sys_ioctl fd req (Arg_buf (enc (request op shms)))) r ∈ evs.
Proof.
  intros Hq [F1 (e1 & T1 & N1 & B1)] Ts [F2 (e2 & T2 & N2 & B2)] Hres.
  exists (e1 ++ Ev (Sys_ioctl fd req (Arg_buf (enc (request op shms)))) r :: e2).
  split; [rewrite T2, Ts; simpl; by rewrite T1, <- !app_assoc|]. split; [|apply elem_of_app; right; left]. split; [|right; eauto 10].
  intros [H1 H2]%Forall_app a n. inversion H2; subst. rewrite balance_app. simpl.
  rewrite B1, B2 by done. lia.
Qed.

(** From a successful answer on: unmarshal, release, go on. *)
Lemma finish_wp {B} op fd req enc off hdr shms r (k : option TEEC_Operation -> M W teec_st B) Φ s s1 s2 :
  let buf := copy_out (enc (request op shms)) (sr_data r) in
  quiet_call (Sys_ioctl fd req (Arg_buf (enc (request op shms)))) = false ->
  Forall is_u8 (enc (request op shms)) ->
  op_ok (blocks (globals s1)) op -> op_ready op shms -> Forall temp_shm shms ->
  step (held_temps (op_types op) shms) s s1 -> sr_ret r = 0 ->
  same_shape (blocks (globals s1)) (blocks (globals s2)) ->
  trace s2 = trace s1 ++ [Ev (Sys_ioctl fd req (Arg_buf (enc (request op shms)))) r] ->
  (forall op' s3, paramTypes <$> op' = paramTypes <$> op -> frame (globals s2) (globals s3) ->
     (exists evs, trace s3 = trace s ++ evs /\
        exchange op fd req enc off (get_u32 buf off) (get_u32 buf (off + 4)) evs /\
        Ev (Sys_ioctl fd req (Arg_buf (enc (request op shms)))) r ∈ evs) -> wp (k op') Φ s3) ->
  wp (op' ← teec_post_process_operation op (params_dec hdr buf) shms;
      teec_free_temp_refs op shms;; k op') Φ s2.
Proof.
  intros buf Hq Hb Hop Hrd Ht S1 Hr Hsh Hts Hk. eapply wp_does.
  { apply post_operation_does; [by eapply op_ok_shape|done|]. by apply params_dec_size, copy_out_bytes. }
  intros op' s3 S3 Hpt. eapply wp_does; [by apply free_refs_does|]. intros ? s4 S4 _.
  pose proof (step_trans _ _ (fun a n => - held_temps (op_types op) shms a n) _ _ _ S3 S4
    ltac:(intros; cbn beta; lia)) as S34.
  apply Hk; [done|apply (proj1 S34)|].
  eapply exchange_entered; [done|exact S1|done|exact S34|]. by rewrite Hr.
Qed.

(** [operation->session = session] *)
Definition invoked (sp : Z) (op : option TEEC_Operation) : option TEEC_Operation :=
  (fun op => set_op_session op sp) <$> op.

Lemma invoked_ok m sp op : op_ok m op -> op_ok m (invoked sp op).
Proof. by destruct op. Qed.

Lemma lock_does sp op s :
  does (match op with
        | None => mret None
        | Some op => sys Lib_mutex_lock;; sys Lib_mutex_unlock;; mret (Some (set_op_session op sp))
        end) none (fun op' => op' = invoked sp op) s.
Proof.
  destruct op as [op|]; [|by apply does_ret].
  do 2 (eapply (does_bind0 _ _ (fun _ => True)); [by apply does_sys0|]; intros _ ? _ _).
  by apply does_ret.
Qed.

Lemma errno_to_res_cases e :
  ioctl_errno_to_res e = TEEC_ERROR_OUT_OF_MEMORY \/ ioctl_errno_to_res e = TEEC_ERROR_GENERIC.
Proof. unfold ioctl_errno_to_res. destruct (_ =? _); tauto. Qed.

Lemma invoke_spec sp cmd op ss fd s :
  sessions (globals s) !! sp = Some ss -> contexts (globals s) !! ctx ss = Some fd -> 0 <= fd ->
  op_ok (blocks (globals s)) op ->
  wp (TEEC_InvokeCommand (Some sp) cmd op) (fun o s' =>
    exists res eorig op', o = Ret (res, eorig, op') /\
      paramTypes <$> op' = paramTypes <$> op /\
      frame (globals s) (globals s') /\
      exists evs, trace s' = trace s ++ evs /\
        exchange (invoked sp op) fd TEE_IOC_INVOKE (invoke_enc cmd (session_id ss)) 12 res eorig evs) s.
Proof.
  intros Hs Hc Hfd Hop. unfold TEEC_InvokeCommand. apply wp_bind, wp_gets. rewrite Hs.
  apply wp_bind, wp_ret. eapply wp_does; [apply lock_does|]. intros ? s1 S1 ->.
  assert (paramTypes <$> invoked sp op = paramTypes <$> op) as Hpt by (by destruct op).
  pose proof (invoked_ok _ sp _ Hop) as Hop'. revert Hop' Hpt.
  generalize (invoked sp op); intros op' Hop' Hpt. pose proof (op_ok_frame _ _ _ (proj1 S1) Hop') as Hop1.
  assert (contexts (globals s1) !! ctx ss = Some fd) as Hc1 by (by rewrite (proj1 (proj1 S1))).
  eapply wp_does; [apply pre_operation_does; [by exists fd|done]|].
  intros [[res prms] shms] s2 S2 [Ht Hok].
  pose proof (step_trans _ _ (held_temps (op_types op') shms) _ _ _ S1 S2 ltac:(intros; cbn beta iota; lia)) as S12.
  destruct (Z.eqb_spec res TEEC_SUCCESS) as [->|Hne]; cbn [negb].
  2:{ eapply wp_does; [by apply free_refs_does|]. intros ? s3 S3 _. apply wp_ret.
      do 3 eexists. split; [done|]. split; [done|]. by eapply exchange_refused. }
  destruct (Hok eq_refl) as [Hrd ->]. apply wp_bind, wp_gets.
  assert (contexts (globals s2) !! ctx ss = Some fd) as -> by (by rewrite (proj1 (proj1 S2))).
  apply wp_bind, wp_ret, wp_bind. wp_sys_intro.
  assert (op_ok (blocks (globals s2)) op') as Hop2 by (by eapply op_ok_frame; [apply (proj1 S2)|]).
  destruct (Z.eqb_spec (sr_ret r) 0) as [Hr|Hr]; cbn [negb].
  2:{ apply wp_bind, wp_get_errno. eapply wp_does; [by apply free_refs_does|]. intros ? s3 S3 _.
      apply wp_ret. do 3 eexists. split_and!; [done|done| |].
      { exact (transitivity (proj1 S12) (proj1 S3)). }
      edestruct (exchange_entered op' fd TEE_IOC_INVOKE (invoke_enc cmd (session_id ss)) 12) as (evs & HT & HE & _);
        [|exact S12| |exact S3| |by exists evs]; [done|done|].
      replace (sr_ret r =? 0) with false by lia. split; [done|apply errno_to_res_cases]. }
  eapply (finish_wp op' fd TEE_IOC_INVOKE _ 12); [done|apply invoke_enc_bytes|done..|].
  intros op'' s3 Hpt' F3 (evs & HT & HE & _). apply wp_ret. do 3 eexists.
  split_and!; [done|congruence|exact (transitivity (proj1 S12) F3)|by exists evs].
Qed.

(** The records of an open session. *)
Definition opened (sp c sid : Z) (g : teec_st) : teec_st :=
  set_sessionMap (map_put sp) (set_sessions (<[sp := Session c sid]>) g).

Lemma frame_sessions f g g' : frame g g' -> frame (set_sessions f g) (set_sessions f g').
Proof. intros (? & Hs & ? & ? & ?). split_and!; try done. simpl. by rewrite Hs. Qed.
Lemma frame_sessionMap f g g' : frame g g' -> frame (set_sessionMap f g) (set_sessionMap f g').
Proof. intros (? & ? & Hs & ? & ?). split_and!; try done. simpl. by rewrite Hs. Qed.

Lemma open_session_spec c sp dst login data op fd s :
  login_error login data = None -> Forall is_u8 (clockSeqAndNode dst) ->
  contexts (globals s) !! c = Some fd -> 0 <= fd -> op_ok (blocks (globals s)) op ->
  wp (TEEC_OpenSession (Some c) (Some sp) dst login data op) (fun o s' =>
    exists res eorig op', o = Ret (res, eorig, op') /\
      paramTypes <$> op' = paramTypes <$> op /\
      exists evs, trace s' = trace s ++ evs /\
        (if res =? TEEC_SUCCESS
         then exists buf r, Ev (Sys_ioctl fd TEE_IOC_OPEN_SESSION (Arg_buf buf)) r ∈ evs /\
           frame (opened sp c (get_u32 (copy_out buf (sr_data r)) 40) (globals s)) (globals s')
         else frame (globals s) (globals s')) /\
        exchange op fd TEE_IOC_OPEN_SESSION (open_session_enc (uuid_to_octets dst) login)
          44 res eorig evs) s.
Proof.
  intros Hlog Hdst Hc Hfd Hop. unfold TEEC_OpenSession. rewrite Hlog.
  eapply wp_does; [apply pre_operation_does; [by exists fd|done]|].
  intros [[res prms] shms] s1 S1 [Ht Hok].
  destruct (Z.eqb_spec res TEEC_SUCCESS) as [->|Hne]; cbn [negb].
  2:{ eapply wp_does; [by apply free_refs_does|]. intros ? s2 S2 _. apply wp_ret.
      do 3 eexists. split; [done|]. split; [done|]. replace (res =? TEEC_SUCCESS) with false by lia.
      destruct (exchange_refused op fd TEE_IOC_OPEN_SESSION (open_session_enc (uuid_to_octets dst) login) 44 _ _ _ _ _ Hne S1 S2)
        as (HF & evs & HT & HE). by exists evs. }
  destruct (Hok eq_refl) as [Hrd ->]. apply wp_bind, wp_gets.
  assert (contexts (globals s1) !! c = Some fd) as -> by (by rewrite (proj1 (proj1 S1))).
  apply wp_bind, wp_ret, wp_bind. wp_sys_intro.
  assert (op_ok (blocks (globals s1)) op) as Hop1 by (by eapply op_ok_frame; [apply (proj1 S1)|]).
  destruct (Z.eqb_spec (sr_ret r) 0) as [Hr|Hr]; cbn [negb].
  2:{ apply wp_bind, wp_get_errno. eapply wp_does; [by apply free_refs_does|]. intros ? s3 S3 _.
      apply wp_ret. do 3 eexists. split; [done|]. split; [done|]. set (res := ioctl_errno_to_res _).
      assert ((res =? TEEC_SUCCESS) = false) as -> by (subst res; by destruct (errno_to_res_cases (errno (after s1
        (Sys_ioctl fd TEE_IOC_OPEN_SESSION (Arg_buf (open_session_enc (uuid_to_octets dst) login (request op shms)))) r w))) as [-> | ->]).
      assert (frame (globals s) (globals s3)) as HF by exact (transitivity (proj1 S1) (proj1 S3)).
      edestruct (exchange_entered op fd TEE_IOC_OPEN_SESSION (open_session_enc (uuid_to_octets dst) login) 44 res) as (evs & HT & HE & _);
        [|exact S1| |exact S3| |by exists evs]; [done|done|].
      replace (sr_ret r =? 0) with false by lia. split; [done|apply errno_to_res_cases]. }
  assert (Forall is_u8 (open_session_enc (uuid_to_octets dst) login (request op shms))) as Hbuf.
  { apply open_session_enc_bytes. unfold uuid_to_octets. apply Forall_app.
    split; [|done]. repeat constructor; unfold u8; wide_lia. }
  set (buf := copy_out _ _). apply wp_bind.
  destruct (Z.eqb_spec (get_u32 buf 44) TEEC_SUCCESS) as [Hz|Hz].
  - apply wp_modify. eapply (finish_wp op fd TEE_IOC_OPEN_SESSION _ 44); [done..|].
    intros op' s3 Hpt F3 (evs & HT & HE & Hin).
    apply wp_bind, wp_modify, wp_ret. do 3 eexists. split; [done|]. split; [done|]. exists evs. split; [done|]. split; [|done].
    replace (get_u32 buf 44 =? TEEC_SUCCESS) with true by lia.
    exists (open_session_enc (uuid_to_octets dst) login (request op shms)), r. split.
    + done.
    + apply frame_sessionMap. etrans; [apply frame_sessions, (proj1 S1)|done].
  - apply wp_ret. eapply (finish_wp op fd TEE_IOC_OPEN_SESSION _ 44); [done..|]. intros op' s3 Hpt F3 (evs & HT & HE & Hin).
    apply wp_bind, wp_ret, wp_ret. do 3 eexists. split; [done|]. split; [done|]. exists evs. split; [done|]. split; [|done].
    replace (get_u32 buf 44 =? TEEC_SUCCESS) with false by lia. by etrans; [apply (proj1 S1)|].
Qed.
End Session.
