(* ===== verification/TeecContext.v ===== *)
(** * libteec: contexts and the records of the singleton

    Opening the device, the search over the device numbers, and the loops that
    close what the singleton recorded. *)

From S2P Require Import Prelude Kernel Libtrusty Teec TeecMemory TeecOps.

(** The device files a trace tried to open, in order. *)
Fixpoint opened_paths (tr : list event) : list bytes :=
  match tr with
  | [] => []
  | Ev (Sys_open p _ _) _ :: tr' => p :: opened_paths tr'
  | _ :: tr' => opened_paths tr'
  end.

Lemma opened_paths_app t1 t2 : opened_paths (t1 ++ t2) = opened_paths t1 ++ opened_paths t2.
Proof.
  induction t1 as [|[c r] t1 IH]; [done|]. simpl. rewrite IH. by destruct c.
Qed.

(** What one attempt at a device does: [fd] is negative when it failed, and
    then nothing stays open. *)
Definition dev_attempt (dev : bytes) (fd : Z) (evs : list event) : Prop :=
  opened_paths evs = [dev] /\
  if 0 <=? fd then open_fds evs = [fd] else forall tr, open_fds (evs ++ tr) = open_fds tr.

Section Contexts.
Context {W : Type} `{K : Kernel W}.
Implicit Types s : proc W teec_st.

(** The failure path [err]. *)
Lemma open_dev_fails r evs dev v s s0 Φ :
  0 <= sr_ret r -> trace s = trace s0 ++ Ev (Sys_open dev O_RDWR 0) r :: evs ->
  opened_paths evs = [] -> open_fds evs = [] -> globals s = globals s0 -> v = -1 ->
  (forall tr, open_fds (evs ++ tr) = open_fds tr) ->
  (forall s' evs', trace s' = trace s0 ++ evs' -> globals s' = globals s0 ->
     dev_attempt dev (-1) evs' -> Φ (Ret (-1)) s') ->
  wp (ut_close_fd (sr_ret r);; mret v) Φ s.
Proof.
  intros Hr Ht Ho Hf Hg -> Htr HΦ. unfold ut_close_fd. apply wp_bind, wp_bind. wp_sys_intro.
  apply wp_ret, wp_ret. eapply HΦ; [simpl; by rewrite Ht, <- app_assoc|done|].
  split.
  - simpl. by rewrite opened_paths_app, Ho.
  - simpl. intros tr. rewrite <- app_assoc. rewrite existsb_app. simpl.
    rewrite Z.eqb_refl, orb_true_r, andb_false_r. by rewrite Htr.
Qed.

Lemma open_dev_spec gptee dev name s :
  wp (teec_open_dev gptee dev name) (fun o s' => exists fd evs, o = Ret fd /\
    trace s' = trace s ++ evs /\ globals s' = globals s /\ dev_attempt dev fd evs) s.
Proof.
  unfold teec_open_dev. apply wp_bind. wp_sys_intro.
  destruct (Z.ltb_spec (sr_ret r) 0) as [Hr|Hr].
  { apply wp_ret. do 2 eexists. split_and!; [done|done|done|]. split; [done|]. simpl.
    by replace (0 <=? sr_ret r) with false by lia. }
  apply wp_bind. wp_sys_intro.
  assert (forall evs s2, trace s2 = trace s ++ Ev (Sys_open dev O_RDWR 0) r :: evs ->
    opened_paths evs = [] -> (forall tr, open_fds (evs ++ tr) = open_fds tr) ->
    globals s2 = globals s ->
    wp (ut_close_fd (sr_ret r);; mret (-1)) (fun o s' => exists fd evs, o = Ret fd /\
      trace s' = trace s ++ evs /\ globals s' = globals s /\ dev_attempt dev fd evs) s2) as Hfail.
  { intros evs s2 Ht Ho Hf Hg. eapply open_dev_fails; [done|exact Ht|done| |done|done|done|].
    - specialize (Hf []). by rewrite app_nil_r in Hf.
    - intros s' evs' ???. by exists (-1), evs'. }
  apply wp_if; intros Hb1; [eapply Hfail; [simpl; by rewrite <- app_assoc|done..]|].
  apply wp_if; intros Hb2; [eapply Hfail; [simpl; by rewrite <- app_assoc|done..]|].
  destruct (select_hostname gptee name) as [host|];
    [|eapply Hfail; [simpl; by rewrite <- app_assoc|done..]].
  apply wp_bind. wp_sys_intro.
  apply wp_if; intros Hb3; [eapply Hfail; [simpl; by rewrite <- !app_assoc|done..]|].
  apply wp_ret. do 2 eexists. split_and!; [done|simpl; by rewrite <- !app_assoc|done|].
  split; [done|]. simpl. by replace (0 <=? sr_ret r) with true by lia.
Qed.

(** The search over the devices [ns]: those tried are a prefix, and only the
    descriptor of the device that was taken stays open. *)
Lemma try_devices_spec gptee name c ns s :
  wp (try_devices gptee name c ns) (fun o s' => exists res evs k, o = Ret res /\
    trace s' = trace s ++ evs /\ (k <= length ns)%nat /\
    opened_paths evs = devname <$> take k ns /\
    ((res = TEEC_SUCCESS /\ exists fd, 0 <= fd /\ open_fds evs = [fd] /\
        globals s' = set_contextMap (map_put c) (set_contexts (<[c := fd]>) (globals s))) \/
     (res = TEEC_ERROR_ITEM_NOT_FOUND /\ k = length ns /\ open_fds evs = [] /\
        globals s' = globals s))) s.
Proof.
  revert s; induction ns as [|n ns IH]; intros s; cbn [try_devices].
  { apply wp_ret. exists TEEC_ERROR_ITEM_NOT_FOUND, [], 0%nat. rewrite app_nil_r.
    split_and!; try done. by right. }
  apply wp_bind. eapply wp_mono; [apply open_dev_spec|].
  intros o s1 (fd & evs & -> & Ht & Hg & Hp & Hd). destruct (Z.leb_spec 0 fd) as [Hfd|Hfd].
  - apply wp_bind, wp_modify, wp_bind, wp_modify, wp_ret.
    exists TEEC_SUCCESS, evs, 1%nat. simpl. split_and!; [done|done|lia|done|].
    left. split; [done|]. exists fd. by rewrite Hg.
  - eapply wp_mono; [apply IH|]. intros o s2 (res & evs' & k & -> & Ht' & Hk & Hp' & Hres).
    exists res, (evs ++ evs'), (S k). simpl. rewrite opened_paths_app, Hp, Hp', Hd.
    rewrite Hg in Hres. split_and!; [done|by rewrite Ht', Ht, app_assoc|lia|done|].
    destruct Hres as [Hres|(? & ? & ? & ?)]; [by left|right]. split_and!; try done. lia.
Qed.
End Contexts.

(** ** Closing what is recorded *)

(** Every recorded session belongs to a live context structure, and so does
    every recorded context. *)
Definition registry_wf (g : teec_st) : Prop :=
  (forall p, p ∈ _sessionMap g -> exists ss fd, sessions g !! p = Some ss /\ contexts g !! ctx ss = Some fd) /\
  (forall c, c ∈ _contextMap g -> is_Some (contexts g !! c)).

(** The calls that close the session structure [p], or the context [c]. *)
Definition close_session_calls (g : teec_st) (p : Z) : list syscall :=
  match sessions g !! p with
  | Some ss => match contexts g !! ctx ss with
               | Some fd => [Sys_ioctl fd TEE_IOC_CLOSE_SESSION (Arg_buf (le_enc 4 (session_id ss)))]
               | None => []
               end
  | None => []
  end.
Definition close_context_calls (g : teec_st) (c : Z) : list syscall :=
  match contexts g !! c with Some fd => [Sys_close fd] | None => [] end.

Section Closing.
Context {W : Type} `{K : Kernel W}.
Implicit Types s : proc W teec_st.

(** The structures stay what they were; only the maps change. *)
Definition same_structs (g g' : teec_st) : Prop :=
  contexts g' = contexts g /\ sessions g' = sessions g /\ blocks g' = blocks g.

Lemma close_session_wp {B} p ss fd (k : M W teec_st B) Φ s :
  sessions (globals s) !! p = Some ss -> contexts (globals s) !! ctx ss = Some fd ->
  (forall s' e, trace s' = trace s ++ [e] -> [ev_call e] = close_session_calls (globals s) p ->
     globals s' = set_sessionMap (map_erase p) (globals s) -> wp k Φ s') ->
  wp (ut_close_session ss;; modify (set_sessionMap (map_erase p));; k) Φ s.
Proof.
  intros Hs Hc Hk. unfold ut_close_session. apply wp_bind, wp_bind, wp_gets. rewrite Hc.
  apply wp_bind, wp_ret, wp_bind. wp_sys_intro. apply wp_ret, wp_bind, wp_modify.
  eapply Hk; [done| |done]. unfold close_session_calls. by rewrite Hs, Hc.
Qed.

Lemma close_sessions_spec it s :
  (forall p, p ∈ it -> exists ss fd, sessions (globals s) !! p = Some ss /\
     contexts (globals s) !! ctx ss = Some fd) ->
  wp (close_sessions it) (fun o s' => exists evs, o = Ret tt /\ trace s' = trace s ++ evs /\
    ev_call <$> evs = it ≫= close_session_calls (globals s) /\
    same_structs (globals s) (globals s') /\
    _contextMap (globals s') = _contextMap (globals s) /\
    _sessionMap (globals s') = filter (.∉ it) (_sessionMap (globals s))) s.
Proof.
  revert s; induction it as [|p it IH]; intros s Hit; cbn [close_sessions].
  { apply wp_ret. exists []. rewrite app_nil_r. split_and!; try done.
    rewrite list_filter_all; [done|]. intros. apply not_elem_of_nil. }
  destruct (Hit p) as (ss & fd & Hs & Hc); [by left|].
  apply wp_bind, wp_gets. rewrite Hs. apply wp_bind, wp_ret.
  eapply close_session_wp; [done..|]. intros s1 e Ht He Hg.
  eapply wp_mono; [apply IH; rewrite Hg; intros q Hq; apply Hit; by right|].
  intros o s2 (evs & -> & Ht' & Hev & (H1 & H2 & H3) & Hcm & Hsm). rewrite Hg in *. simpl in *.
  exists (e :: evs). split_and!; [done|by rewrite Ht', Ht, <- app_assoc| | |done|].
  - change (ev_call e :: (ev_call <$> evs) = close_session_calls (globals s) p ++
      (it ≫= close_session_calls (globals s))). rewrite Hev. by rewrite <- He.
  - done.
  - rewrite Hsm. unfold map_erase. rewrite list_filter_filter. apply list_filter_iff.
    intros x. rewrite not_elem_of_cons. tauto.
Qed.

Lemma close_contexts_spec it s :
  (forall c, c ∈ it -> is_Some (contexts (globals s) !! c)) ->
  wp (close_contexts it) (fun o s' => exists evs, o = Ret tt /\ trace s' = trace s ++ evs /\
    ev_call <$> evs = it ≫= close_context_calls (globals s) /\
    same_structs (globals s) (globals s') /\
    _sessionMap (globals s') = _sessionMap (globals s) /\
    _contextMap (globals s') = filter (.∉ it) (_contextMap (globals s))) s.
Proof.
  revert s; induction it as [|c it IH]; intros s Hit; cbn [close_contexts].
  { apply wp_ret. exists []. rewrite app_nil_r. split_and!; try done.
    rewrite list_filter_all; [done|]. intros. apply not_elem_of_nil. }
  destruct (Hit c) as [fd Hc]; [by left|].
  apply wp_bind, wp_gets. rewrite Hc. apply wp_bind, wp_ret.
  unfold ut_close_fd. apply wp_bind, wp_bind. wp_sys_intro. apply wp_ret, wp_bind, wp_modify.
  eapply wp_mono; [apply IH; simpl; intros q Hq; apply Hit; by right|].
  intros o s2 (evs & -> & Ht' & Hev & (H1 & H2 & H3) & Hcm & Hsm). simpl in *.
  exists (Ev (Sys_close fd) r :: evs). split_and!; [done|by rewrite Ht', <- app_assoc| |done|done|].
  - change (Sys_close fd :: (ev_call <$> evs) = close_context_calls (globals s) c ++
      (it ≫= close_context_calls (globals s))). rewrite Hev.
    unfold close_context_calls at 2. by rewrite Hc.
  - rewrite Hsm. unfold map_erase. rewrite list_filter_filter. apply list_filter_iff.
    intros x. rewrite not_elem_of_cons. tauto.
Qed.

Lemma filter_not_self (l : list Z) : filter (.∉ l) l = [].
Proof. apply list_filter_none. intros x. tauto. Qed.

(** The destructor closes every recorded session, then every recorded
    context, once each and in map order. *)
Lemma destroy_spec s :
  registry_wf (globals s) ->
  wp Common_destroy (fun o s' => exists evs, o = Ret tt /\ trace s' = trace s ++ evs /\
    ev_call <$> evs = (_sessionMap (globals s) ≫= close_session_calls (globals s)) ++
                      (_contextMap (globals s) ≫= close_context_calls (globals s)) /\
    _sessionMap (globals s') = [] /\ _contextMap (globals s') = []) s.
Proof.
  intros [Hs Hc]. unfold Common_destroy. apply wp_bind, wp_gets, wp_bind.
  eapply wp_mono; [by apply close_sessions_spec|].
  intros o s1 (evs & -> & Ht & Hev & (H1 & H2 & H3) & Hcm & Hsm). apply wp_bind, wp_gets.
  rewrite Hcm. eapply wp_mono; [apply close_contexts_spec; by rewrite H1|].
  intros o s2 (evs' & -> & Ht' & Hev' & (H1' & H2' & H3') & Hsm' & Hcm').
  exists (evs ++ evs'). rewrite fmap_app, Hev, Hev', Ht', Ht, app_assoc, Hsm', Hcm', Hsm, Hcm.
  rewrite !filter_not_self. split_and!; try done. f_equal. unfold close_context_calls. by rewrite H1.
Qed.
End Closing.

(** ** Finalising a context *)

Section Finalize.
Context {W : Type} `{K : Kernel W}.
Implicit Types s : proc W teec_st.

Definition belongs (g : teec_st) (c p : Z) : Prop := ctx <$> sessions g !! p = Some c.
(** Sessions of other contexts. *)
Definition foreign (g : teec_st) (c p : Z) : Prop :=
  exists ss, sessions g !! p = Some ss /\ ctx ss <> c.

(** Sessions of other contexts are passed over. *)
Lemma finalize_prefix c l n rest s :
  Forall (foreign (globals s) c) l ->
  finalize_sessions c (length l + n) (l ++ rest) s = finalize_sessions c n rest s.
Proof.
  induction 1 as [|p l (ss & Hs & Hne) Hl IH]; [done|].
  cbn [finalize_sessions length Nat.add app]. unfold mbind, M_bind, gets. rewrite Hs.
  cbn [deref mret M_ret]. unfold mret, M_ret.
  replace (ctx ss =? c) with false by lia. exact IH.
Qed.

Lemma finalize_prefix_wp {A} c l n rest (k : M W teec_st A) Φ s :
  Forall (foreign (globals s) c) l ->
  wp (finalize_sessions c n rest;; k) Φ s ->
  wp (finalize_sessions c (length l + n) (l ++ rest);; k) Φ s.
Proof. intros Hl. unfold wp, mbind, M_bind. by rewrite finalize_prefix. Qed.

(** A session of the context is closed and the one behind it passed over. *)
Lemma finalize_own {A} c n p next ss (k : M W teec_st A) Φ s :
  sessions (globals s) !! p = Some ss -> ctx ss = c -> is_Some (contexts (globals s) !! c) ->
  (forall s' e, trace s' = trace s ++ [e] -> [ev_call e] = close_session_calls (globals s) p ->
     globals s' = set_sessionMap (map_erase p) (globals s) ->
     wp (match next with [] => halt Undefined | _ :: next' => finalize_sessions c n next' end;; k)
       Φ s') ->
  wp (finalize_sessions c (S n) (p :: next);; k) Φ s.
Proof.
  intros Hs Hctx [fd Hc] Hk. cbn [finalize_sessions]. apply wp_bind, wp_bind, wp_gets. rewrite Hs.
  apply wp_bind, wp_ret. replace (ctx ss =? c) with true by lia. subst c.
  eapply close_session_wp; [done..|]. intros s' e Ht He Hg. specialize (Hk s' e Ht He Hg).
  revert Hk. unfold wp, mbind, M_bind. destruct next; [done|].
  by destruct (finalize_sessions _ _ _ _) as [[]].
Qed.

(** The second of two neighbouring sessions of the context is skipped. *)
Lemma finalize_skips l1 p q l2 c fd s :
  _sessionMap (globals s) = l1 ++ p :: q :: l2 ->
  Forall (foreign (globals s) c) (l1 ++ l2) ->
  belongs (globals s) c p -> contexts (globals s) !! c = Some fd ->
  c ∈ _contextMap (globals s) ->
  wp (TEEC_FinalizeContext c) (fun o s' => o = Ret tt /\
    ev_call <$> drop (length (trace s)) (trace s') =
      close_session_calls (globals s) p ++ [Sys_close fd] /\
    _sessionMap (globals s') = map_erase p (_sessionMap (globals s)) /\
    _contextMap (globals s') = map_erase c (_contextMap (globals s))) s.
Proof.
  intros Hm [Hl1 Hl2]%Forall_app Hp Hc Hcm. unfold TEEC_FinalizeContext.
  apply wp_bind, wp_gets. rewrite Hm, length_app.
  unfold belongs in Hp. destruct (sessions (globals s) !! p) as [ss|] eqn:Hs; [|done].
  injection Hp as Hctx. apply finalize_prefix_wp; [done|].
  change (length (p :: q :: l2)) with (S (S (length l2))).
  eapply finalize_own; [done|done|by eexists|]. intros s1 e Ht He Hg. rewrite <- (Nat.add_1_r (length l2)).
  rewrite <- (app_nil_r l2) at 2. apply finalize_prefix_wp; [by rewrite Hg|].
  apply wp_bind, wp_ret.
  apply wp_bind, wp_gets. rewrite Hg. simpl. unfold map_has. rewrite bool_decide_eq_true_2 by done.
  apply wp_bind, wp_gets. rewrite Hg. simpl. rewrite Hc. apply wp_bind, wp_ret.
  unfold ut_close_fd. apply wp_bind, wp_bind. wp_sys_intro. apply wp_ret, wp_modify. simpl.
  rewrite Ht, Hg, <- app_assoc, drop_app_length. simpl. rewrite <- Hm.
  split_and!; [done|by rewrite <- He|done|done].
Qed.

(** When the last recorded session belongs to the context, the iterator is
    incremented past the end of the map. *)
Lemma finalize_last l p c fd s :
  _sessionMap (globals s) = l ++ [p] -> Forall (foreign (globals s) c) l ->
  belongs (globals s) c p -> contexts (globals s) !! c = Some fd ->
  (TEEC_FinalizeContext c s).1 = Stop Undefined.
Proof.
  intros Hm Hl Hp Hc. change (wp (TEEC_FinalizeContext c) (fun o _ => o = Stop Undefined) s).
  unfold TEEC_FinalizeContext. apply wp_bind, wp_gets. rewrite Hm, length_app.
  unfold belongs in Hp. destruct (sessions (globals s) !! p) as [ss|] eqn:Hs; [|done].
  injection Hp as Hctx. apply finalize_prefix_wp; [done|].
  eapply finalize_own; [done|done|by eexists|]. intros. by apply wp_bind, wp_halt.
Qed.
End Finalize.
