(* ===== verification/TeecFrames.v ===== *)
(** * libteec: the argument buffer of the driver

    Encoding and decoding of the parameters, the buffer a trusted application
    answers with, and what an operation of plain values makes of it; the octets
    of a UUID. *)

From S2P Require Import Prelude Kernel Teec TeecMemory TeecOps TeecSession.

Definition param_wf (p : tee_ioctl_param) : Prop :=
  is_u64 (attr p) /\ is_u64 (w0 p) /\ is_u64 (w1 p) /\ is_u64 (w2 p).

Lemma zlen_param_enc p : zlen (param_enc p) = sizeof_param.
Proof. unfold param_enc. autorewrite with len. reflexivity. Qed.

Lemma param_dec_enc p : param_wf p -> param_dec (param_enc p) = p.
Proof.
  intros (? & ? & ? & ?). unfold param_dec, param_enc.
  rewrite <- (app_nil_r (le_enc 8 (w2 p))). fields. by destruct p.
Qed.

(** The [i]-th parameter behind a header. *)
Lemma param_at h b1 p b2 hdr i :
  zlen h = hdr -> zlen b1 = i * sizeof_param -> 0 <= i -> param_wf p ->
  param_dec (slice (hdr + i * sizeof_param) sizeof_param (h ++ b1 ++ param_enc p ++ b2)) = p.
Proof.
  intros Hh Hb Hi Hp. unfold sizeof_param in *. rewrite slice_app_r by lia.
  rewrite slice_app_r by lia. rewrite slice_app_l; try lia.
  2:{ rewrite zlen_param_enc. unfold sizeof_param. lia. }
  replace (hdr + i * 32 - zlen h - zlen b1) with 0 by lia.
  change 32 with sizeof_param. rewrite <- (zlen_param_enc p), slice_full. by apply param_dec_enc.
Qed.

Lemma params_dec_enc h hdr ps :
  zlen h = hdr -> length ps = TEEC_CONFIG_PAYLOAD_REF_COUNT -> Forall param_wf ps ->
  params_dec hdr (h ++ params_enc ps) = ps.
Proof.
  intros Hh Hl Hp. destruct ps as [|p0 [|p1 [|p2 [|p3 [|]]]]]; try done.
  repeat match goal with H : Forall _ (_ :: _) |- _ => inversion H; clear H; subst end.
  unfold params_dec, params_enc. cbn [map concat]. rewrite app_nil_r.
  repeat apply (f_equal2 cons); try done.
  - by apply (param_at h [] p0).
  - apply (param_at h (param_enc p0) p1); [done|apply zlen_param_enc|done|done].
  - rewrite (app_assoc (param_enc p0)).
    apply (param_at h (param_enc p0 ++ param_enc p1) p2); [done|by rewrite zlen_app, !zlen_param_enc|done|done].
  - rewrite (app_assoc (param_enc p1)), (app_assoc (param_enc p0)).
    rewrite <- (app_nil_r (param_enc p3)).
    apply (param_at h (param_enc p0 ++ param_enc p1 ++ param_enc p2) p3);
      [done|by rewrite !zlen_app, !zlen_param_enc|done|done].
Qed.

(** The header of [struct tee_ioctl_invoke_arg], and the whole buffer with the
    answer of the trusted application filled in. *)
Definition invoke_hdr (func session ret ret_origin : Z) : bytes :=
  le_enc 4 func ++ le_enc 4 session ++ le_enc 4 0 ++ le_enc 4 ret ++ le_enc 4 ret_origin ++ le_enc 4 4.
Definition invoke_reply (func session ret ret_origin : Z) (ps : list tee_ioctl_param) : bytes :=
  invoke_hdr func session ret ret_origin ++ params_enc ps.

Lemma invoke_enc_reply func session ps : invoke_enc func session ps = invoke_reply func session 0 0 ps.
Proof. unfold invoke_enc, invoke_reply, invoke_hdr. by rewrite <- !app_assoc. Qed.

Lemma zlen_invoke_hdr f s r o : zlen (invoke_hdr f s r o) = sizeof_invoke_arg.
Proof. unfold invoke_hdr. autorewrite with len. reflexivity. Qed.

Lemma length_params_enc ps : length (params_enc ps) = (32 * length ps)%nat.
Proof.
  unfold params_enc. induction ps as [|p ps IH]; [done|]. cbn [map concat length].
  rewrite length_app, IH. unfold param_enc. rewrite !length_app, !length_le_enc. lia.
Qed.

Lemma length_invoke_reply f s r o ps : length (invoke_reply f s r o ps) = (24 + 32 * length ps)%nat.
Proof.
  unfold invoke_reply, invoke_hdr. rewrite !length_app, !length_le_enc, length_params_enc. lia.
Qed.

Lemma map_u8_bytes b : Forall is_u8 b -> map u8 b = b.
Proof.
  induction 1 as [|x b Hx Hb IH]; [done|]. cbn [map]. rewrite IH. f_equal.
  unfold u8. apply Z.mod_small. exact Hx.
Qed.

(** An answer as long as the buffer replaces it. *)
Lemma copy_out_full buf data :
  length data = length buf -> Forall is_u8 data -> copy_out buf data = data.
Proof.
  intros Hl Hb. unfold copy_out. rewrite take_ge by lia. rewrite Hl, drop_all, app_nil_r.
  by apply map_u8_bytes.
Qed.

Lemma invoke_reply_bytes f s r o ps : Forall is_u8 (invoke_reply f s r o ps).
Proof.
  unfold invoke_reply, invoke_hdr. rewrite !Forall_app.
  split_and!; auto using le_enc_bytes, params_enc_bytes.
Qed.

Lemma invoke_reply_ret f s r o ps :
  is_u32 r -> is_u32 o ->
  get_u32 (invoke_reply f s r o ps) 12 = r /\ get_u32 (invoke_reply f s r o ps) 16 = o.
Proof. intros. unfold invoke_reply, invoke_hdr. rewrite <- !app_assoc. split; fields; done. Qed.

(** ** Operations of plain values *)

Definition is_plain (ty : Z) : bool := (ty =? TEEC_NONE) || is_value ty.

Definition plain_param (ty : Z) (p : TEEC_Parameter) : tee_ioctl_param :=
  if ty =? TEEC_NONE then Param 0 0 0 0 else Param ty (value_a (value p)) (value_b (value p)) 0.

(** The parameter after the call: outputs are taken from the answer. *)
Definition plain_result (ty : Z) (p : TEEC_Parameter) (prm : tee_ioctl_param) : TEEC_Parameter :=
  if (ty =? TEEC_VALUE_OUTPUT) || (ty =? TEEC_VALUE_INOUT)
  then set_value p (u32 (w0 prm)) (u32 (w1 prm)) else p.

Section Plain.
Context {W : Type} `{K : Kernel W}.
Implicit Types s : proc W teec_st.

Lemma plain_cases ty : is_plain ty = true -> ty = 0 \/ ty = 1 \/ ty = 2 \/ ty = 3.
Proof.
  unfold is_plain. intros [H|H]%orb_true_iff; [apply Z.eqb_eq in H; tauto|].
  right. by apply value_kind.
Qed.

Lemma pre_plain c sl s :
  Forall (fun tp => is_plain tp.1 = true) sl ->
  pre_process_params c sl s =
    (Ret (TEEC_SUCCESS, (fun tp => plain_param tp.1 tp.2) <$> sl, (fun _ => shm0) <$> sl), s).
Proof.
  induction 1 as [|[ty p] sl Hty Hsl IH]; [done|]. cbn [pre_process_params fmap list_fmap].
  unfold mbind, M_bind. simpl in Hty.
  destruct (plain_cases _ Hty) as [->|[->|[->| ->]]]; cbn -[pre_process_params fmap]; by rewrite IH.
Qed.

Lemma post_plain sl prms shms s :
  Forall (fun tp => is_plain tp.1 = true) sl ->
  length prms = length sl -> length shms = length sl ->
  post_process_params sl prms shms s =
    (Ret (zip_with (fun tp prm => plain_result tp.1 tp.2 prm) sl prms), s).
Proof.
  intros H. revert prms shms. induction H as [|[ty p] sl Hty Hsl IH]; intros prms shms Hp Hs; [done|].
  destruct prms as [|prm prms], shms as [|shm shms]; try done. simpl in *.
  unfold mbind, M_bind.
  assert (post_process_param ty p prm shm s = (Ret (plain_result ty p prm), s)) as ->.
  { destruct (plain_cases _ Hty) as [->|[->|[->| ->]]]; reflexivity. }
  rewrite IH by lia. done.
Qed.

Lemma free_plain types shms s :
  Forall (fun ty => is_plain ty = true) types -> free_temps types shms s = (Ret tt, s).
Proof.
  intros H. revert shms. induction H as [|ty types Hty Ht IH]; intros [|shm shms]; try done.
  simpl. assert (is_temp ty = false) as ->.
  { destruct (plain_cases _ Hty) as [->|[->|[->| ->]]]; reflexivity. }
  apply IH.
Qed.
End Plain.

(** ** UUIDs *)

Definition uuid_wf (u : TEEC_UUID) : Prop :=
  is_u32 (timeLow u) /\ 0 <= timeMid u < 2 ^ 16 /\ 0 <= timeHiAndVersion u < 2 ^ 16 /\
  length (clockSeqAndNode u) = 8%nat /\ Forall is_u8 (clockSeqAndNode u).

(** The UUID that sixteen octets in network order denote. *)
Fixpoint be_dec (acc : Z) (b : bytes) : Z :=
  match b with [] => acc | x :: b' => be_dec (acc * 256 + x) b' end.
Definition octets_to_uuid (b : bytes) : TEEC_UUID :=
  Uuid (be_dec 0 (take 4 b)) (be_dec 0 (take 2 (drop 4 b))) (be_dec 0 (take 2 (drop 6 b))) (drop 8 b).

Lemma octets_of_uuid u : uuid_wf u -> octets_to_uuid (uuid_to_octets u) = u.
Proof.
  destruct u as [lo mid hi cs]. intros (H1 & H2 & H3 & H4 & H5). simpl in *.
  unfold octets_to_uuid, uuid_to_octets. cbn [timeLow timeMid timeHiAndVersion clockSeqAndNode app take drop be_dec].
  rewrite !Z.shiftr_div_pow2 by lia. unfold u8. f_equal; [| |].
  - change (2 ^ 24) with 16777216. change (2 ^ 16) with 65536. change (2 ^ 8) with 256. wide_lia.
  - clear H1 H3 H4 H5. wide_lia.
  - clear H1 H2 H4 H5. rewrite take_0. cbn [be_dec]. wide_lia.
Qed.

Lemma uuid_octets_bytes u : uuid_wf u -> length (uuid_to_octets u) = 16%nat /\ Forall is_u8 (uuid_to_octets u).
Proof.
  intros (_ & _ & _ & Hl & Hb). unfold uuid_to_octets. rewrite length_app, Hl. split; [done|].
  apply Forall_app. split; [|done]. repeat constructor; unfold u8; wide_lia.
Qed.
