(* ===== verification/TeeKernel.v ===== *)
(** * A small secure world

    A kernel for concrete runs of the client library: the second device file
    exists, mappings are kept by address, and the trusted application adds one
    to every value and to every byte it is given, and reports a configurable
    output size. *)

From S2P Require Import Prelude Kernel Teec.

Record tee_world := TeeWorld {
  tw_maps : gmap Z bytes;     (* contents by mapping address *)
  tw_next : Z;                (* next free address *)
  tw_no_map : bool;           (* mmap fails *)
  tw_no_id : bool;            (* no id is assigned *)
  tw_out : Z -> Z             (* output size for an input size *)
}.

Definition tee_ok (z : Z) : sysret := SysRet z 0 [].
Definition tee_fail (e : Z) : sysret := SysRet (-1) e [].

Definition set_maps m w := TeeWorld m (tw_next w) (tw_no_map w) (tw_no_id w) (tw_out w).

(** The application's view of one parameter. *)
Definition ta_param (w : tee_world) (p : tee_ioctl_param) : tee_ioctl_param :=
  if attr p =? 3 then Param 3 (w0 p + 1) (w1 p + 1) (w2 p)
  else if attr p =? 7 then Param 7 (w0 p) (tw_out w (w1 p)) (w2 p)
  else p.

Definition tee_kcall (c : syscall) (w : tee_world) : sysret * tee_world :=
  match c with
  | Sys_open p _ _ => (if bool_decide (p = cstr "/dev/isee_tee1") then tee_ok 5 else tee_fail ENOENT, w)
  | Sys_mmap n _ =>
      if tw_no_map w then (tee_fail ENOMEM, w)
      else (tee_ok (tw_next w),
            TeeWorld (<[tw_next w := replicate (Z.to_nat n) 0]> (tw_maps w)) (tw_next w + 4096)
              (tw_no_map w) (tw_no_id w) (tw_out w))
  | Sys_munmap a _ => (tee_ok 0, set_maps (delete a (tw_maps w)) w)
  | Mem_load a n => (SysRet 0 0 (slice 0 n (default [] (tw_maps w !! a))), w)
  | Mem_store a d => (tee_ok 0, set_maps (alter (fun b => splice b 0 d) a (tw_maps w)) w)
  | Sys_ioctl _ req (Arg_buf b) =>
      if req =? TEE_IOC_VERSION then (SysRet 0 0 (replicate 8 0 ++ [1; 0; 0; 0]), w)
      else if req =? TEE_IOC_INVOKE then
        (SysRet 0 0 (take 24 b ++ params_enc (ta_param w <$> params_dec 24 b)),
         set_maps (fmap (map (fun z => u8 (z + 1))) (tw_maps w)) w)
      else (tee_ok 0, w)
  | Sys_ioctl _ req _ =>
      if (req =? TEE_IOC_SHM_ID) && tw_no_id w then (tee_fail EINVAL, w) else (tee_ok 9, w)
  | _ => (tee_ok 0, w)
  end.
#[export] Instance tee_kernel : Kernel tee_world := tee_kcall.

Definition tee_world0 : tee_world := TeeWorld ∅ 4096 false false (fun n => n - 1).
