(* ===== verification/TeecInout.v ===== *)
(** * libteec: the life of one temporary reference

    The exact calls [TEEC_InvokeCommand] makes for an operation whose only
    parameter is a buffer passed in and out, and what it leaves in the buffer. *)

From S2P Require Import Prelude Kernel Teec TeecMemory TeecOps TeecSession TeecFrames.

Section Inout.
Context {W : Type} `{K : Kernel W}.
Implicit Types s : proc W teec_st.

Definition inout_op (p : TEEC_Parameter) (rest : list TEEC_Parameter) (os : option Z)
    : TEEC_Operation :=
  Operation (TEEC_PARAM_TYPES TEEC_MEMREF_TEMP_INOUT TEEC_NONE TEEC_NONE TEEC_NONE) (p :: rest) os.

Definition inout_frame (cmd sid n id : Z) : bytes :=
  invoke_enc cmd sid (memref_param TEE_IOCTL_PARAM_ATTR_TYPE_MEMREF_INOUT 0 n id
                        :: replicate 3 param0).

(** The id field after [teec_shm_get_id] was answered with [r]. *)
Definition shm_id_of (r : sysret) : Z := if sr_ret r <? 0 then -1 else sr_ret r.

(** After the mapping [a] was made: id, copy in, call; then, for an answer of
    [m] bytes that fits, copy out. *)
Definition inout_mapped (a cmd : Z) (ss : TEEC_Session) (fd : Z) (b n : Z) (d : bytes)
    (p : TEEC_Parameter) rest sp (o : outcome api_ret) (m' : gmap Z bytes) (m0 : gmap Z bytes)
    (evs : list event) : Prop :=
  exists ri rs rv tail,
    evs = Ev (Sys_ioctl fd TEE_IOC_SHM_ID (Arg_int a)) ri ::
          Ev (Mem_store a (slice 0 n d)) rs ::
          Ev (Sys_ioctl fd TEE_IOC_INVOKE
                (Arg_buf (inout_frame cmd (session_id ss) n (shm_id_of ri)))) rv :: tail /\
    (sr_ret rv = 0 ->
     let buf := copy_out (inout_frame cmd (session_id ss) n (shm_id_of ri)) (sr_data rv) in
     let m := get_u64 (slice 24 32 buf) 16 in
     o = Ret (get_u32 buf 12, get_u32 buf 16, Some (inout_op (set_tmp_size p m) rest (Some sp))) /\
     (m <= n -> exists rl tail', tail = Ev (Mem_load a m) rl :: tail' /\
        m' = <[b := splice d 0 (copy_out (replicate (Z.to_nat m) 0) (sr_data rl))]> m0) /\
     (n < m -> m' = m0)).

Lemma store_local b off data d Φ s :
  blocks (globals s) !! b = Some d -> off + zlen data <= zlen d ->
  Φ (Ret tt) (Proc (set_blocks (<[b := splice d off data]>) (globals s)) (world s) (errno s) (trace s)) ->
  wp (store (PLocal b) off data) Φ s.
Proof.
  intros Hb Hle HΦ. simpl. apply wp_bind, wp_gets. rewrite Hb. apply wp_bind, wp_ret.
  replace (off + zlen data <=? zlen d) with true by lia. by apply wp_modify.
Qed.

Lemma load_local b off n d Φ s :
  blocks (globals s) !! b = Some d -> off + n <= zlen d ->
  Φ (Ret (slice off n d)) s -> wp (load (PLocal b) off n) Φ s.
Proof.
  intros Hb Hle HΦ. simpl. apply wp_bind, wp_gets. rewrite Hb. apply wp_bind, wp_ret.
  replace (off + n <=? zlen d) with true by lia. by apply wp_ret.
Qed.

Lemma length_zero_copy n data : 0 <= n -> zlen (copy_out (replicate (Z.to_nat n) 0) data) = n.
Proof. intros. unfold zlen. rewrite length_copy_out, length_replicate. lia. Qed.

(** Release changes nothing but the trace. *)
Lemma release_quiet shm s :
  temp_shm shm ->
  wp (TEEC_ReleaseSharedMemory (Some shm)) (fun o s' => exists m evs, o = Ret m /\
    globals s' = globals s /\ trace s' = trace s ++ evs) s.
Proof.
  intros [Hsh Hb]. unfold TEEC_ReleaseSharedMemory.
  destruct (_ =? -1); [apply wp_ret; exists (Some shm), []; by rewrite app_nil_r|].
  destruct (_ <? 0); [apply wp_ret; exists (Some shm), []; by rewrite app_nil_r|].
  rewrite Hsh. apply wp_bind. destruct Hb as [->|[a ->]]; cbn [is_null negb ut_close_fd munmap];
    apply wp_bind; wp_sys_intro; apply wp_ret, wp_bind; wp_sys_intro; apply wp_ret;
    do 2 eexists; (split_and!; [done|done|simpl; by rewrite <- app_assoc]).
Qed.

Lemma free_temps_quiet types shms s :
  Forall temp_shm shms ->
  wp (free_temps types shms) (fun o s' => exists evs, o = Ret tt /\
    globals s' = globals s /\ trace s' = trace s ++ evs) s.
Proof.
  intros Ht. revert shms Ht s. induction types as [|ty types IH]; intros [|shm shms] Ht s;
    try (apply wp_ret; exists []; by rewrite app_nil_r).
  inversion Ht; subst. cbn [free_temps]. apply wp_bind.
  destruct (is_temp ty); [|by apply wp_ret, IH]. apply wp_bind.
  eapply wp_mono; [by apply release_quiet|]. intros o s1 (m & evs & -> & Hg & Htr). apply wp_ret.
  eapply wp_mono; [by apply IH|]. intros o s2 (evs' & -> & Hg' & Htr'). exists (evs ++ evs').
  split_and!; [done|by rewrite Hg'|by rewrite Htr', Htr, app_assoc].
Qed.

Lemma inout_types p rest os : param_types (inout_op p rest os) = [7; 0; 0; 0].
Proof. reflexivity. Qed.

(** The copy back and the release. *)
Lemma inout_finish b n d p rest sp shm a buf s (k : option TEEC_Operation -> M W teec_st api_ret) Φ :
  blocks (globals s) !! b = Some d -> n <= zlen d -> length rest = 3%nat ->
  tmpref p = Tmpref (PLocal b) n -> shm_buffer shm = PMap a -> temp_shm shm -> Forall is_u8 buf ->
  let m := get_u64 (slice 24 32 buf) 16 in
  (forall s' evs, trace s' = trace s ++ evs ->
     (m <= n -> exists rl tail, evs = Ev (Mem_load a m) rl :: tail /\
        blocks (globals s') = <[b := splice d 0 (copy_out (replicate (Z.to_nat m) 0) (sr_data rl))]> (blocks (globals s))) ->
     (n < m -> blocks (globals s') = blocks (globals s)) ->
     wp (k (Some (inout_op (set_tmp_size p m) rest (Some sp)))) Φ s') ->
  wp (op' ← teec_post_process_operation (Some (inout_op p rest (Some sp))) (params_dec 24 buf)
              (shm :: replicate 3 shm0);
      teec_free_temp_refs (Some (inout_op p rest (Some sp))) (shm :: replicate 3 shm0);; k op') Φ s.
Proof.
  intros Hb Hle Hlen Hp Ha Ht Hbuf m Hk.
  destruct rest as [|q1 [|q2 [|q3 [|]]]]; try done.
  assert (0 <= m) as Hm by (apply get_u64_range, Forall_slice; done).
  assert (forall s1 evs, trace s1 = trace s ++ evs ->
    (m <= n -> exists rl tail, evs = Ev (Mem_load a m) rl :: tail /\
        blocks (globals s1) = <[b := splice d 0 (copy_out (replicate (Z.to_nat m) 0) (sr_data rl))]> (blocks (globals s))) ->
    (n < m -> blocks (globals s1) = blocks (globals s)) ->
    wp (teec_free_temp_refs (Some (inout_op p [q1; q2; q3] (Some sp))) (shm :: replicate 3 shm0);;
        k (Some (inout_op (set_tmp_size p m) [q1; q2; q3] (Some sp)))) Φ s1) as Hfree.
  { intros s1 evs Htr H1 H2. apply wp_bind.
    eapply wp_mono.
    { apply (free_temps_quiet _ (shm :: replicate 3 shm0)).
      constructor; [done|]. repeat constructor; auto. }
    intros o s2 (evs' & -> & Hg & Htr'). eapply (Hk s2 (evs ++ evs')).
    - by rewrite Htr', Htr, app_assoc.
    - intros Hle'. destruct (H1 Hle') as (rl & tail & -> & Hbl). exists rl, (tail ++ evs').
      by rewrite Hg.
    - intros Hlt. rewrite Hg. auto. }
  set (prm := param_dec (slice 24 32 buf)).
  change (wp (op' ← (ps ← (p' ← teec_post_process_tmpref 7 p prm shm;
                           ps ← mret [q1; q2; q3]; mret (p' :: ps));
                     mret (Some (set_params (inout_op p [q1; q2; q3] (Some sp)) ps)));
              teec_free_temp_refs (Some (inout_op p [q1; q2; q3] (Some sp))) (shm :: replicate 3 shm0);;
              k op') Φ s).
  unfold teec_post_process_tmpref. rewrite Hp, Ha. change (memref_size prm) with m.
  cbn [negb Z.eqb tmp_size tmp_buffer is_null]. rewrite andb_true_r. do 4 apply wp_bind.
  destruct (Z.leb_spec m n) as [Hmn|Hmn].
  - apply wp_bind. cbn [load]. rewrite Z.add_0_r. apply wp_bind. wp_sys_intro. apply wp_ret.
    eapply store_local; [done|rewrite length_zero_copy by done; lia|].
    apply wp_ret, wp_bind, wp_ret, wp_ret, wp_ret.
    eapply (Hfree _ [Ev (Mem_load a m) r]); [done| |lia]. intros _. by exists r, [].
  - apply wp_ret, wp_ret, wp_bind, wp_ret, wp_ret, wp_ret.
    apply (Hfree s []); [by rewrite app_nil_r|lia|done].
Qed.

Definition shm_rest (shm : TEEC_SharedMemory) : list TEEC_SharedMemory := shm :: replicate 3 shm0.

(** The preparation: map, ask for the id, copy in. *)
Lemma pre_inout c fd b n d p q1 q2 q3 Φ s :
  contexts (globals s) !! c = Some fd -> blocks (globals s) !! b = Some d ->
  n <= zlen d -> tmpref p = Tmpref (PLocal b) n ->
  (forall rm w prms shm, sr_ret rm = -1 -> shm_id shm = -1 ->
     Φ (Ret (TEEC_ERROR_OUT_OF_MEMORY, prms, shm_rest shm)) (after s (Sys_mmap (region_size n) fd) rm w)) ->
  (forall rm ri rs s' shm, sr_ret rm <> -1 ->
     trace s' = trace s ++ [Ev (Sys_mmap (region_size n) fd) rm;
                            Ev (Sys_ioctl fd TEE_IOC_SHM_ID (Arg_int (sr_ret rm))) ri;
                            Ev (Mem_store (sr_ret rm) (slice 0 n d)) rs] ->
     globals s' = globals s -> shm_buffer shm = PMap (sr_ret rm) -> temp_shm shm ->
     Φ (Ret (TEEC_SUCCESS, memref_param TEE_IOCTL_PARAM_ATTR_TYPE_MEMREF_INOUT 0 n (shm_id_of ri)
                             :: replicate 3 param0, shm_rest shm)) s') ->
  wp (pre_process_params c [(7, p); (0, q1); (0, q2); (0, q3)]) Φ s.
Proof.
  intros Hc Hb Hle Hp Hfail Hok. cbn [pre_process_params]. apply wp_bind.
  change (pre_process_param c 7 p) with (teec_pre_process_tmpref (W := W) c 7 (tmpref p)).
  rewrite Hp. unfold teec_pre_process_tmpref, ref_direction. cbn [Z.eqb Pos.eqb tmp_size tmp_buffer].
  apply wp_bind. unfold TEEC_AllocateSharedMemory. cbn [shm_flags shm_size].
  change (bad_flags _) with false. cbn iota. apply wp_bind, wp_gets. rewrite Hc.
  apply wp_bind, wp_ret, wp_bind. wp_sys_intro.
  destruct (Z.eqb_spec (sr_ret r) (-1)) as [Hr|Hr].
  { apply wp_ret, wp_bind, wp_ret, wp_ret, wp_ret. by apply Hfail. }
  unfold teec_shm_get_id. apply wp_bind, wp_bind. wp_sys_intro.
  assert (forall id, id = shm_id_of r0 ->
    wp (mret id) (fun o s' => o = Ret (shm_id_of r0) /\
      s' = after (after s (Sys_mmap (region_size n) fd) r w)
             (Sys_ioctl fd TEE_IOC_SHM_ID (Arg_int (sr_ret r))) r0 w0)
      (after (after s (Sys_mmap (region_size n) fd) r w)
         (Sys_ioctl fd TEE_IOC_SHM_ID (Arg_int (sr_ret r))) r0 w0)) as Hid by (by intros id ->).
  eapply wp_mono; [destruct (sr_ret r0 <? 0) eqn:E; apply Hid; unfold shm_id_of; by rewrite E|].
  intros o s2 [-> ->]. apply wp_ret, wp_bind, wp_ret. cbn [Z.eqb negb shm_buffer].
  apply wp_bind, wp_bind. eapply load_local; [done|lia|]. cbn [store]. rewrite Z.add_0_r.
  apply wp_bind. wp_sys_intro. apply wp_ret, wp_ret.
  repeat first [apply wp_bind | apply wp_ret].
  eapply Hok; [done|simpl; by rewrite <- !app_assoc|done|done|split; simpl; eauto].
Qed.

Lemma invoke_inout_spec sp cmd b n d p rest os ss fd s :
  sessions (globals s) !! sp = Some ss -> contexts (globals s) !! ctx ss = Some fd ->
  blocks (globals s) !! b = Some d -> 0 <= n <= zlen d -> length rest = 3%nat ->
  tmpref p = Tmpref (PLocal b) n ->
  wp (TEEC_InvokeCommand (Some sp) cmd (Some (inout_op p rest os))) (fun o s' =>
    exists r1 r2 rm evs,
      trace s' = trace s ++ Ev Lib_mutex_lock r1 :: Ev Lib_mutex_unlock r2 ::
                            Ev (Sys_mmap (region_size n) fd) rm :: evs /\
      if sr_ret rm =? -1
      then evs = [] /\ o = Ret (TEEC_ERROR_OUT_OF_MEMORY, TEEC_ORIGIN_API,
                                Some (inout_op p rest (Some sp)))
      else inout_mapped (sr_ret rm) cmd ss fd b n d p rest sp o
             (blocks (globals s')) (blocks (globals s)) evs) s.
Proof.
  intros Hs Hc Hb [Hn Hle] Hlen Hp. unfold TEEC_InvokeCommand.
  apply wp_bind, wp_gets. rewrite Hs. apply wp_bind, wp_ret, wp_bind, wp_bind. wp_sys_intro.
  apply wp_bind. wp_sys_intro. apply wp_ret.
  change (set_op_session (inout_op p rest os) sp) with (inout_op p rest (Some sp)).
  destruct rest as [|q1 [|q2 [|q3 [|]]]]; try done. set (op := inout_op p _ (Some sp)).
  apply wp_bind. change (teec_pre_process_operation (ctx ss) (Some op))
    with (pre_process_params (W := W) (ctx ss) [(7, p); (0, q1); (0, q2); (0, q3)]).
  eapply pre_inout; [done|done|done|done| |].
  - intros rm w1 prms shm Hrm Hid. cbn [Z.eqb negb]. apply wp_bind.
    change (teec_free_temp_refs (Some op) (shm_rest shm))
      with ((TEEC_ReleaseSharedMemory (Some shm);; mret tt);; mret tt : M W teec_st unit).
    unfold TEEC_ReleaseSharedMemory. rewrite Hid. cbn [Z.eqb Pos.eqb].
    apply wp_bind, wp_bind, wp_ret, wp_ret, wp_ret, wp_ret.
    do 4 eexists. split; [simpl; by rewrite <- !app_assoc|]. by rewrite Hrm.
  - intros rm ri rs s1 shm Hrm Ht Hg Ha Htemp. cbn [Z.eqb negb TEEC_SUCCESS].
    apply wp_bind, wp_gets. rewrite Hg. simpl globals. rewrite Hc. apply wp_bind, wp_ret, wp_bind.
    wp_sys_intro. destruct (Z.eqb_spec (sr_ret r1) 0) as [Hr1|Hr1]; cbn [negb].
    2:{ apply wp_bind, wp_get_errno, wp_bind. eapply wp_mono.
        { apply (free_temps_quiet _ (shm_rest shm)). constructor; [done|]. repeat constructor; auto. }
        intros o s2 (evs & -> & Hg2 & Htr2). apply wp_ret. do 4 eexists.
        split; [rewrite Htr2; simpl; rewrite Ht; simpl; by rewrite <- !app_assoc|].
        replace (sr_ret rm =? -1) with false by lia.
        exists ri, rs, r1, evs. split; [done|lia]. }
    set (buf := copy_out _ _). eapply (inout_finish b n d p [q1; q2; q3] sp shm (sr_ret rm) buf);
      [simpl; by rewrite Hg|done|done|done|done|done| |].
    { apply copy_out_bytes, invoke_enc_bytes. }
    intros s2 evs Htr2 Hcopy Hskip. apply wp_ret. do 4 eexists.
    split; [rewrite Htr2; simpl; rewrite Ht; simpl; by rewrite <- !app_assoc|].
    replace (sr_ret rm =? -1) with false by lia.
    exists ri, rs, r1, evs. split; [done|]. intros _. simpl in Hcopy, Hskip. rewrite Hg in Hcopy, Hskip.
    done.
Qed.
End Inout.
