(* ===== verification/TeecDirect.v ===== *)
(** * libteec: operations on mapped memory

    The keymaster transport and the key installation pass values and parts of
    shared memory they allocated themselves, which has no shadow copy: such an
    operation is marshalled without touching memory, and its results are read
    off the answer.  The call is then three system calls, given exactly. *)

From S2P Require Import Prelude Kernel Libtrusty Teec TeecMemory TeecOps TeecSession TeecFrames TeecInout.

(** A slot that is a value, unused, or a part of mapped memory without a
    shadow, whose flags allow the direction. *)
Definition direct (ty : Z) (p : TEEC_Parameter) : Prop :=
  is_plain ty = true \/
  (is_partial ty = true /\ exists shm, parent (memref p) = Some shm /\
     shadow_buffer shm = PNull /\ Z.land (shm_flags shm) (ty - 12) = ty - 12).

(** A slot after the call: values and sizes of outputs come from the answer. *)
Definition direct_result (ty : Z) (p : TEEC_Parameter) (prm : tee_ioctl_param) : TEEC_Parameter :=
  if is_partial ty then
    if ty =? TEEC_MEMREF_PARTIAL_INPUT then p else set_mem_size p (memref_size prm)
  else plain_result ty p prm.

Section Direct.
Context {W : Type} `{K : Kernel W}.
Implicit Types s : proc W teec_st.

Lemma direct_cases ty p : direct ty p ->
  ty = 0 \/ ty = 1 \/ ty = 2 \/ ty = 3 \/ ty = 13 \/ ty = 14 \/ ty = 15.
Proof.
  intros [H|[H _]]; [apply plain_cases in H|apply partial_kind in H]; tauto.
Qed.

Lemma direct_untemp ty p : direct ty p -> is_temp ty = false.
Proof. intros H. destruct (direct_cases _ _ H) as [->|[->|[->|[->|[->|[->| ->]]]]]]; reflexivity. Qed.

Lemma pre_direct_param c ty p s :
  direct ty p -> pre_process_param c ty p s = (Ret (TEEC_SUCCESS, marshal ty p shm0, shm0), s).
Proof.
  intros [Hp|(Hp & shm & Hpar & Hsh & Hfl)].
  - unfold marshal. destruct (plain_cases _ Hp) as [->|[->|[->| ->]]]; try reflexivity.
    cbn. by destruct (parent (memref p)).
  - unfold marshal. rewrite Hpar.
    destruct (partial_kind _ Hp) as [->|[->| ->]];
      [change (13 - 12) with TEEC_MEM_INPUT in Hfl|change (14 - 12) with TEEC_MEM_OUTPUT in Hfl
      |change (15 - 12) with (Z.lor TEEC_MEM_OUTPUT TEEC_MEM_INPUT) in Hfl];
      unfold pre_process_param, teec_pre_process_partial; cbn -[memref_param Z.land Z.lor mbind];
      rewrite Hpar; unfold mbind, M_bind; cbn -[memref_param Z.land Z.lor]; rewrite Hfl, Z.eqb_refl; cbn -[memref_param]; by rewrite Hsh.
Qed.

Lemma pre_direct c sl s :
  Forall (fun tp => direct tp.1 tp.2) sl ->
  pre_process_params c sl s =
    (Ret (TEEC_SUCCESS, (fun tp => marshal tp.1 tp.2 shm0) <$> sl, (fun _ => shm0) <$> sl), s).
Proof.
  induction 1 as [|[ty p] sl Hty Hsl IH]; [done|]. cbn [pre_process_params fmap list_fmap].
  unfold mbind, M_bind. rewrite pre_direct_param by done. cbn [TEEC_SUCCESS Z.eqb negb]. by rewrite IH.
Qed.

Lemma post_direct_param ty p prm shm s :
  direct ty p -> post_process_param ty p prm shm s = (Ret (direct_result ty p prm), s).
Proof.
  intros [Hp|(Hp & sm & Hpar & Hsh & Hfl)].
  - destruct (plain_cases _ Hp) as [->|[->|[->| ->]]]; reflexivity.
  - destruct (partial_kind _ Hp) as [->|[->| ->]]; [reflexivity|..];
      unfold post_process_param, teec_post_process_partial; cbn -[mbind];
      rewrite Hpar; unfold mbind, M_bind; cbn; rewrite Hsh; reflexivity.
Qed.

Lemma post_direct sl prms shms s :
  Forall (fun tp => direct tp.1 tp.2) sl -> length prms = length sl -> length shms = length sl ->
  post_process_params sl prms shms s =
    (Ret (zip_with (fun tp prm => direct_result tp.1 tp.2 prm) sl prms), s).
Proof.
  intros H. revert prms shms. induction H as [|[ty p] sl Hty Hsl IH]; intros prms shms Hp Hs; [done|].
  destruct prms as [|prm prms], shms as [|shm shms]; try done. cbn [post_process_params].
  unfold mbind, M_bind. rewrite post_direct_param by done. simpl in Hp, Hs. rewrite IH by lia. done.
Qed.

Lemma free_direct sl shms s :
  Forall (fun tp => direct tp.1 tp.2) sl -> free_temps sl.*1 shms s = (Ret tt, s).
Proof.
  intros H. revert shms. induction H as [|[ty p] sl Hty Hsl IH]; intros [|shm shms]; try done.
  cbn [fmap list_fmap fst free_temps]. rewrite (direct_untemp ty p) by done. apply IH.
Qed.

(** The request of such an operation. *)
Definition direct_frame (cmd sid : Z) (op : TEEC_Operation) : bytes :=
  invoke_enc cmd sid ((fun tp => marshal tp.1 tp.2 shm0) <$> slots op).

(** The whole call: lock, unlock, enter the application, nothing else. *)
Lemma invoke_direct sp cmd op ss fd s :
  sessions (globals s) !! sp = Some ss -> contexts (globals s) !! ctx ss = Some fd ->
  paramTypes op <= 65535 -> length (op_params op) = 4%nat ->
  Forall (fun tp => direct tp.1 tp.2) (slots op) ->
  wp (TEEC_InvokeCommand (Some sp) cmd (Some op)) (fun o s' => exists r1 r2 r res eorig op',
    o = Ret (res, eorig, Some op') /\ globals s' = globals s /\
    trace s' = trace s ++ [Ev Lib_mutex_lock r1; Ev Lib_mutex_unlock r2;
      Ev (Sys_ioctl fd TEE_IOC_INVOKE (Arg_buf (direct_frame cmd (session_id ss) op))) r] /\
    (exists w1 w2, kcall Lib_mutex_lock (world s) = (r1, w1) /\ kcall Lib_mutex_unlock w1 = (r2, w2) /\
       kcall (Sys_ioctl fd TEE_IOC_INVOKE (Arg_buf (direct_frame cmd (session_id ss) op))) w2 = (r, world s')) /\
    (sr_ret r <> 0 -> res = TEEC_ERROR_OUT_OF_MEMORY \/ res = TEEC_ERROR_GENERIC) /\
    let buf := copy_out (direct_frame cmd (session_id ss) op) (sr_data r) in
    (sr_ret r = 0 -> res = get_u32 buf 12 /\
       op_params op' = zip_with (fun tp prm => direct_result tp.1 tp.2 prm) (slots op)
                         (params_dec sizeof_invoke_arg buf))) s.
Proof.
  intros Hs Hc Hpt Hlen Hsl. assert (length (slots op) = 4%nat) as Hl by (unfold slots; by rewrite length_zip, Hlen).
  unfold TEEC_InvokeCommand. apply wp_bind, wp_gets. rewrite Hs. apply wp_bind, wp_ret, wp_bind, wp_bind.
  apply wp_sys; intros r1 w1 Hk1. apply wp_bind. apply wp_sys; intros r2 w2 Hk2. apply wp_ret, wp_bind.
  unfold teec_pre_process_operation. change (paramTypes (set_op_session op sp)) with (paramTypes op).
  change (slots (set_op_session op sp)) with (slots op). replace (65535 <? paramTypes op) with false by lia.
  unfold wp at 1. rewrite pre_direct by done. cbn [fst snd TEEC_SUCCESS Z.eqb negb].
  apply wp_bind, wp_gets. cbn [globals after]. rewrite Hc. apply wp_bind, wp_ret, wp_bind.
  fold (direct_frame cmd (session_id ss) op). apply wp_sys; intros r w Hk.
  set (s3 := after _ _ r w). assert (forall shms, free_temps (param_types op) shms s3 = (Ret tt, s3)) as Hfree.
  { intros shms. rewrite <- slots_types by done. by apply free_direct. }
  apply wp_if; intros Hr.
  - apply wp_bind, wp_get_errno, wp_bind. unfold wp at 1. cbn [teec_free_temp_refs].
    change (param_types (set_op_session op sp)) with (param_types op). rewrite Hfree. apply wp_ret.
    exists r1, r2, r. do 3 eexists. split_and!; [done|done|simpl; by rewrite <- !app_assoc|by exists w1, w2| |cbn zeta; lia].
    intros _. apply errno_to_res_cases.
  - apply wp_bind. unfold teec_post_process_operation. apply wp_bind.
    change (slots (set_op_session op sp)) with (slots op). unfold wp at 1.
    rewrite post_direct by (by rewrite ?length_fmap, ?Hl). apply wp_ret, wp_bind. unfold wp at 1.
    cbn [teec_free_temp_refs fst snd]. change (param_types (set_op_session op sp)) with (param_types op).
    rewrite Hfree. apply wp_ret. exists r1, r2, r. do 3 eexists.
    split_and!; [done|done|simpl; by rewrite <- !app_assoc|by exists w1, w2|lia|done].
Qed.
End Direct.

(** ** Memory of the library's own *)

(** A block of [n] bytes mapped at [a]. *)
Definition mapped (a n flags id fd : Z) : TEEC_SharedMemory :=
  Shm (PMap a) n flags id (region_size n) PNull fd.

Section Shared.
Context {W : Type} `{K : Kernel W}.
Implicit Types s : proc W teec_st.

(** Allocation: a mapping and its id, or an error. *)
Lemma allocate_exact c fd m Φ s :
  contexts (globals s) !! c = Some fd -> bad_flags (shm_flags m) = false ->
  (forall r w, Φ (Ret (TEEC_ERROR_OUT_OF_MEMORY,
                   Some (Shm (PMap (-1)) (shm_size m) (shm_flags m) (-1) (alloced_size m) (shadow_buffer m) (registered_fd m))))
                 (after s (Sys_mmap (region_size (shm_size m)) fd) r w)) ->
  (forall rm ri s', globals s' = globals s ->
     trace s' = trace s ++ [Ev (Sys_mmap (region_size (shm_size m)) fd) rm;
                            Ev (Sys_ioctl fd TEE_IOC_SHM_ID (Arg_int (sr_ret rm))) ri] ->
     Φ (Ret (TEEC_SUCCESS, Some (mapped (sr_ret rm) (shm_size m) (shm_flags m) (shm_id_of ri) fd))) s') ->
  wp (TEEC_AllocateSharedMemory (Some c) (Some m)) Φ s.
Proof.
  intros Hc Hf Hfail Hok. cbn [TEEC_AllocateSharedMemory]. rewrite Hf. apply wp_bind, wp_gets. rewrite Hc.
  apply wp_bind, wp_ret, wp_bind. apply wp_sys; intros rm wm _. apply wp_if; intros Hrm.
  { apply Z.eqb_eq in Hrm. apply wp_ret. rewrite Hrm. apply Hfail. }
  unfold teec_shm_get_id. apply wp_bind, wp_bind. apply wp_sys; intros ri wi _.
  assert (forall Q s', (Q (Ret (shm_id_of ri)) s' : Prop) ->
    wp (if sr_ret ri <? 0 then mret (-1) else mret (sr_ret ri) : M W teec_st Z) Q s') as Hid.
  { intros Q s' HQ. unfold shm_id_of in HQ. destruct (sr_ret ri <? 0); by apply wp_ret. }
  apply Hid, wp_ret, Hok; [done|simpl; by rewrite <- app_assoc].
Qed.

(** Release of such a block opens and closes nothing. *)
Lemma release_mapped a n flags id fd s :
  wp (TEEC_ReleaseSharedMemory (Some (mapped a n flags id fd))) (fun o s' => exists m evs, o = Ret m /\
    globals s' = globals s /\ trace s' = trace s ++ evs /\ Forall no_fd evs) s.
Proof.
  assert (exists (m : option TEEC_SharedMemory) evs, Ret (Some (mapped a n flags id fd)) = Ret m /\ globals s = globals s /\
    trace s = trace s ++ evs /\ Forall no_fd evs) as Hskip.
  { eexists _, []. rewrite app_nil_r. by split_and!. }
  cbn [TEEC_ReleaseSharedMemory]. apply wp_if; intros Hid; [by apply wp_ret|].
  apply wp_if; intros Hfd; [by apply wp_ret|]. cbn [negb is_null shadow_buffer shm_buffer mapped munmap].
  apply wp_bind, wp_bind. apply wp_sys; intros r1 w1 _. apply wp_ret, wp_bind.
  apply wp_sys; intros r2 w2 _. apply wp_ret. eexists _, [_; _].
  split_and!; [done|done|simpl; by rewrite <- app_assoc|by repeat constructor].
Qed.
End Shared.
