(* ===== verification/TeecTheorems.v ===== *)
(** * What libteec guarantees

    The theorems about 400/optee_client/libteec, each followed by an
    application to a concrete run on the small secure world of TeeKernel. *)

From S2P Require Import Prelude Kernel Libtrusty Teec TeecMemory TeecOps TeecSession TeecContext TeecFrames TeeKernel TeecInout.

(** ** Concrete states *)

(** A context on descriptor 5, a session 7 of it, and a buffer of four bytes. *)
Definition teec_demo : teec_st :=
  TeecSt {[ 100 := 5 ]} {[ 200 := Session 100 7 ]} {[ 300 := [1; 2; 3; 4] ]} [200] [100].
Definition teec_proc (w : tee_world) : proc tee_world teec_st := Proc teec_demo w 0 [].

Definition no_memref : TEEC_RegisteredMemoryReference := Memref None 0 0.
Definition value_slot (a b : Z) : TEEC_Parameter := MkParameter (Tmpref PNull 0) no_memref (Value a b).
Definition temp_slot (b n : Z) : TEEC_Parameter :=
  MkParameter (Tmpref (PLocal b) n) no_memref (Value 0 0).
Definition unused : list TEEC_Parameter := replicate 3 (value_slot 0 0).

Lemma unused_slot_wf m p : slot_wf m TEEC_NONE p.
Proof. split; [done|]. intros [?|?]; done. Qed.

Lemma temp_op_ok m b n d os :
  m !! b = Some d -> 0 <= n <= zlen d -> op_ok m (Some (inout_op (temp_slot b n) unused os)).
Proof.
  intros Hb Hn. split; [done|]. constructor; [|repeat (constructor; [apply unused_slot_wf|]); constructor].
  split; [|intros [?|?]; done]. intros _. simpl. split_and!; [lia|lia|]. exists d. split; [done|lia].
Qed.



(** *** Opening a session *)

(** The fields of a UUID in network order. *)
Definition be_enc (n : nat) (z : Z) : bytes := rev (le_enc n z).
Definition uuid_octets (u : TEEC_UUID) : bytes :=
  be_enc 4 (timeLow u) ++ be_enc 2 (timeMid u) ++ be_enc 2 (timeHiAndVersion u) ++ clockSeqAndNode u.

Lemma uuid_to_octets_spec u : uuid_to_octets u = uuid_octets u.
Proof.
  unfold uuid_to_octets, uuid_octets, be_enc, u8. cbn [le_enc rev app]. rewrite !Z.shiftr_div_pow2 by lia.
  change (2 ^ 24) with (256 * (256 * 256)). change (2 ^ 16) with (256 * 256). change (2 ^ 8) with 256.
  by rewrite <- !Z.div_div by lia.
Qed.

(** The login methods of the API and what each wants as connection data: none,
    or a group. *)
Definition login_wants (login : Z) : option bool :=
  if bool_decide (login ∈ [0; 1; 4; 5]) then Some false else if bool_decide (login ∈ [2; 6]) then Some true else None.

Lemma login_error_spec login data :
  login_error login data = match login_wants login with
    | None => Some (TEEC_ERROR_NOT_SUPPORTED, TEEC_ORIGIN_API)
    | Some b => if eqb b data then None else Some (TEEC_ERROR_BAD_PARAMETERS, TEEC_ORIGIN_COMMS)
    end.
Proof.
  unfold login_error, login_wants. destruct (decide (login ∈ [0; 1; 2; 4; 5; 6])) as [H|H].
  - rewrite !elem_of_cons in H. by destruct H as [->|[->|[->|[->|[->|[->|H]]]]]]; [destruct data..|inversion H].
  - rewrite !not_elem_of_cons in H. destruct H as (H0 & H1 & H2 & H4 & H5 & H6 & _).
    rewrite !bool_decide_eq_false_2 by (rewrite !not_elem_of_cons; split_and!; try done; apply not_elem_of_nil).
    unfold TEEC_LOGIN_PUBLIC, TEEC_LOGIN_USER, TEEC_LOGIN_APPLICATION, TEEC_LOGIN_USER_APPLICATION, TEEC_LOGIN_GROUP,
      TEEC_LOGIN_GROUP_APPLICATION. by repeat match goal with |- context [login =? ?n] => replace (login =? n) with false by lia end.
Qed.

(** struct tee_ioctl_open_session_arg: the UUID, an empty client UUID, the login
    method, four words the kernel fills in, the number of parameters and the
    parameters. *)
Definition session_request (u : TEEC_UUID) (login : Z) (ps : list tee_ioctl_param) : bytes :=
  uuid_octets u ++ replicate 16 0 ++ le_enc 4 login ++ replicate 16 0 ++ le_enc 4 4 ++ params_enc ps.

(** C37. Opening a session.  A login method the API does not know, and connection
    data where the method wants none or the reverse, are refused without a call.
    Otherwise, for a well-formed operation, the call returns and leaves the
    extent of every application buffer alone, unmaps each temporary block it
    mapped provided the kernel assigned every id it was asked for, and either
    refuses the operation before entering the secure world, or makes exactly one
    request, which carries the UUID's fields in network order, the login method
    and the marshalled parameters.  It returns the result and origin of the
    answer, and records the session under the id in the answer exactly when that
    result is success; in all other cases the records are as before. *)
Theorem open_session_registers {W} `{K : Kernel W} c sp dst login data op fd (s : proc W teec_st) :
  Forall is_u8 (clockSeqAndNode dst) -> contexts (globals s) !! c = Some fd -> 0 <= fd -> op_ok (blocks (globals s)) op ->
  let run := TEEC_OpenSession (Some c) (Some sp) dst login data op s in
  match login_wants login with
  | None => run = (Ret (TEEC_ERROR_NOT_SUPPORTED, TEEC_ORIGIN_API, op), s)
  | Some b =>
    if eqb b data then
      exists res eorig op' evs, run.1 = Ret (res, eorig, op') /\ trace run.2 = trace s ++ evs /\
      (Forall id_given evs -> forall a n, balance a n evs = 0) /\
      ((res <> TEEC_SUCCESS /\ eorig = TEEC_ORIGIN_API /\ Forall quiet evs /\ frame (globals s) (globals run.2)) \/
       exists pre r post shms, let req := session_request dst login (request op shms) in
         let answer := copy_out req (sr_data r) in
         evs = pre ++ Ev (Sys_ioctl fd TEE_IOC_OPEN_SESSION (Arg_buf req)) r :: post /\ Forall quiet pre /\ Forall quiet post /\
         if sr_ret r =? 0 then
           res = get_u32 answer 44 /\ eorig = get_u32 answer 48 /\
           frame (if res =? TEEC_SUCCESS then opened sp c (get_u32 answer 40) (globals s) else globals s) (globals run.2)
         else
           eorig = TEEC_ORIGIN_COMMS /\ (res = TEEC_ERROR_OUT_OF_MEMORY \/ res = TEEC_ERROR_GENERIC) /\
           frame (globals s) (globals run.2))
    else run = (Ret (TEEC_ERROR_BAD_PARAMETERS, TEEC_ORIGIN_COMMS, op), s)
  end.
Proof.
  intros Hu Hc Hfd Hop run. pose proof (login_error_spec login data) as Hlog.
  destruct (login_wants login) as [b|]; [|unfold run, TEEC_OpenSession; by rewrite Hlog].
  destruct (eqb b data); [|unfold run, TEEC_OpenSession; by rewrite Hlog].
  destruct (open_session_spec c sp dst login data op fd s Hlog Hu Hc Hfd Hop) as (res & eorig & op' & Ho & _ & evs & Ht & Hf & [Hb He]).
  fold run in Ho, Ht, Hf. exists res, eorig, op', evs. split; [done|]. split; [done|]. split; [done|].
  destruct He as [(Hres & Heo & Hq)|(pre & r & post & shms & Hevs & Hq1 & Hq2 & Hr)].
  - left. split_and!; try done. by replace (res =? TEEC_SUCCESS) with false in Hf by lia.
  - right. exists pre, r, post, shms. cbn zeta.
    change (session_request dst login (request op shms)) with (open_session_enc (uuid_octets dst) login (request op shms)).
    rewrite <- uuid_to_octets_spec. split_and!; [done..|]. destruct (sr_ret r =? 0).
    + destruct Hr as [-> ->]. split; [done|]. split; [done|]. destruct (_ =? TEEC_SUCCESS); [|done].
      destruct Hf as (buf & r' & Hin & Hf). rewrite Hevs in Hin.
      assert (forall l, Forall quiet l -> Ev (Sys_ioctl fd TEE_IOC_OPEN_SESSION (Arg_buf buf)) r' ∉ l) as Hno.
      { intros l Hl Hx. rewrite Forall_forall in Hl. by specialize (Hl _ Hx). }
      apply elem_of_app in Hin as [Hin|Hin]; [by destruct (Hno _ Hq1)|].
      apply elem_of_cons in Hin as [[= -> ->]|Hin]; [done|by destruct (Hno _ Hq2)].
    + destruct Hr as [-> Hr]. split_and!; [done|done|]. by destruct Hr as [-> | ->].
Qed.

(** A session of the gatekeeper application gets the id of the answer. *)
Lemma open_session_registers_witness :
  let dst := Uuid 0x98fb95bc 0xb4bf 0x42d2 [0x64; 0x73; 0xea; 0xe4; 0x86; 0x90; 0xd7; 0xea] in
  let run := TEEC_OpenSession (Some 100) (Some 201) dst TEEC_LOGIN_PUBLIC false None (teec_proc tee_world0) in
  run.1 = Ret (TEEC_SUCCESS, 0, None) /\
  exists res eorig op' evs, run.1 = Ret (res, eorig, op') /\ trace run.2 = [] ++ evs /\
      (Forall id_given evs -> forall a n, balance a n evs = 0) /\
      ((res <> TEEC_SUCCESS /\ eorig = TEEC_ORIGIN_API /\ Forall quiet evs /\ frame teec_demo (globals run.2)) \/
       exists pre r post shms, let req := session_request dst 0 (request None shms) in
         let answer := copy_out req (sr_data r) in
         evs = pre ++ Ev (Sys_ioctl 5 TEE_IOC_OPEN_SESSION (Arg_buf req)) r :: post /\ Forall quiet pre /\ Forall quiet post /\
         if sr_ret r =? 0 then
           res = get_u32 answer 44 /\ eorig = get_u32 answer 48 /\
           frame (if res =? TEEC_SUCCESS then opened 201 100 (get_u32 answer 40) teec_demo else teec_demo) (globals run.2)
         else
           eorig = TEEC_ORIGIN_COMMS /\ (res = TEEC_ERROR_OUT_OF_MEMORY \/ res = TEEC_ERROR_GENERIC) /\
           frame teec_demo (globals run.2)).
Proof.
  intros dst run. split; [by vm_compute|].
  apply (open_session_registers 100 201 dst TEEC_LOGIN_PUBLIC false None 5 (teec_proc tee_world0)); [|reflexivity|lia|done].
  repeat constructor; vm_compute; congruence.
Defined.

(** Value parameters.  For an operation of unused and value parameters the
    library makes one request, whose buffer is the encoding of the command, the
    session and the values, and nothing else; when the answer is an encoding of
    a result, an origin and four parameters, these are what the call returns:
    output values are the low words of the answer's, input values are kept. *)
Theorem invoke_values {W} `{K : Kernel W} sp cmd op ss fd (s : proc W teec_st) :
  sessions (globals s) !! sp = Some ss -> contexts (globals s) !! ctx ss = Some fd ->
  paramTypes op <= 65535 -> length (op_params op) = 4%nat ->
  Forall (fun ty => is_plain ty = true) (param_types op) ->
  exists r1 r2 r o s',
    TEEC_InvokeCommand (Some sp) cmd (Some op) s = (o, s') /\ globals s' = globals s /\
    trace s' = trace s ++
      [Ev Lib_mutex_lock r1; Ev Lib_mutex_unlock r2;
       Ev (Sys_ioctl fd TEE_IOC_INVOKE (Arg_buf (invoke_reply cmd (session_id ss) 0 0
         ((fun tp => plain_param tp.1 tp.2) <$> slots op)))) r] /\
    (forall f sd ret orig ps, sr_ret r = 0 -> sr_data r = invoke_reply f sd ret orig ps ->
       is_u32 ret -> is_u32 orig -> length ps = 4%nat -> Forall param_wf ps ->
       o = Ret (ret, orig, Some (Operation (paramTypes op)
             (zip_with (fun tp prm => plain_result tp.1 tp.2 prm) (slots op) ps) (Some sp)))).
Proof.
  intros Hs Hc Hpt Hlen Hty.
  assert (Forall (fun tp => is_plain tp.1 = true) (slots op)) as Hsl.
  { rewrite <- (Forall_fmap fst (fun ty => is_plain ty = true)). by rewrite slots_types. }
  assert (length (slots op) = 4%nat) as Hl by (unfold slots; by rewrite length_zip, Hlen).
  unfold TEEC_InvokeCommand, mbind, M_bind, gets, sys, get_errno. rewrite Hs. cbn [deref mret M_ret].
  unfold mret, M_ret. destruct (kcall Lib_mutex_lock _) as [r1 w1]. cbn [world after].
  destruct (kcall Lib_mutex_unlock _) as [r2 w2]. cbn [set_op_session]. unfold teec_pre_process_operation.
  change (paramTypes (set_op_session op sp)) with (paramTypes op).
  change (slots (set_op_session op sp)) with (slots op).
  replace (65535 <? paramTypes op) with false by lia. rewrite pre_plain by done. cbn [Z.eqb negb TEEC_SUCCESS].
  cbn [globals after]. rewrite Hc. cbn [deref mret M_ret]. rewrite invoke_enc_reply.
  destruct (kcall (Sys_ioctl _ _ _) _) as [r w] eqn:Ek. exists r1, r2, r.
  destruct (Z.eqb_spec (sr_ret r) 0) as [Hr|Hr]; cbn [negb].
  - unfold teec_post_process_operation, mbind, M_bind. change (slots (set_op_session op sp)) with (slots op).
    rewrite post_plain; [|done|by rewrite Hl|by rewrite length_fmap]. cbn [mret M_ret].
    unfold teec_free_temp_refs. rewrite free_plain by done. do 2 eexists.
    split; [done|]. split; [done|]. split; [simpl; by rewrite <- !app_assoc|].
    intros f sd ret orig ps _ Hd Hret Horig Hps Hpw. rewrite Hd.
    rewrite copy_out_full; [|by rewrite !length_invoke_reply, length_fmap, Hl, Hps|apply invoke_reply_bytes].
    destruct (invoke_reply_ret f sd ret orig ps Hret Horig) as [-> ->].
    unfold invoke_reply. rewrite (params_dec_enc _ sizeof_invoke_arg) by (done || apply zlen_invoke_hdr).
    done.
  - unfold teec_free_temp_refs. rewrite free_plain by done. do 2 eexists.
    split; [done|]. split; [done|]. split; [simpl; by rewrite <- !app_assoc|]. intros. lia.
Qed.

Lemma invoke_values_witness :
  let op := Operation (TEEC_PARAM_TYPES 3 1 0 0) (value_slot 41 6 :: value_slot 8 9 :: replicate 2 (value_slot 0 0)) None in
  (TEEC_InvokeCommand (Some 200) 3 (Some op) (teec_proc tee_world0)).1 =
    Ret (0, 0, Some (Operation (TEEC_PARAM_TYPES 3 1 0 0)
      (value_slot 42 7 :: value_slot 8 9 :: replicate 2 (value_slot 0 0)) (Some 200))).
Proof.
  intros op. destruct (invoke_values 200 3 op (Session 100 7) 5 (teec_proc tee_world0))
    as (r1 & r2 & r & o & s' & Hrun & _ & Ht & Ho);
    [reflexivity|reflexivity|vm_compute; congruence|reflexivity|repeat constructor|].
  assert (r = SysRet 0 0 (invoke_reply 3 7 0 0 [Param 3 42 7 0; Param 1 8 9 0; param0; param0])) as ->.
  { assert (last (trace (TEEC_InvokeCommand (Some 200) 3 (Some op) (teec_proc tee_world0)).2) =
      Some (Ev (Sys_ioctl 5 TEE_IOC_INVOKE (Arg_buf (invoke_reply 3 7 0 0
         [Param 3 41 6 0; Param 1 8 9 0; param0; param0])))
        (SysRet 0 0 (invoke_reply 3 7 0 0 [Param 3 42 7 0; Param 1 8 9 0; param0; param0])))) as Hl
      by (vm_compute; reflexivity).
    rewrite Hrun in Hl. cbn [snd] in Hl. rewrite Ht in Hl. cbn [trace teec_proc app last] in Hl.
    injection Hl as Hl. exact Hl. }
  rewrite Hrun. cbn [fst]. rewrite (Ho 3 7 0 0 [Param 3 42 7 0; Param 1 8 9 0; param0; param0]);
    [reflexivity|reflexivity|reflexivity|by vm_compute|by vm_compute|reflexivity|].
  repeat constructor; vm_compute; congruence.
Defined.



(** The octets of a UUID are sixteen bytes from which the UUID can be read
    back; in particular different applications get different octets. *)
Theorem uuid_octets_roundtrip u :
  uuid_wf u ->
  octets_to_uuid (uuid_to_octets u) = u /\ length (uuid_to_octets u) = 16%nat /\
  Forall is_u8 (uuid_to_octets u).
Proof. intros H. split; [by apply octets_of_uuid|by apply uuid_octets_bytes]. Qed.

Lemma uuid_octets_roundtrip_witness :
  octets_to_uuid (uuid_to_octets (Uuid 0x98fb95bc 0xb4bf 0x42d2 [0x64; 0x73; 0xea; 0xe4; 0x86; 0x90; 0xd7; 0xea]))
    = Uuid 0x98fb95bc 0xb4bf 0x42d2 [0x64; 0x73; 0xea; 0xe4; 0x86; 0x90; 0xd7; 0xea].
Proof.
  apply uuid_octets_roundtrip.
  repeat split; repeat constructor; vm_compute; congruence.
Defined.

(** Initialising a context tries at most ten devices, in order, until one
    answers as a GlobalPlatform TEE and accepts the host name; the context then
    holds its descriptor and is recorded.  Every other descriptor is closed
    again, and after a failure, which means that all ten were tried, nothing is
    recorded. *)
Theorem initialize_context_devices {W} `{K : Kernel W} gptee name c (s : proc W teec_st) :
  exists res s' evs k,
    TEEC_InitializeContext gptee name (Some c) s = (Ret res, s') /\ trace s' = trace s ++ evs /\
    (k <= 10)%nat /\ opened_paths evs = devname <$> seq 0 k /\
    (res = TEEC_SUCCESS /\ (exists fd, 0 <= fd /\ open_fds evs = [fd] /\
       globals s' = set_contextMap (map_put c) (set_contexts (<[c := fd]>) (globals s))) \/
     res = TEEC_ERROR_ITEM_NOT_FOUND /\ k = 10%nat /\ open_fds evs = [] /\ globals s' = globals s).
Proof.
  destruct (try_devices_spec gptee name c (seq 0 10) s) as (res & evs & k & Ho & Ht & Hk & Hp & Hres).
  unfold TEEC_InitializeContext. change TEEC_MAX_DEV_SEQ with 10%nat.
  destruct (try_devices _ _ _ _ s) as [o s']; simpl in Ho, Ht, Hres. subst o.
  exists res, s', evs, k. change (length (seq 0 10)) with 10%nat in *.
  split_and!; [done|done|lia| |done]. rewrite Hp. f_equal.
  clear -Hk. do 11 (destruct k as [|k]; [reflexivity|]). lia.
Qed.

(** The destructor of the singleton closes every session that is recorded,
    then every context, each exactly once and in the order of the map, and
    leaves both maps empty. *)
Theorem destroy_closes_all {W} `{K : Kernel W} (s : proc W teec_st) :
  registry_wf (globals s) ->
  exists s' evs,
    Common_destroy s = (Ret tt, s') /\ trace s' = trace s ++ evs /\
    ev_call <$> evs = (_sessionMap (globals s) ≫= close_session_calls (globals s)) ++
                      (_contextMap (globals s) ≫= close_context_calls (globals s)) /\
    _sessionMap (globals s') = [] /\ _contextMap (globals s') = [].
Proof.
  intros Hwf. destruct (destroy_spec s Hwf) as (evs & Ho & Ht & Hev & H1 & H2).
  destruct (Common_destroy s) as [o s']; simpl in *. subst o. by exists s', evs.
Qed.

Lemma destroy_closes_all_witness :
  exists s', Common_destroy (teec_proc tee_world0) = (Ret tt, s') /\
    ev_call <$> trace s' = [Sys_ioctl 5 TEE_IOC_CLOSE_SESSION (Arg_buf [7; 0; 0; 0]); Sys_close 5].
Proof.
  destruct (destroy_closes_all (teec_proc tee_world0)) as (s' & evs & Hrun & Ht & Hev & _).
  { split; simpl; intros x Hx; apply list_elem_of_singleton in Hx as ->; [|by eexists].
    by exists (Session 100 7), 5. }
  exists s'. split; [done|]. rewrite Ht. simpl app. rewrite Hev. vm_compute. reflexivity.
Defined.

(** Finalising a context that still has sessions is faulty: the loop
    advances its iterator once more after erasing.  Of two neighbouring
    recorded sessions of the context only the first is closed, the second
    stays recorded although its context is closed; and when the last recorded
    session belongs to the context, the iterator is moved past the end of the
    map, which is undefined. *)
Theorem finalize_context_faults {W} `{K : Kernel W} l1 l2 p q c fd (s : proc W teec_st) :
  contexts (globals s) !! c = Some fd -> c ∈ _contextMap (globals s) ->
  belongs (globals s) c p -> Forall (foreign (globals s) c) (l1 ++ l2) ->
  (_sessionMap (globals s) = l1 ++ p :: q :: l2 ->
     exists s', TEEC_FinalizeContext c s = (Ret tt, s') /\
       ev_call <$> drop (length (trace s)) (trace s') =
         close_session_calls (globals s) p ++ [Sys_close fd] /\
       _sessionMap (globals s') = map_erase p (_sessionMap (globals s)) /\
       _contextMap (globals s') = map_erase c (_contextMap (globals s))) /\
  (_sessionMap (globals s) = l1 ++ [p] -> (TEEC_FinalizeContext c s).1 = Stop Undefined).
Proof.
  intros Hc Hcm Hp Hf. split; intros Hm.
  - destruct (finalize_skips l1 p q l2 c fd s Hm Hf Hp Hc Hcm) as (Ho & H).
    destruct (TEEC_FinalizeContext c s) as [o s']; simpl in *. subst o. by exists s'.
  - apply Forall_app in Hf as [Hf _]. by eapply finalize_last.
Qed.

Lemma finalize_context_faults_witness :
  let g := TeecSt {[ 100 := 5 ]} (<[201 := Session 100 8]> {[ 200 := Session 100 7 ]}) ∅ [200; 201] [100] in
  (exists s', TEEC_FinalizeContext 100 (Proc g tee_world0 0 []) = (Ret tt, s') /\
     _sessionMap (globals s') = [201]) /\
  (TEEC_FinalizeContext 100 (teec_proc tee_world0)).1 = Stop Undefined.
Proof.
  intros g. split.
  - destruct (finalize_context_faults [] [] 200 201 100 5 (Proc g tee_world0 0 [])) as [H _];
      [reflexivity|by left|reflexivity|constructor|].
    destruct (H eq_refl) as (s' & Hrun & _ & Hs & _). exists s'. split; [done|]. rewrite Hs. reflexivity.
  - apply (finalize_context_faults [] [] 200 201 100 5 (teec_proc tee_world0));
      [reflexivity|by left|reflexivity|constructor|reflexivity].
Defined.

(** Refused operations release temporary memory that was never allocated:
    when the parameter types are out of range and the first parameter is a
    temporary reference, its zeroed block looks like a registered file
    descriptor 0, and the call closes the standard input of the application. *)
Theorem unprepared_release_closes_stdin {W} `{K : Kernel W} sp cmd op ss (s : proc W teec_st) :
  sessions (globals s) !! sp = Some ss ->
  65535 < paramTypes op -> is_temp (TEEC_PARAM_TYPE_GET (paramTypes op) 0) = true ->
  exists op' s' evs,
    TEEC_InvokeCommand (Some sp) cmd (Some op) s
      = (Ret (TEEC_ERROR_BAD_PARAMETERS, TEEC_ORIGIN_API, op'), s') /\
    trace s' = trace s ++ evs /\ Sys_close 0 ∈ ev_call <$> evs.
Proof.
  intros Hs Hty Ht.
  assert (wp (TEEC_InvokeCommand (Some sp) cmd (Some op)) (fun o s' => exists op' evs,
    o = Ret (TEEC_ERROR_BAD_PARAMETERS, TEEC_ORIGIN_API, op') /\
    trace s' = trace s ++ evs /\ Sys_close 0 ∈ ev_call <$> evs) s) as H.
  2:{ destruct H as (op' & evs & Ho & H). destruct (TEEC_InvokeCommand _ _ _ s) as [o s'].
      simpl in *. subst o. by exists op', s', evs. }
  unfold TEEC_InvokeCommand. apply wp_bind, wp_gets. rewrite Hs. apply wp_bind, wp_ret, wp_bind, wp_bind.
  wp_sys_intro. apply wp_bind. wp_sys_intro. apply wp_ret, wp_bind. unfold teec_pre_process_operation.
  change (paramTypes (set_op_session op sp)) with (paramTypes op).
  replace (65535 <? paramTypes op) with true by lia. apply wp_ret. cbn [Z.eqb negb TEEC_SUCCESS].
  apply wp_bind. cbn [teec_free_temp_refs]. unfold param_types.
  change (paramTypes (set_op_session op sp)) with (paramTypes op).
  cbn [map free_temps replicate TEEC_CONFIG_PAYLOAD_REF_COUNT]. rewrite Ht.
  apply wp_bind, wp_bind. cbn [TEEC_ReleaseSharedMemory shm0 shm_id registered_fd Z.eqb Z.ltb Z.compare].
  unfold ut_close_fd. cbn [shadow_buffer shm_buffer is_null negb]. apply wp_bind, wp_bind. wp_sys_intro.
  apply wp_ret, wp_bind. wp_sys_intro. apply wp_ret, wp_ret.
  eapply wp_mono; [apply (free_temps_quiet [_; _; _] (replicate 3 shm0)); repeat constructor; auto|].
  intros o s' (evs & -> & _ & Htr). apply wp_ret. do 2 eexists. split; [done|].
  split; [rewrite Htr; simpl; by rewrite <- !app_assoc|]. simpl. right. right. left.
Qed.

Lemma unprepared_release_closes_stdin_witness :
  exists op' s' evs,
    TEEC_InvokeCommand (Some 200) 3 (Some (Operation 65541 (temp_slot 300 4 :: unused) None))
      (teec_proc tee_world0) = (Ret (TEEC_ERROR_BAD_PARAMETERS, TEEC_ORIGIN_API, op'), s') /\
    trace s' = evs /\ Sys_close 0 ∈ ev_call <$> evs.
Proof.
  apply (unprepared_release_closes_stdin 200 3 _ (Session 100 7) (teec_proc tee_world0));
    [reflexivity|vm_compute; congruence|reflexivity].
Defined.

Definition allocate_release {W} `{K : Kernel W} (c : Z) (m : TEEC_SharedMemory)
    : M W teec_st (option TEEC_SharedMemory) :=
  '(_, m') ← TEEC_AllocateSharedMemory (Some c) (Some m); TEEC_ReleaseSharedMemory m'.

(** Allocating and releasing shared memory.  A block whose mapping got an
    id is unmapped and its id given back, in this order, exactly once: the
    released structure makes a second release do nothing.  But an id that could
    not be assigned is not reported, and then the release does nothing and the
    mapping stays. *)
Theorem allocate_release_script {W} `{K : Kernel W} c fd m (s : proc W teec_st) :
  contexts (globals s) !! c = Some fd -> 0 <= fd -> bad_flags (shm_flags m) = false ->
  let size := region_size (shm_size m) in
  exists m' s' rm evs,
    allocate_release c m s = (Ret m', s') /\ globals s' = globals s /\
    trace s' = trace s ++ Ev (Sys_mmap size fd) rm :: evs /\
    (forall s0 : proc W teec_st, TEEC_ReleaseSharedMemory m' s0 = (Ret m', s0)) /\
    (sr_ret rm = -1 -> evs = []) /\
    (sr_ret rm <> -1 -> exists ri evs',
       evs = Ev (Sys_ioctl fd TEE_IOC_SHM_ID (Arg_int (sr_ret rm))) ri :: evs' /\
       (0 <= sr_ret ri -> exists ru rr,
          evs' = [Ev (Sys_munmap (sr_ret rm) size) ru;
                  Ev (Sys_ioctl fd TEE_IOC_SHM_RELEASE (Arg_int (sr_ret ri))) rr]) /\
       (sr_ret ri < 0 -> evs' = [])).
Proof.
  intros Hc Hfd Hfl size.
  unfold allocate_release, TEEC_AllocateSharedMemory, teec_shm_get_id, mbind, M_bind, gets, sys, mret, M_ret.
  rewrite Hfl, Hc. cbn [deref mret M_ret]. unfold mret, M_ret. fold size.
  destruct (kcall (Sys_mmap size fd) _) as [rm w1] eqn:E1.
  destruct (Z.eqb_spec (sr_ret rm) (-1)) as [Hr|Hr].
  { do 4 eexists. split; [reflexivity|]. split_and!; try done. }
  destruct (kcall (Sys_ioctl fd _ _) _) as [ri w2] eqn:E2.
  destruct (Z.ltb_spec (sr_ret ri) 0) as [Hi|Hi].
  { do 4 eexists. split; [reflexivity|]. split_and!; [done|simpl; by rewrite <- app_assoc|done|done|].
    intros _. do 2 eexists. split; [done|]. split; [lia|done]. }
  cbn [TEEC_ReleaseSharedMemory shm_id registered_fd shadow_buffer shm_buffer is_null negb munmap alloced_size].
  replace (sr_ret ri =? -1) with false by lia. replace (fd <? 0) with false by lia.
  unfold mbind, M_bind, sys, mret, M_ret.
  destruct (kcall (Sys_munmap _ _) _) as [ru w3] eqn:E3.
  destruct (kcall (Sys_ioctl fd TEE_IOC_SHM_RELEASE _) _) as [rr w4] eqn:E4.
  do 4 eexists. split; [reflexivity|]. split_and!; [done|simpl; by rewrite <- !app_assoc|done|done|].
  intros _. do 2 eexists. split; [done|]. split; [eauto|lia].
Qed.

Lemma allocate_release_script_witness :
  exists m' s' rm evs,
    allocate_release 100 (Shm PNull 16 3 0 0 PNull 0) (teec_proc tee_world0) = (Ret m', s') /\
    trace s' = Ev (Sys_mmap 16 5) rm :: evs /\ length evs = 3%nat.
Proof.
  destruct (allocate_release_script 100 5 (Shm PNull 16 3 0 0 PNull 0) (teec_proc tee_world0))
    as (m' & s' & rm & evs & Hrun & _ & Ht & _); [reflexivity|lia|reflexivity|].
  exists m', s', rm, evs. split; [done|]. split; [exact Ht|].
  assert (length (trace (allocate_release 100 (Shm PNull 16 3 0 0 PNull 0) (teec_proc tee_world0)).2) = 4%nat)
    as Hl by (vm_compute; reflexivity).
  rewrite Hrun in Hl. simpl in Hl. rewrite Ht in Hl. simpl in Hl. lia.
Defined.
