(* ===== verification/TeecClient.v ===== *)
(** * Clients of the TEE client library

    The 400 gatekeeper and key installation talk to a trusted application in
    the same frame: zero the context and the session, initialise the context,
    open a session, do the work, close the session, finalise the context.
    [with_session] is that frame; its specification says that it gives back
    everything it took, whatever the kernel answers, and hands the result of
    the work on. *)

From S2P Require Import Prelude Kernel Libtrusty Teec TeecMemory TeecOps TeecSession TeecContext.

(** A zeroed parameter of an operation. *)
Definition zero_param : TEEC_Parameter := MkParameter (Tmpref PNull 0) (Memref None 0 0) (Value 0 0).

(** [host_name] of every client *)
Definition BTA_LOADER : bytes := cstr "bta_loader".

Section Client.
Context {W : Type} `{K : Kernel W}.
Abbreviation TM := (M W teec_st).
(** The build option DEFAULT_TEE_GPTEE, and the addresses of the local
    variables [context] and [session]. *)
Context (gptee : bool) (context session : Z).

(** [memset(&context, 0, ...); memset(&session, 0, ...)] *)
Definition clear_locals (g : teec_st) : teec_st :=
  set_sessions (<[session := Session 0 0]>) (set_contexts (<[context := 0]>) g).

(** [refused] is what a client does on a refused session besides finalising
    the context. *)
Definition with_session (uuid : TEEC_UUID) (refused : TM unit) (body : TM Z) : TM Z :=
  modify clear_locals;;
  result ← TEEC_InitializeContext gptee (Some BTA_LOADER) (Some context);
  if negb (result =? TEEC_SUCCESS) then mret result
  else
    '(result, _, _) ← TEEC_OpenSession (Some context) (Some session) uuid TEEC_LOGIN_PUBLIC false None;
    if negb (result =? TEEC_SUCCESS) then
      refused;;
      TEEC_FinalizeContext context;;
      mret result
    else
      result ← body;
      TEEC_CloseSession session;;
      TEEC_FinalizeContext context;;
      mret result.

(** [calloc(1, n)] as a new block of the application's memory. *)
Definition calloc (n : Z) : TM ptr :=
  r ← sys (Lib_malloc n);
  if sr_ret r <? 0 then mret PNull
  else modify (set_blocks (<[sr_ret r := replicate (Z.to_nat n) 0]>));; mret (PLocal (sr_ret r)).

(** [if (p != NULL) free(p)] *)
Definition free_block (p : ptr) : TM unit :=
  match p with
  | PLocal b => sys Lib_free;; modify (set_blocks (delete b))
  | _ => mret tt
  end.

(** [memcpy] from an argument of the caller: [len] bytes at [p]. *)
Definition read_arg (p : option bytes) (len : Z) : TM bytes :=
  match p with
  | Some d => if len <=? zlen d then mret (slice 0 len d) else halt Undefined
  | None => if len =? 0 then mret [] else halt Undefined
  end.
End Client.

(** ** The specification *)

Lemma elem_of_map_put k x m : x ∈ map_put k m <-> x = k \/ x ∈ m.
Proof.
  induction m as [|y m IH]; simpl; [rewrite elem_of_cons; tauto|].
  destruct (Z.ltb_spec k y); [rewrite !elem_of_cons; tauto|].
  destruct (Z.eqb_spec k y) as [->|]; [rewrite !elem_of_cons; tauto|].
  rewrite !elem_of_cons, IH. tauto.
Qed.

Lemma map_erase_fresh k m : k ∉ m -> map_erase k m = m.
Proof. intros H. apply list_filter_all. intros x Hx ->. done. Qed.

Lemma map_erase_put k m : k ∉ m -> map_erase k (map_put k m) = m.
Proof.
  induction m as [|y m IH]; intros Hk; unfold map_erase in *; simpl.
  { rewrite filter_cons_False; [done|]. tauto. }
  apply not_elem_of_cons in Hk as [Hne Hk]. destruct (Z.ltb_spec k y).
  - rewrite filter_cons_False by tauto. apply list_filter_all. intros x Hx ->.
    apply elem_of_cons in Hx as [->|]; done.
  - replace (k =? y) with false by lia. rewrite filter_cons_True by done. f_equal. by apply IH.
Qed.

Section Spec.
Context {W : Type} `{K : Kernel W}.
Implicit Types s : proc W teec_st.

(** Opening a session without an operation: one call into the kernel. *)
Lemma open_session_none c sp uuid fd s :
  contexts (globals s) !! c = Some fd -> Forall is_u8 (clockSeqAndNode uuid) ->
  let buf := open_session_enc (uuid_to_octets uuid) TEEC_LOGIN_PUBLIC (replicate 4 param0) in
  wp (TEEC_OpenSession (Some c) (Some sp) uuid TEEC_LOGIN_PUBLIC false None) (fun o s' =>
    exists res eorig r, o = Ret (res, eorig, None) /\ is_u32 res /\
      trace s' = trace s ++ [Ev (Sys_ioctl fd TEE_IOC_OPEN_SESSION (Arg_buf buf)) r] /\
      if res =? TEEC_SUCCESS
      then exists sid, globals s' = opened sp c sid (globals s)
      else globals s' = globals s) s.
Proof.
  intros Hc Hu buf. assert (Forall is_u8 buf) as Hb.
  { apply open_session_enc_bytes. unfold uuid_to_octets. apply Forall_app.
    split; [|done]. repeat constructor; unfold u8; wide_lia. }
  unfold TEEC_OpenSession. cbn [login_error TEEC_LOGIN_PUBLIC Z.eqb orb].
  apply wp_bind, wp_ret. cbn [negb Z.eqb TEEC_SUCCESS]. apply wp_bind, wp_gets. rewrite Hc.
  apply wp_bind, wp_ret, wp_bind. change (replicate TEEC_CONFIG_PAYLOAD_REF_COUNT param0) with (replicate 4 param0).
  fold buf. apply wp_sys; intros r w Hk. apply wp_if; intros Hr.
  - apply wp_bind, wp_get_errno, wp_bind, wp_ret, wp_ret. do 3 eexists. split; [done|].
    destruct (errno_to_res_cases (errno (after s (Sys_ioctl fd TEE_IOC_OPEN_SESSION (Arg_buf buf)) r w)))
      as [-> | ->]; done.
  - cbn [teec_post_process_operation teec_free_temp_refs]. apply wp_bind.
    destruct (get_u32 (copy_out buf (sr_data r)) 44 =? TEEC_SUCCESS) eqn:E.
    + apply wp_modify, wp_bind, wp_ret, wp_bind, wp_ret, wp_bind, wp_modify, wp_ret.
      do 3 eexists. split_and!; [done|by apply get_u32_range, copy_out_bytes|done|]. rewrite E. by eexists.
    + apply wp_ret, wp_bind, wp_ret, wp_bind, wp_ret, wp_bind, wp_ret, wp_ret.
      do 3 eexists. split_and!; [done|by apply get_u32_range, copy_out_bytes|done|]. by rewrite E.
Qed.

(** Finalising a context without sessions closes its descriptor once. *)
Lemma finalize_spec c fd s :
  Forall (foreign (globals s) c) (_sessionMap (globals s)) ->
  contexts (globals s) !! c = Some fd ->
  wp (TEEC_FinalizeContext c) (fun o s' => o = Ret tt /\
    if map_has c (_contextMap (globals s))
    then globals s' = set_contextMap (map_erase c) (globals s) /\
         exists r, trace s' = trace s ++ [Ev (Sys_close fd) r]
    else s' = s) s.
Proof.
  intros Hf Hc. unfold TEEC_FinalizeContext, ut_close_fd. apply wp_bind, wp_gets.
  pose proof (finalize_prefix_wp (W := W) (A := unit) c (_sessionMap (globals s)) 0 []) as Hp.
  rewrite Nat.add_0_r, app_nil_r in Hp. apply Hp; [done|]. clear Hp. cbn [finalize_sessions].
  apply wp_bind, wp_ret, wp_bind, wp_gets. destruct (map_has c (_contextMap (globals s))) eqn:E; [|by apply wp_ret].
  apply wp_bind, wp_gets. rewrite Hc. apply wp_bind, wp_ret, wp_bind, wp_bind.
  apply wp_sys; intros r w Hk. apply wp_ret, wp_modify. split; [done|]. split; [done|]. by exists r.
Qed.

Lemma close_spec sp ss fd s :
  sessions (globals s) !! sp = Some ss -> contexts (globals s) !! ctx ss = Some fd ->
  sp ∈ _sessionMap (globals s) ->
  wp (TEEC_CloseSession sp) (fun o s' => o = Ret tt /\
    globals s' = set_sessionMap (map_erase sp) (globals s) /\
    exists r, trace s' = trace s ++ [Ev (Sys_ioctl fd TEE_IOC_CLOSE_SESSION (Arg_buf (le_enc 4 (session_id ss)))) r]) s.
Proof.
  intros Hs Hc Hin. unfold TEEC_CloseSession, ut_close_session. apply wp_bind, wp_gets.
  unfold map_has. rewrite bool_decide_eq_true_2 by done. apply wp_bind, wp_gets. rewrite Hs.
  apply wp_bind, wp_ret, wp_bind, wp_bind, wp_gets. rewrite Hc. apply wp_bind, wp_ret, wp_bind.
  apply wp_sys; intros r w Hk. apply wp_ret, wp_modify. split_and!; [done|done|]. by exists r.
Qed.

(** The state in which the work is done: context and session are registered. *)
Definition entered (c sp fd sid : Z) (g : teec_st) : teec_st :=
  opened sp c sid (set_contextMap (map_put c) (set_contexts (<[c := fd]>) (clear_locals c sp g))).

(** The locals are not among the registered structures, nor do other
    registered sessions refer to them. *)
Definition fresh_locals (c sp : Z) (g : teec_st) : Prop :=
  (c ∉ _contextMap g) /\ (sp ∉ _sessionMap g) /\ Forall (foreign g c) (_sessionMap g).

Lemma foreign_entered c sp fd sid g :
  fresh_locals c sp g -> Forall (foreign (entered c sp fd sid g) c) (_sessionMap g).
Proof.
  intros (_ & Hsp & Hf). rewrite Forall_forall in Hf |- *. intros p Hp.
  destruct (Hf p Hp) as (ss & Hs & Hne). exists ss. split; [|done]. simpl.
  assert (sp <> p) by (intros ->; done). by rewrite !lookup_insert_ne.
Qed.
End Spec.

Section Frame.
Context {W : Type} `{K : Kernel W}.
Context (gptee : bool) (context session : Z) (uuid : TEEC_UUID).
Implicit Types s : proc W teec_st.
Abbreviation fresh := (fresh_locals context session).

(** The registered structures are those of [g] again, and its buffers are [m]. *)
Definition restored (g g' : teec_st) (m : gmap Z bytes) : Prop :=
  _sessionMap g' = _sessionMap g /\ _contextMap g' = _contextMap g /\ blocks g' = m /\
  forall p, p ∈ _sessionMap g -> sessions g' !! p = sessions g !! p.

Lemma fresh_restored g g' m : fresh g -> restored g g' m -> fresh g'.
Proof.
  intros (Hc & Hs & Hf) (E1 & E2 & _ & E4). unfold fresh_locals. rewrite E1, E2. split_and!; [done|done|].
  rewrite Forall_forall in *. intros p Hp. destruct (Hf p Hp) as (ss & Hss & Hne). exists ss.
  by rewrite E4.
Qed.

Lemma restored_trans g1 g2 g3 m2 m3 : restored g1 g2 m2 -> restored g2 g3 m3 -> restored g1 g3 m3.
Proof.
  intros (A1 & A2 & A3 & A4) (B1 & B2 & B3 & B4). split_and!; [congruence|congruence|done|].
  intros p Hp. rewrite B4 by (by rewrite A1). by apply A4.
Qed.

(** The structures of other sessions survive. *)
Lemma other_sessions fd sid g p :
  fresh g -> p ∈ _sessionMap g ->
  sessions (entered context session fd sid g) !! p = sessions g !! p /\
  sessions (clear_locals context session g) !! p = sessions g !! p.
Proof.
  intros (_ & Hs & _) Hp. assert (session <> p) by (intros ->; done).
  simpl. by rewrite !lookup_insert_ne.
Qed.

(** Finalising the entered context after the session is closed. *)
Lemma finalize_entered fd sid g s :
  fresh g -> frame (entered context session fd sid g) (globals s) ->
  wp (TEEC_CloseSession session;; TEEC_FinalizeContext context) (fun o s' => o = Ret tt /\
    restored g (globals s') (blocks (globals s)) /\ same_structs (globals s) (globals s') /\
    exists r1 r2, trace s' = trace s ++ [Ev (Sys_ioctl fd TEE_IOC_CLOSE_SESSION (Arg_buf (le_enc 4 sid))) r1;
                                          Ev (Sys_close fd) r2]) s.
Proof.
  intros Hfr (Hc & Hs & Hsm & Hcm & _). pose proof Hfr as (Hc0 & Hs0 & Hf). apply wp_bind.
  assert (contexts (globals s) !! context = Some fd) as Hfd by (rewrite Hc; simpl; apply lookup_insert_eq).
  eapply wp_mono; [apply (close_spec session (Session context sid) fd)|].
  { rewrite Hs. simpl. apply lookup_insert_eq. }
  { done. }
  { rewrite Hsm. simpl. apply elem_of_map_put. by left. }
  intros o s1 (-> & Hg1 & r1 & Ht1).
  assert (_sessionMap (globals s1) = _sessionMap g) as Hsm1
    by (rewrite Hg1; simpl; rewrite Hsm; simpl; by apply map_erase_put).
  eapply wp_mono; [apply (finalize_spec context fd)|].
  { rewrite Hsm1. eapply Forall_impl; [by apply (foreign_entered context session fd sid)|].
    intros p (ss & Hp & Hne). exists ss. split; [|done]. rewrite Hg1. simpl. by rewrite Hs. }
  { by rewrite Hg1. }
  intros o s2 (-> & Hg2). assert (map_has context (_contextMap (globals s1)) = true) as Hin.
  { apply bool_decide_eq_true_2. rewrite Hg1. simpl. rewrite Hcm. simpl. apply elem_of_map_put. by left. }
  rewrite Hin in Hg2. destruct Hg2 as [Hg2 [r2 Ht2]]. split; [done|]. split.
  - split_and!.
    + by rewrite Hg2.
    + rewrite Hg2, Hg1. simpl. rewrite Hcm. simpl. by apply map_erase_put.
    + by rewrite Hg2, Hg1.
    + intros p Hp. rewrite Hg2, Hg1. simpl. rewrite Hs. by apply other_sessions.
  - split; [by rewrite Hg2, Hg1|]. exists r1, r2. by rewrite Ht2, Ht1, <- app_assoc.
Qed.

(** Closing and finalising what is not registered does nothing. *)
Lemma finalize_unregistered fd s :
  fresh (globals s) -> contexts (globals s) !! context = Some fd ->
  wp (TEEC_CloseSession session;; TEEC_FinalizeContext context) (fun o s' => o = Ret tt /\ s' = s) s.
Proof.
  intros (Hc & Hs & Hf) Hfd. unfold TEEC_CloseSession. apply wp_bind, wp_bind, wp_gets.
  unfold map_has. rewrite bool_decide_eq_false_2 by done. apply wp_ret.
  eapply wp_mono; [by eapply finalize_spec|]. intros o s'. unfold map_has.
  rewrite bool_decide_eq_false_2 by done. done.
Qed.

(** A context whose session was refused is finalised; doing so twice changes
    nothing more. *)
Lemma finalize_refused fd g s refused :
  fresh g -> refused = mret tt \/ refused = TEEC_FinalizeContext context ->
  globals s = set_contextMap (map_put context) (set_contexts (<[context := fd]>) (clear_locals context session g)) ->
  wp (refused;; TEEC_FinalizeContext context) (fun o s' => o = Ret tt /\
    restored g (globals s') (blocks g) /\ exists r, trace s' = trace s ++ [Ev (Sys_close fd) r]) s.
Proof.
  intros Hfr Href Hg. pose proof Hfr as (Hc0 & Hs0 & Hf).
  assert (forall s1, contexts (globals s1) !! context = Some fd -> sessions (globals s1) = sessions (globals s) ->
    _sessionMap (globals s1) = _sessionMap g ->
    Forall (foreign (globals s1) context) (_sessionMap (globals s1))) as Hfor.
  { intros s1 H1 H2 H3. rewrite H3, Forall_forall in *. intros p Hp.
    destruct (Hf p Hp) as (ss & Hs & Hne). exists ss. split; [|done]. rewrite H2, Hg. simpl.
    assert (session <> p) by (intros ->; done). by rewrite lookup_insert_ne. }
  assert (contexts (globals s) !! context = Some fd) as Hfd by (rewrite Hg; simpl; apply lookup_insert_eq).
  assert (map_has context (_contextMap (globals s)) = true) as Hin.
  { apply bool_decide_eq_true_2. rewrite Hg. simpl. apply elem_of_map_put. by left. }
  assert (forall s', globals s' = set_contextMap (map_erase context) (globals s) ->
    restored g (globals s') (blocks g)) as Hres.
  { intros s' Hg'. unfold restored. rewrite Hg', Hg. simpl. split_and!; try done; [by apply map_erase_put|].
    intros p Hp. by apply (other_sessions fd 0). }
  pose proof (finalize_spec context fd s ltac:(apply Hfor; [done|done|by rewrite Hg]) Hfd) as Hfin. rewrite Hin in Hfin.
  destruct Href as [-> | ->].
  - apply wp_bind, wp_ret. eapply wp_mono; [exact Hfin|]. intros o s' (-> & Hg' & Ht). by auto.
  - apply wp_bind. eapply wp_mono; [exact Hfin|]. intros o s1 (-> & Hg1 & r & Ht).
    eapply wp_mono; [apply (finalize_spec context fd)|].
    { apply Hfor; rewrite Hg1; [done|done|]. by rewrite Hg. }
    { by rewrite Hg1. }
    intros o s2 (-> & Hs2). assert (map_has context (_contextMap (globals s1)) = false) as Hout.
    { apply bool_decide_eq_false_2. rewrite Hg1, Hg. simpl. by rewrite map_erase_put. }
    rewrite Hout in Hs2. subst s2. split; [done|]. split; [by apply Hres|]. by exists r.
Qed.

(** Whatever the kernel answers: the frame returns, nothing stays registered
    or open, and either the work was never begun (and the result is an error)
    or it was done in a registered session of the application [uuid]. *)
Lemma with_session_spec refused body (Φ : Z -> Z -> proc W teec_st -> proc W teec_st -> Z -> list event -> Prop) s :
  fresh (globals s) -> Forall is_u8 (clockSeqAndNode uuid) ->
  refused = mret tt \/ refused = TEEC_FinalizeContext context ->
  (forall s1 fd sid, 0 <= fd -> globals s1 = entered context session fd sid (globals s) ->
     wp body (fun o s2 => exists res evs, o = Ret res /\ is_u32 res /\ frame (globals s1) (globals s2) /\
       trace s2 = trace s1 ++ evs /\ Forall no_fd evs /\ Φ fd sid s1 s2 res evs) s1) ->
  wp (with_session gptee context session uuid refused body) (fun o s' => exists res evs, o = Ret res /\
    is_u32 res /\ trace s' = trace s ++ evs /\ open_fds evs = [] /\
    ((res <> TEEC_SUCCESS /\ restored (globals s) (globals s') (blocks (globals s))) \/
     exists fd sid s1 s2 pre work post r, evs = pre ++ work ++ post /\
       last pre = Some (Ev (Sys_ioctl fd TEE_IOC_OPEN_SESSION
         (Arg_buf (open_session_enc (uuid_to_octets uuid) TEEC_LOGIN_PUBLIC (replicate 4 param0)))) r) /\
       globals s1 = entered context session fd sid (globals s) /\
       Φ fd sid s1 s2 res work /\ restored (globals s) (globals s') (blocks (globals s2)))) s.
Proof.
  intros Hfr Huu Href Hbody. unfold with_session. apply wp_bind, wp_modify, wp_bind.
  eapply wp_mono; [apply try_devices_spec|]. intros o s1 (res & evs & k & -> & Ht & _ & _ & Hcase).
  cbn [trace globals] in *. destruct Hcase as [(-> & fd & Hfd & Ho & Hg)|(-> & _ & Ho & Hg)]; cbn [negb Z.eqb TEEC_SUCCESS].
  2:{ apply wp_ret. exists TEEC_ERROR_ITEM_NOT_FOUND, evs. split_and!; try done. left. split; [done|].
      rewrite Hg. split_and!; try done. intros p Hp. by apply (other_sessions 0 0). }
  apply wp_bind. eapply wp_mono; [apply open_session_none; [rewrite Hg; apply lookup_insert_eq|done]|].
  intros o s2 (res & eorig & r & -> & Hu & Ht2 & Hg2). set (oev := Ev _ r) in Ht2.
  assert (open_fds (evs ++ [oev]) = [fd]) as Ho2 by (rewrite open_fds_quiet; [done|by repeat constructor]).
  assert (forall l e, Forall no_fd l -> open_fds ((evs ++ [oev]) ++ l ++ [Ev (Sys_close fd) e]) = []) as Hclose.
  { intros l e Hl. rewrite app_assoc, open_fds_app, (open_fds_quiet _ l), Ho2 by done. simpl.
    rewrite app_nil_r, filter_cons_False; [done|]. unfold closes. simpl. by rewrite Z.eqb_refl. }
  destruct (Z.eqb_spec res TEEC_SUCCESS) as [->|Hres]; cbn [negb].
  - destruct Hg2 as [sid Hg2]. rewrite Hg in Hg2.
    apply wp_bind. eapply wp_mono; [by apply Hbody|].
    intros o s3 (res & work & -> & Hu3 & Hfrm & Ht3 & Hno & HΦ). apply wp_assoc, wp_bind.
    rewrite Hg2 in Hfrm. eapply wp_mono; [by eapply finalize_entered|].
    intros o s4 (-> & Hrest & _ & r1 & r2 & Ht4). apply wp_ret. do 2 eexists.
    split_and!; [done|done|by rewrite Ht4, Ht3, Ht2, Ht, <- !app_assoc| |right].
    + change [?a; ?b] with ([a] ++ [b]). rewrite (app_assoc work), (app_assoc evs).
      apply Hclose. apply Forall_app. split; [done|by repeat constructor].
    + exists fd, sid, s2, s3, (evs ++ [oev]), work. do 2 eexists.
      split_and!; [by rewrite <- !app_assoc|by rewrite last_snoc|done|done|done].
  - rewrite Hg in Hg2. apply wp_assoc, wp_bind. eapply wp_mono; [by eapply finalize_refused|].
    intros o s4 (-> & Hrest & r1 & Ht4). apply wp_ret. do 2 eexists.
    split_and!; [done|done|by rewrite Ht4, Ht2, Ht, <- !app_assoc| |by left].
    rewrite (app_assoc evs). apply (Hclose []). constructor.
Qed.
End Frame.
