(* ===== verification/TeecCalls.v ===== *)
(** * The calls the TEE client library makes

    Whatever its arguments and whatever the kernel answers, a function of the
    library makes only the system calls listed here: it neither publishes
    properties nor sleeps nor starts anything, so a client's own calls can be
    told from the library's. *)

From S2P Require Import Prelude Kernel Teec TeecContext TeecClient.

(** Files, requests to the driver, mappings, mapped memory and the mutex. *)
Definition teec_call (c : syscall) : bool :=
  match c with
  | Sys_open _ _ _ | Sys_close _ | Sys_ioctl _ _ _ | Sys_mmap _ _ | Sys_munmap _ _
  | Mem_load _ _ | Mem_store _ _ | Lib_mutex_lock | Lib_mutex_unlock => true
  | _ => false
  end.

(** All of them but the invocation of a command. *)
Definition quiet_call (c : syscall) : bool :=
  teec_call c && match c with Sys_ioctl _ req _ => negb (req =? TEE_IOC_INVOKE) | _ => true end.

(** The calls between two states are of the kind [ok]. *)
Definition by_calls {W} (ok : syscall -> bool) (s s' : proc W teec_st) : Prop :=
  exists evs, trace s' = trace s ++ evs /\ Forall (fun e => ok (ev_call e) = true) evs.

Section Calls.
Context {W : Type} `{K : Kernel W} (ok : syscall -> bool).
Hypothesis quiet_ok : forall c, quiet_call c = true -> ok c = true.
Abbreviation by_teec := (by_calls (W := W) ok).

#[export] Instance by_calls_preorder : PreOrder by_teec.
Proof.
  split; [intros s; exists []; by rewrite app_nil_r|].
  intros s1 s2 s3 (e1 & H1 & F1) (e2 & H2 & F2). exists (e1 ++ e2).
  rewrite H2, H1, app_assoc. split; [done|by apply Forall_app].
Qed.

Lemma by_calls_sys c : ok c = true -> keeps by_teec (sys c).
Proof. intros Hc. apply keeps_sys. intros s r w. exists [Ev c r]. split; [done|by repeat constructor]. Qed.
Lemma by_calls_modify f : keeps by_teec (modify f).
Proof. apply keeps_modify. intros s. exists []. by rewrite app_nil_r. Qed.
Lemma by_calls_deref {A} (o : option A) : keeps by_teec (deref o).
Proof. unfold deref. keeps_go. Qed.
#[local] Hint Resolve by_calls_modify by_calls_deref : keeps.
#[local] Hint Extern 1 (keeps by_teec (sys _)) => (apply by_calls_sys, quiet_ok; reflexivity) : keeps.

Lemma by_calls_memcpy dst src off n : keeps by_teec (memcpy dst src off n).
Proof. unfold memcpy, load, store. keeps_go. Qed.
Lemma by_calls_store p off d : keeps by_teec (store p off d).
Proof. unfold store. keeps_go. Qed.
Lemma by_calls_load p off n : keeps by_teec (load p off n).
Proof. unfold load. keeps_go. Qed.
Lemma by_calls_allocate c m : keeps by_teec (TEEC_AllocateSharedMemory c m).
Proof. unfold TEEC_AllocateSharedMemory, teec_shm_get_id. keeps_go. Qed.
Lemma by_calls_release m : keeps by_teec (TEEC_ReleaseSharedMemory m).
Proof. unfold TEEC_ReleaseSharedMemory, munmap, ut_close_fd. keeps_go. Qed.
#[local] Hint Resolve by_calls_memcpy by_calls_store by_calls_load by_calls_allocate by_calls_release : keeps.

Lemma by_calls_initialize g n c : keeps by_teec (TEEC_InitializeContext g n c).
Proof.
  unfold TEEC_InitializeContext. destruct c as [c|]; [|keeps_go].
  induction (seq 0 _) as [|m ns IH]; cbn [try_devices]; [keeps_go|].
  unfold teec_open_dev, ut_close_fd. keeps_go.
Qed.

Lemma by_calls_finalize c : keeps by_teec (TEEC_FinalizeContext c).
Proof.
  unfold TEEC_FinalizeContext. assert (forall f it, keeps by_teec (finalize_sessions c f it)).
  { induction f; intros [|p it]; simpl; unfold ut_close_session; keeps_go. }
  unfold ut_close_fd. keeps_go.
Qed.

Lemma by_calls_close c : keeps by_teec (TEEC_CloseSession c).
Proof. unfold TEEC_CloseSession, ut_close_session. keeps_go. Qed.

Lemma by_calls_pre c op : keeps by_teec (teec_pre_process_operation c op).
Proof.
  unfold teec_pre_process_operation. destruct op as [op|]; [|keeps_go].
  assert (forall sl, keeps by_teec (pre_process_params c sl)); [|keeps_go].
  induction sl as [|[ty p] sl IH]; cbn [pre_process_params]; [keeps_go|].
  unfold pre_process_param, teec_pre_process_tmpref, teec_pre_process_whole, teec_pre_process_partial. keeps_go.
Qed.

Lemma by_calls_post op prms shms : keeps by_teec (teec_post_process_operation op prms shms).
Proof.
  unfold teec_post_process_operation. destruct op as [op|]; [|keeps_go].
  assert (forall sl prms shms, keeps by_teec (post_process_params sl prms shms)); [|keeps_go].
  induction sl as [|[ty p] sl IH]; intros [|prm ps] [|shm sms]; cbn [post_process_params]; try keeps_go.
  unfold post_process_param, teec_post_process_tmpref, teec_post_process_whole, teec_post_process_partial. keeps_go.
Qed.

Lemma by_calls_free op shms : keeps by_teec (teec_free_temp_refs op shms).
Proof.
  unfold teec_free_temp_refs. destruct op as [op|]; [|keeps_go].
  assert (forall tys shms, keeps by_teec (free_temps tys shms)); [|keeps_go].
  induction tys as [|ty tys IH]; intros [|shm sms]; cbn [free_temps]; keeps_go.
Qed.
#[local] Hint Resolve by_calls_initialize by_calls_finalize by_calls_close by_calls_pre by_calls_post by_calls_free : keeps.

Lemma by_calls_open c sp uuid m d op : keeps by_teec (TEEC_OpenSession c sp uuid m d op).
Proof. unfold TEEC_OpenSession. keeps_go. Qed.
End Calls.

#[export] Hint Resolve by_calls_modify by_calls_deref by_calls_memcpy by_calls_store by_calls_load by_calls_allocate
  by_calls_release by_calls_initialize by_calls_finalize by_calls_close by_calls_pre by_calls_post by_calls_free
  by_calls_open : keeps.

Section Library.
Context {W : Type} `{K : Kernel W}.

(** The whole library. *)
Definition by_teec : proc W teec_st -> proc W teec_st -> Prop := by_calls teec_call.
Lemma quiet_teec c : quiet_call c = true -> teec_call c = true.
Proof. unfold quiet_call. by intros [? _]%andb_true_iff. Qed.
#[local] Hint Resolve quiet_teec : keeps.
#[local] Hint Extern 1 (keeps (by_calls _) (sys _)) => (apply by_calls_sys; reflexivity) : keeps.

Lemma by_teec_invoke sp cmd op : keeps (by_calls teec_call) (TEEC_InvokeCommand sp cmd op).
Proof. unfold TEEC_InvokeCommand. keeps_go. Qed.
#[local] Hint Resolve by_teec_invoke : keeps.

(** A client's frame adds nothing of its own. *)
Lemma by_teec_session gptee context session uuid body :
  keeps by_teec body -> keeps by_teec (with_session gptee context session uuid (mret tt) body).
Proof. intros Hb. unfold by_teec, with_session in *. keeps_go. Qed.

(** Nor does it invoke a command: whatever holds of the calls of the body when
    it fails holds of all calls. *)
Lemma session_failure gptee context session uuid body (ok : event -> Prop) s :
  (forall e, quiet_call (ev_call e) = true -> ok e) -> Forall is_u8 (clockSeqAndNode uuid) ->
  (forall s1 fd sid, 0 <= fd -> globals s1 = entered context session fd sid (globals s) -> wp body (fun o s2 => forall res, o = Ret res -> exists evs, trace s2 = trace s1 ++ evs /\
     (res <> TEEC_SUCCESS -> Forall ok evs)) s1) ->
  wp (with_session gptee context session uuid (mret tt) body) (fun o s' => forall res, o = Ret res ->
    exists evs, trace s' = trace s ++ evs /\ (res <> TEEC_SUCCESS -> Forall ok evs)) s.
Proof.
  intros Hq Huu Hbody.
  assert (forall {A} (m : M W teec_st A) s, keeps (by_calls quiet_call) m -> wp m (fun _ s' => by_calls quiet_call s s') s) as Hk
    by (intros A m s' Hm; apply Hm).
  assert (forall (s1 s2 : proc W teec_st) evs, trace s1 = trace s ++ evs -> by_calls quiet_call s1 s2 -> forall P : Prop, (P -> Forall ok evs) ->
    exists evs', trace s2 = trace s ++ evs' /\ (P -> Forall ok evs')) as Hend.
  { intros s1 s2 evs Ht (more & Hm & Hf) P HP. exists (evs ++ more). rewrite Hm, Ht, app_assoc. split; [done|].
    intros H. apply Forall_app. split; [by apply HP|]. eapply Forall_impl; [exact Hf|]. apply Hq. }
  unfold with_session. apply wp_bind, wp_modify. set (s1 := Proc _ _ _ _).
  assert (trace s1 = trace s ++ []) as Ht1 by (by rewrite app_nil_r).
  apply wp_bind. eapply wp_mono; [eapply (wp_and _ _ (fun _ s' => by_calls quiet_call s1 s')); [apply try_devices_spec|apply Hk; keeps_go]|].
  intros o s2 [(res & evs & k & -> & _ & _ & _ & Hcase) H2].
  destruct (Hend s1 s2 [] Ht1 H2 True ltac:(done)) as (e2 & Ht2 & Hf2).
  apply wp_if; intros Hres; [apply wp_ret; intros res' _; exists e2; auto|].
  destruct Hcase as [(-> & fd & Hfd & _ & Hg)|(-> & _)]; [|done].
  apply wp_bind. eapply wp_mono; [eapply (wp_and _ _ (fun _ s' => by_calls quiet_call s2 s'));
    [apply open_session_none; [rewrite Hg; apply lookup_insert_eq|done]|apply Hk; keeps_go]|].
  intros o s3 [(res3 & eorig & r & -> & _ & _ & Hg3) H3].
  destruct (Hend s2 s3 e2 Ht2 H3 True Hf2) as (e3 & Ht3 & Hf3).
  destruct (Z.eqb_spec res3 TEEC_SUCCESS) as [->|]; cbn [negb].
  2:{ apply wp_bind, wp_ret, wp_bind. eapply wp_mono; [apply Hk; keeps_go|]. intros o s4 H4.
    destruct (Hend s3 s4 e3 Ht3 H4 True Hf3) as (e4 & Ht4 & Hf4). destruct o as [[]|]; [|done]. apply wp_ret. intros res' _. exists e4. auto. }
  destruct Hg3 as [sid Hg3]. rewrite Hg in Hg3. apply wp_bind. eapply wp_mono; [by eapply Hbody|]. intros o s4 H4. destruct o as [res4|]; [|done].
  destruct (H4 _ eq_refl) as (ev & Htv & Hfv).
  assert (exists evs, trace s4 = trace s ++ evs /\ (res4 <> TEEC_SUCCESS -> Forall ok evs)) as (e4 & Ht4 & Hf4).
  { exists (e3 ++ ev). rewrite Htv, Ht3, app_assoc. split; [done|]. intros. apply Forall_app. auto. }
  apply wp_bind. eapply wp_mono; [apply Hk; keeps_go|]. intros o s5 H5.
  destruct (Hend s4 s5 e4 Ht4 H5 _ Hf4) as (e5 & Ht5 & Hf5). destruct o as [[]|]; [|done].
  apply wp_bind. eapply wp_mono; [apply Hk; keeps_go|]. intros o s6 H6.
  destruct (Hend s5 s6 e5 Ht5 H6 _ Hf5) as (e6 & Ht6 & Hf6). destruct o as [[]|]; [|done].
  apply wp_ret. intros res' [= <-]. by exists e6.
Qed.
End Library.

#[export] Hint Resolve quiet_teec by_teec_invoke by_teec_session : keeps.
