(* ===== verification/Gatekeeper400.v ===== *)
(** * Gatekeeper of the 400 platform (400/gatekeeper/ut_gatekeeper.cpp)

    A HAL module that packs a request into a page, hands the page to the
    gatekeeper application and reads the answer from the same page.  The
    layouts are those of include/ut_gk_struct.h, all packed. *)

From S2P Require Import Prelude Kernel Teec TeecClient.

Definition CMD_ID_ENROLL := 1.
Definition CMD_ID_VARIFY := 2.
Definition CMD_ID_DELETE_USER := 3.
Definition CMD_ID_DELETE_ALL_USERS := 4.
Definition GATEKEEPER_BUFF_SIZE := 4096.
Definition GK_COMMAND_MAGIC := 81.

(** ** ut_gk_struct.h *)

(** password_handle_t: version, user_id, flags, salt, signature[32],
    hardware_backed *)
Definition sizeof_password_handle_t := 58.

(** gatekeeper_error_t *)
Definition GK_ERROR_NONE := 0.
Definition GK_ERROR_INVALID := 1.
Definition GK_ERROR_RETRY := 2.
Definition GK_ERROR_UNKNOWN := 3.
Definition GK_ERROR_PASSWORD_WRONG := 4.
Definition GK_ERROR_UID_NOTFOUND := 5.
Definition GK_ERROR_CMD_WRONG := 6.

(** ut_gk_enroll_out_t, ut_gk_verify_out_t and ut_gk_del_user_out_t at the
    start of a buffer. *)
Definition sizeof_enroll_out := 12.
Definition enroll_out_error (b : bytes) : Z := get_u32 b 0.
Definition enroll_out_handle_length (b : bytes) : Z := get_u32 b 4.
Definition enroll_out_retry_timeout (b : bytes) : Z := get_u32 b 8.

Definition sizeof_verify_out := 13.
Definition verify_out_error (b : bytes) : Z := get_u32 b 0.
Definition verify_out_token_length (b : bytes) : Z := get_u32 b 4.
Definition verify_out_request_reenroll (b : bytes) : bool := negb (get_u8 b 8 =? 0).
Definition verify_out_retry_timeout (b : bytes) : Z := get_u32 b 9.

Definition del_user_out_error (b : bytes) : Z := get_u32 b 0.

(** ut_gk_struct_t: command, user and a union, of which the verification
    member is the larger one. *)
Definition sizeof_ut_gk_struct := 21.
Definition gk_header (cmd uid : Z) : bytes := le_enc 1 cmd ++ le_enc 4 uid.
Definition enroll_struct (uid current_password_handle_length current_password_length
    desired_password_length : Z) : bytes :=
  gk_header CMD_ID_ENROLL uid ++ le_enc 4 current_password_handle_length
  ++ le_enc 4 current_password_length ++ le_enc 4 desired_password_length ++ replicate 4 0.
Definition verify_struct (uid challenge enrolled_password_handle_length provided_password_length : Z)
    : bytes :=
  gk_header CMD_ID_VARIFY uid ++ le_enc 8 challenge ++ le_enc 4 enrolled_password_handle_length
  ++ le_enc 4 provided_password_length.

(** ** The operations *)

(** The gatekeeper application *)
Definition GK_UUID : TEEC_UUID :=
  Uuid 3246927661 34910 19987 [168; 200; 226; 98; 36; 97; 178; 250].

Section Gatekeeper.
Context {W : Type} `{K : Kernel W}.
Abbreviation TM := (M W teec_st).
(** The build option and the addresses of the locals, see [with_session]; the
    fields of the local [sharedmem] that are never set. *)
Context (gptee : bool) (context session : Z) (sharedmem0 : TEEC_SharedMemory).

(** Between opening and closing the session. *)
Definition gk_exchange (buff : ptr) : TM Z :=
  let sharedmem := Shm buff GATEKEEPER_BUFF_SIZE (Z.lor TEEC_MEM_INPUT TEEC_MEM_OUTPUT)
    (shm_id sharedmem0) (alloced_size sharedmem0) (shadow_buffer sharedmem0) (registered_fd sharedmem0) in
  '(result, sharedmem) ← TEEC_RegisterSharedMemory (Some context) (Some sharedmem);
  if negb (result =? TEEC_SUCCESS) then mret result
  else
    let operation := Operation (TEEC_PARAM_TYPES TEEC_MEMREF_WHOLE TEEC_NONE TEEC_NONE TEEC_NONE)
      [MkParameter (Tmpref PNull 0) (Memref sharedmem GATEKEEPER_BUFF_SIZE 0) (Value 0 0);
       zero_param; zero_param; zero_param] None in
    '(result, _, _) ← TEEC_InvokeCommand (Some session) GK_COMMAND_MAGIC (Some operation);
    TEEC_ReleaseSharedMemory sharedmem;;
    mret result.

(** After a refused session the context is finalised twice. *)
Definition ut_gk_transfer_buff (buff : ptr) : TM bool :=
  if is_null buff then mret false
  else
    result ← with_session gptee context session GK_UUID (TEEC_FinalizeContext context)
               (gk_exchange buff);
    mret (result =? TEEC_SUCCESS).

(** [calloc], fill with the message from the start, exchange, go on with the answer,
    free: the common shape of the four requests.  [ret = -1] when the buffer or
    the exchange failed. *)
Definition gk_request {A} (failed : A) (msg : TM bytes) (answer : bytes -> TM A) : TM A :=
  buf ← calloc GATEKEEPER_BUFF_SIZE;
  if is_null buf then mret failed
  else
    m ← msg;
    store buf 0 m;;
    ok ← ut_gk_transfer_buff buf;
    res ← (if negb ok then mret failed
           else reply ← load buf 0 GATEKEEPER_BUFF_SIZE; answer reply);
    free_block buf;;
    mret res.

(** [*p = calloc(1, len); memcpy( *p, reply + off, len)], the length being what
    the application claims; [None] when there is no memory. *)
Definition copy_reply (reply : bytes) (off len : Z) : TM (option bytes) :=
  p ← calloc len;
  if is_null p then mret None
  else if off + len <=? zlen reply then
    store p 0 (slice off len reply);; mret (Some (slice off len reply))
  else halt Undefined.

(** Pointer arguments are [None] when null; the lengths are separate. *)
Definition no_current (current_password_handle : option bytes) (current_password_handle_length : Z)
    (current_password : option bytes) (current_password_length : Z) : bool :=
  bool_decide (current_password_handle = None) || (current_password_handle_length =? 0)
  || bool_decide (current_password = None) || (current_password_length =? 0).

(** The answer of an enrollment: the return value and, when it was set, the
    enrolled handle. *)
Definition enroll_answer (reply : bytes) : TM (Z * option bytes) :=
  if enroll_out_error reply =? GK_ERROR_RETRY
  then mret (s32 (enroll_out_retry_timeout reply), None)
  else if negb (enroll_out_error reply =? GK_ERROR_NONE) then mret (-1, None)
  else
    e ← copy_reply reply sizeof_enroll_out (enroll_out_handle_length reply);
    match e with None => mret (-1, None) | Some e => mret (0, Some e) end.

Definition ut_gk_enroll (uid : Z) (current_password_handle : option bytes)
    (current_password_handle_length : Z) (current_password : option bytes)
    (current_password_length : Z) (desired_password : option bytes) (desired_password_length : Z)
    (has_outputs : bool) : TM (Z * option bytes) :=
  if 100 <=? desired_password_length then mret (-1, None)
  else if negb has_outputs || bool_decide (desired_password = None) || (desired_password_length =? 0)
  then mret (-1, None)
  else
    let none := no_current current_password_handle current_password_handle_length
                  current_password current_password_length in
    let handle := if none then None else current_password_handle in
    let handle_length := if none then 0 else current_password_handle_length in
    let password := if none then None else current_password in
    let password_length := if none then 0 else current_password_length in
    if negb none && (negb (handle_length =? sizeof_password_handle_t) || (100 <=? password_length))
    then mret (-1, None)
    else
      gk_request (-1, None)
        (h ← read_arg handle handle_length;
         c ← read_arg password password_length;
         d ← read_arg desired_password desired_password_length;
         mret (enroll_struct uid handle_length password_length desired_password_length ++ h ++ c ++ d))
        enroll_answer.

(** The answer of a verification: the return value, the token when it was set,
    and [*request_reenroll] when it was set. *)
Definition verify_answer (reply : bytes) : TM (Z * option bytes * option bool) :=
  if verify_out_error reply =? GK_ERROR_RETRY
  then mret (s32 (verify_out_retry_timeout reply), None, None)
  else if negb (verify_out_error reply =? GK_ERROR_NONE) then mret (-1, None, None)
  else
    let reenroll := Some (verify_out_request_reenroll reply) in
    t ← copy_reply reply sizeof_verify_out (verify_out_token_length reply);
    match t with None => mret (-1, None, reenroll) | Some t => mret (0, Some t, reenroll) end.

Definition ut_gk_verify (uid challenge : Z) (enrolled_password_handle : option bytes)
    (enrolled_password_handle_length : Z) (provided_password : option bytes)
    (provided_password_length : Z) (has_outputs : bool) : TM (Z * option bytes * option bool) :=
  if bool_decide (enrolled_password_handle = None) || (enrolled_password_handle_length =? 0)
     || bool_decide (provided_password = None) || (provided_password_length =? 0)
     || negb has_outputs || negb (enrolled_password_handle_length =? sizeof_password_handle_t)
  then mret (-1, None, None)
  else
    let provided_password_length := if 100 <=? provided_password_length then 17
                                    else provided_password_length in
    gk_request (-1, None, None)
      (h ← read_arg enrolled_password_handle enrolled_password_handle_length;
       p ← read_arg provided_password provided_password_length;
       mret (verify_struct uid challenge enrolled_password_handle_length provided_password_length
             ++ h ++ p))
      verify_answer.

Definition ut_gk_delete_user (uid : Z) : TM Z :=
  gk_request (-1) (mret (gk_header CMD_ID_DELETE_USER uid))
    (fun reply => mret (if negb (del_user_out_error reply =? GK_ERROR_NONE) then -1 else 0)).

(** The user field stays zero. *)
Definition ut_gk_delete_all_users : TM Z :=
  gk_request (-1) (mret (le_enc 1 CMD_ID_DELETE_ALL_USERS))
    (fun reply => mret (if negb (del_user_out_error reply =? GK_ERROR_NONE) then -1 else 0)).

(** ** The module *)

Definition EFAULT := 14.
Definition HARDWARE_GATEKEEPER : bytes := cstr "gatekeeper".

Definition ut_gk_close : TM Z := sys Lib_free;; mret 0.

(** [sizeof_device] bytes hold the device structure; the operations it is
    filled with are those above, [delete_user] and [delete_all_users] only
    without GATEKEEPER_DATA_SAVE_IN_RAM. *)
Definition ut_gk_open (sizeof_device : Z) (name : bytes) : TM Z :=
  if negb (bool_decide (name = HARDWARE_GATEKEEPER)) then mret (- EINVAL)
  else
    ok ← malloc sizeof_device;
    if negb ok then mret (- EFAULT) else mret 0.
End Gatekeeper.
