(* ===== verification/Gatekeeper400Spec.v ===== *)
(** * What a gatekeeper request achieves

    The exchange of one page with the gatekeeper application, call by call,
    and the four requests on top of it. *)

From S2P Require Import Prelude Kernel Libtrusty Teec TeecMemory TeecOps TeecSession TeecContext TeecInout TeecClient Gatekeeper400.

(** The page handed over: parameter 0 is the registered memory [id], in and
    out; the others are unused. *)
Definition gk_frame (sid id : Z) : bytes :=
  invoke_enc GK_COMMAND_MAGIC sid
    (memref_param TEE_IOCTL_PARAM_ATTR_TYPE_MEMREF_INOUT 0 GATEKEEPER_BUFF_SIZE id :: replicate 3 param0).

(** The size the application reports for the page. *)
Definition reported_size (buf : bytes) : Z := get_u64 (slice sizeof_invoke_arg sizeof_param buf) 16.

(** The calls of an exchange that turned the page [d] into [d']: the page goes
    into the mapping, the command is invoked, and the bytes the application
    reports are copied back if they fit. *)
Definition gk_exchanged (fd sid : Z) (d d' : bytes) (evs : list event) : Prop :=
  exists a ri r1 r2 rs r pre back post,
    let buf := copy_out (gk_frame sid (shm_id_of ri)) (sr_data r) in
    evs = pre ++ [Ev (Sys_ioctl fd TEE_IOC_SHM_ID (Arg_int a)) ri; Ev Lib_mutex_lock r1;
                  Ev Lib_mutex_unlock r2; Ev (Mem_store a d) rs;
                  Ev (Sys_ioctl fd TEE_IOC_INVOKE (Arg_buf (gk_frame sid (shm_id_of ri)))) r]
              ++ back ++ post /\
    sr_ret r = 0 /\
    if reported_size buf <=? GATEKEEPER_BUFF_SIZE
    then exists rl, back = [Ev (Mem_load a (reported_size buf)) rl] /\
           d' = splice d 0 (copy_out (replicate (Z.to_nat (reported_size buf)) 0) (sr_data rl))
    else back = [] /\ d' = d.

Section Exchange.
Context {W : Type} `{K : Kernel W}.
Context (context session : Z) (sharedmem0 : TEEC_SharedMemory).
Implicit Types s : proc W teec_st.

(** The registered page. *)
Definition page (b a id fd : Z) : TEEC_SharedMemory :=
  Shm (PLocal b) GATEKEEPER_BUFF_SIZE 3 id GATEKEEPER_BUFF_SIZE (PMap a) fd.
Definition page_op (shm : TEEC_SharedMemory) (os : option Z) : TEEC_Operation :=
  Operation (TEEC_PARAM_TYPES TEEC_MEMREF_WHOLE TEEC_NONE TEEC_NONE TEEC_NONE)
    [MkParameter (Tmpref PNull 0) (Memref (Some shm) GATEKEEPER_BUFF_SIZE 0) (Value 0 0);
     zero_param; zero_param; zero_param] os.

(** The page is copied into the mapping before the command. *)
Lemma pre_page b a id fd d os Φ s :
  blocks (globals s) !! b = Some d -> zlen d = GATEKEEPER_BUFF_SIZE ->
  (forall rs w, Φ (Ret (TEEC_SUCCESS,
      memref_param TEE_IOCTL_PARAM_ATTR_TYPE_MEMREF_INOUT 0 GATEKEEPER_BUFF_SIZE id :: replicate 3 param0,
      replicate 4 shm0)) (after s (Mem_store a d) rs w)) ->
  wp (teec_pre_process_operation context (Some (page_op (page b a id fd) os))) Φ s.
Proof.
  intros Hb Hd HΦ. change (teec_pre_process_operation context (Some (page_op (page b a id fd) os)))
    with (pre_process_params (W := W) context
      [(12, MkParameter (Tmpref PNull 0) (Memref (Some (page b a id fd)) GATEKEEPER_BUFF_SIZE 0) (Value 0 0));
       (0, zero_param); (0, zero_param); (0, zero_param)]).
  cbn [pre_process_params]. apply wp_bind.
  match goal with |- wp (pre_process_param _ _ ?p) _ _ =>
    change (pre_process_param context 12 p) with
      ('(res, prm) ← teec_pre_process_whole (W := W) (memref p); mret (res, prm, shm0)) end.
  apply wp_bind. unfold teec_pre_process_whole. cbn [memref parent deref]. apply wp_bind, wp_ret.
  change (Z.land (shm_flags (page b a id fd)) (Z.lor TEEC_MEM_INPUT TEEC_MEM_OUTPUT)) with 3.
  cbn [Z.eqb Pos.eqb Z.lor TEEC_MEM_INPUT TEEC_MEM_OUTPUT Pos.lor].
  change (negb (is_null (shadow_buffer (page b a id fd))) && has_flag 3 1) with true. cbn iota.
  apply wp_bind, wp_bind. eapply load_local; [exact Hb|change (shm_size (page b a id fd)) with GATEKEEPER_BUFF_SIZE; lia|].
  change (shm_size (page b a id fd)) with GATEKEEPER_BUFF_SIZE. rewrite <- Hd, slice_full.
  cbn [store shadow_buffer page]. rewrite Z.add_0_r. apply wp_bind. apply wp_sys; intros rs w _.
  repeat first [apply wp_ret | apply wp_bind]. cbn [negb Z.eqb TEEC_SUCCESS].
  repeat first [apply wp_ret | apply wp_bind]. rewrite Hd. apply HΦ.
Qed.

(** Afterwards the reported bytes come back, if they fit the page. *)
Lemma post_page b a id fd d os buf Φ s :
  blocks (globals s) !! b = Some d -> zlen d = GATEKEEPER_BUFF_SIZE -> Forall is_u8 buf ->
  (forall op' s' back d', trace s' = trace s ++ back -> globals s' = set_blocks (<[b := d']>) (globals s) ->
     zlen d' = zlen d ->
     (if reported_size buf <=? GATEKEEPER_BUFF_SIZE
      then exists rl, back = [Ev (Mem_load a (reported_size buf)) rl] /\
             d' = splice d 0 (copy_out (replicate (Z.to_nat (reported_size buf)) 0) (sr_data rl))
      else back = [] /\ d' = d) -> Φ (Ret op') s') ->
  wp (teec_post_process_operation (Some (page_op (page b a id fd) os)) (params_dec 24 buf) (replicate 4 shm0)) Φ s.
Proof.
  intros Hb Hd Hu HΦ. set (p := MkParameter (Tmpref PNull 0) (Memref (Some (page b a id fd)) GATEKEEPER_BUFF_SIZE 0) (Value 0 0)).
  set (prm := param_dec (slice 24 32 buf)).
  assert (0 <= reported_size buf) as Hm by (apply get_u64_range, Forall_slice; done).
  change (wp (ps ← (p' ← teec_post_process_whole p prm; ps ← mret [zero_param; zero_param; zero_param]; mret (p' :: ps));
              mret (Some (set_params (page_op (page b a id fd) os) ps))) Φ s).
  apply wp_bind, wp_bind. unfold teec_post_process_whole. apply wp_bind, wp_ret.
  change (has_flag (shm_flags (page b a id fd)) TEEC_MEM_OUTPUT) with true.
  change (memref_size prm) with (reported_size buf).
  change (negb (is_null (shadow_buffer (page b a id fd)))) with true.
  change (shm_size (page b a id fd)) with GATEKEEPER_BUFF_SIZE. cbn [andb]. apply wp_bind.
  destruct (Z.leb_spec (reported_size buf) GATEKEEPER_BUFF_SIZE) as [Hle|Hgt].
  - apply wp_bind. cbn [load shadow_buffer page]. rewrite Z.add_0_r. apply wp_bind.
    apply wp_sys; intros rl w _. apply wp_ret. cbn [shm_buffer].
    eapply store_local; [done|rewrite length_zero_copy by done; lia|].
    repeat first [apply wp_ret | apply wp_bind]. eapply HΦ; [done|done| |by exists rl].
    unfold zlen. rewrite length_splice; [done|lia|]. rewrite length_zero_copy by done. lia.
  - repeat first [apply wp_ret | apply wp_bind]. apply (HΦ _ s [] d); [by rewrite app_nil_r| |done|done].
    destruct (globals s) as [c ss bl sm cm]. unfold set_blocks. simpl in *. by rewrite insert_id.
Qed.

(** Invoking the command with the page [d]. *)
Lemma invoke_page_spec b a id fd sid d s :
  sessions (globals s) !! session = Some (Session context sid) ->
  contexts (globals s) !! context = Some fd ->
  blocks (globals s) !! b = Some d -> zlen d = GATEKEEPER_BUFF_SIZE ->
  wp (TEEC_InvokeCommand (Some session) GK_COMMAND_MAGIC (Some (page_op (page b a id fd) None)))
    (fun o s' => exists res eorig op' r1 r2 rs r back d',
       let buf := copy_out (gk_frame sid id) (sr_data r) in
       o = Ret (res, eorig, op') /\
       trace s' = trace s ++ [Ev Lib_mutex_lock r1; Ev Lib_mutex_unlock r2; Ev (Mem_store a d) rs;
         Ev (Sys_ioctl fd TEE_IOC_INVOKE (Arg_buf (gk_frame sid id))) r] ++ back /\
       globals s' = set_blocks (<[b := d']>) (globals s) /\ zlen d' = zlen d /\
       is_u32 res /\ (res = TEEC_SUCCESS -> sr_ret r = 0) /\
       if (sr_ret r =? 0) && (reported_size buf <=? GATEKEEPER_BUFF_SIZE)
       then exists rl, back = [Ev (Mem_load a (reported_size buf)) rl] /\
           d' = splice d 0 (copy_out (replicate (Z.to_nat (reported_size buf)) 0) (sr_data rl))
       else back = [] /\ d' = d) s.
Proof.
  intros Hs Hc Hb Hd. unfold TEEC_InvokeCommand. apply wp_bind, wp_gets. rewrite Hs.
  apply wp_bind, wp_ret, wp_bind, wp_bind. apply wp_sys; intros r1 w1 _. apply wp_bind.
  apply wp_sys; intros r2 w2 _. apply wp_ret.
  change (set_op_session (page_op (page b a id fd) None) session) with (page_op (page b a id fd) (Some session)).
  apply wp_bind. eapply pre_page; [exact Hb|exact Hd|]. intros rs ws. cbn [negb Z.eqb TEEC_SUCCESS].
  apply wp_bind, wp_gets. cbn [globals after ctx]. rewrite Hc. apply wp_bind, wp_ret, wp_bind.
  cbn [session_id]. change (invoke_enc _ sid _) with (gk_frame sid id). apply wp_sys; intros r w _.
  apply wp_if; intros Hr.
  - apply wp_bind, wp_get_errno, wp_bind, wp_ret, wp_ret. do 3 eexists. exists r1, r2, rs, r, [], d. cbn zeta.
    replace (sr_ret r =? 0) with false by lia. cbn [andb]. split_and!; [done|simpl; by rewrite <- !app_assoc| |done| | |done|done].
    + cbn [globals after]. destruct (globals s) as [c ss bl sm cm]. unfold set_blocks. simpl in *. by rewrite insert_id.
    + match goal with |- is_u32 (ioctl_errno_to_res ?e) => by destruct (errno_to_res_cases e) as [-> | ->] end.
    + match goal with |- ioctl_errno_to_res ?e = _ -> _ => by destruct (errno_to_res_cases e) as [-> | ->] end.
  - apply wp_bind. eapply post_page; [exact Hb|exact Hd|apply copy_out_bytes, invoke_enc_bytes|].
    intros op' s' back d' Ht Hg Hl Hback. apply wp_bind, wp_ret, wp_ret. do 3 eexists.
    exists r1, r2, rs, r, back, d'. cbn zeta. replace (sr_ret r =? 0) with true by lia. cbn [andb].
    split_and!; [done|rewrite Ht; simpl; by rewrite <- !app_assoc|done|done| |lia|done].
    apply get_u32_range, copy_out_bytes, invoke_enc_bytes.
Qed.

Lemma release_page b a id fd s :
  wp (TEEC_ReleaseSharedMemory (Some (page b a id fd))) (fun o s' => exists m evs, o = Ret m /\
    globals s' = globals s /\ trace s' = trace s ++ evs /\ Forall no_fd evs) s.
Proof.
  assert (exists (m : option TEEC_SharedMemory) evs, Ret (Some (page b a id fd)) = Ret m /\ globals s = globals s /\
    trace s = trace s ++ evs /\ Forall no_fd evs) as Hskip.
  { eexists _, []. rewrite app_nil_r. by split_and!. }
  cbn [TEEC_ReleaseSharedMemory]. apply wp_if; intros Hid; [by apply wp_ret|].
  apply wp_if; intros Hfd; [by apply wp_ret|]. cbn [negb is_null shadow_buffer page munmap].
  apply wp_bind, wp_bind. apply wp_sys; intros r1 w1 _. apply wp_ret, wp_bind.
  apply wp_sys; intros r2 w2 _. apply wp_ret. eexists _, [_; _].
  split_and!; [done|done|simpl; by rewrite <- app_assoc|by repeat constructor].
Qed.

(** The work in the session: the page is exchanged with the application. *)
Lemma gk_exchange_spec b fd sid d s :
  sessions (globals s) !! session = Some (Session context sid) ->
  contexts (globals s) !! context = Some fd ->
  blocks (globals s) !! b = Some d -> zlen d = GATEKEEPER_BUFF_SIZE ->
  wp (gk_exchange context session sharedmem0 (PLocal b)) (fun o s' => exists res evs, o = Ret res /\ is_u32 res /\
    frame (globals s) (globals s') /\ trace s' = trace s ++ evs /\ Forall no_fd evs /\
    exists d', blocks (globals s') = <[b := d']> (blocks (globals s)) /\ zlen d' = zlen d /\
      (res = TEEC_SUCCESS -> gk_exchanged fd sid d d' evs)) s.
Proof.
  intros Hs Hc Hb Hd. unfold gk_exchange. cbn [TEEC_RegisterSharedMemory shm_flags].
  change (bad_flags (Z.lor TEEC_MEM_INPUT TEEC_MEM_OUTPUT)) with false.
  cbn [is_null shm_buffer]. apply wp_bind, wp_bind, wp_gets. rewrite Hc. apply wp_bind, wp_ret, wp_bind.
  change (region_size _) with GATEKEEPER_BUFF_SIZE. apply wp_sys; intros rm wm _.
  assert (blocks (globals s) = <[b := d]> (blocks (globals s))) as Hsame by (by rewrite insert_id).
  apply wp_if; intros Hrm.
  { apply wp_ret. apply wp_ret. eexists _, [_]. split; [done|]. split; [done|]. split_and!; [reflexivity|done|by repeat constructor|].
    exists d. by split_and!. }
  unfold teec_shm_get_id. apply wp_bind, wp_bind. apply wp_sys; intros ri wi _.
  assert (forall Q s', (Q (Ret (shm_id_of ri)) s' : Prop) ->
    wp (if sr_ret ri <? 0 then mret (-1) else mret (sr_ret ri) : M W teec_st Z) Q s') as Hid.
  { intros Q s' HQ. unfold shm_id_of in HQ. destruct (sr_ret ri <? 0); by apply wp_ret. }
  apply Hid. apply wp_ret. cbn [negb Z.eqb TEEC_SUCCESS].
  change (Z.lor TEEC_MEM_INPUT TEEC_MEM_OUTPUT) with 3.
  change (Shm (PLocal b) GATEKEEPER_BUFF_SIZE 3 (shm_id_of ri) GATEKEEPER_BUFF_SIZE (PMap (sr_ret rm)) fd)
    with (page b (sr_ret rm) (shm_id_of ri) fd).
  apply wp_bind. eapply wp_mono; [by eapply invoke_page_spec|].
  intros o s1 (res & eorig & op' & r1 & r2 & rs & r & back & d' & -> & Ht & Hg & Hl & Hu & Hok & Hback).
  apply wp_bind. eapply wp_mono; [apply release_page|]. intros o s2 (m & post & -> & Hg2 & Ht2 & Hno).
  apply wp_ret. do 2 eexists. split; [done|]. split; [exact Hu|]. split_and!; [|rewrite Ht2, Ht; simpl; by rewrite <- !app_assoc| |].
  - rewrite Hg2, Hg. split_and!; try done. intros b'. simpl. destruct (decide (b = b')) as [<-|].
    + rewrite lookup_insert_eq, Hb. simpl. by rewrite Hl.
    + by rewrite lookup_insert_ne.
  - repeat (constructor; [done|]). apply Forall_app. split; [|done].
    destruct ((sr_ret r =? 0) && _); [destruct Hback as (rl & -> & _)|destruct Hback as [-> _]]; by repeat constructor.
  - exists d'. rewrite Hg2, Hg. split_and!; [done|done|]. intros Hres. specialize (Hok Hres).
    rewrite Hok in Hback. cbn [Z.eqb andb] in Hback.
    exists (sr_ret rm), ri, r1, r2, rs, r, [Ev (Sys_mmap GATEKEEPER_BUFF_SIZE fd) rm], back, post.
    by cbn zeta.
Qed.
End Exchange.

(** ** Requests *)

(** The page of a request: the message, the rest zero. *)
Definition gk_page (m : bytes) : bytes := splice (replicate (Z.to_nat GATEKEEPER_BUFF_SIZE) 0) 0 m.

(** In the calls [evs] a session of the gatekeeper application was opened, the
    application was given the page [d] and left [d'] in it. *)
Definition gk_told (d d' : bytes) (evs : list event) : Prop :=
  exists fd sid pre work post r, evs = pre ++ work ++ post /\
    last pre = Some (Ev (Sys_ioctl fd TEE_IOC_OPEN_SESSION
      (Arg_buf (open_session_enc (uuid_to_octets GK_UUID) TEEC_LOGIN_PUBLIC (replicate 4 param0)))) r) /\
    gk_exchanged fd sid d d' work.

Lemma gk_told_cons d d' e evs : gk_told d d' evs -> gk_told d d' (e :: evs).
Proof.
  intros (fd & sid & pre & work & post & r & -> & Hlast & Hx).
  exists fd, sid, (e :: pre), work, post, r. split_and!; [done| |done].
  destruct pre; [done|]. by rewrite last_cons_cons.
Qed.

Section Requests.
Context {W : Type} `{K : Kernel W}.
Context (gptee : bool) (context session : Z) (sharedmem0 : TEEC_SharedMemory).
Implicit Types s : proc W teec_st.
Abbreviation fresh := (fresh_locals context session).
Abbreviation transfer := (ut_gk_transfer_buff gptee context session sharedmem0).
Abbreviation request := (gk_request gptee context session sharedmem0).

Lemma transfer_spec b d s :
  fresh (globals s) -> blocks (globals s) !! b = Some d -> zlen d = GATEKEEPER_BUFF_SIZE ->
  wp (transfer (PLocal b)) (fun o s' => exists ok evs d', o = Ret ok /\ trace s' = trace s ++ evs /\
    open_fds evs = [] /\ restored (globals s) (globals s') (<[b := d']> (blocks (globals s))) /\
    zlen d' = zlen d /\ (ok = true -> gk_told d d' evs)) s.
Proof.
  intros Hf Hb Hd. unfold ut_gk_transfer_buff. cbn [is_null]. apply wp_bind.
  eapply wp_mono; [apply (with_session_spec gptee context session GK_UUID _ _
    (fun fd sid s1 s2 res evs => exists d', blocks (globals s2) = <[b := d']> (blocks (globals s1)) /\ zlen d' = zlen d /\
      (res = TEEC_SUCCESS -> gk_exchanged fd sid d d' evs))); [done|by repeat constructor|by right|]|].
  { intros s1 fd sid Hfd Hg. apply gk_exchange_spec; rewrite ?Hg; simpl; try done; apply lookup_insert_eq. }
  intros o s' (res & evs & -> & _ & Ht & Ho & Hcase). apply wp_ret.
  destruct Hcase as [[Hres Hr]|(fd & sid & s1 & s2 & pre & work & post & r & -> & Hlast & Hg1 & (d' & Hb2 & Hl & Hx) & Hr)].
  - exists false, evs, d. replace (res =? TEEC_SUCCESS) with false by lia.
    rewrite insert_id by done. by split_and!.
  - exists (res =? TEEC_SUCCESS), (pre ++ work ++ post), d'. rewrite Hb2, Hg1 in Hr. simpl in Hr.
    split_and!; try done. intros Hok. exists fd, sid, pre, work, post, r. split_and!; try done. apply Hx. lia.
Qed.

(** A request either fails before an answer was received, or goes on with the
    page the application left. *)
Lemma request_spec {A} (failed : A) msg (answer : bytes -> M W teec_st A) m s :
  fresh (globals s) -> (forall s0, msg s0 = (Ret m, s0)) -> zlen m <= GATEKEEPER_BUFF_SIZE ->
  (forall reply, keeps grows (answer reply)) ->
  wp (request failed msg answer) (fun o s' => o = Ret failed \/
    exists reply s1 evs, trace s1 = trace s ++ evs /\ grows s1 s' /\ zlen reply = GATEKEEPER_BUFF_SIZE /\
      gk_told (gk_page m) reply evs /\ o = (answer reply s1).1) s.
Proof.
  intros Hf Hm Hl Hgr. unfold gk_request, calloc. apply wp_bind, wp_bind. apply wp_sys; intros r w Hk.
  apply wp_if; intros Hr; [repeat first [apply wp_ret | apply wp_bind]; by left|].
  apply wp_bind, wp_modify, wp_ret. cbn [is_null]. apply wp_bind. unfold wp at 1. rewrite Hm. apply wp_bind.
  assert (zlen (replicate (Z.to_nat GATEKEEPER_BUFF_SIZE) 0) = GATEKEEPER_BUFF_SIZE) as Hz
    by (unfold zlen; rewrite length_replicate; done).
  eapply store_local; [apply lookup_insert_eq|cbn [fst snd]; lia|]. fold (gk_page m).
  assert (zlen (gk_page m) = GATEKEEPER_BUFF_SIZE) as Hp.
  { unfold gk_page, zlen. rewrite length_splice; [exact Hz|lia|lia]. }
  apply wp_bind. eapply wp_mono; [apply transfer_spec; [exact Hf|apply lookup_insert_eq|exact Hp]|].
  intros o s1 (ok & evs & d' & -> & Ht & Ho & (_ & _ & Hb & _) & Hl' & Htold). apply wp_bind.
  destruct ok; cbn [negb].
  2:{ apply wp_ret. unfold free_block. repeat first [apply wp_ret | apply wp_bind | apply wp_modify].
      apply wp_sys; intros. repeat first [apply wp_modify | apply wp_ret]. by left. }
  apply wp_bind. eapply load_local; [rewrite Hb; apply lookup_insert_eq|lia|].
  rewrite <- Hp, <- Hl', slice_full. unfold wp at 1.
  pose proof (Hgr d' s1) as Hg2. destruct (answer d' s1) as [[a|e] s2] eqn:Ha; cbn [fst snd] in *.
  - unfold free_block. apply wp_bind, wp_bind. apply wp_sys; intros r2 w2 _. apply wp_modify, wp_ret. right.
    exists d', s1, (Ev (Lib_malloc GATEKEEPER_BUFF_SIZE) r :: evs). rewrite Ha.
    split_and!; [rewrite Ht; simpl; by rewrite <- app_assoc| |lia|by apply gk_told_cons, Htold|done].
    etrans; [exact Hg2|]. by exists [Ev Lib_free r2].
  - right. exists d', s1, (Ev (Lib_malloc GATEKEEPER_BUFF_SIZE) r :: evs). rewrite Ha.
    split_and!; [rewrite Ht; simpl; by rewrite <- app_assoc|exact Hg2|lia|by apply gk_told_cons, Htold|done].
Qed.

(** What is copied out of a reply lies within it; a longer claim is an access
    beyond its end. *)
Lemma copy_reply_spec reply off len s :
  wp (copy_reply reply off len) (fun o _ =>
    match o with
    | Ret (Some d) => off + len <= zlen reply /\ d = slice off len reply
    | Ret None => True
    | Stop e => e = Undefined /\ zlen reply < off + len
    end) s.
Proof.
  unfold copy_reply, calloc. apply wp_bind, wp_bind. apply wp_sys; intros r w _.
  apply wp_if; intros Hr; [apply wp_ret; by apply wp_ret|]. apply wp_bind, wp_modify, wp_ret. cbn [is_null].
  apply wp_if; intros Hl; [|apply wp_halt; split; [done|lia]]. apply wp_bind.
  eapply store_local; [apply lookup_insert_eq| |apply wp_ret; split; [lia|done]].
  unfold slice, zlen. rewrite length_take, length_replicate. lia.
Qed.

Lemma copy_reply_grows reply off len : keeps grows (copy_reply reply off len : M W teec_st _).
Proof. unfold copy_reply, calloc, store. keeps_go. unfold deref. keeps_go. Qed.
End Requests.
