(* ===== verification/Gatekeeper400Theorems.v ===== *)
(** * What the 400 gatekeeper guarantees

    The requests as the application parses them, and the theorems about the
    HAL module, with concrete runs on a small secure world. *)

From S2P Require Import Prelude Kernel Libtrusty Teec TeecMemory TeecClient Gatekeeper400 Gatekeeper400Spec.

(** ** The application's side of the page *)

Record verify_message := VerifyMessage {
  vm_uid : Z; vm_challenge : Z; vm_handle : bytes; vm_password : bytes
}.
Definition parse_verify (d : bytes) : option verify_message :=
  if get_u8 d 0 =? CMD_ID_VARIFY then
    let hl := get_u32 d 13 in
    let pl := get_u32 d 17 in
    Some (VerifyMessage (get_u32 d 1) (get_u64 d 5) (slice 21 hl d) (slice (21 + hl) pl d))
  else None.

Record enroll_message := EnrollMessage {
  em_uid : Z; em_handle : bytes; em_password : bytes; em_desired : bytes
}.
Definition parse_enroll (d : bytes) : option enroll_message :=
  if get_u8 d 0 =? CMD_ID_ENROLL then
    let hl := get_u32 d 5 in
    let pl := get_u32 d 9 in
    let dl := get_u32 d 13 in
    Some (EnrollMessage (get_u32 d 1) (slice 21 hl d) (slice (21 + hl) pl d)
            (slice (21 + hl + pl) dl d))
  else None.

(** The page is the message, then zeros. *)
Lemma gk_page_app m : zlen m <= GATEKEEPER_BUFF_SIZE -> exists z, gk_page m = m ++ z.
Proof.
  intros H. unfold gk_page, splice. exists (drop (length m) (replicate (Z.to_nat GATEKEEPER_BUFF_SIZE) 0)).
  by rewrite take_0.
Qed.

Lemma header_cmd cmd b : 0 <= cmd < 256 -> get_u8 (le_enc 1 cmd ++ b) 0 = cmd.
Proof.
  intros. unfold get_u8. change 0 with (zlen (@nil Z)).
  change (le_enc 1 cmd ++ b) with ([] ++ le_enc 1 cmd ++ b).
  rewrite slice_at by (by rewrite ?zlen_le_enc). rewrite le_dec_enc. apply Z.mod_small. lia.
Qed.

(** Both messages are read back as they were packed. *)
Lemma parse_verify_page uid challenge h p :
  is_u32 uid -> is_u64 challenge -> zlen h = sizeof_password_handle_t -> zlen p <= 100 ->
  parse_verify (gk_page (verify_struct uid challenge (zlen h) (zlen p) ++ h ++ p))
  = Some (VerifyMessage uid challenge h p).
Proof.
  intros Hu Hc Hh Hp. pose proof (zlen_nonneg p). unfold sizeof_password_handle_t in Hh.
  assert (is_u32 (zlen h) /\ is_u32 (zlen p)) as [Hh' Hp'] by (split; unfold is_u32; lia).
  set (st := verify_struct uid challenge (zlen h) (zlen p)).
  assert (zlen st = 21) as Hst.
  { unfold st, verify_struct, gk_header. autorewrite with len. lia. }
  destruct (gk_page_app (st ++ h ++ p)) as [z ->].
  { autorewrite with len. unfold GATEKEEPER_BUFF_SIZE. lia. }
  assert (exists y, (st ++ h ++ p) ++ z = le_enc 1 CMD_ID_VARIFY ++ le_enc 4 uid ++ le_enc 8 challenge
    ++ le_enc 4 (zlen h) ++ le_enc 4 (zlen p) ++ y) as [y Hy].
  { exists (h ++ p ++ z). unfold st, verify_struct, gk_header. by rewrite <- !app_assoc. }
  assert (slice 21 (zlen h) ((st ++ h ++ p) ++ z) = h) as E1
    by (rewrite <- !app_assoc; by apply slice_at).
  assert (slice (21 + zlen h) (zlen p) ((st ++ h ++ p) ++ z) = p) as E2.
  { replace ((st ++ h ++ p) ++ z) with ((st ++ h) ++ p ++ z) by (by rewrite <- !app_assoc).
    apply slice_at; autorewrite with len; lia. }
  unfold parse_verify. rewrite Hy. rewrite header_cmd by done. fields.
  rewrite <- Hy, E1, E2. done.
Qed.

Lemma parse_enroll_page uid h c d :
  is_u32 uid -> zlen h <= sizeof_password_handle_t -> zlen c <= 100 -> zlen d <= 100 ->
  parse_enroll (gk_page (enroll_struct uid (zlen h) (zlen c) (zlen d) ++ h ++ c ++ d))
  = Some (EnrollMessage uid h c d).
Proof.
  intros Hu Hh Hc Hd. pose proof (zlen_nonneg h). pose proof (zlen_nonneg c). pose proof (zlen_nonneg d).
  unfold sizeof_password_handle_t in Hh.
  assert (is_u32 (zlen h) /\ is_u32 (zlen c) /\ is_u32 (zlen d)) as (Hh' & Hc' & Hd')
    by (split_and!; unfold is_u32; lia).
  set (st := enroll_struct uid (zlen h) (zlen c) (zlen d)).
  assert (zlen st = 21) as Hst.
  { unfold st, enroll_struct, gk_header. autorewrite with len. done. }
  destruct (gk_page_app (st ++ h ++ c ++ d)) as [z ->].
  { autorewrite with len. unfold GATEKEEPER_BUFF_SIZE. lia. }
  assert (exists y, (st ++ h ++ c ++ d) ++ z = le_enc 1 CMD_ID_ENROLL ++ le_enc 4 uid ++ le_enc 4 (zlen h)
    ++ le_enc 4 (zlen c) ++ le_enc 4 (zlen d) ++ y) as [y Hy].
  { exists (replicate 4 0 ++ h ++ c ++ d ++ z). unfold st, enroll_struct, gk_header. by rewrite <- !app_assoc. }
  assert (slice 21 (zlen h) ((st ++ h ++ c ++ d) ++ z) = h) as E1
    by (rewrite <- !app_assoc; by apply slice_at).
  assert (slice (21 + zlen h) (zlen c) ((st ++ h ++ c ++ d) ++ z) = c) as E2.
  { replace ((st ++ h ++ c ++ d) ++ z) with ((st ++ h) ++ c ++ d ++ z) by (by rewrite <- !app_assoc).
    apply slice_at; autorewrite with len; lia. }
  assert (slice (21 + zlen h + zlen c) (zlen d) ((st ++ h ++ c ++ d) ++ z) = d) as E3.
  { replace ((st ++ h ++ c ++ d) ++ z) with ((st ++ h ++ c) ++ d ++ z) by (by rewrite <- !app_assoc).
    apply slice_at; autorewrite with len; lia. }
  unfold parse_enroll. rewrite Hy. rewrite header_cmd by done. fields.
  rewrite <- Hy, E1, E2, E3. done.
Qed.

(** ** Theorems *)

Section Theorems.
Context {W : Type} `{K : Kernel W}.
Context (gptee : bool) (context session : Z) (sharedmem0 : TEEC_SharedMemory).
Implicit Types s : proc W teec_st.
Abbreviation fresh := (fresh_locals context session).
Abbreviation verify400 := (ut_gk_verify gptee context session sharedmem0).
Abbreviation enroll400 := (ut_gk_enroll gptee context session sharedmem0).

(** The bytes of the password that are sent. *)
Definition sent_password (password : bytes) (len : Z) : bytes :=
  slice 0 (if 100 <=? len then 17 else len) password.

(** What [verify] reports for the page the application left. *)
Inductive verify_verdict (reply : bytes) : Z -> option bytes -> option bool -> Prop :=
| Verified token :
    verify_out_error reply = GK_ERROR_NONE ->
    sizeof_verify_out + verify_out_token_length reply <= GATEKEEPER_BUFF_SIZE ->
    token = slice sizeof_verify_out (verify_out_token_length reply) reply ->
    verify_verdict reply 0 (Some token) (Some (verify_out_request_reenroll reply))
| Verify_no_memory :
    verify_out_error reply = GK_ERROR_NONE ->
    verify_verdict reply (-1) None (Some (verify_out_request_reenroll reply))
| Verify_retry :
    verify_out_error reply = GK_ERROR_RETRY ->
    verify_verdict reply (s32 (verify_out_retry_timeout reply)) None None
| Verify_refused :
    verify_out_error reply <> GK_ERROR_NONE -> verify_out_error reply <> GK_ERROR_RETRY ->
    verify_verdict reply (-1) None None.

Lemma verify_answer_spec reply s :
  zlen reply = GATEKEEPER_BUFF_SIZE ->
  wp (verify_answer reply) (fun o _ =>
    match o with
    | Ret (ret, token, reenroll) => verify_verdict reply ret token reenroll
    | Stop e => e = Undefined /\ verify_out_error reply = GK_ERROR_NONE /\
        GATEKEEPER_BUFF_SIZE < sizeof_verify_out + verify_out_token_length reply
    end) s.
Proof.
  intros Hl. unfold verify_answer.
  destruct (Z.eqb_spec (verify_out_error reply) GK_ERROR_RETRY) as [He|He]; [apply wp_ret; by constructor|].
  destruct (Z.eqb_spec (verify_out_error reply) GK_ERROR_NONE) as [Hn|Hn]; cbn [negb]; [|apply wp_ret; by constructor].
  apply wp_bind. eapply wp_mono; [apply copy_reply_spec|]. rewrite Hl.
  intros [[d|]|e] s' Ho; [apply wp_ret; constructor; [done|lia|apply Ho]|apply wp_ret; by constructor|].
  split_and!; [apply Ho|done|lia].
Qed.

(** The application was asked to verify this password for this user, and what
    is reported follows from its reply. *)
Lemma verify_spec uid challenge handle password len s :
  is_u32 uid -> is_u64 challenge -> sizeof_password_handle_t <= zlen handle -> 1 <= len <= zlen password ->
  fresh (globals s) ->
  wp (verify400 uid challenge (Some handle) sizeof_password_handle_t (Some password) len true) (fun o s' =>
    o = Ret (-1, None, None) \/
    exists d reply evs tl, trace s' = trace s ++ evs ++ tl /\ gk_told d reply evs /\
      parse_verify d = Some (VerifyMessage uid challenge (slice 0 sizeof_password_handle_t handle)
                               (sent_password password len)) /\
      match o with
      | Ret (ret, token, reenroll) => verify_verdict reply ret token reenroll
      | Stop e => e = Undefined /\ verify_out_error reply = GK_ERROR_NONE /\
          GATEKEEPER_BUFF_SIZE < sizeof_verify_out + verify_out_token_length reply
      end) s.
Proof.
  intros Hu Hc Hh Hp Hf. unfold ut_gk_verify. rewrite !bool_decide_eq_false_2 by done.
  replace (len =? 0) with false by lia. change (sizeof_password_handle_t =? 0) with false.
  rewrite Z.eqb_refl. cbn [orb negb]. set (l := if 100 <=? len then 17 else len).
  assert (1 <= l <= 99 /\ l <= zlen password) as [Hl Hl'] by (unfold l; destruct (Z.leb_spec 100 len); lia).
  set (h := slice 0 sizeof_password_handle_t handle). set (p := slice 0 l password).
  assert (zlen h = sizeof_password_handle_t /\ zlen p = l) as [Zh Zp].
  { unfold h, p. rewrite !zlen_slice by (unfold sizeof_password_handle_t in *; lia). done. }
  pose proof (parse_verify_page uid challenge h p Hu Hc Zh ltac:(lia)) as Hparse. rewrite Zh, Zp in Hparse.
  eapply wp_mono.
  { apply (request_spec gptee context session sharedmem0 _ _ _
      (verify_struct uid challenge sizeof_password_handle_t l ++ h ++ p)); [done| | |].
    - intros s0. unfold read_arg, mbind, M_bind. replace (sizeof_password_handle_t <=? zlen handle) with true by lia.
      by replace (l <=? zlen password) with true by lia.
    - unfold verify_struct, gk_header. autorewrite with len. unfold sizeof_password_handle_t, GATEKEEPER_BUFF_SIZE in *. lia.
    - intros reply. unfold verify_answer. keeps_go. apply copy_reply_grows. }
  intros o s' [->|(reply & s1 & evs & Ht & [tl Htl] & Hrl & Htold & ->)]; [by left|right].
  eexists _, reply, evs, tl. split_and!; [by rewrite Htl, Ht, <- app_assoc|exact Htold|exact Hparse|].
  exact (verify_answer_spec reply s1 Hrl).
Qed.

Inductive enroll_verdict (reply : bytes) : Z -> option bytes -> Prop :=
| Enrolled handle :
    enroll_out_error reply = GK_ERROR_NONE ->
    sizeof_enroll_out + enroll_out_handle_length reply <= GATEKEEPER_BUFF_SIZE ->
    handle = slice sizeof_enroll_out (enroll_out_handle_length reply) reply ->
    enroll_verdict reply 0 (Some handle)
| Enroll_no_memory :
    enroll_out_error reply = GK_ERROR_NONE -> enroll_verdict reply (-1) None
| Enroll_retry :
    enroll_out_error reply = GK_ERROR_RETRY ->
    enroll_verdict reply (s32 (enroll_out_retry_timeout reply)) None
| Enroll_refused :
    enroll_out_error reply <> GK_ERROR_NONE -> enroll_out_error reply <> GK_ERROR_RETRY ->
    enroll_verdict reply (-1) None.

(** The current password with its handle, when both are given. *)
Definition current_arg (current : option (bytes * bytes)) : bytes * bytes :=
  match current with
  | Some (h, c) => (h, c)
  | None => ([], [])
  end.

Lemma enroll_answer_spec reply s :
  zlen reply = GATEKEEPER_BUFF_SIZE ->
  wp (enroll_answer reply) (fun o _ =>
    match o with
    | Ret (ret, handle) => enroll_verdict reply ret handle
    | Stop e => e = Undefined /\ enroll_out_error reply = GK_ERROR_NONE /\
        GATEKEEPER_BUFF_SIZE < sizeof_enroll_out + enroll_out_handle_length reply
    end) s.
Proof.
  intros Hl. unfold enroll_answer.
  destruct (Z.eqb_spec (enroll_out_error reply) GK_ERROR_RETRY) as [He|He]; [apply wp_ret; by constructor|].
  destruct (Z.eqb_spec (enroll_out_error reply) GK_ERROR_NONE) as [Hn|Hn]; cbn [negb]; [|apply wp_ret; by constructor].
  apply wp_bind. eapply wp_mono; [apply copy_reply_spec|]. rewrite Hl.
  intros [[d|]|e] s' Ho; [apply wp_ret; constructor; [done|lia|apply Ho]|apply wp_ret; by constructor|].
  split_and!; [apply Ho|done|lia].
Qed.

(** A current password is given with its handle, or none is. *)
Definition current_ok (current : option (bytes * bytes)) : Prop :=
  match current with
  | Some (h, c) => zlen h = sizeof_password_handle_t /\ 1 <= zlen c < 100
  | None => True
  end.

(** With arguments in range the request is made, with these bytes. *)
Lemma enroll_request uid current desired :
  1 <= zlen desired < 100 -> current_ok current ->
  let '(h, c) := current_arg current in
  exists msg,
    (forall s0, msg s0 = (Ret (enroll_struct uid (zlen h) (zlen c) (zlen desired) ++ h ++ c ++ desired), s0)) /\
    enroll400 uid (fst <$> current) (zlen h) (snd <$> current) (zlen c) (Some desired) (zlen desired) true
    = gk_request gptee context session sharedmem0 (-1, None) msg enroll_answer.
Proof.
  intros Hd Hcur. unfold ut_gk_enroll, no_current.
  replace (100 <=? zlen desired) with false by lia. replace (zlen desired =? 0) with false by lia.
  rewrite (bool_decide_eq_false_2 (Some desired = None)) by done.
  destruct current as [[h c]|]; cbn [current_arg fmap option_fmap option_map fst snd].
  - destruct Hcur as [Hh Hc]. rewrite !bool_decide_eq_false_2 by done.
    replace (zlen h =? 0) with false by (unfold sizeof_password_handle_t in *; lia).
    replace (zlen c =? 0) with false by lia. cbn [orb negb andb].
    replace (zlen h =? sizeof_password_handle_t) with true by lia.
    replace (100 <=? zlen c) with false by lia. cbn [orb negb andb]. eexists. split; [|reflexivity].
    intros s0. unfold read_arg, mbind, M_bind. by rewrite !Z.leb_refl, !slice_full.
  - eexists. split; [|reflexivity].
    intros s0. unfold read_arg, mbind, M_bind. cbn. by rewrite Z.leb_refl, slice_full.
Qed.

(** The application was asked to enroll the desired password, replacing the
    current one when that was given with its handle. *)
Lemma enroll_spec uid (current : option (bytes * bytes)) desired s :
  is_u32 uid -> 1 <= zlen desired < 100 -> fresh (globals s) -> current_ok current ->
  let '(h, c) := current_arg current in
  wp (enroll400 uid (fst <$> current) (zlen h) (snd <$> current) (zlen c) (Some desired) (zlen desired) true)
    (fun o s' => o = Ret (-1, None) \/
    exists d reply evs tl, trace s' = trace s ++ evs ++ tl /\ gk_told d reply evs /\
      parse_enroll d = Some (EnrollMessage uid h c desired) /\
      match o with
      | Ret (ret, handle) => enroll_verdict reply ret handle
      | Stop e => e = Undefined /\ enroll_out_error reply = GK_ERROR_NONE /\
          GATEKEEPER_BUFF_SIZE < sizeof_enroll_out + enroll_out_handle_length reply
      end) s.
Proof.
  intros Hu Hd Hf Hcur. pose proof (enroll_request uid current desired Hd Hcur) as Hreq.
  destruct (current_arg current) as [h c] eqn:E. destruct Hreq as (msg & Hmsg & ->).
  assert (zlen h <= sizeof_password_handle_t /\ zlen c <= 100) as [Zh Zc].
  { destruct current as [[h0 c0]|]; simplify_eq/=; [lia|done]. }
  pose proof (parse_enroll_page uid h c desired Hu Zh Zc ltac:(lia)) as Hparse.
  eapply wp_mono; [apply (request_spec gptee context session sharedmem0 _ _ _ _ _ Hf Hmsg)|].
  - unfold enroll_struct, gk_header. autorewrite with len. change (zlen (replicate 4 0)) with 4.
    unfold sizeof_password_handle_t, GATEKEEPER_BUFF_SIZE in *. lia.
  - intros reply. unfold enroll_answer. keeps_go. apply copy_reply_grows.
  - intros o s' [->|(reply & s1 & evs & Ht & [tl Htl] & Hrl & Htold & ->)]; [by left|right].
    eexists _, reply, evs, tl. split_and!; [by rewrite Htl, Ht, <- app_assoc|exact Htold|exact Hparse|].
    exact (enroll_answer_spec reply s1 Hrl).
Qed.
End Theorems.

(** ** A small gatekeeper *)

(** A kernel whose application answers a page with [gw_reply]. *)
Record gk_world := GkWorld { gw_page : bytes; gw_reply : bytes -> bytes }.

Definition gk_kcall (c : syscall) (w : gk_world) : sysret * gk_world :=
  match c with
  | Sys_open p _ _ => (if bool_decide (p = cstr "/dev/isee_tee0") then SysRet 5 0 [] else SysRet (-1) ENOENT [], w)
  | Sys_ioctl _ req (Arg_buf _) =>
      (if req =? TEE_IOC_VERSION then SysRet 0 0 (replicate 8 0 ++ [1; 0; 0; 0]) else SysRet 0 0 [], w)
  | Sys_ioctl _ _ _ => (SysRet 9 0 [], w)
  | Sys_mmap _ _ => (SysRet 8192 0 [], w)
  | Mem_store _ d => (SysRet 0 0 [], GkWorld d (gw_reply w))
  | Mem_load _ n => (SysRet 0 0 (gw_reply w (gw_page w)), w)
  | Lib_malloc n => (SysRet n 0 [], w)
  | _ => (SysRet 0 0 [], w)
  end.
#[export] Instance gk_kernel : Kernel gk_world := gk_kcall.

(** An application that knows the password [7; 8] of user 3. *)
Definition knows_78 (page : bytes) : bytes :=
  match parse_verify page with
  | Some m => if bool_decide (vm_password m = [7; 8] /\ vm_uid m = 3)
              then le_enc 4 0 ++ le_enc 4 2 ++ [0] ++ le_enc 4 0 ++ [65; 66]
              else le_enc 4 9 ++ replicate 9 0
  | None =>
      match parse_enroll page with
      | Some m => le_enc 4 0 ++ le_enc 4 3 ++ le_enc 4 0 ++ [1; 2; 3]
      | None => le_enc 4 9
      end
  end.

Definition gk_start (reply : bytes -> bytes) : proc gk_world teec_st :=
  Proc (TeecSt ∅ ∅ ∅ [] []) (GkWorld [] reply) 0 [].
Definition gk_handle : bytes := replicate (Z.to_nat sizeof_password_handle_t) 1.
Abbreviation verify_now := (ut_gk_verify false 4096 4200 shm0).
Abbreviation enroll_now := (ut_gk_enroll false 4096 4200 shm0).

Example verify_runs :
  (verify_now 3 42 (Some gk_handle) sizeof_password_handle_t (Some [7; 8]) 2 true (gk_start knows_78)).1
    = Ret (0, Some [65; 66], Some false) /\
  (verify_now 3 42 (Some gk_handle) sizeof_password_handle_t (Some [7; 9]) 2 true (gk_start knows_78)).1
    = Ret (-1, None, None).
Proof. vm_compute. done. Qed.

(** An application that asks for a retry without delay: the module reports
    success, without a token. *)
Theorem retry_now_is_success :
  (verify_now 3 42 (Some gk_handle) sizeof_password_handle_t (Some [7; 8]) 2 true
     (gk_start (fun _ => le_enc 4 GK_ERROR_RETRY ++ replicate 9 0))).1 = Ret (0, None, None).
Proof. vm_compute. done. Qed.

(** ** The claims *)

(** C15. For a password of 1 to 99 bytes and a whole handle, a verification that
    returns 0 with a token is the application's: in a session of the gatekeeper
    application the page that asks to verify exactly this password for this user,
    challenge and handle was exchanged, and the token is the one in the answer,
    which reports no error.  (Of a longer password only the first seventeen bytes
    are sent, see [long_password_equiv].) *)
Theorem verify400_authentic {W} `{K : Kernel W} gptee context session shm uid challenge handle password len
    (s : proc W teec_st) token reenroll :
  is_u32 uid -> is_u64 challenge -> sizeof_password_handle_t <= zlen handle -> 1 <= len < 100 -> len <= zlen password ->
  fresh_locals context session (globals s) ->
  let run := ut_gk_verify gptee context session shm uid challenge (Some handle) sizeof_password_handle_t
               (Some password) len true s in
  run.1 = Ret (0, Some token, reenroll) ->
  exists d reply evs tl, trace run.2 = trace s ++ evs ++ tl /\ gk_told d reply evs /\
    parse_verify d = Some (VerifyMessage uid challenge (slice 0 sizeof_password_handle_t handle) (slice 0 len password)) /\
    verify_out_error reply = GK_ERROR_NONE /\
    token = slice sizeof_verify_out (verify_out_token_length reply) reply /\
    reenroll = Some (verify_out_request_reenroll reply).
Proof.
  intros Hu Hc Hh [Hl1 Hl2] Hp Hf run Hrun.
  pose proof (verify_spec gptee context session shm uid challenge handle password len s Hu Hc Hh (conj Hl1 Hp) Hf) as Hs.
  unfold wp in Hs. fold run in Hs. rewrite Hrun in Hs. unfold sent_password in Hs. replace (100 <=? len) with false in Hs by lia.
  destruct Hs as [|(d & reply & evs & tl & Ht & Htold & Hparse & Hv)]; [done|].
  exists d, reply, evs, tl. split; [done|]. inversion Hv; subst. by split_and!.
Qed.

Lemma verify400_authentic_witness :
  let run := verify_now 3 42 (Some gk_handle) sizeof_password_handle_t (Some [7; 8]) 2 true (gk_start knows_78) in
  exists d reply evs tl, trace run.2 = [] ++ evs ++ tl /\ gk_told d reply evs /\
    parse_verify d = Some (VerifyMessage 3 42 (slice 0 sizeof_password_handle_t gk_handle) (slice 0 2 [7; 8])) /\
    verify_out_error reply = GK_ERROR_NONE /\
    [65; 66] = slice sizeof_verify_out (verify_out_token_length reply) reply /\
    Some false = Some (verify_out_request_reenroll reply).
Proof.
  apply (verify400_authentic false 4096 4200 shm0 3 42 gk_handle [7; 8] 2 (gk_start knows_78)).
  all: try (vm_compute; intuition congruence).
  split_and!; [by apply not_elem_of_nil..|constructor].
Defined.

(** C38. Enrolling a password of 1 to 99 bytes, with or without the current one
    (again 1 to 99 bytes, with its whole handle): an enrollment that returns 0 with
    a handle is the application's.  In a session of the gatekeeper application the
    page that asks to enroll exactly this password for this user, and carries the
    current password and its handle if they were given, was exchanged, and the new
    handle is the one in the answer, which reports no error. *)
Theorem enroll400_authentic {W} `{K : Kernel W} gptee context session shm uid current desired
    (s : proc W teec_st) handle :
  is_u32 uid -> 1 <= zlen desired < 100 -> fresh_locals context session (globals s) -> current_ok current ->
  let '(h, c) := current_arg current in
  let run := ut_gk_enroll gptee context session shm uid (fst <$> current) (zlen h) (snd <$> current) (zlen c)
               (Some desired) (zlen desired) true s in
  run.1 = Ret (0, Some handle) ->
  exists d reply evs tl, trace run.2 = trace s ++ evs ++ tl /\ gk_told d reply evs /\
    parse_enroll d = Some (EnrollMessage uid h c desired) /\
    enroll_out_error reply = GK_ERROR_NONE /\
    handle = slice sizeof_enroll_out (enroll_out_handle_length reply) reply.
Proof.
  intros Hu Hd Hf Hc. pose proof (enroll_spec gptee context session shm uid current desired s Hu Hd Hf Hc) as Hs.
  destruct (current_arg current) as [h c]. intros run Hrun. unfold wp in Hs. fold run in Hs. rewrite Hrun in Hs.
  destruct Hs as [|(d & reply & evs & tl & Ht & Htold & Hparse & Hv)]; [done|].
  exists d, reply, evs, tl. split; [done|]. inversion Hv; subst. by split_and!.
Qed.

Lemma enroll400_authentic_witness :
  let run := enroll_now 3 (Some gk_handle) (zlen gk_handle) (Some [7; 8]) 2 (Some [9; 9; 9]) 3 true (gk_start knows_78) in
  exists d reply evs tl, trace run.2 = [] ++ evs ++ tl /\ gk_told d reply evs /\
    parse_enroll d = Some (EnrollMessage 3 gk_handle [7; 8] [9; 9; 9]) /\
    enroll_out_error reply = GK_ERROR_NONE /\
    [1; 2; 3] = slice sizeof_enroll_out (enroll_out_handle_length reply) reply.
Proof.
  apply (enroll400_authentic false 4096 4200 shm0 3 (Some (gk_handle, [7; 8])) [9; 9; 9] (gk_start knows_78)).
  all: try (vm_compute; intuition congruence).
  split_and!; [by apply not_elem_of_nil..|constructor].
Defined.

(** Whatever the kernel and the application answer, a transfer returns,
    gives back every descriptor, leaves the registered contexts and sessions as
    they were, and changes no buffer but the page. *)
Theorem transfer400_restores {W} `{K : Kernel W} gptee context session shm b d (s : proc W teec_st) :
  fresh_locals context session (globals s) -> blocks (globals s) !! b = Some d -> zlen d = GATEKEEPER_BUFF_SIZE ->
  let run := ut_gk_transfer_buff gptee context session shm (PLocal b) s in
  exists ok evs d', run.1 = Ret ok /\ trace run.2 = trace s ++ evs /\ open_fds evs = [] /\
    _sessionMap (globals run.2) = _sessionMap (globals s) /\ _contextMap (globals run.2) = _contextMap (globals s) /\
    blocks (globals run.2) = <[b := d']> (blocks (globals s)) /\ zlen d' = zlen d /\
    (ok = true -> gk_told d d' evs).
Proof.
  intros Hf Hb Hd run. pose proof (transfer_spec gptee context session shm b d s Hf Hb Hd) as Hs.
  unfold wp in Hs. fold run in Hs. destruct Hs as (ok & evs & d' & Ho & Ht & Hfd & (H1 & H2 & H3 & _) & Hl & Htold).
  exists ok, evs, d'. by split_and!.
Qed.

Lemma transfer400_restores_witness :
  let d := replicate (Z.to_nat GATEKEEPER_BUFF_SIZE) 0 in
  let s := Proc (TeecSt ∅ ∅ {[ 1 := d ]} [] []) (GkWorld [] knows_78) 0 [] in
  let run := ut_gk_transfer_buff false 4096 4200 shm0 (PLocal 1) s in
  exists ok evs d', run.1 = Ret ok /\ trace run.2 = trace s ++ evs /\ open_fds evs = [] /\
    _sessionMap (globals run.2) = _sessionMap (globals s) /\ _contextMap (globals run.2) = _contextMap (globals s) /\
    blocks (globals run.2) = <[1 := d']> (blocks (globals s)) /\ zlen d' = zlen d /\
    (ok = true -> gk_told d d' evs).
Proof.
  intros d s. apply (transfer400_restores false 4096 4200 shm0 1 d s).
  - split_and!; [by apply not_elem_of_nil..|constructor].
  - apply lookup_singleton_eq.
  - vm_compute. reflexivity.
Defined.

(** A password of a hundred bytes or more is verified as its first
    seventeen bytes: the run is the same, call by call. *)
Theorem long_password_equiv {W} `{K : Kernel W} gptee context session shm uid challenge handle hl password len
    (s : proc W teec_st) :
  100 <= len <= zlen password ->
  ut_gk_verify gptee context session shm uid challenge handle hl (Some password) len true s =
  ut_gk_verify gptee context session shm uid challenge handle hl (Some (slice 0 17 password)) 17 true s.
Proof.
  intros Hl. assert (zlen (slice 0 17 password) = 17) as Hz by (apply zlen_slice; lia).
  unfold ut_gk_verify. rewrite (bool_decide_eq_false_2 (Some password = None)) by done.
  rewrite (bool_decide_eq_false_2 (Some (slice 0 17 password) = None)) by done.
  replace (len =? 0) with false by lia. replace (100 <=? len) with true by lia.
  change (17 =? 0) with false. change (100 <=? 17) with false.
  assert (read_arg (Some password) 17 = (read_arg (Some (slice 0 17 password)) 17 : M W teec_st bytes)) as ->; [|done].
  unfold read_arg. replace (17 <=? zlen password) with true by lia. rewrite Hz. change (17 <=? 17) with true.
  by rewrite slice_slice by lia.
Qed.

Lemma long_password_equiv_witness :
  verify_now 3 42 (Some gk_handle) sizeof_password_handle_t (Some (replicate 120 5)) 110 true (gk_start knows_78) =
  verify_now 3 42 (Some gk_handle) sizeof_password_handle_t (Some (slice 0 17 (replicate 120 5))) 17 true (gk_start knows_78).
Proof. apply long_password_equiv. vm_compute. intuition congruence. Defined.
