(* ===== verification/Kmsetkey400.v ===== *)
(** * Key installation on the 400 platform (400/km4.1/kmsetkey, 400/km4.1/common/ut_km_ioctl.cpp)

    ut_km_tac.cpp talks to the keybox application: import a keybox, import the
    model name, ask for the state of the keys.  ut_kmsetkey.cpp is the HAL
    module on top of it, which packs the key block with the two built-in public
    keys into a buffer; kmsetkey_ca.cpp is the command-line program. *)

From S2P Require Import Prelude Kernel Teec TeecClient.

(** ** ut_km_def.h, ut_km_tac.h, ut_km_tac.cpp *)

Definition KM_MAGIC := 2936100920.
Definition TEE_PROP_VALUE_MAX := 84.
Definition PROP_VALUE_MAX := 92.
Definition CMD_CA_IMPORT_KEYBOX := 0.
Definition CMD_TA_GET_KEYBOX_STATUS := 101.
Definition CMD_WRITE_KEYBOX_MODEL_INFO := 102.
Definition CMD_ID_TEE_REE_IMPORT_KEYBOX := 601.

Definition GOOGLE_KEY_STATUS : bytes := cstr "vendor.soter.teei.googlekey.status".
Definition GOOGLE_KEY_MODEL : bytes := cstr "vendor.soter.teei.googlekey.model".
Definition ATTESTKEY_MODEL_INFO_PROPERTY : bytes := cstr "ro.product.device".
Definition KEYBOX_UUID : TEEC_UUID :=
  Uuid 3642700330 54692 16853 [149; 81; 16; 237; 163; 39; 47; 192].

(** key_status_t: four states, the length of the model name, the name, four
    reserved words. *)
Definition sizeof_key_status := 120.
Definition google_key_staus (b : bytes) : Z := get_u32 b 0.
Definition google_key_model_info_len (b : bytes) : Z := get_u32 b 16.
Definition google_key_model_info (b : bytes) : bytes := slice 20 TEE_PROP_VALUE_MAX b.

(** A C string in a buffer: up to its terminator. *)
Definition c_string (b : bytes) : bytes :=
  match strlen b with Some n => slice 0 n b | None => b end.

(** [TEE_PROP_VALUE_MAX-1 > len > 0]: C compares the truth value of the first
    comparison with zero. *)
Definition model_len_ok (len : Z) : bool :=
  let first := if len <? TEE_PROP_VALUE_MAX - 1 then 1 else 0 in 0 <? first.

Section Tac.
Context {W : Type} `{K : Kernel W}.
Abbreviation TM := (M W teec_st).
(** The build option and the locals, see [with_session]; the indeterminate
    fields of the local shared memory block. *)
Context (gptee : bool) (context session : Z) (shm_init : TEEC_SharedMemory).

Definition property_set (key value : bytes) : TM unit := sys (Lib_property_set key value);; mret tt.

(** A local block of [size] bytes, its other fields as they happen to be. *)
Definition local_shm (size flags : Z) : TEEC_SharedMemory :=
  Shm (shm_buffer shm_init) size flags (shm_id shm_init) (alloced_size shm_init)
      (shadow_buffer shm_init) (registered_fd shm_init).

(** Value 0 is an output; memory reference 1 is the block. *)
Definition keybox_op (ty : Z) (shm : TEEC_SharedMemory) (size : Z) : TEEC_Operation :=
  Operation (TEEC_PARAM_TYPES TEEC_VALUE_OUTPUT ty TEEC_NONE TEEC_NONE)
    [zero_param; MkParameter (Tmpref PNull 0) (Memref (Some shm) size 0) (Value 0 0); zero_param; zero_param] None.

(** [operation.params[0].value.a] *)
Definition value0 (op : option TEEC_Operation) : TM Z :=
  op ← deref op;
  p ← deref (op_params op !! 0%nat);
  mret (value_a (value p)).

(** Between opening and closing the session: both imports do this with their
    own command. *)
Definition import_exchange (cmd : Z) (data : bytes) : TM Z :=
  '(result, m) ← TEEC_AllocateSharedMemory (Some context) (Some (local_shm (zlen data) TEEC_MEM_INPUT));
  inputSM ← deref m;
  if negb (result =? TEEC_SUCCESS) || is_null (shm_buffer inputSM) then mret result
  else
    store (shm_buffer inputSM) 0 (replicate (length data) 0);;
    store (shm_buffer inputSM) 0 data;;
    '(result, _, op) ← TEEC_InvokeCommand (Some session) cmd
                         (Some (keybox_op TEEC_MEMREF_PARTIAL_INPUT inputSM (zlen data)));
    result ← (if negb (result =? TEEC_SUCCESS) then mret result else value0 op);
    TEEC_ReleaseSharedMemory (Some inputSM);;
    mret result.

Definition ut_km_import_google_key_model (data : option bytes) : TM Z :=
  match data with
  | None => mret (-1)
  | Some data =>
      if zlen data =? 0 then mret (-1)
      else
        result ← with_session gptee context session KEYBOX_UUID (mret tt)
                   (import_exchange CMD_WRITE_KEYBOX_MODEL_INFO data);
        mret (s32 result)
  end.

Definition ut_km_import_google_key (data : option bytes) : TM Z :=
  match data with
  | None => mret (-1)
  | Some data =>
      if zlen data =? 0 then mret (-1)
      else
        result ← with_session gptee context session KEYBOX_UUID (mret tt)
                   (import_exchange CMD_CA_IMPORT_KEYBOX data);
        mret (s32 result)
  end.

(** The properties that publish the state of the keys. *)
Definition publish_status (key_status : bytes) : TM Z :=
  if google_key_staus key_status =? KM_MAGIC then
    property_set GOOGLE_KEY_STATUS (cstr "ok");;
    (if model_len_ok (google_key_model_info_len key_status)
     then property_set GOOGLE_KEY_MODEL (c_string (google_key_model_info key_status))
     else property_set GOOGLE_KEY_MODEL (cstr "unknown"));;
    mret 0
  else
    property_set GOOGLE_KEY_STATUS (cstr "fail");;
    property_set GOOGLE_KEY_MODEL (cstr "fail");;
    mret (u32 (-1)).

Definition check_exchange : TM Z :=
  '(result, m) ← TEEC_AllocateSharedMemory (Some context) (Some (local_shm sizeof_key_status TEEC_MEM_OUTPUT));
  outputSM ← deref m;
  if negb (result =? TEEC_SUCCESS) || is_null (shm_buffer outputSM) then mret result
  else
    store (shm_buffer outputSM) 0 (replicate (Z.to_nat sizeof_key_status) 0);;
    '(result, _, op) ← TEEC_InvokeCommand (Some session) CMD_TA_GET_KEYBOX_STATUS
                         (Some (keybox_op TEEC_MEMREF_PARTIAL_OUTPUT outputSM sizeof_key_status));
    result ← (if negb (result =? TEEC_SUCCESS) then mret result
              else
                result ← value0 op;
                if negb (result =? 0) then mret (u32 (-1))
                else
                  key_status ← load (shm_buffer outputSM) 0 sizeof_key_status;
                  publish_status key_status);
    TEEC_ReleaseSharedMemory (Some outputSM);;
    mret result.

Definition ut_km_check_google_key : TM Z :=
  property_set GOOGLE_KEY_STATUS (cstr "fail");;
  property_set GOOGLE_KEY_MODEL (cstr "fail");;
  result ← with_session gptee context session KEYBOX_UUID (mret tt) check_exchange;
  mret (s32 result).

(** [property_get(key, value, NULL)]: the value without its terminator, empty
    when there is none; Android values have at most [PROP_VALUE_MAX - 1] bytes. *)
Definition property_get (key : bytes) : TM bytes :=
  r ← sys (Lib_property_get key);
  mret (take (Z.to_nat (PROP_VALUE_MAX - 1)) (c_string (sr_data r))).

Definition ut_km_import_google_key_and_model (data : option bytes) : TM Z :=
  match data with
  | None => mret (-1)
  | Some d =>
      if zlen d =? 0 then mret (-1)
      else
        ret ← ut_km_import_google_key data;
        if negb (ret =? 0) then
          property_set GOOGLE_KEY_STATUS (cstr "fail");;
          mret ret
        else
          property_value ← property_get ATTESTKEY_MODEL_INFO_PROPERTY;
          if 0 <? zlen property_value then
            let len := zlen property_value in
            let model := if len <? TEE_PROP_VALUE_MAX then property_value
                         else slice 0 (TEE_PROP_VALUE_MAX - 1) property_value in
            ret ← ut_km_import_google_key_model (Some model);
            if negb (ret =? 0) then mret ret
            else
              property_set GOOGLE_KEY_STATUS (cstr "ok");;
              property_set GOOGLE_KEY_MODEL model;;
              mret ret
          else mret (-2)
  end.
End Tac.

(** ** ut_km_ioctl.cpp: the module's buffer *)

Definition KEYMASTER_MAX_BUFFER_LENGTH := 1024 * 70.

Record kmsk_st := KmskSt { ks_teec : teec_st; keymaster_buffer : option bytes }.
Definition set_teec t g := KmskSt t (keymaster_buffer g).
Definition set_buffer b g := KmskSt (ks_teec g) b.

(** kmsetkey_error_t *)
Definition KMSK_ERROR_OK := 0.
Definition KMSK_ERROR_UNEXPECTED_NULL_POINTER := -1.
Definition KMSK_ERROR_MEMORY_ALLOCATION_FAILED := -2.
Definition KMSK_ERROR_RESPONSE_ERROR := -3.
Definition KMSK_ERROR_INVOKE_COMMAND_FAILED := -4.
Definition KMSK_ERROR_UNKNOWN_ERROR := -1000.

(** ut_message_t: command, response, a flag and the length of the keybox. *)
Definition sizeof_ut_message := 16.
Definition ut_message_enc (commandId attest_keybox_len : Z) : bytes :=
  le_enc 4 commandId ++ le_enc 4 0 ++ le_enc 4 0 ++ le_enc 4 attest_keybox_len.
Definition response_error (b : bytes) : Z := get_s32 b 4.

(** kmsetkey_t *)
Definition sizeof_kmsetkey := 32.
Definition kmsetkey_enc (all_len peakb_len inputpkb_len ekkb_pub_len : Z) : bytes :=
  le_enc 4 all_len ++ le_enc 4 peakb_len ++ le_enc 4 inputpkb_len ++ le_enc 4 ekkb_pub_len
  ++ replicate 16 0.

(** The two built-in keys. *)
Definition input_ekkb_pub : bytes := [
    84; 203; 205; 179; 255; 205; 204; 221; 163; 255; 93; 48; 149; 3; 45; 42;
    42; 18; 230; 144; 11; 63; 247; 133; 229; 179; 221; 142; 75; 39; 157; 88;
    200; 36; 122; 176; 131; 139; 177; 212; 164; 146; 23; 14; 242; 207; 25; 154;
    171; 206; 251; 104; 203; 134; 148; 110; 22; 142; 61; 204; 248; 12; 166; 48;
    28; 71; 166; 182; 80; 47; 104; 148; 35; 12; 98; 175; 225; 68; 164; 39;
    216; 121; 5; 104; 81; 137; 4; 73; 97; 147; 122; 239; 181; 185; 23; 114;
    40; 135; 186; 148; 74; 184; 241; 70; 207; 231; 83; 10; 2; 90; 238; 89;
    71; 190; 194; 65; 152; 217; 91; 23; 175; 16; 11; 224; 146; 186; 101; 48;
    99; 118; 148; 42; 38; 125; 63; 148; 46; 159; 6; 184; 211; 176; 118; 233;
    189; 186; 7; 110; 225; 61; 31; 198; 219; 127; 52; 193; 180; 237; 139; 0;
    54; 174; 30; 187; 101; 129; 56; 148; 119; 226; 78; 92; 193; 159; 147; 45;
    41; 163; 48; 41; 247; 236; 252; 204; 135; 63; 250; 9; 173; 30; 229; 175;
    78; 207; 14; 68; 140; 227; 191; 141; 91; 235; 214; 160; 234; 198; 191; 177;
    86; 213; 201; 230; 184; 225; 185; 148; 133; 173; 56; 56; 221; 226; 87; 204;
    254; 237; 240; 42; 16; 182; 142; 60; 162; 77; 151; 96; 62; 236; 146; 226;
    193; 114; 182; 56; 226; 192; 168; 202; 214; 235; 12; 53; 233; 62; 141; 145].

Definition inputpkb : bytes := [
    5; 20; 36; 20; 47; 225; 252; 97; 177; 11; 151; 175; 92; 102; 176; 246;
    21; 38; 246; 28; 150; 200; 186; 150; 119; 213; 78; 251; 164; 145; 253; 251;
    22; 51; 237; 110; 204; 65; 15; 207; 194; 148; 194; 100; 28; 250; 18; 102;
    4; 227; 76; 240; 180; 95; 21; 75; 219; 244; 41; 31; 152; 211; 245; 78;
    168; 210; 161; 14; 139; 89; 191; 23; 222; 183; 167; 80; 2; 47; 20; 156;
    122; 229; 36; 109; 14; 159; 222; 69; 77; 106; 117; 6; 179; 218; 136; 134;
    141; 166; 17; 67; 168; 23; 169; 111; 112; 39; 1; 218; 250; 175; 246; 168;
    71; 236; 239; 41; 102; 78; 168; 124; 153; 250; 64; 184; 212; 138; 44; 177].

Section Module.
Context {W : Type} `{K : Kernel W}.
Abbreviation KM := (M W kmsk_st).
Context (gptee : bool) (context session : Z) (shm_init : TEEC_SharedMemory).

Definition tee {A} (m : M W teec_st A) : KM A := zoom ks_teec set_teec m.

Definition TEE_Alloc_KM_Buffer_And_Reset : KM Z :=
  b ← gets keymaster_buffer;
  ok ← (match b with None => malloc KEYMASTER_MAX_BUFFER_LENGTH | Some _ => mret true end);
  if negb ok then mret (-1)
  else
    modify (set_buffer (Some (replicate (Z.to_nat KEYMASTER_MAX_BUFFER_LENGTH) 0)));;
    mret 0.

Definition TEE_Free_KM_Buffer : KM unit :=
  b ← gets keymaster_buffer;
  match b with
  | Some _ => free;; modify (set_buffer None)
  | None => mret tt
  end.

(** [memcpy(keymaster_buffer + off, data, n)]: the buffer has its fixed size. *)
Definition buffer_put (off : Z) (data : bytes) : KM unit :=
  b ← gets keymaster_buffer;
  match b with
  | Some d => if off + zlen data <=? zlen d then modify (set_buffer (Some (splice d off data)))
              else halt Undefined
  | None => halt Undefined
  end.
Definition buffer_get (off len : Z) : KM bytes :=
  b ← gets keymaster_buffer;
  match b with
  | Some d => if off + len <=? zlen d then mret (slice off len d) else halt Undefined
  | None => halt Undefined
  end.

(** Message header, kmsetkey_t, key block, the two keys. *)
Definition pack_keybox (all_len peakb_len : Z) (peakb : bytes) : KM unit :=
  buffer_put 0 (ut_message_enc CMD_ID_TEE_REE_IMPORT_KEYBOX all_len);;
  let p := sizeof_ut_message in
  buffer_put p (kmsetkey_enc all_len peakb_len (zlen inputpkb) (zlen input_ekkb_pub));;
  let p := p + sizeof_kmsetkey in
  buffer_put p peakb;;
  let p := p + peakb_len in
  buffer_put p inputpkb;;
  let p := p + zlen inputpkb in
  buffer_put p input_ekkb_pub.

Definition ut_ree_import_attest_keybox (peakb : option bytes) : KM Z :=
  match peakb with
  | None => mret KMSK_ERROR_UNEXPECTED_NULL_POINTER
  | Some peakb =>
      r ← TEE_Alloc_KM_Buffer_And_Reset;
      if negb (r =? 0) then mret KMSK_ERROR_MEMORY_ALLOCATION_FAILED
      else
        let peakb_len := u32 (zlen peakb) in
        let all_len := u32 (peakb_len + zlen inputpkb + zlen input_ekkb_pub + sizeof_kmsetkey) in
        if negb (zlen inputpkb =? 128) || negb (zlen input_ekkb_pub =? 256)
        then mret KMSK_ERROR_UNKNOWN_ERROR
        else
          pack_keybox all_len peakb_len peakb;;
          data ← buffer_get sizeof_ut_message all_len;
          retVal ← tee (ut_km_import_google_key_and_model gptee context session shm_init (Some data));
          if negb (retVal =? 0) then mret KMSK_ERROR_INVOKE_COMMAND_FAILED
          else
            kmstr_msg ← buffer_get 0 sizeof_ut_message;
            if negb (response_error kmstr_msg =? KMSK_ERROR_OK) then mret KMSK_ERROR_RESPONSE_ERROR
            else mret KMSK_ERROR_OK
  end.

Definition ut_ree_check_attest_keybox : KM Z :=
  r ← TEE_Alloc_KM_Buffer_And_Reset;
  if negb (r =? 0) then mret KMSK_ERROR_MEMORY_ALLOCATION_FAILED
  else
    retVal ← tee (ut_km_check_google_key gptee context session shm_init);
    if negb (retVal =? 0) then mret KMSK_ERROR_INVOKE_COMMAND_FAILED else mret KMSK_ERROR_OK.

Definition ut_kmsetkey_close : KM Z := TEE_Free_KM_Buffer;; free;; mret 0.

(** [module_ok]: tag, versions and name of the module are this module's.  The
    result of [malloc] is written to without a check. *)
Definition ut_kmsetkey_open (sizeof_device : Z) (module_ok : bool) (name : option bytes) : KM Z :=
  match name with
  | None => mret (- EINVAL)
  | Some _ =>
      if negb module_ok then mret (- EINVAL)
      else
        ok ← malloc sizeof_device;
        if negb ok then halt Undefined else mret 0
  end.

(** ** kmsetkey_ca.cpp *)

Definition KB_SIZE := 16384.
Definition HARDWARE_KMSETKEY : bytes := cstr "kmsetkey".

(** The option letter of [argv[1]]: import, check or neither. *)
Definition ca_mode (arg : bytes) : option bool :=
  match arg with
  | 45 :: c :: _ =>
      if (c =? 105) || (c =? 73) then Some true
      else if (c =? 99) || (c =? 67) then Some false else None
  | _ => None
  end.

(** Reading the keybox file: the bytes, or the status to exit with.  The stream
    is closed on every path. *)
Definition read_keybox (path : bytes) : KM (Z + bytes) :=
  fin ← sys (Sys_open path O_RDONLY 0);
  if sr_ret fin <? 0 then mret (inl (-2))
  else
    t ← sys (Lib_extern (cstr "tellg"));
    let kb_len := u32 (sr_ret t) in
    if (kb_len =? 0) || (KB_SIZE <? kb_len) then
      sys (Sys_close (sr_ret fin));; mret (inl (-3))
    else
      r ← sys (Sys_read (sr_ret fin) kb_len);
      sys (Sys_close (sr_ret fin));;
      mret (inr (copy_out (replicate (Z.to_nat kb_len) 0) (sr_data r))).

(** [dlclose(module->dso)] *)
Definition dlclose : KM unit := sys (Lib_extern (cstr "dlclose"));; mret tt.

(** From loading the module on; [import] holds the keybox to import. *)
Definition ca_run (sizeof_device : Z) (module_ok : bool) (import : option bytes) : KM Z :=
  r ← sys (Lib_extern (cstr "hw_get_module_by_class"));
  if negb (sr_ret r =? 0) then mret (-4)
  else
    ret ← ut_kmsetkey_open sizeof_device module_ok (Some HARDWARE_KMSETKEY);
    if negb (ret =? 0) then dlclose;; mret (-5)
    else
      ret ← (match import with
             | Some kb => ut_ree_import_attest_keybox (Some kb)
             | None => ut_ree_check_attest_keybox
             end);
      if negb (ret =? 0) then dlclose;; mret (-7)
      else
        ret ← ut_kmsetkey_close;
        dlclose;;
        mret ret.

Definition ca_main (sizeof_device : Z) (module_ok : bool) (argv : list bytes) : KM Z :=
  match argv with
  | _ :: arg :: rest =>
      match ca_mode arg with
      | None => mret (-1)
      | Some true =>
          match rest with
          | [path] =>
              kb ← read_keybox path;
              match kb with
              | inl ret => mret ret
              | inr kb => ca_run sizeof_device module_ok (Some kb)
              end
          | _ => mret (-1)
          end
      | Some false => ca_run sizeof_device module_ok None
      end
  | _ => mret (-1)
  end.
End Module.
