(* ===== verification/Kmsetkey400Spec.v ===== *)
(** * What the 400 key installation achieves

    The exchanges with the keybox application call by call, the import of a
    keybox with its model name, and the module's packing of the key block. *)

From S2P Require Import Prelude Kernel Libtrusty Teec TeecMemory TeecOps TeecSession TeecContext TeecFrames TeecDirect TeecInout TeecClient TeecCalls Kmsetkey400.

(** ** The keybox application *)

(** The request: value 0 is an output, memory reference 1 the [n] bytes of
    block [id] in direction [dir]. *)
Definition keybox_frame (cmd sid dir n id : Z) : bytes :=
  invoke_enc cmd sid [value_param TEEC_VALUE_OUTPUT 0 0; memref_param dir 0 n id; param0; param0].

(** The application accepted [cmd] with the bytes [data]: they were stored in
    the block, the command was invoked, and both the call and the application's
    own verdict (value 0) are success. *)
Definition keybox_took (fd sid cmd : Z) (data : bytes) (evs : list event) : Prop :=
  exists a id pre rs r1 r2 r post,
    let frame := keybox_frame cmd sid TEE_IOCTL_PARAM_ATTR_TYPE_MEMREF_INPUT (zlen data) id in
    let answer := copy_out frame (sr_data r) in
    evs = pre ++ [Ev (Mem_store a data) rs; Ev Lib_mutex_lock r1; Ev Lib_mutex_unlock r2;
                  Ev (Sys_ioctl fd TEE_IOC_INVOKE (Arg_buf frame)) r] ++ post /\
    sr_ret r = 0 /\ get_u32 answer 12 = TEEC_SUCCESS /\ u32 (get_u64 answer 32) = 0.

(** An invocation that went through, with success in the answer and in the
    application's own verdict. *)
Definition accepts (e : event) : bool :=
  match ev_call e with
  | Sys_ioctl _ req (Arg_buf frame) =>
      let answer := copy_out frame (sr_data (ev_res e)) in
      (req =? TEE_IOC_INVOKE) && (sr_ret (ev_res e) =? 0) && (get_u32 answer 12 =? TEEC_SUCCESS)
      && (u32 (get_u64 answer 32) =? 0)
  | _ => false
  end.
Definition refused (evs : list event) : Prop := Forall (fun e => accepts e = false) evs.

Lemma quiet_refused e : quiet_call (ev_call e) = true -> accepts e = false.
Proof.
  unfold accepts, quiet_call. destruct (ev_call e) eqn:E; try done. destruct arg; try done.
  cbn. intros H. apply negb_true_iff in H. by rewrite H.
Qed.

Section Keybox.
Context {W : Type} `{K : Kernel W}.
Context (context session : Z) (shm_init : TEEC_SharedMemory).
Implicit Types s : proc W teec_st.

Lemma keybox_slots ty a n flags id fd :
  ty = 13 \/ ty = 14 -> Z.land flags (ty - 12) = ty - 12 ->
  Forall (fun tp => direct tp.1 tp.2) (slots (keybox_op ty (mapped a n flags id fd) n)) /\
  forall cmd sid, direct_frame cmd sid (keybox_op ty (mapped a n flags id fd) n)
    = keybox_frame cmd sid (ty - 8) n id.
Proof.
  intros Hty Hf. split; [|by destruct Hty as [->| ->]].
  assert (is_partial ty = true) as Hp by (by destruct Hty as [->| ->]).
  assert (slots (keybox_op ty (mapped a n flags id fd) n) = [(2, zero_param);
    (ty, MkParameter (Tmpref PNull 0) (Memref (Some (mapped a n flags id fd)) n 0) (Value 0 0));
    (0, zero_param); (0, zero_param)]) as -> by (by destruct Hty as [->| ->]).
  apply Forall_cons; split; [by left|]. apply Forall_cons; split; [right; split; [done|by eexists]|].
  do 2 (apply Forall_cons; split; [by left|]). constructor.
Qed.

(** The application's verdict, as value 0 of the answer. *)
Lemma value0_answer ty a n flags id fd op' buf Φ s :
  ty = 13 \/ ty = 14 ->
  op_params op' = zip_with (fun tp prm => direct_result tp.1 tp.2 prm)
    (slots (keybox_op ty (mapped a n flags id fd) n)) (params_dec sizeof_invoke_arg buf) ->
  Φ (Ret (u32 (get_u64 buf 32))) s -> wp (value0 (Some op')) Φ s.
Proof.
  intros Hty Hop HΦ. unfold value0. apply wp_bind, wp_ret. rewrite Hop.
  replace (get_u64 buf 32) with (w0 (param_dec (slice 24 32 buf))) in HΦ.
  - destruct Hty as [->| ->]; apply wp_bind, wp_ret, wp_ret; exact HΦ.
  - cbn [param_dec w0]. unfold get_u64. by rewrite slice_slice by lia.
Qed.

(** The work of an import. *)
Lemma import_exchange_spec cmd data fd sid s :
  sessions (globals s) !! session = Some (Session context sid) ->
  contexts (globals s) !! context = Some fd ->
  wp (import_exchange context session shm_init cmd data) (fun o s' => exists res evs, o = Ret res /\ is_u32 res /\
    frame (globals s) (globals s') /\ trace s' = trace s ++ evs /\ Forall no_fd evs /\
    blocks (globals s') = blocks (globals s) /\
    (res = TEEC_SUCCESS -> keybox_took fd sid cmd data evs) /\ (res <> TEEC_SUCCESS -> refused evs)) s.
Proof.
  intros Hs Hc. unfold import_exchange. apply wp_bind. eapply allocate_exact; [exact Hc|done| |].
  { intros r w. apply wp_bind, wp_ret. cbn [negb orb Z.eqb Pos.eqb TEEC_SUCCESS TEEC_ERROR_OUT_OF_MEMORY]. apply wp_ret.
    eexists _, [_]. split; [done|]. split; [done|]. split_and!; [done|done|by repeat constructor|done|done|by repeat constructor]. }
  intros rm ri s1 Hg1 Ht1. cbn [shm_size shm_flags local_shm] in *. set (sm := mapped _ _ _ _ _).
  apply wp_bind, wp_ret. cbn [negb orb Z.eqb TEEC_SUCCESS is_null shm_buffer mapped sm].
  apply wp_bind. cbn [store]. rewrite Z.add_0_r. apply wp_bind. apply wp_sys; intros r0 w0 _.
  apply wp_ret, wp_bind, wp_bind. apply wp_sys; intros rs ws _. apply wp_ret, wp_bind.
  destruct (keybox_slots 13 (sr_ret rm) (zlen data) TEEC_MEM_INPUT (shm_id_of ri) fd (or_introl eq_refl) eq_refl)
    as [Hsl Hfr].
  eapply wp_mono; [apply (invoke_direct session cmd _ (Session context sid) fd); cbn [globals after]; rewrite ?Hg1; done|].
  intros o s2 (r1 & r2 & r & res & eorig & op' & -> & Hg2 & Ht2 & _ & Hbad & Hok).
  rewrite Hfr in Ht2, Hok. change (13 - 8) with 5 in Ht2, Hok. cbn [session_id] in Ht2, Hok. cbn zeta in Hok.
  set (tail := fun post => [Ev (Sys_mmap (region_size (zlen data)) fd) rm;
    Ev (Sys_ioctl fd TEE_IOC_SHM_ID (Arg_int (sr_ret rm))) ri;
    Ev (Mem_store (sr_ret rm) (replicate (length data) 0)) r0] ++
   [Ev (Mem_store (sr_ret rm) data) rs; Ev Lib_mutex_lock r1; Ev Lib_mutex_unlock r2;
    Ev (Sys_ioctl fd TEE_IOC_INVOKE (Arg_buf (keybox_frame cmd sid 5 (zlen data) (shm_id_of ri)))) r] ++ post).
  assert (forall v, is_u32 v -> (v = TEEC_SUCCESS -> forall post, keybox_took fd sid cmd data (tail post)) ->
    (v <> TEEC_SUCCESS -> accepts (Ev (Sys_ioctl fd TEE_IOC_INVOKE (Arg_buf (keybox_frame cmd sid 5 (zlen data) (shm_id_of ri)))) r) = false) ->
    wp (TEEC_ReleaseSharedMemory (Some sm);; mret v) (fun o s' => exists res evs, o = Ret res /\ is_u32 res /\
    frame (globals s) (globals s') /\ trace s' = trace s ++ evs /\ Forall no_fd evs /\
    blocks (globals s') = blocks (globals s) /\
    (res = TEEC_SUCCESS -> keybox_took fd sid cmd data evs) /\ (res <> TEEC_SUCCESS -> refused evs)) s2) as Hrel.
  { intros v Hu Hv Hbadv. apply wp_bind. eapply wp_mono; [eapply (wp_and _ _ (fun _ s' => by_calls quiet_call s2 s'));
      [apply release_mapped|apply by_calls_release; auto]|].
    intros o s3 [(m & post & -> & Hg3 & Ht3 & Hno) (post' & Hq1 & Hq2)].
    rewrite Ht3 in Hq1. apply app_inv_head in Hq1 as <-. apply wp_ret. exists v, (tail post).
    rewrite Hg3, Hg2. cbn [globals after]. rewrite Hg1. split; [done|]. split; [done|].
    split_and!; [done|rewrite Ht3, Ht2; simpl; rewrite Ht1; by rewrite <- !app_assoc| |done|auto|].
    - repeat (constructor; [done|]). done.
    - intros Hne. unfold tail. do 6 (constructor; [done|]). constructor; [by apply Hbadv|].
      eapply Forall_impl; [exact Hq2|]. intros e. apply quiet_refused. }
  apply wp_bind. destruct (Z.eqb_spec res TEEC_SUCCESS) as [->|Hres]; cbn [negb].
  2:{ apply wp_ret, Hrel; [|done|].
      - destruct (Z.eq_dec (sr_ret r) 0) as [E|Hne]; [|by destruct (Hbad Hne) as [-> | ->]].
        destruct (Hok E) as [-> _]. apply get_u32_range, copy_out_bytes, invoke_enc_bytes.
      - intros _. unfold accepts. cbn [ev_call ev_res]. destruct (Z.eqb_spec (sr_ret r) 0) as [E|]; [|by rewrite andb_false_r].
        destruct (Hok E) as [-> _]. apply Z.eqb_neq in Hres. by rewrite Hres, andb_false_r. }
  assert (sr_ret r = 0) as Hr by (destruct (Z.eq_dec (sr_ret r) 0) as [|Hne]; [done|by destruct (Hbad Hne)]).
  destruct (Hok Hr) as [Hres Hop]. eapply value0_answer; [by left|exact Hop|].
  apply Hrel; [apply u32_range| |intros Hne; unfold accepts; cbn [ev_call ev_res]; apply Z.eqb_neq in Hne; unfold TEEC_SUCCESS in Hne; by rewrite Hne, andb_false_r].
  intros Hv post. exists (sr_ret rm), (shm_id_of ri). do 5 eexists. exists post. by split_and!.
Qed.
End Keybox.

(** ** Imports *)

(** In the calls [evs] a session of the keybox application was opened and the
    application accepted [cmd] with [data]. *)
Definition keybox_accepted (cmd : Z) (data : bytes) (evs : list event) : Prop :=
  exists fd sid pre work post r, evs = pre ++ work ++ post /\
    last pre = Some (Ev (Sys_ioctl fd TEE_IOC_OPEN_SESSION
      (Arg_buf (open_session_enc (uuid_to_octets KEYBOX_UUID) TEEC_LOGIN_PUBLIC (replicate 4 param0)))) r) /\
    keybox_took fd sid cmd data work.

Section Imports.
Context {W : Type} `{K : Kernel W}.
Context (gptee : bool) (context session : Z) (shm_init : TEEC_SharedMemory).
Implicit Types s : proc W teec_st.
Abbreviation fresh := (fresh_locals context session).

Lemma import_session_spec cmd data s :
  fresh (globals s) ->
  wp (with_session gptee context session KEYBOX_UUID (mret tt) (import_exchange context session shm_init cmd data))
    (fun o s' => exists res evs, o = Ret res /\ is_u32 res /\ trace s' = trace s ++ evs /\ open_fds evs = [] /\
      restored (globals s) (globals s') (blocks (globals s)) /\
      (res = TEEC_SUCCESS -> keybox_accepted cmd data evs)) s.
Proof.
  intros Hf. eapply wp_mono; [apply (with_session_spec gptee context session KEYBOX_UUID _ _
    (fun fd sid s1 s2 res evs => blocks (globals s2) = blocks (globals s1) /\
      (res = TEEC_SUCCESS -> keybox_took fd sid cmd data evs))); [done|by repeat constructor|by left|]|].
  { intros s1 fd sid Hfd Hg. eapply wp_mono; [apply import_exchange_spec; rewrite ?Hg; simpl; apply lookup_insert_eq|].
    intros o s2 (res & evs & H1 & H2 & H3 & H4 & H5 & H6 & H7 & _). exists res, evs. by split_and!. }
  intros o s' (res & evs & -> & Hu & Ht & Ho & Hcase). exists res, evs. split; [done|]. split; [done|].
  destruct Hcase as [[Hres Hr]|(fd & sid & s1 & s2 & pre & work & post & r & -> & Hlast & Hg1 & [Hb2 Hx] & Hr)].
  - by split_and!.
  - rewrite Hb2, Hg1 in Hr. simpl in Hr. split_and!; try done.
    intros Hres. exists fd, sid, pre, work, post, r. by split_and!; try apply Hx.
Qed.

(** A failed import was refused, if it was made at all. *)
Lemma import_session_refused cmd data s :
  wp (with_session gptee context session KEYBOX_UUID (mret tt) (import_exchange context session shm_init cmd data))
    (fun o s' => forall res, o = Ret res -> exists evs, trace s' = trace s ++ evs /\ (res <> TEEC_SUCCESS -> refused evs)) s.
Proof.
  apply session_failure; [apply quiet_refused|by repeat constructor|]. intros s1 fd sid Hfd Hg.
  eapply wp_mono; [apply import_exchange_spec; rewrite ?Hg; simpl; apply lookup_insert_eq|].
  intros o s2 (res & evs & -> & _ & _ & Ht & _ & _ & _ & Href) res' [= <-]. by exists evs.
Qed.

(** What both imports do, with their command. *)
Definition imports (cmd : Z) (m : option bytes -> M W teec_st Z) : Prop :=
  forall data s, fresh (globals s) -> 1 <= zlen data ->
  wp (m (Some data)) (fun o s' => exists res evs, o = Ret res /\ trace s' = trace s ++ evs /\
    open_fds evs = [] /\ Forall (fun e => teec_call (ev_call e) = true) evs /\
    restored (globals s) (globals s') (blocks (globals s)) /\
    (res = 0 -> keybox_accepted cmd data evs) /\ (res <> 0 -> refused evs)) s.

Lemma import_exchange_calls cmd data : keeps by_teec (import_exchange context session shm_init cmd data).
Proof. unfold by_teec, import_exchange, value0. keeps_go. Qed.

(** The calls of a run are those of its final trace. *)
Lemma by_teec_calls s s' evs : by_teec s s' -> trace s' = trace s ++ evs ->
  Forall (fun e => teec_call (ev_call e) = true) evs.
Proof. intros (evs' & Ht' & Hc) Ht. rewrite Ht in Ht'. by apply app_inv_head in Ht' as ->. Qed.

Lemma import_result cmd data s :
  fresh (globals s) ->
  wp (result ← with_session gptee context session KEYBOX_UUID (mret tt) (import_exchange context session shm_init cmd data);
      mret (s32 result))
    (fun o s' => exists res evs, o = Ret res /\ trace s' = trace s ++ evs /\
      open_fds evs = [] /\ Forall (fun e => teec_call (ev_call e) = true) evs /\
      restored (globals s) (globals s') (blocks (globals s)) /\ (res = 0 -> keybox_accepted cmd data evs) /\ (res <> 0 -> refused evs)) s.
Proof.
  intros Hf. pose proof (by_teec_session gptee context session KEYBOX_UUID _ (import_exchange_calls cmd data) s) as Hk.
  apply wp_bind. eapply wp_mono; [eapply wp_and; [eapply (wp_and _ _ (fun _ s' => by_teec s s')); [by apply import_session_spec|exact Hk]
    |apply import_session_refused]|].
  intros o s' [[(res & evs & -> & Hu & Ht & Ho & Hr & Hok) Hb] Href]. apply wp_ret. exists (s32 res), evs.
  destruct (Href res eq_refl) as (evs' & Ht' & Hbad). rewrite Ht in Ht'. apply app_inv_head in Ht' as <-.
  split_and!; try done; [by eapply by_teec_calls|intros H0; by apply Hok, s32_zero|]. intros H0. apply Hbad. by intros ->.
Qed.

Lemma import_key_spec : imports CMD_CA_IMPORT_KEYBOX (ut_km_import_google_key gptee context session shm_init).
Proof.
  intros data s Hf Hl. unfold ut_km_import_google_key. replace (zlen data =? 0) with false by lia.
  by apply import_result.
Qed.

Lemma import_model_spec : imports CMD_WRITE_KEYBOX_MODEL_INFO (ut_km_import_google_key_model gptee context session shm_init).
Proof.
  intros data s Hf Hl. unfold ut_km_import_google_key_model. replace (zlen data =? 0) with false by lia.
  by apply import_result.
Qed.

(** ** Keybox and model name *)

(** The model name installed for a device property [v]. *)
Definition model_name (v : bytes) : bytes := take 83 (c_string v).

(** The keybox was installed: accepted with the command for keyboxes, then the
    name of the device as model name with the command for that. *)
Definition installed (data : bytes) (e1 : list event) (r : sysret) (e2 : list event) : Prop :=
  keybox_accepted CMD_CA_IMPORT_KEYBOX data e1 /\
  keybox_accepted CMD_WRITE_KEYBOX_MODEL_INFO (model_name (sr_data r)) e2.

(** How the import ends: what is published is the truth, and a failure means
    that the keybox or the model name was not accepted. *)
Definition install_script (data : bytes) (res : Z) (evs : list event) : Prop :=
  let get r := Ev (Lib_property_get ATTESTKEY_MODEL_INFO_PROPERTY) r in
  let set k v r := Ev (Lib_property_set k v) r in
  exists e1, Forall (fun e => teec_call (ev_call e) = true) e1 /\
  ((res <> 0 /\ refused e1 /\ exists r1, evs = e1 ++ [set GOOGLE_KEY_STATUS (cstr "fail") r1]) \/
   (exists r e2, Forall (fun e => teec_call (ev_call e) = true) e2 /\
      ((res <> 0 /\ keybox_accepted CMD_CA_IMPORT_KEYBOX data e1 /\ refused e2 /\ evs = e1 ++ get r :: e2) \/
       (res = 0 /\ installed data e1 r e2 /\ exists r1 r2,
          evs = e1 ++ get r :: e2 ++ [set GOOGLE_KEY_STATUS (cstr "ok") r1;
                                      set GOOGLE_KEY_MODEL (model_name (sr_data r)) r2])))).

Lemma model_cut v : let len := zlen v in
  (if len <? TEE_PROP_VALUE_MAX then v else slice 0 (TEE_PROP_VALUE_MAX - 1) v) = take 83 v.
Proof.
  cbn zeta. unfold TEE_PROP_VALUE_MAX, zlen. destruct (Z.ltb_spec (Z.of_nat (length v)) 84); [|reflexivity].
  by rewrite take_ge by lia.
Qed.

Lemma import_and_model_spec data s :
  fresh (globals s) -> 1 <= zlen data ->
  wp (ut_km_import_google_key_and_model gptee context session shm_init (Some data)) (fun o s' =>
    exists res evs, o = Ret res /\ trace s' = trace s ++ evs /\ open_fds evs = [] /\
      restored (globals s) (globals s') (blocks (globals s)) /\ install_script data res evs) s.
Proof.
  intros Hf Hl. unfold ut_km_import_google_key_and_model. replace (zlen data =? 0) with false by lia.
  apply wp_bind. eapply wp_mono; [by apply import_key_spec|].
  intros o s1 (res1 & e1 & -> & Ht1 & Ho1 & Hc1 & Hr1 & Hok1 & Hno1). apply wp_if; intros Hres1.
  { apply wp_bind, wp_bind. apply wp_sys; intros r w _. apply wp_ret, wp_ret. eexists res1, (e1 ++ [_]).
    split_and!; [done|cbn [trace after]; by rewrite Ht1, <- app_assoc| |done|].
    - by rewrite open_fds_quiet by (by repeat constructor).
    - exists e1. split; [done|]. left. split_and!; [lia|apply Hno1; lia|by exists r]. }
  assert (res1 = 0) as -> by lia. specialize (Hok1 eq_refl).
  apply wp_bind. unfold property_get. apply wp_bind. apply wp_sys; intros r w _. apply wp_ret.
  set (s2 := after _ _ r w). set (ev := Ev (Lib_property_get ATTESTKEY_MODEL_INFO_PROPERTY) r).
  assert (trace s2 = trace s ++ e1 ++ [ev]) as Ht2 by (cbn [trace s2 after]; by rewrite Ht1, <- app_assoc).
  set (v := take (Z.to_nat (PROP_VALUE_MAX - 1)) (c_string (sr_data r))).
  assert (take 83 v = model_name (sr_data r)) as Hv by (unfold v, model_name; rewrite take_take; reflexivity).
  apply wp_if; intros Hlen.
  2:{ apply wp_ret. exists (-2), (e1 ++ [ev]). split_and!; [done|done| |done|].
      - by rewrite open_fds_quiet by (by repeat constructor).
      - exists e1. split; [done|]. right. exists r, []. split; [done|]. left. by split_and!; [|done|constructor|]. }
  rewrite model_cut, Hv. apply wp_bind. eapply wp_mono; [apply import_model_spec|].
  { by eapply fresh_restored. }
  { rewrite <- Hv. unfold zlen in *. rewrite length_take. lia. }
  intros o s3 (res3 & e3 & -> & Ht3 & Ho3 & Hc3 & Hr3 & Hok3 & Hno3). pose proof (restored_trans _ _ _ _ _ Hr1 Hr3) as Hr13.
  change (blocks (globals s2)) with (blocks (globals s1)) in Hr13. destruct Hr1 as (_ & _ & Hb1 & _). rewrite Hb1 in Hr13.
  assert (trace s3 = trace s ++ e1 ++ ev :: e3) as Ht by (rewrite Ht3, Ht2, <- !app_assoc; done).
  assert (open_fds (e1 ++ ev :: e3) = []) as Ho.
  { change (ev :: e3) with ([ev] ++ e3). rewrite !open_fds_app, Ho1, Ho3. done. }
  apply wp_if; intros Hres3.
  { apply wp_ret. exists res3, (e1 ++ ev :: e3). split_and!; try done. exists e1. split; [done|]. right.
    exists r, e3. split; [done|]. left. split_and!; [lia|done|apply Hno3; lia|done]. }
  apply wp_bind, wp_bind. apply wp_sys; intros r4 w4 _. apply wp_ret, wp_bind, wp_bind. apply wp_sys; intros r5 w5 _.
  apply wp_ret, wp_ret. assert (res3 = 0) as -> by lia. eexists 0, ((e1 ++ ev :: e3) ++ [_; _]).
  split_and!; [done|cbn [trace after]; rewrite Ht, <- !app_assoc; reflexivity| |done|].
  - by rewrite open_fds_quiet by (by repeat constructor).
  - exists e1. split; [done|]. right. exists r, e3. split; [done|]. right. split; [done|]. split; [by split; [|apply Hok3]|].
    exists r4, r5. by rewrite <- app_assoc.
Qed.
End Imports.
