(* ===== verification/Kmsetkey400Theorems.v ===== *)
(** * Theorems on the 400 key installation

    The module packs the key block, the keybox application gets exactly the
    packed block, and the state that is published is the one the application
    reported. *)

From S2P Require Import Prelude Kernel Libtrusty Teec TeecMemory TeecSession TeecContext TeecClient TeecCalls Kmsetkey400 Kmsetkey400Spec.

(** ** Packing the key block *)

Lemma pkb_len : zlen inputpkb = 128.
Proof. reflexivity. Qed.
Lemma ekkb_len : zlen input_ekkb_pub = 256.
Proof. reflexivity. Qed.
#[local] Opaque inputpkb input_ekkb_pub.

(** The block for the keybox application. *)
Definition key_block (peakb pkb ekkb : bytes) : bytes :=
  let all_len := zlen peakb + zlen pkb + zlen ekkb + sizeof_kmsetkey in
  kmsetkey_enc all_len (zlen peakb) (zlen pkb) (zlen ekkb) ++ peakb ++ pkb ++ ekkb.

(** The application's view of a block: the three parts at the lengths the
    header gives. *)
Definition parse_block (b : bytes) : bytes * bytes * bytes :=
  let n1 := get_u32 b 4 in
  let n2 := get_u32 b 8 in
  let n3 := get_u32 b 12 in
  (slice 32 n1 b, slice (32 + n1) n2 b, slice (32 + n1 + n2) n3 b).

(** The buffer starts with [p]. *)
Definition packed (b p : bytes) : Prop :=
  zlen b = KEYMASTER_MAX_BUFFER_LENGTH /\ slice 0 (zlen p) b = p.

Lemma zlen_replicate {A} n (x : A) : 0 <= n -> zlen (replicate (Z.to_nat n) x) = n.
Proof. intros Hn. unfold zlen. rewrite length_replicate. lia. Qed.

Lemma packed_app b p d :
  packed b p -> zlen p + zlen d <= KEYMASTER_MAX_BUFFER_LENGTH -> packed (splice b (zlen p) d) (p ++ d).
Proof.
  intros [Hl Hp] Hle. destruct (splice_part b (zlen p) d) as [Hl' Hs]; [apply zlen_nonneg|lia|].
  split; [lia|]. by rewrite zlen_app, Hs, Hp.
Qed.

Lemma packed_slice b p q : packed b (p ++ q) -> slice (zlen p) (zlen q) b = q.
Proof.
  intros [_ Hs]. pose proof (zlen_nonneg p). pose proof (zlen_nonneg q).
  rewrite zlen_app in Hs. rewrite <- (Z.add_0_l (zlen p)), <- (slice_slice 0 (zlen p + zlen q)), Hs by lia.
  rewrite slice_app_r by lia. by rewrite Z.sub_diag, slice_full.
Qed.

Section Module.
Context {W : Type} `{K : Kernel W}.
Context (gptee : bool) (context session : Z) (shm_init : TEEC_SharedMemory).
Implicit Types s : proc W kmsk_st.
Abbreviation fresh := (fresh_locals context session).

Lemma put_spec b p d (Q : outcome unit -> proc W kmsk_st -> Prop) off s :
  keymaster_buffer (globals s) = Some b -> packed b p -> off = zlen p ->
  zlen p + zlen d <= KEYMASTER_MAX_BUFFER_LENGTH ->
  (forall b', packed b' (p ++ d) ->
     Q (Ret tt) (Proc (set_buffer (Some b') (globals s)) (world s) (errno s) (trace s))) ->
  wp (buffer_put off d) Q s.
Proof.
  intros Hb Hp -> Hle HQ. unfold buffer_put. apply wp_bind, wp_gets. rewrite Hb.
  pose proof Hp as [Hl Hs]. replace (zlen p + zlen d <=? zlen b) with true by lia.
  apply wp_modify, HQ. by apply packed_app.
Qed.

Lemma get_spec b p d q (Q : outcome bytes -> proc W kmsk_st -> Prop) off len s :
  keymaster_buffer (globals s) = Some b -> packed b (p ++ d ++ q) -> off = zlen p -> len = zlen d ->
  zlen p + zlen d <= KEYMASTER_MAX_BUFFER_LENGTH -> Q (Ret d) s -> wp (buffer_get off len) Q s.
Proof.
  intros Hb Hp -> -> Hle HQ. unfold buffer_get. apply wp_bind, wp_gets. rewrite Hb.
  pose proof Hp as [Hl _]. replace (zlen p + zlen d <=? zlen b) with true by lia. apply wp_ret.
  assert (slice (zlen p) (zlen d) b = d) as ->; [|done].
  rewrite app_assoc in Hp. destruct Hp as [_ Hs].
  assert (packed b (p ++ d)) as Hp'; [|by apply packed_slice]. split; [done|].
  rewrite zlen_app in Hs. pose proof (zlen_nonneg q). pose proof (zlen_nonneg (p ++ d)).
  rewrite <- (Z.add_0_l 0), <- (slice_slice 0 (zlen (p ++ d) + zlen q)) by lia. rewrite Hs, slice_app_l by lia. apply slice_full.
Qed.

Definition only_malloc (c : syscall) : bool := match c with Lib_malloc _ => true | _ => false end.

Lemma reset_spec (Q : outcome Z -> proc W kmsk_st -> Prop) s :
  (forall w e evs g, Forall no_fd evs -> Forall (fun e => only_malloc (ev_call e) = true) evs -> ks_teec g = ks_teec (globals s) -> Q (Ret (-1)) (Proc g w e (trace s ++ evs))) ->
  (forall b w e evs, Forall no_fd evs -> Forall (fun e => only_malloc (ev_call e) = true) evs -> packed b [] ->
     Q (Ret 0) (Proc (set_buffer (Some b) (globals s)) w e (trace s ++ evs))) ->
  wp TEE_Alloc_KM_Buffer_And_Reset Q s.
Proof.
  intros Hfail Hok. unfold TEE_Alloc_KM_Buffer_And_Reset. apply wp_bind, wp_gets, wp_bind.
  assert (packed (replicate (Z.to_nat KEYMASTER_MAX_BUFFER_LENGTH) 0) []) as Hp.
  { split; [apply zlen_replicate; unfold KEYMASTER_MAX_BUFFER_LENGTH; lia|apply slice_0]. }
  destruct (keymaster_buffer (globals s)) eqn:E.
  - apply wp_ret, wp_bind, wp_modify, wp_ret. specialize (Hok _ (world s) (errno s) [] ltac:(constructor) ltac:(constructor) Hp).
    by rewrite app_nil_r in Hok.
  - unfold malloc. apply wp_bind. apply wp_sys; intros r w _. apply wp_ret.
    apply wp_if; intros Hr; [apply wp_ret, (Hfail _ _ [_]); [by repeat constructor..|done]|].
    apply wp_bind, wp_modify, wp_ret, (Hok _ _ _ [_]); [by repeat constructor..|done].
Qed.

(** Key blocks that fit the buffer behind the headers and the two keys. *)
Definition max_peakb := KEYMASTER_MAX_BUFFER_LENGTH - sizeof_ut_message - sizeof_kmsetkey - 128 - 256.

Lemma block_len peakb : zlen (key_block peakb inputpkb input_ekkb_pub) = zlen peakb + zlen inputpkb + zlen input_ekkb_pub + sizeof_kmsetkey.
Proof. unfold key_block, kmsetkey_enc. rewrite !zlen_app, !zlen_le_enc. change (zlen (replicate 16 0)) with 16. unfold sizeof_kmsetkey. lia. Qed.

Definition message_header (peakb : bytes) : bytes :=
  ut_message_enc CMD_ID_TEE_REE_IMPORT_KEYBOX (zlen (key_block peakb inputpkb input_ekkb_pub)).

Lemma pack_spec b0 peakb (Q : outcome unit -> proc W kmsk_st -> Prop) s :
  keymaster_buffer (globals s) = Some b0 -> packed b0 [] -> zlen peakb <= max_peakb ->
  (forall b, packed b (message_header peakb ++ key_block peakb inputpkb input_ekkb_pub) ->
     Q (Ret tt) (Proc (set_buffer (Some b) (globals s)) (world s) (errno s) (trace s))) ->
  wp (pack_keybox (zlen (key_block peakb inputpkb input_ekkb_pub)) (zlen peakb) peakb) Q s.
Proof.
  intros Hb0 Hp0 Hle HQ. unfold max_peakb, KEYMASTER_MAX_BUFFER_LENGTH, sizeof_ut_message, sizeof_kmsetkey in Hle.
  pose proof pkb_len. pose proof ekkb_len.
  pose proof (zlen_nonneg peakb) as Hnn. unfold pack_keybox. fold (message_header peakb).
  set (hd := message_header peakb) in *. set (km := kmsetkey_enc _ _ _ _).
  assert (zlen hd = 16) as Hhd by reflexivity. assert (zlen km = 32) as Hkm by reflexivity.
  assert (KEYMASTER_MAX_BUFFER_LENGTH = 71680) as Hmax by reflexivity.
  apply wp_bind, (put_spec b0 []); [done|done|done|rewrite Hhd, Hmax; done|].
  intros b1 Hp1. apply wp_bind, (put_spec b1 hd); [done|done|done|lia|].
  intros b2 Hp2. apply wp_bind, (put_spec b2 (hd ++ km)); [done|done|done|rewrite zlen_app; lia|].
  intros b3 Hp3. apply wp_bind, (put_spec b3 ((hd ++ km) ++ peakb)); [done|done| |rewrite !zlen_app; lia|].
  { rewrite !zlen_app, Hhd, Hkm. unfold sizeof_ut_message, sizeof_kmsetkey. lia. }
  intros b4 Hp4. apply (put_spec b4 (((hd ++ km) ++ peakb) ++ inputpkb)); [done|done| |rewrite !zlen_app; lia|].
  { rewrite !zlen_app, Hhd, Hkm. unfold sizeof_ut_message, sizeof_kmsetkey. lia. }
  intros b5 Hp5. apply HQ. unfold key_block. cbn zeta. rewrite <- block_len. fold km. by rewrite <- !app_assoc in Hp5.
Qed.

(** How the module's import ends. *)
Definition module_import (peakb : bytes) (rc : Z) (evs : list event) : Prop :=
  (rc = KMSK_ERROR_MEMORY_ALLOCATION_FAILED /\ Forall (fun e => only_malloc (ev_call e) = true) evs) \/
  exists pre res script, evs = pre ++ script /\ Forall (fun e => only_malloc (ev_call e) = true) pre /\
    install_script (key_block peakb inputpkb input_ekkb_pub) res script /\
    rc = if res =? 0 then KMSK_ERROR_OK else KMSK_ERROR_INVOKE_COMMAND_FAILED.

Lemma import_keybox_spec peakb s :
  fresh (ks_teec (globals s)) -> zlen peakb <= max_peakb ->
  wp (ut_ree_import_attest_keybox gptee context session shm_init (Some peakb)) (fun o s' =>
    exists rc evs, o = Ret rc /\ trace s' = trace s ++ evs /\ open_fds evs = [] /\ module_import peakb rc evs) s.
Proof.
  intros Hf Hle. unfold max_peakb, KEYMASTER_MAX_BUFFER_LENGTH, sizeof_ut_message, sizeof_kmsetkey in Hle.
  pose proof (zlen_nonneg peakb) as Hnn. unfold ut_ree_import_attest_keybox. apply wp_bind. apply reset_spec.
  { intros w e evs g Hno Hm Hg. apply wp_ret. exists KMSK_ERROR_MEMORY_ALLOCATION_FAILED, evs.
    split_and!; [done|done|by rewrite <- (app_nil_l evs), open_fds_quiet|by left]. }
  intros b0 w e pre Hno Hm Hp0. cbn [Z.eqb negb]. rewrite pkb_len, ekkb_len. cbn [Z.eqb Pos.eqb negb orb].
  rewrite (u32_small (zlen peakb)) by wide_lia. rewrite u32_small by (unfold sizeof_kmsetkey; wide_lia).
  assert (zlen peakb + 128 + 256 + sizeof_kmsetkey = zlen (key_block peakb inputpkb input_ekkb_pub)) as ->
    by (rewrite block_len, pkb_len, ekkb_len; done).
  assert (zlen (key_block peakb inputpkb input_ekkb_pub) <= 71664) as Hbl by (rewrite block_len, pkb_len, ekkb_len; unfold sizeof_kmsetkey; lia).
  apply wp_bind, (pack_spec b0); [done|done|done|]. intros b Hp. apply wp_bind.
  apply (get_spec b (message_header peakb) (key_block peakb inputpkb input_ekkb_pub) []); [done|by rewrite app_nil_r|done|done| |].
  { change (zlen (message_header peakb)) with 16. unfold KEYMASTER_MAX_BUFFER_LENGTH. lia. }
  apply wp_bind, wp_zoom. eapply wp_mono; [apply import_and_model_spec; [exact Hf|]|].
  { rewrite block_len, pkb_len. pose proof (zlen_nonneg input_ekkb_pub). unfold sizeof_kmsetkey. lia. }
  intros o t (res & script & -> & Ht & Ho & Hr & Hs). cbn [globals trace] in *.
  assert (forall rc, rc = (if res =? 0 then KMSK_ERROR_OK else KMSK_ERROR_INVOKE_COMMAND_FAILED) ->
    exists rc' evs, Ret rc = Ret rc' /\ trace t = trace s ++ evs /\ open_fds evs = [] /\ module_import peakb rc' evs) as Hfin.
  { intros rc Hrc. exists rc, (pre ++ script). split_and!; [done|by rewrite Ht, <- app_assoc| |].
    - by rewrite open_fds_no_fd.
    - right. by exists pre, res, script. }
  apply wp_if; intros Hres; [apply wp_ret, Hfin; by replace (res =? 0) with false by lia|].
  apply wp_bind. apply (get_spec b [] (message_header peakb) (key_block peakb inputpkb input_ekkb_pub)); [done|done|done|done|done|].
  change (response_error (message_header peakb)) with 0. apply wp_ret, Hfin. by replace (res =? 0) with true by lia.
Qed.
End Module.

(** *** Success is acceptance *)

(** The two parts are accepted, one before and one after the device was asked for its name. *)
Definition both_accepted (peakb : bytes) (evs : list event) : Prop :=
  exists e1 r e2 post, evs = e1 ++ Ev (Lib_property_get ATTESTKEY_MODEL_INFO_PROPERTY) r :: e2 ++ post /\
    keybox_accepted CMD_CA_IMPORT_KEYBOX (key_block peakb inputpkb input_ekkb_pub) e1 /\
    keybox_accepted CMD_WRITE_KEYBOX_MODEL_INFO (model_name (sr_data r)) e2.

Lemma accepted_not_refused cmd data evs : keybox_accepted cmd data evs -> refused evs -> False.
Proof.
  intros (fd & sid & pre & work & post & r & -> & _ & a & id & p & rs & r1 & r2 & x & q & -> & H1 & H2 & H3) Href.
  unfold refused in Href. rewrite !Forall_app in Href. destruct Href as (_ & (_ & Hw & _) & _).
  inversion_clear Hw as [|? ? _ Hw1]. inversion_clear Hw1 as [|? ? _ Hw2]. inversion_clear Hw2 as [|? ? _ Hw3].
  inversion_clear Hw3 as [|? ? Hw _]. unfold accepts in Hw. cbn [ev_call ev_res] in Hw. by rewrite H1, H2, H3 in Hw.
Qed.

Definition asks (e : event) : bool := match ev_call e with Lib_property_get _ => true | _ => false end.

(** There is one place where a list with one question can be cut. *)
Lemma cut_unique a x b a' y b' :
  Forall (fun e => asks e = false) a -> Forall (fun e => asks e = false) b -> asks y = true ->
  a ++ x :: b = a' ++ y :: b' -> a = a' /\ b = b'.
Proof.
  intros Ha Hb Hy. revert a'. induction Ha as [|z a Hz _ IH]; intros [|z' a'] E; cbn in E.
  - by injection E as -> ->.
  - injection E as -> ->. apply Forall_app in Hb as [_ Hb]. inversion_clear Hb as [|? ? Hy']. congruence.
  - injection E as -> E. congruence.
  - injection E as -> E. destruct (IH a' E) as [-> ->]. done.
Qed.

Lemma asks_teec evs : Forall (fun e => teec_call (ev_call e) = true) evs -> Forall (fun e => asks e = false) evs.
Proof. intros H. eapply Forall_impl; [exact H|]. intros e He. cbn in He. unfold asks. by destruct (ev_call e). Qed.
Lemma asks_malloc evs : Forall (fun e => only_malloc (ev_call e) = true) evs -> Forall (fun e => asks e = false) evs.
Proof. intros H. eapply Forall_impl; [exact H|]. intros e He. cbn in He. unfold asks. by destruct (ev_call e). Qed.

Lemma success_is_acceptance peakb rc evs : module_import peakb rc evs -> rc = KMSK_ERROR_OK <-> both_accepted peakb evs.
Proof.
  assert (forall l e1 r e2, Forall (fun e => asks e = false) l -> l = e1 ++ Ev (Lib_property_get ATTESTKEY_MODEL_INFO_PROPERTY) r :: e2 -> False) as Hnone.
  { intros l e1 r e2 Hl ->. apply Forall_app in Hl as [_ Hl]. by inversion_clear Hl. }
  intros [[-> Hm]|(pre & res & script & -> & Hm & (e1 & Hc1 & Hcase) & ->)].
  - split; [done|]. intros (a & r & b & c & E & _). exfalso. eapply Hnone; [by apply asks_malloc|exact E].
  - assert (Forall (fun e => asks e = false) (pre ++ e1)) as Hpe by (apply Forall_app; auto using asks_malloc, asks_teec).
    destruct Hcase as [(Hres & Href & r1 & ->)|(r & e2 & Hc2 & [(Hres & _ & Href & ->)|(-> & [H1 H2] & r1 & r2 & ->)])].
    + replace (res =? 0) with false by lia. split; [done|]. intros (a & r & b & c & E & _). exfalso.
      eapply (Hnone _ a r (b ++ c)); [|exact E]. rewrite app_assoc. apply Forall_app. split; [done|by repeat constructor].
    + replace (res =? 0) with false by lia. split; [done|]. intros (a & r' & b & c & E & _ & Hacc). exfalso.
      rewrite app_assoc in E. apply cut_unique in E as [_ ->]; [|done|by apply asks_teec|done].
      apply Forall_app in Href as [Href _]. by eapply accepted_not_refused.
    + split; [intros _|done]. exists (pre ++ e1), r, e2. eexists. split; [by rewrite <- app_assoc|]. split; [|done].
      destruct H1 as (fd & sid & p & w & q & x & -> & Hl & Hw). exists fd, sid, (pre ++ p), w, q, x.
      split; [by rewrite <- app_assoc|]. split; [|done]. rewrite last_app, Hl. done.
Qed.

(** ** A small secure world *)

(** Requests are accepted as they are, and the device is called "tablet". *)
Inductive kb_world := KbWorld.

Definition kb_kcall (c : syscall) (w : kb_world) : sysret * kb_world :=
  (match c with
   | Sys_open p _ _ => if bool_decide (p = cstr "/dev/isee_tee0") then SysRet 5 0 [] else SysRet (-1) ENOENT []
   | Sys_ioctl _ req (Arg_buf _) =>
       if req =? TEE_IOC_VERSION then SysRet 0 0 (replicate 8 0 ++ [1; 0; 0; 0]) else SysRet 0 0 []
   | Sys_ioctl _ _ _ => SysRet 9 0 []
   | Sys_mmap _ _ => SysRet 8192 0 []
   | Lib_property_get _ => SysRet 6 0 (cstr "tablet" ++ [0])
   | _ => SysRet 0 0 []
   end, w).
#[export] Instance kb_kernel : Kernel kb_world := kb_kcall.

Definition kb_start : proc kb_world kmsk_st := Proc (KmskSt (TeecSt ∅ ∅ ∅ [] []) None) KbWorld 0 [].

Example import_runs :
  (ut_ree_import_attest_keybox false 4096 4200 shm0 (Some [7; 8; 9]) kb_start).1 = Ret KMSK_ERROR_OK.
Proof. vm_compute. done. Qed.

(** A key block too long for the buffer is copied past its end. *)
Theorem long_keybox_overruns :
  (ut_ree_import_attest_keybox false 4096 4200 shm0 (Some (replicate (Z.to_nat 71300) 0)) kb_start).1
    = Stop Undefined.
Proof. vm_compute. done. Qed.

(** ** The claims *)

(** C16. The module's import.  For a key block that fits, it returns and leaves no
    descriptor open.  It reports success exactly when the keybox application,
    in sessions of its own, accepted the packed block with the import command
    and then the name of the device, cut to 83 bytes, with the command for the
    model name; only then is the state "ok" published together with that name.
    If the import is refused the published state is "fail", and if the model name
    is refused nothing is published.  The key block fits when it has at most
    [max_peakb] bytes: its length is not checked. *)
Theorem keybox_installation {W} `{K : Kernel W} gptee context session shm_init peakb (s : proc W kmsk_st) :
  fresh_locals context session (ks_teec (globals s)) -> zlen peakb <= max_peakb ->
  let run := ut_ree_import_attest_keybox gptee context session shm_init (Some peakb) s in
  exists rc evs, run.1 = Ret rc /\ trace run.2 = trace s ++ evs /\ open_fds evs = [] /\
    module_import peakb rc evs /\ (rc = KMSK_ERROR_OK <-> both_accepted peakb evs).
Proof.
  intros Hf Hl. destruct (import_keybox_spec gptee context session shm_init peakb s Hf Hl) as (rc & evs & H1 & H2 & H3 & H4).
  exists rc, evs. split_and!; [done..|]. by apply success_is_acceptance.
Qed.

Lemma keybox_installation_witness :
  let run := ut_ree_import_attest_keybox false 4096 4200 shm0 (Some [7; 8; 9]) kb_start in
  exists rc evs, run.1 = Ret rc /\ trace run.2 = [] ++ evs /\ open_fds evs = [] /\
    module_import [7; 8; 9] rc evs /\ (rc = KMSK_ERROR_OK <-> both_accepted [7; 8; 9] evs).
Proof.
  apply (keybox_installation false 4096 4200 shm0 [7; 8; 9] kb_start).
  - split_and!; [by apply not_elem_of_nil..|constructor].
  - vm_compute. intuition congruence.
Defined.

(** The packed block can be taken apart again: from the lengths in its
    header the application finds exactly the key block and the two built-in
    keys. *)
Theorem key_block_roundtrip peakb pkb ekkb :
  is_u32 (zlen peakb) -> is_u32 (zlen pkb) -> is_u32 (zlen ekkb) ->
  parse_block (key_block peakb pkb ekkb) = (peakb, pkb, ekkb).
Proof.
  intros H1 H2 H3. unfold key_block. set (pre := kmsetkey_enc _ _ _ _). cbn zeta. set (b := pre ++ peakb ++ pkb ++ ekkb).
  assert (zlen pre = 32) as Hp by reflexivity.
  assert (get_u32 b 4 = zlen peakb) as E1 by (unfold b, pre, kmsetkey_enc; rewrite <- !app_assoc; by fields).
  assert (get_u32 b 8 = zlen pkb) as E2 by (unfold b, pre, kmsetkey_enc; rewrite <- !app_assoc; by fields).
  assert (get_u32 b 12 = zlen ekkb) as E3 by (unfold b, pre, kmsetkey_enc; rewrite <- !app_assoc; by fields).
  unfold parse_block. rewrite E1, E2, E3. f_equal; [f_equal|].
  - by apply slice_at.
  - replace b with ((pre ++ peakb) ++ pkb ++ ekkb) by (by rewrite <- app_assoc).
    apply slice_at; [rewrite zlen_app; lia|done].
  - replace b with ((pre ++ peakb ++ pkb) ++ ekkb ++ []) by (by rewrite app_nil_r, <- !app_assoc).
    apply slice_at; [rewrite !zlen_app; lia|done].
Qed.

Lemma key_block_roundtrip_witness : parse_block (key_block [7; 8; 9] inputpkb input_ekkb_pub) = ([7; 8; 9], inputpkb, input_ekkb_pub).
Proof. apply key_block_roundtrip; vm_compute; intuition congruence. Defined.
