(* ===== verification/KmTeec.v ===== *)
(** * The keymaster transport over the TEE client library (400/km4.1/common and 400/keymint1.0/common, beanpod_keymaster_ipc.cpp)

    The 400 keymaster keeps one session with the keymaster application and two
    blocks of shared memory for as long as it runs; a command is one invocation
    with the request in one block and the answer in the other.  The KeyMint copy
    of the file has larger buffers and stops connecting after a failed
    allocation; the two differ in nothing else, so they are two instances of the
    same definitions. *)

From S2P Require Import Prelude Kernel Teec TeecClient KmLib.

Definition KM_TA_UUID : TEEC_UUID :=
  Uuid 3231489117 43600 19320 [176; 228; 110; 218; 97; 85; 108; 58].

(** The statics: [handle_] and the two blocks; the registries and structures of
    the client library with the global [context] and [session] among them. *)
Record kt_st := KtSt {
  kt_teec : teec_st; kt_handle : Z; inputSM : TEEC_SharedMemory; outputSM : TEEC_SharedMemory
}.
Definition set_kt_teec t g := KtSt t (kt_handle g) (inputSM g) (outputSM g).
Definition set_kt_handle h g := KtSt (kt_teec g) h (inputSM g) (outputSM g).
Definition set_inputSM m g := KtSt (kt_teec g) (kt_handle g) m (outputSM g).
Definition set_outputSM m g := KtSt (kt_teec g) (kt_handle g) (inputSM g) m.

(** Static storage is zero. *)
Definition shm_zero : TEEC_SharedMemory := Shm PNull 0 0 0 0 PNull 0.
Definition kt_st0 (t : teec_st) : kt_st := KtSt t (-1) shm_zero shm_zero.

(** [sm.size = n], [sm.flags = f] *)
Definition with_size (n : Z) (m : TEEC_SharedMemory) : TEEC_SharedMemory :=
  Shm (shm_buffer m) n (shm_flags m) (shm_id m) (alloced_size m) (shadow_buffer m) (registered_fd m).
Definition with_flags (f : Z) (m : TEEC_SharedMemory) : TEEC_SharedMemory :=
  Shm (shm_buffer m) (shm_size m) f (shm_id m) (alloced_size m) (shadow_buffer m) (registered_fd m).

(** A reference to the first [n] bytes of a block. *)
Definition part_param (m : TEEC_SharedMemory) (n : Z) : TEEC_Parameter :=
  MkParameter (Tmpref PNull 0) (Memref (Some m) n 0) (Value 0 0).

Section KmTeec.
Context {W : Type} `{K : Kernel W}.
Abbreviation KM := (M W kt_st).
(** DEFAULT_TEE_GPTEE and the addresses of the global [context] and [session]. *)
Context (gptee : bool) (context session : Z).
(** KEYMASTER_MAX_BUFFER_LENGTH of the copy, and whether it returns after a
    failed allocation. *)
Context (buf_size : Z) (stops : bool).

(** The indeterminate contents of the local array [recv_buf]. *)
Context (garbage : bytes).

Definition teec {A} (m : M W teec_st A) : KM A := zoom kt_teec set_kt_teec m.

(** [TEEC_AllocateSharedMemory(&context, &sm)] on a static block. *)
Definition allocate (get : kt_st -> TEEC_SharedMemory) (put : TEEC_SharedMemory -> kt_st -> kt_st) : KM Z :=
  m ← gets get;
  '(result, m) ← teec (TEEC_AllocateSharedMemory (Some context) (Some m));
  m ← teec (deref m);
  modify (put m);;
  mret (s32 result).

Definition release (get : kt_st -> TEEC_SharedMemory) (put : TEEC_SharedMemory -> kt_st -> kt_st) : KM unit :=
  m ← gets get;
  m ← teec (TEEC_ReleaseSharedMemory (Some m));
  m ← teec (deref m);
  modify (put m).

(** The rest of [bp_keymaster_connect] once the session is open: the two
    blocks, and the handle.  A copy that does not stop after a failed allocation
    goes on with the session closed and the context finalised. *)
Definition give_back : KM unit :=
  teec (TEEC_CloseSession session;; TEEC_FinalizeContext context).

Definition share_output (in_failed : bool) : KM Z :=
  if in_failed && stops then mret (-1)
  else
    modify (fun g => set_outputSM (with_flags TEEC_MEM_OUTPUT (with_size buf_size (outputSM g))) g);;
    result ← allocate outputSM set_outputSM;
    output ← gets outputSM;
    let out_failed := negb (result =? TEEC_SUCCESS) || is_null (shm_buffer output) in
    (if out_failed then release inputSM set_inputSM;; give_back else mret tt);;
    if out_failed && stops then mret (-1)
    else
      cs ← gets (fun g => contexts (kt_teec g));
      fd ← teec (deref (cs !! context));
      modify (set_kt_handle fd);;
      mret 0.

Definition share_blocks : KM Z :=
  modify (fun g => set_inputSM (with_flags TEEC_MEM_INPUT (with_size buf_size (inputSM g))) g);;
  result ← allocate inputSM set_inputSM;
  input ← gets inputSM;
  let in_failed := negb (result =? TEEC_SUCCESS) || is_null (shm_buffer input) in
  (if in_failed then give_back else mret tt);;
  share_output in_failed.

Definition bp_keymaster_connect : KM Z :=
  h ← gets kt_handle;
  if h <=? 0 then
    teec (modify (clear_locals context session));;
    result ← teec (TEEC_InitializeContext gptee (Some BTA_LOADER) (Some context));
    if negb (s32 result =? TEEC_SUCCESS) then mret (s32 result)
    else
      '(result, _, _) ← teec (TEEC_OpenSession (Some context) (Some session) KM_TA_UUID TEEC_LOGIN_PUBLIC false None);
      if negb (s32 result =? TEEC_SUCCESS) then
        teec (TEEC_FinalizeContext context);;
        mret (s32 result)
      else share_blocks
  else mret 0.

(** From [operation.started = 1] on, which both overloads share: the invocation
    and the answer.  [out] is the caller's array. *)
Definition invoke_and_copy (cmd : Z) (op : TEEC_Operation) (out : bytes) (out_size : Z) : KM (Z * bytes * Z) :=
  '(rc, _, op) ← teec (TEEC_InvokeCommand (Some session) cmd (Some op));
  if negb (s32 rc =? 0) then mret (s32 rc, out, out_size)
  else
    op ← teec (deref op);
    p0 ← teec (deref (op_params op !! 0%nat));
    p2 ← teec (deref (op_params op !! 2%nat));
    let code := u32 (value_a (value p0)) in
    if negb (code =? 0) then mret (s32 code, out, out_size)
    else
      let out_size := u32 (mem_size (memref p2)) in
      output ← gets outputSM;
      data ← teec (load (shm_buffer output) 0 out_size);
      if zlen out <? out_size then teec (halt Undefined)
      else mret (0, splice out 0 data, out_size).

(** [outputSM.size = ...; memset(outputSM.buffer, 0, ...)] *)
Definition reset_output : KM TEEC_SharedMemory :=
  modify (fun g => set_outputSM (with_size buf_size (outputSM g)) g);;
  output ← gets outputSM;
  teec (store (shm_buffer output) 0 (replicate (Z.to_nat buf_size) 0));;
  mret output.

Definition bp_keymaster_call (cmd : Z) (inb out : bytes) (out_size : Z) : KM (Z * bytes * Z) :=
  h ← gets kt_handle;
  if h <? 0 then mret (- EINVAL, out, out_size)
  else if (buf_size <? zlen inb) || (buf_size <? out_size) then mret (KM_ERROR_INVALID_INPUT_LENGTH, out, out_size)
  else
    modify (fun g => set_inputSM (with_size (zlen inb) (inputSM g)) g);;
    input ← gets inputSM;
    teec (store (shm_buffer input) 0 inb);;
    output ← reset_output;
    invoke_and_copy cmd
      (Operation (TEEC_PARAM_TYPES TEEC_VALUE_INOUT TEEC_MEMREF_PARTIAL_INPUT TEEC_MEMREF_PARTIAL_OUTPUT TEEC_NONE)
         [zero_param; part_param input (zlen inb); part_param output buf_size; zero_param] None)
      out out_size.

(** The overload without input. *)
Definition bp_keymaster_call_no_input (cmd : Z) (out : bytes) (out_size : Z) : KM (Z * bytes * Z) :=
  h ← gets kt_handle;
  if h <? 0 then mret (- EINVAL, out, out_size)
  else
    output ← reset_output;
    invoke_and_copy cmd
      (Operation (TEEC_PARAM_TYPES TEEC_NONE TEEC_NONE TEEC_MEMREF_PARTIAL_OUTPUT TEEC_NONE)
         [zero_param; zero_param; part_param output buf_size; zero_param] None)
      out out_size.

Definition bp_keymaster_disconnect : KM unit :=
  h ← gets kt_handle;
  (if 0 <? h then
     release outputSM set_outputSM;;
     release inputSM set_inputSM;;
     give_back;;
     teec (modify (clear_locals context session))
   else mret tt);;
  modify (set_kt_handle (-1)).

(** The common tail of the send functions, [out] being their [recv_buf]. *)
Definition handle_response {R} `{KeymasterResponse R} (rc : Z) (out : bytes) (rsp_size : Z) (rsp : R) : KM (Z * R) :=
  if rc <? 0 then
    bp_keymaster_disconnect;;
    bp_keymaster_connect;;
    mret (translate_error rc, rsp)
  else
    let '(ok, rsp) := Deserialize rsp (slice 0 rsp_size out) in
    if negb ok then mret (KM_ERROR_UNKNOWN_ERROR, rsp) else mret (rsp_error rsp, rsp).

Definition bp_keymaster_send {R} `{KeymasterResponse R} (command : Z) (req : Serializable) (rsp : R) : KM (Z * R) :=
  let req_size := u32 (SerializedSize req) in
  if buf_size <? req_size then mret (BEANPOD_KM_INVALID_INPUT_LENGTH, rsp)
  else
    '(rc, out, rsp_size) ← bp_keymaster_call command (Serialize req req_size) garbage buf_size;
    handle_response rc out rsp_size rsp.

Definition bp_keymaster_send_no_request {R} `{KeymasterResponse R} (command : Z) (rsp : R) : KM (Z * R) :=
  '(rc, out, rsp_size) ← bp_keymaster_call_no_input command garbage buf_size;
  handle_response rc out rsp_size rsp.
End KmTeec.

(** The transport as BeanpodKeymaster links against it. *)
Definition teec_ipc {W} `{K : Kernel W} (gptee : bool) (context session buf_size : Z) (stops : bool) (garbage : bytes)
    : KeymasterIpc W kt_st := {|
  ipc_connect := bp_keymaster_connect gptee context session buf_size stops;
  ipc_disconnect := bp_keymaster_disconnect context session;
  ipc_send := fun R H => bp_keymaster_send gptee context session buf_size stops garbage;
  ipc_send_no_request := fun R H => bp_keymaster_send_no_request gptee context session buf_size stops garbage;
|}.

(** ** The two copies *)

(** keymaster_ipc.h of each *)
Definition KM41_MAX_BUFFER_LENGTH := 1024 * 70.
Definition KEYMINT_MAX_BUFFER_LENGTH := 1024 * 140.

Definition km41_ipc {W} `{K : Kernel W} (gptee : bool) (context session : Z) (garbage : bytes) : KeymasterIpc W kt_st :=
  teec_ipc gptee context session KM41_MAX_BUFFER_LENGTH false garbage.

(** The functions of the KeyMint copy. *)
Section KeyMintCopy.
Context {W : Type} `{K : Kernel W} (gptee : bool) (context session : Z) (garbage : bytes).

Definition keymint_connect : M W kt_st Z := bp_keymaster_connect gptee context session KEYMINT_MAX_BUFFER_LENGTH true.
Definition keymint_call (cmd : Z) (inb out : bytes) (out_size : Z) : M W kt_st (Z * bytes * Z) :=
  bp_keymaster_call session KEYMINT_MAX_BUFFER_LENGTH cmd inb out out_size.
Definition keymint_call_no_input (cmd : Z) (out : bytes) (out_size : Z) : M W kt_st (Z * bytes * Z) :=
  bp_keymaster_call_no_input session KEYMINT_MAX_BUFFER_LENGTH cmd out out_size.
Definition keymint_disconnect : M W kt_st unit := bp_keymaster_disconnect context session.
Definition keymint_translate_error (err : Z) : Z := translate_error err.
Definition keymint_send {R} `{KeymasterResponse R} (command : Z) (req : Serializable) (rsp : R) : M W kt_st (Z * R) :=
  bp_keymaster_send gptee context session KEYMINT_MAX_BUFFER_LENGTH true garbage command req rsp.
Definition keymint_send_no_request {R} `{KeymasterResponse R} (command : Z) (rsp : R) : M W kt_st (Z * R) :=
  bp_keymaster_send_no_request gptee context session KEYMINT_MAX_BUFFER_LENGTH true garbage command rsp.

Definition keymint_ipc : KeymasterIpc W kt_st := {|
  ipc_connect := keymint_connect;
  ipc_disconnect := keymint_disconnect;
  ipc_send := fun R H => keymint_send;
  ipc_send_no_request := fun R H => keymint_send_no_request;
|}.
End KeyMintCopy.
