(* ===== verification/KmTeecSpec.v ===== *)
(** * What the 400 keymaster transport guarantees

    One command is one invocation, given call by call; the connection is either
    closed, with nothing registered and nothing open, or it is one registered
    session over one descriptor (or, for the copy that goes on after a failed
    allocation, a session that was given back already); a send is a remote
    procedure call. *)

From S2P Require Import Prelude Kernel Libtrusty Teec TeecMemory TeecOps TeecSession TeecContext TeecFrames TeecInout TeecDirect TeecClient KmLib KmTeec.

(** ** The answer of the application *)

(** Value 0 and the size of memory reference 2. *)
Definition ans_code (buf : bytes) : Z := u32 (get_u64 buf 32).
Definition ans_size (buf : bytes) : Z := u32 (get_u64 buf 104).

(** A block passed in direction [dir]: no shadow, flags that allow it, not in
    the application's own memory. *)
Definition block_ok (dir : Z) (m : TEEC_SharedMemory) : Prop :=
  shadow_buffer m = PNull /\ Z.land (shm_flags m) dir = dir /\
  match shm_buffer m with PLocal _ => False | _ => True end.

(** What a write through the pointer of a block does. *)
Definition stored (p : ptr) (data : bytes) (evs : list event) : Prop :=
  match p with
  | PMap a => exists r, evs = [Ev (Mem_store a data) r]
  | _ => data = [] /\ evs = []
  end.

Section Call.
Context {W : Type} `{K : Kernel W}.
Context (gptee : bool) (context session buf_size : Z) (stops : bool).
Implicit Types s : proc W kt_st.

(** The client library's part of the state. *)
Definition view s : proc W teec_st := Proc (kt_teec (globals s)) (world s) (errno s) (trace s).

Lemma wp_teec {A} (m : M W teec_st A) (Q : outcome A -> proc W kt_st -> Prop) s :
  wp m (fun o t => Q o (Proc (set_kt_teec (globals t) (globals s)) (world t) (errno t) (trace t))) (view s) ->
  wp (teec m) Q s.
Proof. apply wp_zoom. Qed.

Lemma set_kt_teec_same (g : kt_st) : set_kt_teec (kt_teec g) g = g.
Proof. by destruct g. Qed.

(** Operations that leave the library's part alone. *)
Lemma wp_teec_deref {A} (a : A) Q s : Q (Ret a) s -> wp (teec (deref (Some a))) Q s.
Proof. intros HQ. apply wp_teec, wp_ret. by destruct s as [[] ? ? ?]. Qed.

Lemma wp_teec_halt {A} e (Q : outcome A -> proc W kt_st -> Prop) s : Q (Stop e) s -> wp (teec (halt e)) Q s.
Proof. intros HQ. apply wp_teec, wp_halt. by destruct s as [[] ? ? ?]. Qed.

Lemma wp_teec_load a n (Q : outcome bytes -> proc W kt_st -> Prop) s :
  (forall r w, Q (Ret (copy_out (replicate (Z.to_nat n) 0) (sr_data r))) (after s (Mem_load a n) r w)) ->
  wp (teec (load (PMap a) 0 n)) Q s.
Proof.
  intros HQ. apply wp_teec. cbn [load]. rewrite Z.add_0_r. apply wp_bind. apply wp_sys; intros r w _.
  apply wp_ret. destruct s as [[] ? ? ?]. apply HQ.
Qed.

Lemma wp_teec_store p data (Q : outcome unit -> proc W kt_st -> Prop) s :
  match p with PLocal _ => False | _ => True end ->
  (p = PNull -> data <> [] -> Q (Stop Undefined) s) ->
  (forall s' evs, globals s' = globals s -> trace s' = trace s ++ evs -> stored p data evs -> Q (Ret tt) s') ->
  wp (teec (store p 0 data)) Q s.
Proof.
  intros Hp Hnull HQ. apply wp_teec. destruct p as [|b|a]; [|done|]; cbn [store].
  - destruct data as [|x data].
    + apply wp_ret. apply (HQ _ []); [by destruct s as [[] ? ? ?]|by rewrite app_nil_r|done].
    + replace (zlen (x :: data) =? 0) with false by (symmetry; apply Z.eqb_neq; unfold zlen; simpl; lia).
      apply wp_halt. specialize (Hnull eq_refl ltac:(done)). by destruct s as [[] ? ? ?].
  - rewrite Z.add_0_r. apply wp_bind. apply wp_sys; intros r w _. apply wp_ret.
    apply (HQ _ [Ev (Mem_store a data) r]); [by destruct s as [[] ? ? ?]|done|by exists r].
Qed.

(** An operation whose slots are passed directly and whose answer is the code
    [code] and the size of memory reference 2. *)
Definition answer_op (op : TEEC_Operation) (code : bytes -> Z) : Prop :=
  paramTypes op <= 65535 /\ length (op_params op) = 4%nat /\
  Forall (fun tp => direct tp.1 tp.2) (slots op) /\
  forall buf op', op_params op' = zip_with (fun tp prm => direct_result tp.1 tp.2 prm) (slots op)
                                    (params_dec sizeof_invoke_arg buf) ->
    exists p0 p2, op_params op' !! 0%nat = Some p0 /\ op_params op' !! 2%nat = Some p2 /\
      u32 (value_a (value p0)) = code buf /\ u32 (mem_size (memref p2)) = ans_size buf.

Definition request_op (input output : TEEC_SharedMemory) (n : Z) : TEEC_Operation :=
  Operation (TEEC_PARAM_TYPES TEEC_VALUE_INOUT TEEC_MEMREF_PARTIAL_INPUT TEEC_MEMREF_PARTIAL_OUTPUT TEEC_NONE)
    [zero_param; part_param input n; part_param output buf_size; zero_param] None.
Definition plain_op (output : TEEC_SharedMemory) : TEEC_Operation :=
  Operation (TEEC_PARAM_TYPES TEEC_NONE TEEC_NONE TEEC_MEMREF_PARTIAL_OUTPUT TEEC_NONE)
    [zero_param; zero_param; part_param output buf_size; zero_param] None.

Lemma direct_part ty dir m n :
  is_partial ty = true -> ty - 12 = dir -> block_ok dir m -> direct ty (part_param m n).
Proof. intros Hty <- (Hs & Hf & _). right. split; [done|]. by exists m. Qed.

Lemma request_op_answer input output n :
  block_ok TEEC_MEM_INPUT input -> block_ok TEEC_MEM_OUTPUT output ->
  answer_op (request_op input output n) ans_code.
Proof.
  intros Hi Ho. split_and!; [done|done| |].
  - repeat (apply Forall_cons; split); [by left|..|by left|constructor]; by eapply direct_part.
  - intros buf op' ->. do 2 eexists. split_and!; [reflexivity|reflexivity|..].
    + change (u32 (u32 (get_u64 (slice 24 32 buf) 8)) = ans_code buf). unfold ans_code, get_u64.
      rewrite slice_slice by lia. by rewrite u32_small by apply u32_range.
    + change (u32 (get_u64 (slice 88 32 buf) 16) = ans_size buf). unfold ans_size, get_u64. by rewrite slice_slice by lia.
Qed.

Lemma plain_op_answer output :
  block_ok TEEC_MEM_OUTPUT output -> answer_op (plain_op output) (fun _ => 0).
Proof.
  intros Ho. split_and!; [done|done| |].
  - repeat (apply Forall_cons; split); [by left|by left|..|by left|constructor]; by eapply direct_part.
  - intros buf op' ->. do 2 eexists. split_and!; [reflexivity|reflexivity|done|].
    change (u32 (get_u64 (slice 88 32 buf) 16) = ans_size buf). unfold ans_size, get_u64. by rewrite slice_slice by lia.
Qed.

(** The request as the kernel sees it, and its answer. *)
Definition km_frame (cmd sid : Z) (op : TEEC_Operation) : bytes := direct_frame cmd sid op.

(** The calls of an invocation. *)
Definition invocation (fd : Z) (frame : bytes) (r1 r2 r : sysret) : list event :=
  [Ev Lib_mutex_lock r1; Ev Lib_mutex_unlock r2; Ev (Sys_ioctl fd TEE_IOC_INVOKE (Arg_buf frame)) r].

(** How an invocation ends, [b] being the address of the output block: the code
    of the library or of the application is returned, the answer is copied into
    [out], or the application announced more than [out] holds. *)
Definition invoked (frame : bytes) (code : bytes -> Z) (b : Z) (out : bytes) (out_size : Z) (r : sysret)
    (back : list event) (o : outcome (Z * bytes * Z)) : Prop :=
  let buf := copy_out frame (sr_data r) in
  match o with
  | Stop e => e = Undefined /\ zlen out < ans_size buf
  | Ret (rc, out', n) =>
      (rc <> 0 /\ out' = out /\ n = out_size /\ back = [] /\
       (rc < 0 \/ sr_ret r = 0 /\ (rc = s32 (get_u32 buf 12) \/ rc = s32 (code buf)))) \/
      (rc = 0 /\ sr_ret r = 0 /\ get_u32 buf 12 = TEEC_SUCCESS /\ code buf = 0 /\ n = ans_size buf /\
       n <= zlen out /\ exists rl, back = [Ev (Mem_load b n) rl] /\
         out' = splice out 0 (copy_out (replicate (Z.to_nat n) 0) (sr_data rl)))
  end.

Lemma invoke_and_copy_spec cmd op code fd sid b out out_size s :
  sessions (kt_teec (globals s)) !! session = Some (Session context sid) ->
  contexts (kt_teec (globals s)) !! context = Some fd ->
  answer_op op code -> (forall buf, is_u32 (code buf)) -> shm_buffer (outputSM (globals s)) = PMap b ->
  wp (invoke_and_copy session cmd op out out_size) (fun o s' => exists r1 r2 r back,
    globals s' = globals s /\ trace s' = trace s ++ invocation fd (km_frame cmd sid op) r1 r2 r ++ back /\
    Forall no_fd back /\ invoked (km_frame cmd sid op) code b out out_size r back o) s.
Proof.
  intros Hs Hc (Hpt & Hlen & Hsl & Hans) Hcode Hb. unfold invoke_and_copy. apply wp_bind, wp_teec.
  eapply wp_mono; [by apply (invoke_direct session cmd op (Session context sid) fd)|].
  intros o t (r1 & r2 & r & res & eorig & op' & -> & Hg & Ht & Hkc & Hbad & Hok). cbn [view globals trace] in Hg, Ht.
  cbn [session_id] in Ht, Hok. fold (km_frame cmd sid op) in Ht, Hok. cbn zeta in Hok.
  rewrite Hg, set_kt_teec_same. set (s1 := Proc _ _ _ _). set (buf := copy_out _ _) in Hok.
  assert (is_u32 (get_u32 buf 12)) as Hu by apply get_u32_range, copy_out_bytes, invoke_enc_bytes.
  assert (trace s1 = trace s ++ invocation fd (km_frame cmd sid op) r1 r2 r ++ []) as Ht1
    by (rewrite app_nil_r; exact Ht).
  assert (is_u32 res /\ (res = TEEC_SUCCESS -> sr_ret r = 0)) as [Hres Hr].
  { destruct (Z.eq_dec (sr_ret r) 0) as [E|E]; [by destruct (Hok E) as [-> _]|]. by destruct (Hbad E) as [-> | ->]. }
  apply wp_if; intros Hrc.
  { apply wp_ret. exists r1, r2, r, []. split_and!; [done|done|constructor|]. left. split_and!; try done; [lia|].
    destruct (Z.eq_dec (sr_ret r) 0) as [E|E].
    - right. split; [done|]. left. f_equal. by apply Hok.
    - left. destruct (Hbad E) as [-> | ->]; done. }
  apply negb_false_iff, Z.eqb_eq, s32_zero in Hrc; [|done]. specialize (Hr Hrc).
  destruct (Hok Hr) as [Hret Hop]. destruct (Hans buf op' Hop) as (p0 & p2 & E0 & E2 & Hcd & Hsz).
  apply wp_bind, wp_teec_deref. rewrite E0, E2. apply wp_bind, wp_teec_deref, wp_bind, wp_teec_deref. rewrite Hcd, Hsz.
  apply wp_if; intros Hc0.
  { apply wp_ret. exists r1, r2, r, []. split_and!; [done|done|constructor|]. left. split_and!; try done; [|right; split; [done|by right]].
    intros E. apply s32_zero in E; [|done]. lia. }
  apply wp_bind, wp_gets. change (globals s1) with (globals s). rewrite Hb. apply wp_bind, wp_teec_load. intros rl wl.
  assert (forall o', invoked (km_frame cmd sid op) code b out out_size r [Ev (Mem_load b (ans_size buf)) rl] o' ->
    forall s', globals s' = globals s -> trace s' = trace s1 ++ [Ev (Mem_load b (ans_size buf)) rl] ->
    exists r1 r2 r back, globals s' = globals s /\ trace s' = trace s ++ invocation fd (km_frame cmd sid op) r1 r2 r ++ back /\
    Forall no_fd back /\ invoked (km_frame cmd sid op) code b out out_size r back o') as Hfin.
  { intros o' Ho s' Hg' Ht'. exists r1, r2, r. eexists. split; [exact Hg'|].
    split; [|split; [|exact Ho]]; [by rewrite Ht', Ht1, app_nil_r, <- app_assoc|by repeat constructor]. }
  apply wp_if; intros Hlt.
  - apply wp_teec_halt, Hfin; [|done|done]. split; [done|]. fold buf. lia.
  - apply wp_ret, Hfin; [|done|done]. right. fold buf. split_and!; try done; [|lia|lia|by eexists].
    by rewrite <- Hret.
Qed.

(** ** A command *)

(** The parameters of a command with a request of [n] bytes and of one without,
    the blocks being known to the kernel as [i] and [o]. *)
Definition request_params (n i o : Z) : list tee_ioctl_param :=
  [value_param TEEC_VALUE_INOUT 0 0; memref_param TEE_IOCTL_PARAM_ATTR_TYPE_MEMREF_INPUT 0 n i;
   memref_param TEE_IOCTL_PARAM_ATTR_TYPE_MEMREF_OUTPUT 0 buf_size o; param0].
Definition plain_params (o : Z) : list tee_ioctl_param :=
  [param0; param0; memref_param TEE_IOCTL_PARAM_ATTR_TYPE_MEMREF_OUTPUT 0 buf_size o; param0].

Lemma request_frame cmd sid input output n :
  km_frame cmd sid (request_op input output n) = invoke_enc cmd sid (request_params n (shm_id input) (shm_id output)).
Proof. reflexivity. Qed.
Lemma plain_frame cmd sid output :
  km_frame cmd sid (plain_op output) = invoke_enc cmd sid (plain_params (shm_id output)).
Proof. reflexivity. Qed.

(** The application was sent [cmd] with the bytes [req] and answered [payload]:
    the request is in the input block, the output block was cleared, the command
    invoked over the handle, library and application report success, and
    [payload] is what was then read from the output block. *)
Definition answered (g : kt_st) (cmd : Z) (req payload : bytes) (evs : list event) : Prop :=
  exists sid b prms st rz r1 r2 r rl,
    let frame := invoke_enc cmd sid prms in
    let buf := copy_out frame (sr_data r) in
    evs = st ++ [Ev (Mem_store b (replicate (Z.to_nat buf_size) 0)) rz]
          ++ invocation (kt_handle g) frame r1 r2 r ++ [Ev (Mem_load b (ans_size buf)) rl] /\
    shm_buffer (outputSM g) = PMap b /\
    ((prms = request_params (zlen req) (shm_id (inputSM g)) (shm_id (outputSM g)) /\
      stored (shm_buffer (inputSM g)) req st /\ ans_code buf = 0) \/
     (prms = plain_params (shm_id (outputSM g)) /\ req = [] /\ st = [])) /\
    sr_ret r = 0 /\ get_u32 buf 12 = TEEC_SUCCESS /\ ans_size buf <= buf_size /\
    payload = copy_out (replicate (Z.to_nat (ans_size buf)) 0) (sr_data rl).

(** The application was sent [cmd] with the bytes [req], and it or the library
    answered with a positive code; nothing was read from the output block. *)
Definition answered_positive (g : kt_st) (cmd : Z) (req : bytes) (evs : list event) : Prop :=
  exists sid b prms st rz r1 r2 r,
    let frame := invoke_enc cmd sid prms in
    let buf := copy_out frame (sr_data r) in
    evs = st ++ [Ev (Mem_store b (replicate (Z.to_nat buf_size) 0)) rz] ++ invocation (kt_handle g) frame r1 r2 r /\
    ((prms = request_params (zlen req) (shm_id (inputSM g)) (shm_id (outputSM g)) /\
      stored (shm_buffer (inputSM g)) req st) \/
     (prms = plain_params (shm_id (outputSM g)) /\ req = [] /\ st = [])) /\
    sr_ret r = 0 /\ (0 < s32 (get_u32 buf 12) \/ 0 < s32 (ans_code buf)).

(** The application announced more than the buffer holds. *)
Definition overrun (evs : list event) : Prop :=
  exists fd frame r, Ev (Sys_ioctl fd TEE_IOC_INVOKE (Arg_buf frame)) r ∈ evs /\
    buf_size < ans_size (copy_out frame (sr_data r)).

(** Only the size fields of the blocks differ. *)
Definition resized (g g' : kt_st) : Prop :=
  kt_teec g' = kt_teec g /\ kt_handle g' = kt_handle g /\
  with_size 0 (inputSM g') = with_size 0 (inputSM g) /\ with_size 0 (outputSM g') = with_size 0 (outputSM g).

(** How a call ends. *)
Definition called (g : kt_st) (cmd : Z) (req out : bytes) (evs : list event) (o : outcome (Z * bytes * Z)) : Prop :=
  match o with
  | Stop e => e = Undefined /\ (shm_buffer (inputSM g) = PNull \/ overrun evs)
  | Ret (rc, out', n) => zlen out' = zlen out /\
      (((rc < 0 \/ answered_positive g cmd req evs) /\ out' = out /\ n = buf_size) \/ (rc = 0 /\ answered g cmd req (slice 0 n out') evs))
  end.

(** A handle stands for a session of the library and two usable blocks. *)
Definition talks (g : kt_st) : Prop :=
  contexts (kt_teec g) !! context = Some (kt_handle g) /\
  (exists sid, sessions (kt_teec g) !! session = Some (Session context sid)) /\
  block_ok TEEC_MEM_INPUT (inputSM g) /\ block_ok TEEC_MEM_OUTPUT (outputSM g) /\
  (exists b, shm_buffer (outputSM g) = PMap b).

(** Clearing the output block and invoking. *)
Lemma exchange_spec cmd (f : TEEC_SharedMemory -> TEEC_Operation) prms code out out_size s :
  talks (globals s) -> (forall buf, is_u32 (code buf)) ->
  (forall m, block_ok TEEC_MEM_OUTPUT m -> answer_op (f m) code) ->
  (forall m sid, km_frame cmd sid (f m) = invoke_enc cmd sid (prms (shm_id m))) ->
  wp (output ← reset_output buf_size; invoke_and_copy session cmd (f output) out out_size) (fun o s' =>
    exists sid b rz r1 r2 r back, let frame := invoke_enc cmd sid (prms (shm_id (outputSM (globals s)))) in
      globals s' = set_outputSM (with_size buf_size (outputSM (globals s))) (globals s) /\
      shm_buffer (outputSM (globals s)) = PMap b /\
      trace s' = trace s ++ [Ev (Mem_store b (replicate (Z.to_nat buf_size) 0)) rz]
                   ++ invocation (kt_handle (globals s)) frame r1 r2 r ++ back /\
      Forall no_fd back /\
      invoked frame code b out out_size r back o) s.
Proof.
  intros (Hc & [sid Hs] & _ & Hout & [b Hb]) Hcode Hf Hfr. unfold reset_output.
  apply wp_bind, wp_bind, wp_modify, wp_bind, wp_gets. cbn [globals outputSM set_outputSM shm_buffer with_size].
  rewrite Hb. apply wp_bind. apply wp_teec_store; [done|done|]. intros s1 evs Hg1 Ht1 (rz & ->). apply wp_ret.
  cbn [globals trace] in Hg1, Ht1.
  eapply wp_mono; [apply (invoke_and_copy_spec cmd _ code (kt_handle (globals s)) sid b)|].
  { by rewrite Hg1. }
  { by rewrite Hg1. }
  { apply Hf, Hout. }
  { done. }
  { by rewrite Hg1. }
  intros o s' (r1 & r2 & r & back & Hg & Ht & Hno & Hinv). rewrite Hfr in *.
  exists sid, b, rz, r1, r2, r, back. cbn zeta. split_and!; try done; [congruence|].
  by rewrite Ht, Ht1, <- app_assoc.
Qed.

Lemma slice_filled out d : zlen d <= zlen out ->
  zlen (splice out 0 d) = zlen out /\ slice 0 (zlen d) (splice out 0 d) = d.
Proof.
  intros H. pose proof (zlen_nonneg d). split; [|apply slice_splice_here; lia].
  unfold zlen at 1. by rewrite length_splice by lia.
Qed.

(** From the end of an invocation to the end of a call. *)
Lemma invoked_called g cmd sid prms code b req st rz r1 r2 r back out o :
  let frame := invoke_enc cmd sid prms in
  zlen out = buf_size -> shm_buffer (outputSM g) = PMap b ->
  ((prms = request_params (zlen req) (shm_id (inputSM g)) (shm_id (outputSM g)) /\
    stored (shm_buffer (inputSM g)) req st /\ code = ans_code) \/
   (prms = plain_params (shm_id (outputSM g)) /\ req = [] /\ st = [] /\ code = fun _ => 0)) ->
  invoked frame code b out buf_size r back o ->
  called g cmd req out (st ++ [Ev (Mem_store b (replicate (Z.to_nat buf_size) 0)) rz]
                        ++ invocation (kt_handle g) frame r1 r2 r ++ back) o.
Proof.
  intros frame Hout Hb Hprms. unfold invoked. destruct o as [[[rc out'] n]|e].
  - intros [(Hrc & -> & -> & -> & Hsgn)|(-> & Hr & H12 & Hcd & -> & Hn & rl & -> & ->)].
    + split; [done|]. left. split; [|done]. destruct (Z.lt_ge_cases rc 0) as [|Hge]; [by left|right].
      destruct Hsgn as [|[Hr Hcode]]; [lia|]. exists sid, b, prms, st, rz, r1, r2, r. cbn zeta. fold frame. rewrite app_nil_r.
      split_and!; [done| |done|].
      * destruct Hprms as [(-> & Hst & _)|(-> & -> & -> & _)]; [by left|by right].
      * destruct Hcode as [->| ->]; [left; lia|].
        destruct Hprms as [(_ & _ & ->)|(_ & _ & _ & ->)]; [right; lia|]. exfalso. by apply Hrc.
    + set (n := ans_size _) in *. set (d := copy_out (replicate (Z.to_nat n) 0) (sr_data rl)).
      assert (0 <= n) as Hn0 by apply u32_range.
      assert (zlen d = n) as Hd by (by apply length_zero_copy).
      destruct (slice_filled out d) as [Hl Hs]; [lia|]. rewrite Hd in Hs.
      split; [exact Hl|]. right. split; [done|]. exists sid, b, prms, st, rz, r1, r2, r, rl. cbn zeta. fold frame n. rewrite Hs.
      split_and!; try done; [|lia].
      destruct Hprms as [(-> & Hst & ->)|(-> & -> & -> & _)]; [by left|by right].
  - intros [-> Hlt]. split; [done|]. right. exists (kt_handle g), frame, r. split; [|lia].
    rewrite !elem_of_app. right. right. left. unfold invocation. rewrite !elem_of_cons. tauto.
Qed.

Lemma stored_no_fd p data evs : stored p data evs -> Forall no_fd evs.
Proof. destruct p; simpl; [intros [_ ->]; constructor..|]. intros [r ->]. by repeat constructor. Qed.

Lemma invocation_no_fd fd frame r1 r2 r : Forall no_fd (invocation fd frame r1 r2 r).
Proof. by repeat constructor. Qed.

Lemma resized_refl g : resized g g.
Proof. done. Qed.

(** The call with a request. *)
Lemma teec_call_spec cmd req out s :
  (0 <= kt_handle (globals s) -> talks (globals s)) -> zlen out = buf_size ->
  wp (bp_keymaster_call session buf_size cmd req out buf_size) (fun o s' => exists evs,
    resized (globals s) (globals s') /\ trace s' = trace s ++ evs /\ Forall no_fd evs /\
    called (globals s) cmd req out evs o) s.
Proof.
  intros Hh Hout. unfold bp_keymaster_call. apply wp_bind, wp_gets.
  assert (forall rc, rc < 0 -> exists evs, resized (globals s) (globals s) /\ trace s = trace s ++ evs /\
    Forall no_fd evs /\ called (globals s) cmd req out evs (Ret (rc, out, buf_size))) as Hearly.
  { intros rc Hrc. exists []. rewrite app_nil_r. split; [apply resized_refl|]. split_and!; try done. split; [done|]. left. split; [by left|done]. }
  apply wp_if; intros Hneg; [by apply wp_ret, Hearly|].
  apply wp_if; intros Hlong; [by apply wp_ret, Hearly|]. specialize (Hh ltac:(lia)).
  pose proof Hh as (Hc & Hs & Hin & Hob & Hb). pose proof Hin as (_ & _ & Hp).
  apply wp_bind, wp_modify, wp_bind, wp_gets, wp_bind. cbn [globals inputSM set_inputSM shm_buffer with_size].
  apply wp_teec_store; [done| |].
  { intros Hnull Hreq. exists []. rewrite app_nil_r. split_and!; try done. split; [done|by left]. }
  intros s1 st Hg1 Ht1 Hst. cbn [globals trace] in Hg1, Ht1.
  set (input := with_size (zlen req) (inputSM (globals s))) in *.
  eapply wp_mono; [apply (exchange_spec cmd (fun output => request_op input output (zlen req))
    (request_params (zlen req) (shm_id input)) ans_code)|].
  { rewrite Hg1. exact Hh. }
  { intros buf. apply u32_range. }
  { intros m Hm. by apply request_op_answer. }
  { intros m sid. apply request_frame. }
  intros o s' (sid & b & rz & r1 & r2 & r & back & Hg & Hbuf & Ht & Hno & Hinv). rewrite Hg1 in *.
  eexists. split_and!; [by rewrite Hg|rewrite Ht, Ht1, <- app_assoc; reflexivity| |].
  - apply Forall_app; split; [by eapply stored_no_fd|]. constructor; [done|].
    apply Forall_app; split; [apply invocation_no_fd|done].
  - eapply (invoked_called (globals s) cmd sid); [done|done|by left|exact Hinv].
Qed.

(** The call without one. *)
Lemma call_no_input_spec cmd out s :
  (0 <= kt_handle (globals s) -> talks (globals s)) -> zlen out = buf_size ->
  wp (bp_keymaster_call_no_input session buf_size cmd out buf_size) (fun o s' => exists evs,
    resized (globals s) (globals s') /\ trace s' = trace s ++ evs /\ Forall no_fd evs /\
    called (globals s) cmd [] out evs o) s.
Proof.
  intros Hh Hout. unfold bp_keymaster_call_no_input. apply wp_bind, wp_gets. apply wp_if; intros Hneg.
  { apply wp_ret. exists []. rewrite app_nil_r. split; [apply resized_refl|]. split_and!; try done. split; [done|]. left. split; [by left|done]. }
  specialize (Hh ltac:(lia)). eapply wp_mono; [apply (exchange_spec cmd plain_op plain_params (fun _ => 0)); [done|done|..]|].
  { intros m Hm. by apply plain_op_answer. }
  { intros m sid. apply plain_frame. }
  intros o s' (sid & b & rz & r1 & r2 & r & back & Hg & Hbuf & Ht & Hno & Hinv).
  eexists. split_and!; [by rewrite Hg|exact Ht| |].
  - constructor; [done|]. apply Forall_app; split; [apply invocation_no_fd|done].
  - apply (invoked_called (globals s) cmd sid _ (fun _ => 0) b [] []); [done|done|by right|exact Hinv].
Qed.
End Call.
