(* ===== verification/KmTeecConn.v ===== *)
(** * The life of the 400 keymaster connection

    At rest the transport is closed, with nothing registered and nothing open,
    or connected, with exactly its session registered and exactly its descriptor
    open; the km4.1 copy can also be left with a handle whose session and
    descriptor were given back.  Connecting, disconnecting and sending keep
    this, and a send is a remote procedure call. *)

From S2P Require Import Prelude Kernel Libtrusty Teec TeecMemory TeecOps TeecSession TeecContext TeecFrames TeecInout TeecDirect TeecClient KmLib KmTeec KmTeecSpec.

(** The standard descriptors are in use: [open] never returns zero. *)
Class KernelStdFds (W : Type) `{K : Kernel W} :=
  std_fds : forall path flags mode w, sr_ret (kcall (Sys_open path flags mode) w).1 <> 0.

(** No call of a trace opened descriptor zero. *)
Definition not_fd0 (e : event) : Prop :=
  match ev_call e with Sys_open _ _ _ => sr_ret (ev_res e) <> 0 | _ => True end.

Lemma open_fds_not0 evs : Forall not_fd0 evs -> 0 ∉ open_fds evs.
Proof.
  induction 1 as [|[c r] evs He _ IH]; [by apply not_elem_of_nil|]. destruct c; try exact IH. simpl in *.
  destruct (_ && _); [|done]. apply not_elem_of_cons. by split.
Qed.

Section Std.
Context {W : Type} `{K : Kernel W} `{KS : !KernelStdFds W}.

(** The calls of a program open no descriptor zero. *)
Definition opens_std {G} (s s' : proc W G) : Prop :=
  exists evs, trace s' = trace s ++ evs /\ Forall not_fd0 evs.

#[export] Instance opens_std_preorder {G} : PreOrder (@opens_std G).
Proof.
  split; [intros s; exists []; by rewrite app_nil_r|].
  intros s1 s2 s3 (e1 & H1 & F1) (e2 & H2 & F2). exists (e1 ++ e2).
  rewrite H2, H1, app_assoc. split; [done|by apply Forall_app].
Qed.

Lemma opens_std_sys {G} c : keeps (@opens_std G) (sys c).
Proof.
  apply keeps_sys_run. intros s r w Hk. exists [Ev c r]. split; [done|]. constructor; [|done].
  destruct c; try done. unfold not_fd0. simpl. pose proof (std_fds path flags mode (world s)) as H.
  rewrite Hk in H. done.
Qed.
Lemma opens_std_modify {G} (f : G -> G) : keeps (@opens_std G) (modify f).
Proof. apply keeps_modify. intros s. exists []. by rewrite app_nil_r. Qed.
Hint Resolve opens_std_sys opens_std_modify : keeps.

Lemma initialize_std gptee name c : keeps opens_std (TEEC_InitializeContext gptee name c).
Proof.
  unfold TEEC_InitializeContext. destruct c as [c|]; [|keeps_go]. induction (seq 0 _) as [|n ns IH]; cbn [try_devices]; [keeps_go|].
  unfold teec_open_dev, ut_close_fd. keeps_go.
Qed.

Lemma teec_initialize_spec gptee name c (s : proc W teec_st) :
  wp (TEEC_InitializeContext gptee name (Some c)) (fun o s' => exists res evs, o = Ret res /\
    trace s' = trace s ++ evs /\
    ((res = TEEC_SUCCESS /\ exists fd, 0 < fd /\ open_fds evs = [fd] /\
        globals s' = set_contextMap (map_put c) (set_contexts (<[c := fd]>) (globals s))) \/
     (res = TEEC_ERROR_ITEM_NOT_FOUND /\ open_fds evs = [] /\ globals s' = globals s))) s.
Proof.
  pose proof (initialize_std gptee name (Some c) s) as Hstd.
  eapply wp_mono; [eapply (wp_and _ _ (fun _ s' => opens_std s s')); [apply try_devices_spec|exact Hstd]|].
  intros o s1 [(res & evs & k & -> & Ht & _ & _ & Hcase) (evs' & Ht' & Hno)].
  assert (evs' = evs) as -> by (rewrite Ht in Ht'; by apply app_inv_head in Ht').
  exists res, evs. split; [done|]. split; [done|].
  destruct Hcase as [(-> & fd & Hfd & Hfds & Hg)|(-> & _ & Hfds & Hg)]; [left|by right].
  split; [done|]. exists fd. split; [|done]. apply open_fds_not0 in Hno. rewrite Hfds in Hno.
  apply not_elem_of_cons in Hno as [? _]. lia.
Qed.
End Std.

Section Conn.
Context {W : Type} `{K : Kernel W} `{KS : !KernelStdFds W}.
Context (gptee : bool) (context session buf_size : Z) (stops : bool).
Implicit Types s : proc W kt_st.
Abbreviation fresh := (fresh_locals context session).

(** ** The states at rest *)

(** The session with [fd] is registered and its descriptor open. *)
Definition live (fd : Z) s : Prop :=
  open_fds (trace s) = [fd] /\
  exists g0 sid, fresh g0 /\ frame (entered context session fd sid g0) (kt_teec (globals s)).

(** It was given back, but the structures still hold its values. *)
Definition dead (fd : Z) s : Prop :=
  open_fds (trace s) = [] /\ fresh (kt_teec (globals s)) /\
  contexts (kt_teec (globals s)) !! context = Some fd /\
  exists sid, sessions (kt_teec (globals s)) !! session = Some (Session context sid).

(** A block that can be released without closing a descriptor. *)
Definition releasable (m : TEEC_SharedMemory) : Prop :=
  shadow_buffer m = PNull /\ (shm_id m = -1 \/ exists a, shm_buffer m = PMap a).

Definition blocks_ok (g : kt_st) : Prop :=
  block_ok TEEC_MEM_INPUT (inputSM g) /\ block_ok TEEC_MEM_OUTPUT (outputSM g) /\
  releasable (inputSM g) /\ releasable (outputSM g) /\ exists b, shm_buffer (outputSM g) = PMap b.

Definition no_shadows (g : kt_st) : Prop :=
  shadow_buffer (inputSM g) = PNull /\ shadow_buffer (outputSM g) = PNull.

Inductive phase s : Prop :=
| Closed : kt_handle (globals s) = -1 -> open_fds (trace s) = [] -> fresh (kt_teec (globals s)) -> phase s
| Connected : 0 < kt_handle (globals s) -> live (kt_handle (globals s)) s -> blocks_ok (globals s) ->
    (exists a, shm_buffer (inputSM (globals s)) = PMap a) -> phase s
| Defunct : stops = false -> 0 < kt_handle (globals s) -> dead (kt_handle (globals s)) s ->
    blocks_ok (globals s) -> phase s.

Definition kt_inv s : Prop := no_shadows (globals s) /\ phase s.

Lemma live_lookup fd s : live fd s -> contexts (kt_teec (globals s)) !! context = Some fd /\
  exists sid, sessions (kt_teec (globals s)) !! session = Some (Session context sid).
Proof.
  intros (_ & g0 & sid & _ & Hc & Hs & _). rewrite Hc, Hs. split; [apply lookup_insert_eq|].
  exists sid. apply lookup_insert_eq.
Qed.

(** A handle can always be talked through. *)
Lemma inv_talks s : kt_inv s -> 0 <= kt_handle (globals s) -> talks context session (globals s).
Proof.
  intros [_ Hp] Hh. destruct Hp as [Hc|_ Hl (Hi & Ho & _ & _ & Hb) _|_ _ Hd (Hi & Ho & _ & _ & Hb)]; [lia|..].
  - destruct (live_lookup _ _ Hl). by split_and!.
  - destruct Hd as (_ & _ & Hc & Hs). by split_and!.
Qed.

(** ** Releasing and allocating *)

Lemma release_spec (get : kt_st -> TEEC_SharedMemory) put Q s :
  releasable (get (globals s)) ->
  (forall s' m evs, globals s' = put m (globals s) -> trace s' = trace s ++ evs -> Forall no_fd evs ->
     shadow_buffer m = PNull -> shm_flags m = shm_flags (get (globals s)) -> releasable m ->
     match shm_buffer m with PLocal _ => False | _ => True end \/ shm_buffer m = shm_buffer (get (globals s)) ->
     Q (Ret tt) s') ->
  wp (release get put) Q s.
Proof.
  intros [Hsh Hrel] HQ. unfold release. apply wp_bind, wp_gets, wp_bind, wp_teec. cbn [TEEC_ReleaseSharedMemory].
  assert (Q (Ret tt) (Proc (put (get (globals s)) (globals s)) (world s) (errno s) (trace s))) as Hsame.
  { apply (HQ _ (get (globals s)) []); [done|by rewrite app_nil_r|done|done|done|by split|by right]. }
  assert (wp (mret (Some (get (globals s)))) (fun o t => match o with
    | Ret a => wp (m ← teec (deref a); modify (put m)) Q
        (Proc (set_kt_teec (globals t) (globals s)) (world t) (errno t) (trace t))
    | Stop e => Q (Stop e) (Proc (set_kt_teec (globals t) (globals s)) (world t) (errno t) (trace t)) end) (view s)) as Hskip.
  { apply wp_ret, wp_bind, wp_teec_deref, wp_modify. cbn [globals view]. by rewrite set_kt_teec_same. }
  apply wp_if; intros Hid; [exact Hskip|]. apply wp_if; intros Hfd; [exact Hskip|].
  destruct Hrel as [|[a Ha]]; [lia|]. rewrite Hsh, Ha. cbn [is_null negb munmap].
  apply wp_bind, wp_bind. apply wp_sys; intros r1 w1 _. apply wp_ret, wp_bind. apply wp_sys; intros r2 w2 _.
  apply wp_ret, wp_bind, wp_teec_deref, wp_modify. eapply (HQ _ _ [_; _]).
  - cbn [globals after view]. by rewrite set_kt_teec_same.
  - simpl. by rewrite <- app_assoc.
  - by repeat constructor.
  - done.
  - done.
  - split; [done|by left].
  - by left.
Qed.

Lemma allocate_spec (get : kt_st -> TEEC_SharedMemory) put fd Q s :
  contexts (kt_teec (globals s)) !! context = Some fd ->
  bad_flags (shm_flags (get (globals s))) = false -> shadow_buffer (get (globals s)) = PNull ->
  (forall s' m rc evs, globals s' = put m (globals s) -> trace s' = trace s ++ evs -> Forall no_fd evs ->
     releasable m -> shm_flags m = shm_flags (get (globals s)) -> (exists a, shm_buffer m = PMap a) -> Q (Ret rc) s') ->
  wp (allocate context get put) Q s.
Proof.
  intros Hc Hf Hsh HQ. unfold allocate. apply wp_bind, wp_gets, wp_bind, wp_teec.
  eapply allocate_exact; [exact Hc|exact Hf|..].
  - intros r w. apply wp_bind, wp_teec_deref, wp_bind, wp_modify, wp_ret.
    eapply HQ; [cbn [globals after view]; by rewrite set_kt_teec_same|done|by repeat constructor| |done|by eexists].
    split; [done|by left].
  - intros rm ri t Hg Ht. apply wp_bind, wp_teec_deref, wp_bind, wp_modify, wp_ret.
    eapply HQ; [cbn [globals]; rewrite Hg; cbn [globals view]; by rewrite set_kt_teec_same|exact Ht|by repeat constructor| |done|by eexists].
    split; [done|right; by eexists].
Qed.

(** Only the client library's part changed. *)
Definition same_blocks s s' : Prop :=
  kt_handle (globals s') = kt_handle (globals s) /\ inputSM (globals s') = inputSM (globals s) /\
  outputSM (globals s') = outputSM (globals s) /\ grows s s'.

Lemma give_back_spec fd s :
  live fd s \/ dead fd s ->
  wp (give_back context session) (fun o s' => o = Ret tt /\ dead fd s' /\ same_blocks s s') s.
Proof.
  intros [(Ho & g0 & sid & Hf & Hfr)|Hd]; apply wp_teec.
  - eapply wp_mono; [by apply (finalize_entered context session fd sid g0)|].
    intros o t (-> & Hres & (Hc & Hs & _) & r1 & r2 & Ht). destruct Hfr as (Hc0 & Hs0 & _).
    cbn [view globals trace] in *. split; [done|]. split; [|split_and!; [done|done|done|by eexists]].
    split_and!; cbn [globals trace kt_teec set_kt_teec].
    + rewrite Ht, open_fds_app, Ho. simpl. rewrite filter_cons_False; [done|].
      unfold closes. simpl. by rewrite Z.eqb_refl.
    + by eapply fresh_restored.
    + rewrite Hc, Hc0. apply lookup_insert_eq.
    + exists sid. rewrite Hs, Hs0. apply lookup_insert_eq.
  - pose proof Hd as (Ho & Hf & Hc & Hs). eapply wp_mono; [by apply (finalize_unregistered context session fd)|].
    intros o t (-> & ->). cbn [view globals world errno trace]. rewrite set_kt_teec_same.
    split; [done|]. split; [by destruct s|]. split_and!; try done. exists []. by rewrite app_nil_r.
Qed.

(** Changes of the blocks alone. *)
Lemma live_blocks fd s s' evs :
  kt_teec (globals s') = kt_teec (globals s) -> trace s' = trace s ++ evs -> Forall no_fd evs ->
  live fd s -> live fd s'.
Proof.
  intros Hg Ht Hno (Ho & Hl). split; [by rewrite Ht, open_fds_quiet|]. by rewrite Hg.
Qed.
Lemma dead_blocks fd s s' evs :
  kt_teec (globals s') = kt_teec (globals s) -> trace s' = trace s ++ evs -> Forall no_fd evs ->
  dead fd s -> dead fd s'.
Proof.
  intros Hg Ht Hno (Ho & Hl). split; [by rewrite Ht, open_fds_quiet|]. by rewrite Hg.
Qed.

(** What connecting leaves: the handle is set exactly on success. *)
Definition connects (rc : Z) s' : Prop :=
  kt_inv s' /\ (rc = 0 -> 0 < kt_handle (globals s')) /\ (rc <> 0 -> kt_handle (globals s') = -1).

(** A failed step of a copy that stops leaves the transport closed. *)
Lemma stopped_closed fd s :
  dead fd s -> kt_handle (globals s) = -1 -> no_shadows (globals s) -> connects (-1) s.
Proof. intros (Ho & Hf & _) Hh Hn. split; [by split; [|constructor]|by split]. Qed.

(** The second half of [share_blocks]. *)
Lemma share_handle_spec fd s (failed : bool) :
  0 < fd -> (if failed then dead fd s /\ stops = false else live fd s) -> blocks_ok (globals s) ->
  (failed = false -> exists a, shm_buffer (inputSM (globals s)) = PMap a) ->
  wp (cs ← gets (fun g => contexts (kt_teec g)); fd ← teec (deref (cs !! context));
      modify (set_kt_handle fd);; mret 0) (fun o s' => exists rc, o = Ret rc /\ connects rc s' /\ grows s s') s.
Proof.
  intros Hfd Hst Hb Hin. apply wp_bind, wp_gets.
  assert (contexts (kt_teec (globals s)) !! context = Some fd) as ->.
  { destruct failed; [apply Hst|]. by apply live_lookup. }
  apply wp_bind, wp_teec_deref, wp_bind, wp_modify, wp_ret. exists 0. split; [done|].
  split; [|exists []; by rewrite app_nil_r]. pose proof Hb as (Hi & Ho & _). split; [|by split].
  split; [by split; [apply Hi|apply Ho]|]. destruct failed; [destruct Hst; by apply Defunct|]. apply Connected; [done|exact Hst|exact Hb|by apply Hin].
Qed.

(** The session during the set-up, [failed] once it was given back. *)
Definition held (failed : bool) (fd : Z) s : Prop := if failed then dead fd s else live fd s.

Lemma held_blocks failed fd s s' evs :
  kt_teec (globals s') = kt_teec (globals s) -> trace s' = trace s ++ evs -> Forall no_fd evs ->
  held failed fd s -> held failed fd s'.
Proof. destruct failed; [apply dead_blocks|apply live_blocks]. Qed.

Lemma held_lookup failed fd s : held failed fd s -> contexts (kt_teec (globals s)) !! context = Some fd.
Proof. destruct failed; intros H; [apply H|by apply live_lookup]. Qed.

(** A new block for direction [dir]. *)
Definition new_block (dir : Z) (m : TEEC_SharedMemory) : Prop :=
  releasable m /\ shm_flags m = dir /\ match shm_buffer m with PLocal _ => False | _ => True end.

Lemma new_block_ok dir m : new_block dir m -> block_ok dir m.
Proof. intros ((Hs & _) & Hf & Hp). split; [done|]. split; [|done]. by rewrite Hf, Z.land_diag. Qed.

Lemma new_blocks_ok g :
  new_block TEEC_MEM_INPUT (inputSM g) -> new_block TEEC_MEM_OUTPUT (outputSM g) ->
  (exists b, shm_buffer (outputSM g) = PMap b) -> blocks_ok g.
Proof.
  intros Hi Ho Hb. split; [by apply new_block_ok|]. split; [by apply new_block_ok|].
  split; [apply Hi|]. split; [apply Ho|done].
Qed.

(** The input block: allocated, or the session is given back. *)
Lemma try_input_spec fd (P : outcome Z -> proc W kt_st -> Prop) s :
  live fd s -> shadow_buffer (inputSM (globals s)) = PNull ->
  (forall failed s', held failed fd s' -> kt_handle (globals s') = kt_handle (globals s) ->
     outputSM (globals s') = outputSM (globals s) -> grows s s' -> new_block TEEC_MEM_INPUT (inputSM (globals s')) ->
     (exists a, shm_buffer (inputSM (globals s')) = PMap a) -> wp (share_output context session buf_size stops failed) P s') ->
  wp (share_blocks context session buf_size stops) P s.
Proof.
  intros Hl Hsh Hk. unfold share_blocks. pose proof (live_lookup _ _ Hl) as [Hc _].
  apply wp_bind, wp_modify, wp_bind, (allocate_spec _ _ fd); [exact Hc|done|exact Hsh|].
  intros s1 m rc evs Hg Ht Hno Hrel Hf [a Ha]. cbn [globals trace] in Hg, Ht. apply wp_bind, wp_gets.
  rewrite Hg. cbn [inputSM set_inputSM]. rewrite Ha. cbn [is_null]. rewrite orb_false_r. cbn zeta.
  assert (live fd s1) as Hl1 by (eapply live_blocks; [by rewrite Hg|exact Ht|exact Hno|exact Hl]).
  assert (new_block TEEC_MEM_INPUT m) as Hm by (split; [exact Hrel|]; split; [done|by rewrite Ha]).
  destruct (negb (rc =? TEEC_SUCCESS)).
  - apply wp_bind. eapply wp_mono; [apply (give_back_spec fd); by left|].
    intros o s2 (-> & Hd & Hh & Hi & Ho & Hgr). rewrite Hg in Hh, Hi, Ho. apply Hk; try done.
    + etrans; [by exists evs|done].
    + by rewrite Hi.
    + exists a. by rewrite Hi.
  - apply wp_bind, wp_ret, Hk; rewrite ?Hg; try done; [by exists evs|by exists a].
Qed.

(** From an open session to the handle. *)
Lemma share_blocks_spec fd s :
  0 < fd -> live fd s -> kt_handle (globals s) = -1 -> no_shadows (globals s) ->
  wp (share_blocks context session buf_size stops) (fun o s' => exists rc, o = Ret rc /\ connects rc s' /\ grows s s') s.
Proof.
  intros Hfd Hl Hh [Hi Ho]. apply (try_input_spec fd); [done|done|].
  intros f1 s1 Hf1 Hh1 Ho1 Hg1 Hin1 [a Ha]. rewrite <- Ho1 in Ho. unfold share_output.
  destruct (f1 && stops) eqn:E1.
  { apply andb_true_iff in E1 as [-> _]. apply wp_ret. exists (-1). split; [done|]. split; [|done].
    apply (stopped_closed fd); [done|congruence|]. split; [apply Hin1|done]. }
  apply wp_bind, wp_modify, wp_bind, (allocate_spec _ _ fd); [by apply (held_lookup f1)|done|exact Ho|].
  intros s2 m rc evs Hg Ht Hno Hrel Hfl [b Hb]. cbn [globals trace] in Hg, Ht. apply wp_bind, wp_gets.
  rewrite Hg. cbn [outputSM set_outputSM]. rewrite Hb. cbn [is_null]. rewrite orb_false_r.
  assert (held f1 fd s2) as Hf2 by (eapply held_blocks; [by rewrite Hg|exact Ht|exact Hno|exact Hf1]).
  assert (new_block TEEC_MEM_OUTPUT m) as Hm by (split; [exact Hrel|]; split; [done|by rewrite Hb]).
  assert (grows s s2) as Hgr2 by (etrans; [done|by exists evs]).
  destruct (negb (rc =? TEEC_SUCCESS)); cbn [andb].
  - apply wp_bind, wp_bind, (release_spec inputSM); [rewrite Hg; apply Hin1|].
    intros s3 m3 evs3 Hg3 Ht3 Hno3 Hsh3 Hfl3 Hrel3 Hbuf3. rewrite Hg in Hg3, Hfl3, Hbuf3. simpl in Hfl3, Hbuf3.
    assert (held f1 fd s3) as Hf3 by (eapply held_blocks; [by rewrite Hg3, Hg|exact Ht3|exact Hno3|exact Hf2]).
    eapply wp_mono; [apply (give_back_spec fd); destruct f1; [by right|by left]|].
    intros o s4 (-> & Hd & Hh4 & Hi4 & Ho4 & Hgr). rewrite Hg3 in Hh4, Hi4, Ho4. simpl in Hh4, Hi4, Ho4.
    assert (grows s s4) as Hgr4 by (etrans; [exact Hgr2|]; etrans; [by exists evs3|done]).
    apply wp_if; intros Es.
    + apply wp_ret. exists (-1). split; [done|]. split; [|done]. apply (stopped_closed fd); [done|congruence|].
      split; [by rewrite Hi4|rewrite Ho4; apply Hm].
    + eapply wp_mono; [apply (share_handle_spec fd s4 true); [done|by split| |done]|].
      * apply new_blocks_ok; rewrite ?Hi4, ?Ho4; [|done|by exists b]. split; [done|]. split; [rewrite Hfl3; apply Hin1|].
        destruct Hbuf3 as [|Hbuf3]; [done|]. by rewrite Hbuf3, Ha.
      * intros o s5 (rc5 & -> & Hcn & Hgr5). exists rc5. split; [done|]. split; [done|by etrans].
  - apply wp_bind, wp_ret. eapply wp_mono; [apply (share_handle_spec fd s2 f1); [done| | |]|].
    + destruct f1; [by destruct stops|done].
    + rewrite Hg. apply new_blocks_ok; [done|done|by exists b].
    + intros _. rewrite Hg. by exists a.
    + intros o s5 (rc5 & -> & Hcn & Hgr5). exists rc5. split; [done|]. split; [done|by etrans].
Qed.

(** ** Connecting and disconnecting *)

Lemma fresh_clear g : fresh g -> fresh (clear_locals context session g).
Proof.
  intros Hf. eapply fresh_restored; [exact Hf|]. split_and!; [reflexivity..|].
  intros p Hp. by apply (other_sessions context session 0 0).
Qed.

Lemma teec_connect_spec s :
  kt_inv s ->
  wp (bp_keymaster_connect gptee context session buf_size stops)
    (fun o s' => exists rc, o = Ret rc /\ connects rc s' /\ grows s s') s.
Proof.
  intros [Hn Hp]. unfold bp_keymaster_connect. apply wp_bind, wp_gets. apply wp_if; intros Hle.
  2:{ apply wp_ret. exists 0. split; [done|]. split; [|exists []; by rewrite app_nil_r].
      split; [by split|]. split; [lia|done]. }
  destruct Hp as [Hh Ho Hf|Hh _ _ _|_ Hh _ _]; [|lia|lia]. pose proof Hn as [Hn1 Hn2].
  apply wp_bind, wp_teec, wp_modify, wp_bind, wp_teec. eapply wp_mono; [apply teec_initialize_spec|].
  intros o t1 (res & evs & -> & Ht & Hcase). cbn [view globals trace kt_teec set_kt_teec] in *.
  destruct Hcase as [(-> & fd & Hfd & Hfds & Hg)|(-> & Hfds & Hg)].
  2:{ change (s32 TEEC_ERROR_ITEM_NOT_FOUND =? TEEC_SUCCESS) with false. apply wp_ret. eexists. split; [done|].
      split; [|by exists evs]. split; [|split; [done|by intros _]]. split; [done|].
      apply Closed; cbn [globals trace kt_handle kt_teec set_kt_teec]; [done| |rewrite Hg; by apply fresh_clear].
      by rewrite Ht, open_fds_app, Ho, Hfds. }
  change (s32 TEEC_SUCCESS =? TEEC_SUCCESS) with true. cbn [negb].
  apply wp_bind, wp_teec. eapply wp_mono; [apply (open_session_none context session KM_TA_UUID fd); [|by repeat constructor]|].
  { cbn [view globals kt_teec set_kt_teec]. rewrite Hg. apply lookup_insert_eq. }
  intros o t2 (res & eorig & r & -> & Hu & Ht2 & Hg2). cbn [view globals trace kt_teec set_kt_teec] in *.
  set (oev := Ev _ r) in Ht2. assert (open_fds (trace t2) = [fd]) as Ho2.
  { rewrite Ht2, open_fds_quiet by (by repeat constructor). by rewrite Ht, open_fds_app, Ho, Hfds. }
  rewrite Ht, <- app_assoc in Ht2. rewrite Hg in Hg2.
  destruct (Z.eqb_spec res TEEC_SUCCESS) as [->|Hres].
  - change (s32 TEEC_SUCCESS =? TEEC_SUCCESS) with true. cbn [negb]. destruct Hg2 as [sid Hg2].
    eapply wp_mono; [apply (share_blocks_spec fd); [done| |done|done]|].
    + split; [done|]. exists (kt_teec (globals s)), sid. split; [done|].
      cbn [globals kt_teec set_kt_teec]. rewrite Hg2. reflexivity.
    + intros o s' (rc & -> & Hcn & [e He]). exists rc. split; [done|]. split; [done|].
      exists ((evs ++ [oev]) ++ e). rewrite He. cbn [trace]. by rewrite Ht2, <- !app_assoc.
  - assert (s32 res <> 0) as Hne by (intros E; by apply s32_zero in E). replace (s32 res =? TEEC_SUCCESS) with false by (symmetry; by apply Z.eqb_neq).
    apply wp_bind, wp_teec. eapply wp_mono.
    { refine (finalize_refused context session fd (kt_teec (globals s)) _ (mret tt) Hf (or_introl eq_refl) _). exact Hg2. }
    intros o t3 (-> & Hrest & r3 & Ht3). cbn [view globals trace kt_teec set_kt_teec] in *. apply wp_ret.
    eexists. split; [done|]. split; [|rewrite Ht2 in Ht3; eexists; cbn [trace]; by rewrite Ht3, <- app_assoc].
    split; [|split; [lia|done]]. split; [done|]. apply Closed; cbn [globals trace kt_handle kt_teec set_kt_teec]; [done| |].
    + rewrite Ht3, open_fds_app, Ho2. simpl. rewrite filter_cons_False; [done|]. unfold closes. simpl. by rewrite Z.eqb_refl.
    + by eapply fresh_restored.
Qed.

(** Disconnecting closes the transport, whatever its state. *)
Definition disconnected s s' : Prop :=
  kt_inv s' /\ kt_handle (globals s') = -1 /\ open_fds (trace s') = [] /\ fresh (kt_teec (globals s')) /\ grows s s'.

Lemma release_all_spec fd s :
  0 < kt_handle (globals s) -> live fd s \/ dead fd s -> blocks_ok (globals s) ->
  wp (bp_keymaster_disconnect context session) (fun o s' => o = Ret tt /\ disconnected s s') s.
Proof.
  intros Hh Hst (_ & _ & Hri & Hro & _). unfold bp_keymaster_disconnect. apply wp_bind, wp_gets, wp_bind.
  replace (0 <? kt_handle (globals s)) with true by lia.
  apply wp_bind, (release_spec outputSM); [done|]. intros s1 m1 e1 Hg1 Ht1 Hno1 Hsh1 _ _ _.
  apply wp_bind, (release_spec inputSM); [by rewrite Hg1|]. intros s2 m2 e2 Hg2 Ht2 Hno2 Hsh2 _ _ _. rewrite Hg1 in Hg2.
  assert (trace s2 = trace s ++ (e1 ++ e2)) as Ht by (by rewrite Ht2, Ht1, app_assoc).
  assert (Forall no_fd (e1 ++ e2)) as Hno by (by apply Forall_app).
  apply wp_bind. eapply wp_mono; [apply (give_back_spec fd)|].
  { destruct Hst as [Hl|Hd]; [left; eapply (live_blocks fd s)|right; eapply (dead_blocks fd s)]; try done; by rewrite Hg2. }
  intros o s3 (-> & (Ho & Hf & _) & Hh3 & Hi3 & Ho3 & Hgr). apply wp_teec, wp_modify, wp_modify. split; [done|].
  assert (fresh (clear_locals context session (kt_teec (globals s3)))) as Hfc by (by apply fresh_clear).
  split; [|split; [done|]; split; [done|]; split; [exact Hfc|]].
  - split; [|by apply Closed]. split; cbn [globals inputSM outputSM set_kt_handle set_kt_teec]; [rewrite Hi3, Hg2; exact Hsh2|rewrite Ho3, Hg2; exact Hsh1].
  - destruct Hgr as [e He]. exists ((e1 ++ e2) ++ e). cbn [trace view]. rewrite He, Ht. by rewrite <- !app_assoc.
Qed.

Lemma teec_disconnect_spec s :
  kt_inv s -> wp (bp_keymaster_disconnect context session) (fun o s' => o = Ret tt /\ disconnected s s') s.
Proof.
  intros [Hn Hp]. destruct Hp as [Hh Ho Hf|Hh Hl Hb _|_ Hh Hd Hb].
  - unfold bp_keymaster_disconnect. apply wp_bind, wp_gets, wp_bind. rewrite Hh. apply wp_ret, wp_modify. split; [done|].
    split; [|split; [done|]; split; [done|]; split; [exact Hf|exists []; by rewrite app_nil_r]]. split; [done|by apply Closed].
  - eapply release_all_spec; [done|by left|done].
  - eapply release_all_spec; [done|by right|done].
Qed.

(** ** Sending *)

Lemma with_size_fields n m m' : with_size n m' = with_size n m ->
  shm_buffer m' = shm_buffer m /\ shm_flags m' = shm_flags m /\ shm_id m' = shm_id m /\
  shadow_buffer m' = shadow_buffer m.
Proof. intros H. by injection H. Qed.

Lemma resized_inv s s' evs :
  resized (globals s) (globals s') -> trace s' = trace s ++ evs -> Forall no_fd evs -> kt_inv s -> kt_inv s'.
Proof.
  intros (Hg & Hh & Hi & Ho) Ht Hno [[Hn1 Hn2] Hp].
  apply with_size_fields in Hi as (I1 & I2 & I3 & I4), Ho as (O1 & O2 & O3 & O4).
  split; [split; congruence|].
  assert (blocks_ok (globals s) -> blocks_ok (globals s')) as Hb.
  { unfold blocks_ok, block_ok, releasable. rewrite I1, I2, I3, I4, O1, O2, O3, O4. done. }
  destruct Hp as [Hc Hf Hfr|Hpos Hl Hbl Ha|Hs Hpos Hd Hbl].
  - apply Closed; [congruence|by rewrite Ht, open_fds_quiet|by rewrite Hg].
  - apply Connected; rewrite ?Hh, ?I1; [done|by eapply live_blocks|by apply Hb|done].
  - apply Defunct; rewrite ?Hh; [done|done|by eapply dead_blocks|by apply Hb].
Qed.

Context (garbage : bytes).

(** The contract of a send on the state [g]: the command is answered and the
    answer decoded; or the call failed with a negative code and the response
    object is as before; or library or application returned a positive code, and
    the untouched local buffer is decoded. *)
Inductive km_rpc {R} `{KeymasterResponse R} (g : kt_st) (cmd : Z) (req : bytes) (rsp : R)
  : list event -> Z -> R -> Prop :=
| Rpc_answered payload ok rsp' evs :
    answered buf_size g cmd req payload evs -> Deserialize rsp payload = (ok, rsp') ->
    km_rpc g cmd req rsp evs (if ok then rsp_error rsp' else KM_ERROR_UNKNOWN_ERROR) rsp'
| Rpc_failed rc evs : rc < 0 -> km_rpc g cmd req rsp evs (translate_error rc) rsp
| Rpc_positive ok rsp' evs :
    answered_positive buf_size g cmd req evs -> Deserialize rsp garbage = (ok, rsp') ->
    km_rpc g cmd req rsp evs (if ok then rsp_error rsp' else KM_ERROR_UNKNOWN_ERROR) rsp'.

(** How a send ends. *)
Definition sends {R} `{KeymasterResponse R} (cmd : Z) (req : bytes) (rsp : R) s (o : outcome (Z * R)) s' : Prop :=
  exists evs, trace s' = trace s ++ evs /\
  match o with
  | Ret (err, rsp') => kt_inv s' /\ km_rpc (globals s) cmd req rsp evs err rsp'
  | Stop e => e = Undefined /\ (shm_buffer (inputSM (globals s)) = PNull \/ overrun buf_size evs)
  end.

(** From the call to the response. *)
Lemma teec_finish_spec {R} `{KeymasterResponse R} (m : M W kt_st (Z * bytes * Z)) cmd req (rsp : R) s :
  kt_inv s -> zlen garbage = buf_size ->
  wp m (fun o s' => exists evs, resized (globals s) (globals s') /\ trace s' = trace s ++ evs /\ Forall no_fd evs /\
    called buf_size (globals s) cmd req garbage evs o) s ->
  wp ('(rc, out, rsp_size) ← m; handle_response gptee context session buf_size stops rc out rsp_size rsp)
    (sends cmd req rsp s) s.
Proof.
  intros Hi Hgar Hm. apply wp_bind. eapply wp_mono; [exact Hm|]. intros o s1 (evs & Hre & Ht & Hno & Hc).
  destruct o as [[[rc out] n]|e]; [|by exists evs]. pose proof (resized_inv _ _ _ Hre Ht Hno Hi) as Hi1.
  unfold handle_response. apply wp_if; intros Hrc.
  - apply wp_bind. eapply wp_mono; [by apply teec_disconnect_spec|]. intros o s2 (-> & Hi2 & _ & _ & _ & [e2 Ht2]).
    apply wp_bind. eapply wp_mono; [by apply teec_connect_spec|]. intros o s3 (rc3 & -> & [Hi3 _] & [e3 Ht3]).
    apply wp_ret. exists (evs ++ e2 ++ e3). split; [by rewrite Ht3, Ht2, Ht, <- !app_assoc|]. split; [done|].
    apply Rpc_failed. lia.
  - destruct (Deserialize rsp (slice 0 n out)) as [ok rsp'] eqn:E.
    assert (sends cmd req rsp s (Ret (if ok then rsp_error rsp' else KM_ERROR_UNKNOWN_ERROR, rsp')) s1) as Hfin.
    { exists evs. split; [done|]. split; [done|]. destruct Hc as [_ [([Hpos|Hpos] & -> & ->)|[-> Hans]]]; [lia|..].
      - rewrite <- Hgar, slice_full in E. by apply Rpc_positive.
      - by eapply Rpc_answered. }
    destruct ok; apply wp_ret; exact Hfin.
Qed.

(** A request the transport refuses before the call. *)
Definition request_too_long (req : bytes) : Prop := buf_size < zlen req.

Lemma teec_send_spec {R} `{KeymasterResponse R} cmd q (rsp : R) s :
  kt_inv s -> zlen garbage = buf_size -> serializable_wf q ->
  wp (bp_keymaster_send gptee context session buf_size stops garbage cmd q rsp) (fun o s' =>
    (request_too_long (Serialize q (SerializedSize q)) /\ s' = s /\ o = Ret (BEANPOD_KM_INVALID_INPUT_LENGTH, rsp)) \/
    sends cmd (Serialize q (SerializedSize q)) rsp s o s') s.
Proof.
  intros Hi Hgar [Hu Hl]. unfold bp_keymaster_send. rewrite u32_small by done. apply wp_if; intros Hlong.
  { apply wp_ret. left. split_and!; [unfold request_too_long; lia|done|done]. }
  eapply wp_mono; [apply (teec_finish_spec _ cmd (Serialize q (SerializedSize q))); [done|done|]|by right].
  apply (teec_call_spec context); [|done]. by apply inv_talks.
Qed.

Lemma teec_send_no_request_spec {R} `{KeymasterResponse R} cmd (rsp : R) s :
  kt_inv s -> zlen garbage = buf_size ->
  wp (bp_keymaster_send_no_request gptee context session buf_size stops garbage cmd rsp) (sends cmd [] rsp s) s.
Proof.
  intros Hi Hgar. apply teec_finish_spec; [done|done|]. apply (call_no_input_spec context); [|done]. by apply inv_talks.
Qed.
End Conn.

(** ** The transport as the keymaster sees it *)

(** What the transport takes for an answer [payload] to a command: the bytes the
    application put into the output block or, after a positive code, the local
    buffer as it was. *)
Definition heard (buf_size : Z) (garbage : bytes) (g : kt_st) (cmd : Z) (req payload : bytes) (evs : list event) : Prop :=
  answered buf_size g cmd req payload evs \/
  (answered_positive buf_size g cmd req evs /\ payload = garbage).

Section Laws.
Context {W : Type} `{K : Kernel W} `{KS : !KernelStdFds W}.
Context (gptee : bool) (context session buf_size : Z) (stops : bool) (garbage : bytes).
Context (garbage_size : zlen garbage = buf_size).

Lemma sends_delivers {R} `{KeymasterResponse R} cmd req (rsp : R) (s : proc W kt_st) o s' :
  sends context session buf_size stops garbage cmd req rsp s o s' ->
  returned (kt_inv context session stops) o s' /\ delivers (heard buf_size garbage (globals s)) cmd req rsp s o s'.
Proof.
  intros (evs & Ht & Ho). destruct o as [[err rsp']|e]; [|by split]. destruct Ho as [Hi Hr]. split; [done|].
  intros rsp1 [= -> ->]. inversion Hr as [payload ok rsp2 evs' Ha Hd He|rc evs' Hrc He|ok rsp2 evs' Hp Hd He]; subst.
  - destruct ok; [|done]. exists payload, evs. split_and!; try done. by left.
  - pose proof (translate_error_neg rc Hrc). unfold KM_ERROR_OK in *. lia.
  - destruct ok; [|done]. exists garbage, evs. split_and!; try done. by right.
Qed.

#[export] Instance teec_ipc_laws : KeymasterIpcLaws W kt_st (I := teec_ipc gptee context session buf_size stops garbage).
Proof.
  refine {| ipc_idle := kt_inv context session stops; ipc_ready := kt_inv context session stops; ipc_answered := heard buf_size garbage |}.
  - intros R HR c q rsp s Hi Hq. eapply wp_mono; [by apply teec_send_spec|].
    intros o s' [(_ & -> & ->)|Hs]; [by split|by apply sends_delivers].
  - intros R HR c rsp s Hi. eapply wp_mono; [by apply teec_send_no_request_spec|]. intros o s'. by apply sends_delivers.
  - intros s Hi. eapply wp_mono; [by apply teec_connect_spec|]. intros o s' (rc & -> & [Hi' _] & Hg). by exists rc.
  - intros s s' evs Hi Hg Ht Hno. eapply resized_inv; [|exact Ht|exact Hno|exact Hi]. by rewrite Hg.
  - intros s s' evs Hi Hg Ht Hno. eapply resized_inv; [|exact Ht|exact Hno|exact Hi]. by rewrite Hg.
Defined.

(** The trace of the process grows, however a send ends. *)
Lemma teec_send_grows {R} `{KeymasterResponse R} cmd q (rsp : R) (s : proc W kt_st) :
  kt_inv context session stops s -> serializable_wf q ->
  grows s (bp_keymaster_send gptee context session buf_size stops garbage cmd q rsp s).2.
Proof.
  intros Hi Hq. pose proof (teec_send_spec gptee context session buf_size stops garbage cmd q rsp s Hi garbage_size Hq) as Hs.
  destruct Hs as [(_ & -> & _)|(evs & Ht & _)]; [reflexivity|by exists evs].
Qed.
Lemma teec_send_no_request_grows {R} `{KeymasterResponse R} cmd (rsp : R) (s : proc W kt_st) :
  kt_inv context session stops s ->
  grows s (bp_keymaster_send_no_request gptee context session buf_size stops garbage cmd rsp s).2.
Proof.
  intros Hi. pose proof (teec_send_no_request_spec gptee context session buf_size stops garbage cmd rsp s Hi garbage_size) as (evs & Ht & _).
  by exists evs.
Qed.
End Laws.
