(* ===== verification/KmTeecTheorems.v ===== *)
(** * Theorems on the 400 keymaster and KeyMint

    The states the transport can reach, a send as a remote procedure call, and
    the guard of the KeyMint methods, with concrete runs on a small secure
    world. *)

From S2P Require Import Prelude Kernel Libtrusty Teec TeecMemory TeecClient TeeKernel KmLib KmTheorems KmTeec KmTeecSpec KmTeecConn BeanpodKeymaster KeyMint KeyMintSpec.

(** ** A small secure world *)

(** Requests are echoed, so every command is accepted; memory reads as
    [ew_reply]; mappings fail if [ew_full]. *)
Record echo_world := Echo { ew_full : bool; ew_reply : bytes }.

Definition echo_kcall (c : syscall) (w : echo_world) : sysret * echo_world :=
  (match c with
   | Sys_open p _ _ => if bool_decide (p = cstr "/dev/isee_tee0") then SysRet 5 0 [] else SysRet (-1) ENOENT []
   | Sys_ioctl _ req (Arg_buf _) =>
       if req =? TEE_IOC_VERSION then SysRet 0 0 (replicate 8 0 ++ [1; 0; 0; 0]) else SysRet 0 0 []
   | Sys_ioctl _ _ _ => SysRet 9 0 []
   | Sys_mmap _ _ => if ew_full w then SysRet (-1) ENOMEM [] else SysRet 8192 0 []
   | Mem_load _ _ => SysRet 0 0 (ew_reply w)
   | Lib_property_get _ => SysRet 1 0 [49; 0]
   | Lib_extern _ => SysRet 1 0 []
   | _ => SysRet 0 0 []
   end, w).
#[export] Instance echo_kernel : Kernel echo_world := echo_kcall.

#[export] Instance echo_std_fds : KernelStdFds echo_world.
Proof. intros p f m w. cbn. by case_bool_decide. Qed.

Definition teec0 : teec_st := TeecSt ∅ ∅ ∅ [] [].
Definition kt_start (full : bool) : proc echo_world kt_st := Proc (kt_st0 teec0) (Echo full (le_enc 4 0 ++ [7; 7])) 0 [].

Lemma fresh0 c sp : fresh_locals c sp teec0.
Proof. split_and!; [by apply not_elem_of_nil..|constructor]. Qed.

(** ** The states of the connection *)

Section Reach.
Context {W : Type} `{K : Kernel W}.
Context (gptee : bool) (context session buf_size : Z) (stops : bool) (garbage : bytes).

Inductive kt_step : relation (proc W kt_st) :=
| Kt_connect s : kt_step s (bp_keymaster_connect gptee context session buf_size stops s).2
| Kt_disconnect s : kt_step s (bp_keymaster_disconnect context session s).2
| Kt_send {R} `{KeymasterResponse R} c q (rsp : R) v s :
    serializable_wf q ->
    (bp_keymaster_send gptee context session buf_size stops garbage (command_id c) q rsp s).1 = Ret v ->
    kt_step s (bp_keymaster_send gptee context session buf_size stops garbage (command_id c) q rsp s).2
| Kt_send_no_request {R} `{KeymasterResponse R} c (rsp : R) v s :
    (bp_keymaster_send_no_request gptee context session buf_size stops garbage (command_id c) rsp s).1 = Ret v ->
    kt_step s (bp_keymaster_send_no_request gptee context session buf_size stops garbage (command_id c) rsp s).2.

Lemma kt_step_inv `{KS : !KernelStdFds W} s s' :
  zlen garbage = buf_size -> kt_step s s' -> kt_inv context session stops s -> kt_inv context session stops s'.
Proof.
  intros Hg Hstep Hi. destruct Hstep as [s|s|R HR c q rsp v s Hq Hv|R HR c rsp v s Hv].
  - destruct (teec_connect_spec gptee context session buf_size stops s Hi) as (rc & _ & [Hi' _] & _). exact Hi'.
  - apply (teec_disconnect_spec context session stops s Hi).
  - pose proof (teec_send_spec gptee context session buf_size stops garbage (command_id c) q rsp s Hi Hg Hq) as Hs.
    unfold wp in Hs. rewrite Hv in Hs. destruct Hs as [(_ & -> & _)|(evs & _ & Ho)]; [done|].
    destruct v as [err rsp']. apply Ho.
  - pose proof (teec_send_no_request_spec gptee context session buf_size stops garbage (command_id c) rsp s Hi Hg) as Hs.
    unfold wp in Hs. rewrite Hv in Hs. destruct Hs as (evs & _ & Ho). destruct v as [err rsp']. apply Ho.
Qed.

Lemma kt_reach_inv `{KS : !KernelStdFds W} t w e s :
  zlen garbage = buf_size -> fresh_locals context session t ->
  rtc kt_step (Proc (kt_st0 t) w e []) s -> kt_inv context session stops s.
Proof.
  intros Hg Hf Hrtc. assert (kt_inv context session stops (Proc (kt_st0 t) w e [])) as H0.
  { split; [done|]. by apply Closed. }
  clear -Hg Hrtc H0 KS. induction Hrtc as [s|s1 s2 s3 Hst _ IH]; [done|]. apply IH. by eapply kt_step_inv.
Qed.
End Reach.

(** C13. In every state the KeyMint transport can reach, the process has exactly
    the descriptor of its handle open, or none; with a handle, the session is
    registered with the client library and belongs to that descriptor; without
    one, neither context nor session is registered. *)
Theorem keymint_connection_invariant {W} `{K : Kernel W} `{KS : !KernelStdFds W} gptee context session garbage
    t w e (s : proc W kt_st) :
  zlen garbage = KEYMINT_MAX_BUFFER_LENGTH -> fresh_locals context session t ->
  rtc (kt_step gptee context session KEYMINT_MAX_BUFFER_LENGTH true garbage) (Proc (kt_st0 t) w e []) s ->
  let h := kt_handle (globals s) in
  let g := kt_teec (globals s) in
  open_fds (trace s) = (if 0 <? h then [h] else []) /\
  (0 < h -> contexts g !! context = Some h /\ context ∈ _contextMap g /\ session ∈ _sessionMap g /\
            exists sid, sessions g !! session = Some (Session context sid)) /\
  (h <= 0 -> (context ∉ _contextMap g) /\ (session ∉ _sessionMap g)).
Proof.
  intros Hg Hf Hr. destruct (kt_reach_inv _ _ _ _ _ _ t w e s Hg Hf Hr) as [_ Hp]. cbn zeta.
  destruct Hp as [Hh Ho Hfr|Hh Hl _ _|Hs _ _ _]; [| |done].
  - rewrite Hh, Ho. split; [done|]. split; [lia|]. intros _. split; apply Hfr.
  - replace (0 <? kt_handle (globals s)) with true by lia. split; [apply Hl|]. split; [|lia]. intros _.
    destruct (live_lookup context session _ _ Hl) as [Hc [sid Hsid]].
    destruct Hl as (_ & g0 & sid0 & _ & _ & _ & Hsm & Hcm & _). split; [done|]. rewrite Hsm, Hcm.
    split_and!; [apply elem_of_map_put; by left|apply elem_of_map_put; by left|by exists sid].
Qed.

Definition zeros (n : Z) : bytes := replicate (Z.to_nat n) 0.

Lemma keymint_connection_invariant_witness :
  let s := (bp_keymaster_connect false 4096 4200 KEYMINT_MAX_BUFFER_LENGTH true (kt_start false)).2 in
  let h := kt_handle (globals s) in
  let g := kt_teec (globals s) in
  open_fds (trace s) = (if 0 <? h then [h] else []) /\
  (0 < h -> contexts g !! 4096 = Some h /\ 4096 ∈ _contextMap g /\ 4200 ∈ _sessionMap g /\
            exists sid, sessions g !! 4200 = Some (Session 4096 sid)) /\
  (h <= 0 -> (4096 ∉ _contextMap g) /\ (4200 ∉ _sessionMap g)).
Proof.
  apply (keymint_connection_invariant false 4096 4200 (zeros KEYMINT_MAX_BUFFER_LENGTH) teec0 (Echo false (le_enc 4 0 ++ [7; 7])) 0).
  - vm_compute. reflexivity.
  - apply fresh0.
  - apply rtc_once. constructor.
Defined.

(** The km4.1 copy goes on after a failed allocation: it reports a connection
    and keeps a handle, although session and descriptor were given back. *)
Theorem km41_connects_without_memory :
  let run := bp_keymaster_connect false 4096 4200 KM41_MAX_BUFFER_LENGTH false (kt_start true) in
  run.1 = Ret 0 /\ kt_handle (globals run.2) = 5 /\ open_fds (trace run.2) = [] /\
  _sessionMap (kt_teec (globals run.2)) = [].
Proof. vm_compute. done. Qed.

Example keymint_stops_without_memory :
  let run := bp_keymaster_connect false 4096 4200 KEYMINT_MAX_BUFFER_LENGTH true (kt_start true) in
  run.1 = Ret (-1) /\ kt_handle (globals run.2) = -1 /\ open_fds (trace run.2) = [].
Proof. vm_compute. done. Qed.

(** ** Sending *)


Definition km41_connected : proc echo_world kt_st :=
  (bp_keymaster_connect false 4096 4200 KM41_MAX_BUFFER_LENGTH false (kt_start false)).2.

Lemma km41_connected_inv : kt_inv 4096 4200 false km41_connected.
Proof.
  destruct (teec_connect_spec false 4096 4200 KM41_MAX_BUFFER_LENGTH false (kt_start false)) as (rc & _ & [Hi _] & _); [|exact Hi].
  split; [done|]. apply Closed; [done|done|apply fresh0].
Qed.


(** An application that reports the positive code 1: the send reports success,
    and the response is decoded from a buffer nothing was written to. *)
Theorem positive_code_is_success :
  let s := (bp_keymaster_connect false 4096 4200 KM41_MAX_BUFFER_LENGTH false (Proc (kt_st0 teec0) tee_world0 0 [])).2 in
  let run := bp_keymaster_send false 4096 4200 KM41_MAX_BUFFER_LENGTH false (zeros KM41_MAX_BUFFER_LENGTH)
               (command_id KM_GET_VERSION) (req_of [1; 2]) rsp0 s in
  match run.1 with Ret (err, _) => err = KM_ERROR_OK | Stop _ => False end /\
  existsb (fun e => match ev_call e with Mem_load _ _ => true | _ => false end) (trace run.2) = false.
Proof. vm_compute. done. Qed.

(** ** The guard of the KeyMint methods *)

Section Mint.
Context {W : Type} `{K : Kernel W} `{KS : !KernelStdFds W}.
Context (gptee : bool) (context session buf_size : Z) (garbage : bytes) (garbage_size : zlen garbage = buf_size).

(** KeyMint's transport, and a process that has just started. *)
Definition mint_transport : KeymasterIpc W kt_st := teec_ipc gptee context session buf_size true garbage.
Definition mint_laws : KeymasterIpcLaws W kt_st (I := mint_transport) :=
  teec_ipc_laws gptee context session buf_size true garbage garbage_size.
Definition mint_begin (t : teec_st) (w : W) (e : Z) : proc W (mint_st kt_st) := Proc (MintSt (kt_st0 t) false) w e [].

Context {CR : Type} `{KeymasterResponse CR} (fuel : nat) (cr vr br : CR) (vreq breq : Z -> Serializable) (ver patch vpatch : Z).
Context (vendor_wf : forall p, serializable_wf (vreq p)) (boot_wf : forall p, serializable_wf (breq p)).

(** The states a KeyMint process can reach. *)
Definition mint_state (s : proc W (mint_st kt_st)) : Prop :=
  exists t w e, fresh_locals context session t /\
    mint_reach (I0 := mint_transport) fuel cr vr br vreq breq ver patch vpatch (mint_begin t w e) s.

Lemma mint_state_sound s : mint_state s -> sound (L := mint_laws) vreq breq ver patch vpatch s.
Proof.
  intros (t & w & e & Hf & Hr). eapply (mint_reach_sound (L := mint_laws) fuel); [| | | | | |exact Hr].
  - intros s' Hs. exact Hs.
  - done.
  - done.
  - intros R HR c q rsp t' Hi Hq. by apply teec_send_grows.
  - intros R HR c rsp t' Hi. by apply teec_send_no_request_grows.
  - split; [|done]. split; [done|]. by apply Closed.
Qed.
End Mint.

(** C14. In every state a KeyMint process can reach from its start, by guarded and
    unguarded methods in any order, a guarded method answers without error only
    after the secure side was told, in this process and in this order, the
    identity of the device as read from its properties, the vendor's and the boot
    image's patch level, and heard to accept each; and only with what the
    transport then heard in answer to this command.  Heard is the application's
    answer, or, after a positive result code, which the transport takes for
    success, the local buffer as it was. *)
Theorem keymint_guard {W} `{K : Kernel W} `{KS : !KernelStdFds W} gptee context session buf_size garbage
    (Hg : zlen garbage = buf_size) {R CR} `{KeymasterResponse R} `{KeymasterResponse CR} fuel
    (cr vr br : CR) vreq breq ver patch vpatch c q (rsp rsp' : R) (s : proc W (mint_st kt_st)) :
  (forall p, serializable_wf (vreq p)) -> (forall p, serializable_wf (breq p)) -> serializable_wf q ->
  mint_state gptee context session buf_size garbage fuel cr vr br vreq breq ver patch vpatch s ->
  let run := INITIALIZE (I := mint_transport gptee context session buf_size garbage) fuel cr vr br vreq breq ver patch vpatch rsp
    (KeyMint.ForwardCommand (I := mint_transport gptee context session buf_size garbage) c q rsp) s in
  run.1 = Ret rsp' -> rsp_error rsp' = KM_ERROR_OK ->
  exists g setup payload evs, trace run.2 = trace s ++ setup ++ evs /\
    told (L := mint_laws gptee context session buf_size garbage Hg) vreq breq ver patch vpatch (trace s ++ setup) /\
    heard buf_size garbage g (command_id c) (Serialize q (SerializedSize q)) payload evs /\
    Deserialize rsp payload = (true, rsp').
Proof.
  intros Hv Hb Hq Hs run Hret He. destruct (mint_state_sound _ _ _ _ _ Hg _ _ _ _ _ _ _ _ _ Hv Hb s Hs) as [Hi Hk].
  pose proof (guard_spec (L := mint_laws gptee context session buf_size garbage Hg) fuel (fun s H => H) cr vr br vreq breq Hv Hb ver patch vpatch c
    (Serialize q (SerializedSize q)) rsp (KeyMint.ForwardCommand (I := mint_transport gptee context session buf_size garbage) c q rsp) s Hi Hk) as Ho.
  destruct Ho as [_ Ho]; [|by apply (Ho rsp')]. intros s1 Hi1. by apply mint_forward_spec.
Qed.

Definition patch_req (p : Z) : Serializable := req_of (le_enc 4 p).
Definition mint_start : proc echo_world (mint_st kt_st) := mint_begin teec0 (Echo false (le_enc 4 0 ++ [7; 7])) 0.
Definition small_ipc : KeymasterIpc echo_world kt_st := mint_transport false 4096 4200 1024 (zeros 1024).
Abbreviation small_laws := (mint_laws false 4096 4200 1024 (zeros 1024) eq_refl).
Abbreviation small_state := (mint_state false 4096 4200 1024 (zeros 1024) 3 rsp0 rsp0 rsp0 patch_req patch_req 13 202212 20221205).

(** The state after a first command, which set the secure side up. *)
Definition mint_used : proc echo_world (mint_st kt_st) :=
  (INITIALIZE (I := small_ipc) 3 rsp0 rsp0 rsp0 patch_req patch_req 13 202212 20221205 rsp0
     (KeyMint.ForwardCommand (I := small_ipc) KM_GET_VERSION (req_of [1; 2]) rsp0) mint_start).2.

Lemma mint_start_state : small_state mint_start.
Proof. exists teec0, (Echo false (le_enc 4 0 ++ [7; 7])), 0. split; [apply fresh0|apply Reach_start]. Qed.
Lemma mint_used_state : small_state mint_used.
Proof.
  exists teec0, (Echo false (le_enc 4 0 ++ [7; 7])), 0. split; [apply fresh0|].
  eapply (Reach_guarded (I0 := small_ipc) 3 rsp0 rsp0 rsp0 patch_req patch_req 13 202212 20221205 mint_start KM_GET_VERSION (req_of [1; 2]) rsp0);
    [apply Reach_start| |vm_compute; reflexivity].
  apply req_of_wf. vm_compute. intuition congruence.
Qed.

Lemma keymint_guard_witness :
  let run := INITIALIZE (I := small_ipc) 3 rsp0 rsp0 rsp0 patch_req patch_req 13 202212 20221205 rsp0
               (KeyMint.ForwardCommand (I := small_ipc) KM_GET_VERSION (req_of [1; 2]) rsp0) mint_used in
  initialized (globals mint_used) = true /\
  exists g setup payload evs, trace run.2 = trace mint_used ++ setup ++ evs /\
    told (L := small_laws) patch_req patch_req 13 202212 20221205 (trace mint_used ++ setup) /\
    heard 1024 (zeros 1024) g (command_id KM_GET_VERSION) [1; 2] payload evs /\
    Deserialize rsp0 payload = (true, PlainRsp 0 ([7; 7] ++ replicate 1018 0)).
Proof.
  split; [vm_compute; reflexivity|].
  apply (keymint_guard false 4096 4200 1024 (zeros 1024) eq_refl 3 rsp0 rsp0 rsp0 patch_req patch_req 13 202212 20221205 KM_GET_VERSION
    (req_of [1; 2]) rsp0 (PlainRsp 0 ([7; 7] ++ replicate 1018 0)) mint_used).
  - intros p. by apply req_of_wf.
  - intros p. by apply req_of_wf.
  - apply req_of_wf. vm_compute. intuition congruence.
  - apply mint_used_state.
  - vm_compute. reflexivity.
  - reflexivity.
Defined.

(** ** Creation dates *)

(** KeyMint forwards a request without a creation date as it is: the date is
    added only to a description that has one already. *)
Theorem keymint_adds_no_date {W G} `{K : Kernel W} `{I : !KeymasterIpc W G} {R CR A B} `{KeymasterResponse R} `{KeymasterResponse CR}
    `{AuthorizationSet A} fuel (cr vr br : CR) vreq breq ver patch vpatch java_time
    (ser : MintGenerateKeyRequest A B -> Serializable) request (rsp : R) (s : proc W (mint_st G)) :
  initialized (globals s) = true -> contains_creation (gen_description request) = false ->
  KeyMint.GenerateKey fuel cr vr br vreq breq ver patch vpatch java_time ser request rsp s
  = KeyMint.ForwardCommand KM_GENERATE_KEY (ser request) rsp s.
Proof.
  intros Hin Hc. unfold KeyMint.GenerateKey, INITIALIZE, KeyMint.Initialize. rewrite Hc.
  unfold mbind at 1, M_bind at 1. unfold mbind at 1, M_bind at 1. unfold gets at 1. rewrite Hin. by destruct request.
Qed.
