(* ===== verification/KeyMintDeviceTheorems.v ===== *)
(** * Theorems on the KeyMint device

    How authorizations are sorted into characteristics, what a created key is
    backed by, and an operation from its beginning to its end. *)

From S2P Require Import Prelude Kernel Libtrusty Teec TeecClient KmLib KmTheorems KmTeec KmTeecSpec KmTeecConn BeanpodKeymaster KeyMint KeyMintSpec KeyMintOperation KeyMintDevice KmTeecTheorems.

(** ** Characteristics *)

(** Who enforces an authorization of a software KeyMint; [Echoed] is the creation
    date, which only a request that named one gets back. *)
Inductive enforcement := Unexpected | Hidden | Echoed | ByKeyMint | ByKeystore.

Definition enforcement_of (t : keymaster_tag_t) : enforcement :=
  match t with
  | KM_TAG_ECIES_SINGLE_HASH_MODE | KM_TAG_INVALID | KM_TAG_KDF | KM_TAG_ROLLBACK_RESISTANCE => Unexpected
  | KM_TAG_CREATION_DATETIME => Echoed
  | KM_TAG_ALGORITHM | KM_TAG_APPLICATION_ID | KM_TAG_AUTH_TIMEOUT | KM_TAG_BLOB_USAGE_REQUIREMENTS
  | KM_TAG_BLOCK_MODE | KM_TAG_BOOT_PATCHLEVEL | KM_TAG_CALLER_NONCE | KM_TAG_DIGEST | KM_TAG_EARLY_BOOT_ONLY
  | KM_TAG_EC_CURVE | KM_TAG_EXPORTABLE | KM_TAG_INCLUDE_UNIQUE_ID | KM_TAG_KEY_SIZE | KM_TAG_MAX_USES_PER_BOOT
  | KM_TAG_MIN_MAC_LENGTH | KM_TAG_MIN_SECONDS_BETWEEN_OPS | KM_TAG_NO_AUTH_REQUIRED | KM_TAG_ORIGIN
  | KM_TAG_OS_PATCHLEVEL | KM_TAG_OS_VERSION | KM_TAG_PADDING | KM_TAG_PURPOSE | KM_TAG_RSA_OAEP_MGF_DIGEST
  | KM_TAG_RSA_PUBLIC_EXPONENT | KM_TAG_TRUSTED_CONFIRMATION_REQUIRED | KM_TAG_TRUSTED_USER_PRESENCE_REQUIRED
  | KM_TAG_UNLOCKED_DEVICE_REQUIRED | KM_TAG_USER_AUTH_TYPE | KM_TAG_USER_SECURE_ID | KM_TAG_VENDOR_PATCHLEVEL => ByKeyMint
  | KM_TAG_ACTIVE_DATETIME | KM_TAG_ALL_APPLICATIONS | KM_TAG_ALL_USERS | KM_TAG_MAX_BOOT_LEVEL
  | KM_TAG_ORIGINATION_EXPIRE_DATETIME | KM_TAG_USAGE_EXPIRE_DATETIME | KM_TAG_USER_ID
  | KM_TAG_USAGE_COUNT_LIMIT => ByKeystore
  | _ => Hidden
  end.

#[export] Instance enforcement_eq_dec : EqDecision enforcement.
Proof. solve_decision. Defined.

Section Characteristics.
Context {V P : Type} `{U : KeyMintUtils V P}.
Implicit Types sw : list (keymaster_key_param_t V).

Definition enforced_by (e : enforcement) (p : keymaster_key_param_t V) : bool := bool_decide (enforcement_of (tag p) = e).

(** What the keystore enforces, given whether the request named a creation date. *)
Definition keystore_part (dated : bool) (p : keymaster_key_param_t V) : bool :=
  enforced_by ByKeystore p || (dated && enforced_by Echoed p).

Definition keep (f : keymaster_key_param_t V -> bool) (l : list (keymaster_key_param_t V)) : list P :=
  map kmParam2Aidl (List.filter f l).

Lemma sort_entries_spec req sw (a b : list P) :
  sort_entries req sw a b =
    if existsb (enforced_by Unexpected) sw then None
    else Some (a ++ keep (enforced_by ByKeyMint) sw, b ++ keep (keystore_part (contains_creation req)) sw).
Proof.
  revert a b. induction sw as [|p sw IH]; intros a b; [by rewrite !app_nil_r|].
  destruct p as [t v]. unfold keep, keystore_part, enforced_by in *. cbn [sort_entries tag existsb List.filter].
  destruct (contains_creation req); destruct t; cbn [enforcement_of];
    repeat (case_bool_decide; try done); cbn [orb andb map]; rewrite ?IH; try done; by rewrite <- app_assoc.
Qed.

(** A list of characteristics, if it is not empty. *)
Definition group (level : SecurityLevel) (l : list P) : list (KeyCharacteristics P) :=
  if is_empty l then [] else [MkCharacteristics level l].
End Characteristics.

(** C27. The groups of key characteristics, at each security level.  At the level
    the device has, TRUSTED_ENVIRONMENT, and at any other but SOFTWARE, nothing is
    sorted or checked: all hardware-enforced authorizations form the device's
    group, which is there even when it is empty, and all software-enforced ones
    the keystore's, if it is asked for and there are any.  At the level SOFTWARE,
    which the constructor never sets, the single pass over the software list
    equals two filters: what KeyMint enforces and what the keystore enforces, in
    the order of the list, with the creation date among the latter only if the
    request named one, and without empty groups; every other authorization is left
    out, and the check fails exactly if there are hardware-enforced authorizations
    or one of the four tags that must not occur. *)
Theorem key_characteristics_groups {V P} `{U : KeyMintUtils V P} level req (sw hw : list (keymaster_key_param_t V)) include :
  convertKeyCharacteristics level req sw hw include =
    match level with
    | SOFTWARE =>
        if negb (is_empty hw) || existsb (enforced_by Unexpected) sw then None
        else Some (group SOFTWARE (keep (enforced_by ByKeyMint) sw) ++
                   if (include : bool) then group KEYSTORE (keep (keystore_part (contains_creation req)) sw) else [])
    | _ => Some (MkCharacteristics level (kmParamSet2Aidl hw) ::
                 if include && negb (is_empty sw) then [MkCharacteristics KEYSTORE (kmParamSet2Aidl sw)] else [])
    end.
Proof.
  unfold convertKeyCharacteristics. destruct level; [|by destruct (include && _)..].
  rewrite sort_entries_spec. destruct (is_empty hw); [|done]. cbn [negb orb].
  destruct (existsb _ sw); [done|]. cbn [mbind option_bind]. rewrite !app_nil_l. unfold group.
  destruct include; [|done]. cbn [andb]. by destruct (is_empty (keep (keystore_part _) sw)).
Qed.

(** ** Creating keys *)

Section Creation.
Context {W G : Type} `{L : KeymasterIpcLaws W G} {V P : Type} `{U : KeyMintUtils V P} `{MS : KeyMintMessages V}.
Context (fuel : nat) (ready_idle : forall s, ipc_ready s -> ipc_idle s).
Context {CR : Type} `{RC : KeymasterResponse CR} (cr vr br : CR) (vreq breq : Z -> Serializable).
Context (vendor_wf : forall p, serializable_wf (vreq p)) (boot_wf : forall p, serializable_wf (breq p)).
Context (ver patch vpatch : Z) (java_time : Z -> Z) (msg_version : Z).
Implicit Types s : proc W (mint_st G).

(** A response as the framework gets it: a secure KeyMint's own authorizations,
    and those for the keystore if there are any. *)
Definition creation_of {R} `{CreationResponse V R} (rsp : R) : KeyCreationResult P :=
  MkCreation (key_blob rsp)
    (MkCharacteristics TRUSTED_ENVIRONMENT (kmParamSet2Aidl (enforced rsp)) ::
     if is_empty (unenforced rsp) then [] else [MkCharacteristics KEYSTORE (kmParamSet2Aidl (unenforced rsp))])
    (map MkCertificate (certificate_chain rsp)).

Lemma created_spec {R} `{CreationResponse V R} params (rsp : R) (Q : outcome (Z * option (KeyCreationResult P)) -> proc W (mint_st G) -> Prop) s :
  (rsp_error rsp <> KM_ERROR_OK -> Q (Ret (rsp_error rsp, None)) s) ->
  (rsp_error rsp = KM_ERROR_OK -> Q (Ret (KM_ERROR_OK, Some (creation_of rsp))) s) ->
  wp (created params rsp) Q s.
Proof.
  intros Hbad Hok. unfold created. apply wp_if; intros He; [apply wp_ret, Hbad; lia|].
  unfold convertKeyCharacteristics, securityLevel_, creation_of in *.
  destruct (is_empty (unenforced rsp)); apply wp_ret, Hok; lia.
Qed.

(** The description that is sent: the caller's, or with the date appended when
    it has one already. *)
Definition sent_description (d d' : list (keymaster_key_param_t V)) : Prop :=
  d' = d \/ contains_creation d = true /\ exists t, d' = push_creation t d.

(** The transport heard the secure side answer the request, which had been told
    the device before. *)
Definition key_created {R} `{CreationResponse V R} (c : keymaster_command) (sent : Serializable -> Prop) (response0 : R)
    s s' (r : KeyCreationResult P) : Prop :=
  initialized (globals s') = true /\
  exists q g setup pre payload evs rsp', sent q /\ trace s' = trace s ++ setup ++ pre ++ evs /\
    told vreq breq ver patch vpatch (trace s ++ setup) /\
    ipc_answered g (command_id c) (Serialize q (SerializedSize q)) payload evs /\
    Deserialize response0 payload = (true, rsp') /\ rsp_error rsp' = KM_ERROR_OK /\ r = creation_of rsp'.

(** One request is forwarded, after calls that open nothing. *)
Definition forwards {R} `{KeymasterResponse R} (c : keymaster_command) (sent : Serializable -> Prop) (response0 : R) s1
    (o : outcome R) s2 : Prop :=
  returned mint_inv o s2 /\ initialized (globals s2) = initialized (globals s1) /\
  forall rsp', o = Ret rsp' -> rsp_error rsp' = KM_ERROR_OK ->
    exists q g pre payload evs, sent q /\ trace s2 = trace s1 ++ pre ++ evs /\
      ipc_answered g (command_id c) (Serialize q (SerializedSize q)) payload evs /\
      Deserialize response0 payload = (true, rsp').

Lemma forward_after {R} `{KeymasterResponse R} c (sent : Serializable -> Prop) (response0 : R) q pre s1 s2 :
  mint_inv s1 -> quietly s1 pre s2 -> sent q -> serializable_wf q ->
  wp (KeyMint.ForwardCommand c q response0) (forwards c sent response0 s1) s2.
Proof.
  intros Hi Hq Hs Hwf. pose proof Hq as (Hg & Ht & _).
  eapply wp_mono; [by apply mint_forward_spec; [eapply mint_inv_quiet|]|].
  intros o s3 (Hr & Hin & Hok). split; [done|]. split; [by rewrite Hin, Hg|]. intros rsp' Ho He.
  destruct (Hok rsp' Ho He) as (payload & evs & Ht3 & Ha & Hd). exists q, (mint_ipc (globals s2)), pre, payload, evs.
  split_and!; [done|by rewrite Ht3, Ht, app_assoc|done|done].
Qed.

Lemma create_spec {R} `{CreationResponse V R} c (sent : Serializable -> Prop) (response0 : R) params
    (m : M W (mint_st G) R) s :
  mint_inv s -> known vreq breq ver patch vpatch s -> (forall s1, mint_inv s1 -> wp m (forwards c sent response0 s1) s1) ->
  wp (response ← INITIALIZE fuel cr vr br vreq breq ver patch vpatch response0 m; created params response)
    (fun o s' => returned mint_inv o s' /\
       forall r, o = Ret (KM_ERROR_OK, Some r) -> key_created c sent response0 s s' r) s.
Proof.
  intros Hi Hk Hm. apply wp_bind.
  eapply wp_mono; [exact (guard_with fuel ready_idle cr vr br vreq breq vendor_wf boot_wf ver patch vpatch response0 m _ s Hi Hk Hm)|].
  intros o s' [Hr Hok]. destruct o as [rsp|e]; [|by split]. apply created_spec; intros He; (split; [done|]); [congruence|].
  intros r [= <-]. destruct (Hok rsp eq_refl He) as (Hin & setup & s1 & Ht & Hp & q & g & pre & payload & evs & Hs & Ht2 & Ha & Hd).
  split; [done|]. exists q, g, setup, pre, payload, evs, rsp.
  split_and!; [done|by rewrite Ht2, Ht, !app_assoc|done|done|done|done|done].
Qed.

(** The requests a key generation may send. *)
Definition generate_sent (keyParams : list P) (attestationKey : option (AttestationKey P)) (q : Serializable) : Prop :=
  exists d, sent_description (KmParamSet keyParams) d /\
    let r := generate_request msg_version keyParams attestationKey in
    q = ser_generate (MkMintGenerate msg_version d (attestation_signing_key_blob r) (attest_key_params r) (issuer_subject r)).

Lemma generate_spec {R} `{CreationResponse V R} (response0 : R) keyParams attestationKey s :
  (forall r, serializable_wf (ser_generate r)) -> mint_inv s -> known vreq breq ver patch vpatch s ->
  wp (generateKey fuel cr vr br vreq breq ver patch vpatch java_time msg_version response0 keyParams attestationKey)
    (fun o s' => returned mint_inv o s' /\ forall r, o = Ret (KM_ERROR_OK, Some r) ->
       key_created KM_GENERATE_KEY (generate_sent keyParams attestationKey) response0 s s' r) s.
Proof.
  intros Hwf Hi Hk. unfold generateKey, KeyMint.GenerateKey. apply create_spec; [done|done|]. intros s1 Hi1. apply wp_bind.
  assert (gen_version (generate_request msg_version keyParams attestationKey) = msg_version /\
          gen_description (generate_request msg_version keyParams attestationKey) = KmParamSet keyParams) as [-> ->]
    by (by destruct attestationKey).
  apply wp_if; intros Hc.
  - apply wp_bind. apply wp_sys; intros t w _. apply wp_ret. eapply forward_after; [done| |eexists; split; [right; split; [done|by eexists]|done]|done].
    split_and!; [done|done|by repeat constructor].
  - apply wp_ret. eapply forward_after; [done|apply quietly_nil|eexists; split; [by left|done]|done].
Qed.

Lemma import_spec {R} `{CreationResponse V R} (response0 : R) keyParams format data attestationKey s :
  (forall r, serializable_wf (ser_import r)) -> mint_inv s -> known vreq breq ver patch vpatch s ->
  wp (importKey fuel cr vr br vreq breq ver patch vpatch response0 keyParams format data attestationKey)
    (fun o s' => returned mint_inv o s' /\ forall r, o = Ret (KM_ERROR_OK, Some r) ->
       key_created KM_IMPORT_KEY (eq (ser_import (import_request keyParams format data attestationKey))) response0 s s' r) s.
Proof.
  intros Hwf Hi Hk. unfold importKey, KeyMint.ImportKey. apply create_spec; [done|done|]. intros s1 Hi1.
  by eapply forward_after; [|apply quietly_nil|..].
Qed.
End Creation.

(** ** A small framework *)

(** Parameters are passed on as they are; requests are written in short. *)
#[export] Instance demo_utils : KeyMintUtils bytes (keymaster_key_param_t bytes) :=
  {| kmParam2Aidl := id; kmParamSet2Aidl := id; KmParamSet := id; authToken2AidlVec := fun _ => [];
     blob_value := id; date_value := le_enc 8 |}.

#[export] Instance demo_messages : KeyMintMessages bytes :=
  {| ser_entropy := fun b => req_of [zlen b]; ser_generate := fun q => req_of (le_enc 4 (gen_version q));
     ser_import := fun q => req_of (le_enc 4 (imp_format _ q)); ser_import_wrapped := fun _ => req_of [];
     ser_upgrade := fun _ _ => req_of []; ser_delete := fun _ => req_of []; ser_delete_all := req_of [];
     ser_begin := fun q => req_of (le_enc 4 (begin_purpose _ q)); ser_device_locked := fun _ _ => req_of [];
     ser_characteristics := fun _ _ => req_of []; ser_shared_hmac := fun _ => req_of [];
     ser_timestamp := fun _ => req_of []; ser_rkp := fun _ => req_of []; ser_csr := fun _ => req_of [] |}.

#[export] Instance demo_creation : CreationResponse bytes plain_rsp :=
  {| creation_response := plain_response; key_blob := fun r => take 2 (pr_data r); unenforced := fun _ => [];
     enforced := fun _ => [MkParam KM_TAG_ALGORITHM [1]]; certificate_chain := fun r => [take 1 (pr_data r)] |}.

#[export] Instance demo_begin : BeginResponse bytes plain_rsp :=
  {| begin_response := plain_response; op_handle := fun r => default 0 (head (pr_data r)); output_params := fun _ => [] |}.

Example demo_characteristics :
  convertKeyCharacteristics SOFTWARE []
    [MkParam KM_TAG_ALGORITHM [1]; MkParam KM_TAG_USER_ID [2]; MkParam KM_TAG_CREATION_DATETIME [3]; MkParam KM_TAG_NONCE [4]] [] true
  = Some [MkCharacteristics SOFTWARE [MkParam KM_TAG_ALGORITHM [1]]; MkCharacteristics KEYSTORE [MkParam KM_TAG_USER_ID [2]]].
Proof. reflexivity. Qed.

(** C18. Creating a key.  In every state a KeyMint process can reach, a key that
    generateKey or importKey reports with status OK is what the transport heard,
    in the sense of [keymint_guard], in answer to exactly this request, after the
    secure side was told the device and heard to accept it; a generation request
    may carry one more creation date, if the caller gave one.  The blob, the
    certificates and the two groups of authorizations are those of what was
    heard. *)
Theorem key_creation_authentic {W} `{K : Kernel W} `{KS : !KernelStdFds W} gptee context session buf_size garbage
    (Hg : zlen garbage = buf_size) {V P} `{U : KeyMintUtils V P} `{MS : KeyMintMessages V}
    {CR R} `{RC : KeymasterResponse CR} `{C : CreationResponse V R} fuel (cr vr br : CR) vreq breq ver patch vpatch java_time
    msg_version (response0 : R) keyParams format data attestationKey (s : proc W (mint_st kt_st)) r :
  (forall p, serializable_wf (vreq p)) -> (forall p, serializable_wf (breq p)) ->
  (forall q, serializable_wf (ser_generate q)) -> (forall q, serializable_wf (ser_import q)) ->
  mint_state gptee context session buf_size garbage fuel cr vr br vreq breq ver patch vpatch s ->
  let ipc := mint_transport gptee context session buf_size garbage in
  let laws := mint_laws gptee context session buf_size garbage Hg in
  let generated := generateKey (I := ipc) fuel cr vr br vreq breq ver patch vpatch java_time msg_version response0 keyParams attestationKey s in
  let imported := importKey (I := ipc) fuel cr vr br vreq breq ver patch vpatch response0 keyParams format data attestationKey s in
  (generated.1 = Ret (KM_ERROR_OK, Some r) ->
     key_created (L := laws) vreq breq ver patch vpatch KM_GENERATE_KEY (generate_sent msg_version keyParams attestationKey) response0
       s generated.2 r) /\
  (imported.1 = Ret (KM_ERROR_OK, Some r) ->
     key_created (L := laws) vreq breq ver patch vpatch KM_IMPORT_KEY
       (eq (ser_import (import_request keyParams format data attestationKey))) response0 s imported.2 r).
Proof.
  intros Hv Hb Hgen Him Hs ipc laws. destruct (mint_state_sound _ _ _ _ _ Hg _ _ _ _ _ _ _ _ _ Hv Hb s Hs) as [Hi Hk]. split; intros Hr.
  - pose proof (generate_spec (L := laws) fuel (fun s H => H) cr vr br vreq breq Hv Hb ver patch vpatch java_time msg_version response0 keyParams
      attestationKey s Hgen Hi Hk) as [_ H]. exact (H r Hr).
  - pose proof (import_spec (L := laws) fuel (fun s H => H) cr vr br vreq breq Hv Hb ver patch vpatch java_time msg_version response0 keyParams format data
      attestationKey s Him Hi Hk) as [_ H]. exact (H r Hr).
Qed.

Lemma key_creation_authentic_witness :
  let r := MkCreation [7; 7] [MkCharacteristics TRUSTED_ENVIRONMENT [MkParam KM_TAG_ALGORITHM [1]]] [MkCertificate [7]] in
  let generated := generateKey (I := small_ipc) 3 rsp0 rsp0 rsp0 patch_req patch_req 13 202212 20221205 id 4 rsp0 [] None mint_start in
  let imported := importKey (I := small_ipc) 3 rsp0 rsp0 rsp0 patch_req patch_req 13 202212 20221205 rsp0 [] 3 [5] None mint_start in
  key_created (L := small_laws) patch_req patch_req 13 202212 20221205 KM_GENERATE_KEY (generate_sent 4 [] None) rsp0
    mint_start generated.2 r /\
  key_created (L := small_laws) patch_req patch_req 13 202212 20221205 KM_IMPORT_KEY
    (eq (ser_import (import_request [] 3 [5] None))) rsp0 mint_start imported.2 r.
Proof.
  intros r generated imported.
  destruct (key_creation_authentic false 4096 4200 1024 (zeros 1024) eq_refl 3 rsp0 rsp0 rsp0 patch_req patch_req 13 202212 20221205 id 4 rsp0 [] 3 [5] None
    mint_start r) as [H1 H2].
  - intros p. by apply req_of_wf.
  - intros p. by apply req_of_wf.
  - intros q. by apply req_of_wf.
  - intros q. by apply req_of_wf.
  - apply mint_start_state.
  - split; [apply H1|apply H2]; vm_compute; reflexivity.
Defined.

(** ** An operation from beginning to end *)

Section Lifecycle.
Context {W G : Type} `{L : KeymasterIpcLaws W G} {V P : Type} `{U : KeyMintUtils V P} `{MS : KeyMintMessages V}.
Context (fuel : nat) (ready_idle : forall s, ipc_ready s -> ipc_idle s).
Context {CR : Type} `{RC : KeymasterResponse CR} (cr vr br : CR) (vreq breq : Z -> Serializable).
Context (vendor_wf : forall p, serializable_wf (vreq p)) (boot_wf : forall p, serializable_wf (breq p)).
Context (ver patch vpatch : Z).

Lemma begin_spec {R} `{BeginResponse V R} (response0 : R) purpose key params token (s : proc W (mint_st G)) :
  (forall r, serializable_wf (ser_begin r)) -> mint_inv s -> known vreq breq ver patch vpatch s ->
  wp (begin fuel cr vr br vreq breq ver patch vpatch response0 purpose key params token) (fun o s' => returned mint_inv o s' /\
    forall r, o = Ret (KM_ERROR_OK, Some r) -> exists rsp, operation r = op_handle rsp /\ begin_challenge r = s64 (op_handle rsp) /\
      begin_out r = kmParamSet2Aidl (output_params rsp) /\
      let q := ser_begin (begin_request purpose key params token) in
      exists g setup payload evs, trace s' = trace s ++ setup ++ evs /\
        told vreq breq ver patch vpatch (trace s ++ setup) /\
        ipc_answered g (command_id KM_BEGIN_OPERATION) (Serialize q (SerializedSize q)) payload evs /\
        Deserialize response0 payload = (true, rsp)) s.
Proof.
  intros Hwf Hi Hk. unfold begin, KeyMint.BeginOperation. apply wp_bind.
  eapply wp_mono; [apply guard_spec; [done|done|done|exact Hi|exact Hk|]|].
  { intros s1 Hi1. by apply mint_forward_spec. }
  intros o s' [Hr Hok]. destruct o as [rsp|e]; [|by split]. apply wp_if; intros He; apply wp_ret; (split; [done|]).
  - by intros r [=].
  - intros r [= <-]. exists rsp. split_and!; [done|done|done|]. by apply (Hok rsp eq_refl); lia.
Qed.
End Lifecycle.

(** C19. The life of an operation.  In every state a KeyMint process can reach:
    when begin and then finish on the object it made report OK, the transport
    heard, in the sense of [keymint_guard] and after the secure side was told the
    device, the answer to the begin with this key, these parameters and this
    token; the framework's challenge is the handle in it; it heard the answer to
    the finish for that same handle, and the output is that answer's.  The object
    is then used up: its destructor sends nothing. *)
Theorem operation_lifecycle {W} `{K : Kernel W} `{KS : !KernelStdFds W} gptee context session buf_size garbage
    (Hg : zlen garbage = buf_size) {V P} `{U : KeyMintUtils V P} `{MS : KeyMintMessages V}
    {CR RB R} `{RC : KeymasterResponse CR} `{B : BeginResponse V RB} `{O : OperationResponse R} fuel (cr vr br : CR) vreq breq
    ver patch vpatch (responseb : RB) purpose key params token ser_finish ser_abort (response0 : R)
    input signature ftoken r out (s : proc W (mint_st kt_st)) :
  (forall p, serializable_wf (vreq p)) -> (forall p, serializable_wf (breq p)) -> (forall q, serializable_wf (ser_begin q)) ->
  (forall q, serializable_wf (ser_finish q)) -> (forall h, serializable_wf (ser_abort h)) ->
  mint_state gptee context session buf_size garbage fuel cr vr br vreq breq ver patch vpatch s ->
  let ipc := mint_transport gptee context session buf_size garbage in
  let b := begin (I := ipc) fuel cr vr br vreq breq ver patch vpatch responseb purpose key params token s in
  b.1 = Ret (KM_ERROR_OK, Some r) ->
  let f := finish (I := ipc) ser_finish ser_abort response0 input signature ftoken true
             (Proc (new_operation (globals b.2) (operation r)) (world b.2) (errno b.2) (trace b.2)) in
  f.1 = Ret (KM_ERROR_OK, out) ->
  exists g setup payload evs rspb g' payload' evs' rsp',
    trace f.2 = trace s ++ setup ++ evs ++ evs' /\
    told (L := mint_laws gptee context session buf_size garbage Hg) vreq breq ver patch vpatch (trace s ++ setup) /\
    (let q := ser_begin (begin_request purpose key params token) in
     heard buf_size garbage g (command_id KM_BEGIN_OPERATION) (Serialize q (SerializedSize q)) payload evs) /\
    Deserialize responseb payload = (true, rspb) /\ begin_challenge r = s64 (op_handle rspb) /\
    (let q := ser_finish (MkFinish (op_handle rspb) (default [] input) (default [] signature) (token_params ftoken)) in
     heard buf_size garbage g' (command_id KM_FINISH_OPERATION) (Serialize q (SerializedSize q)) payload' evs') /\
    Deserialize response0 payload' = (true, rsp') /\ out = Some (output rsp') /\
    destroy (I := ipc) ser_abort response0 f.2 = (Ret tt, f.2).
Proof.
  intros Hv Hb Hbg Hf Ha Hst ipc b Hrb f Hrf. destruct (mint_state_sound _ _ _ _ _ Hg _ _ _ _ _ _ _ _ _ Hv Hb s Hst) as [Hi Hk].
  set (laws := mint_laws gptee context session buf_size garbage Hg).
  pose proof (begin_spec (L := laws) fuel (fun s H => H) cr vr br vreq breq Hv Hb ver patch vpatch responseb purpose key params token s Hbg Hi Hk) as [Hr Hok].
  fold ipc b in Hr, Hok. rewrite Hrb in Hr. destruct (Hok r Hrb) as (rspb & Hop & Hch & _ & g & setup & payload & evs & Ht & Hp & Han & Hd).
  pose proof (op_finish_spec (L := laws) ser_finish ser_abort response0 Hf Ha input signature ftoken
    (Proc (new_operation (globals b.2) (operation r)) (world b.2) (errno b.2) (trace b.2))) as Hs.
  unfold wp in Hs. fold ipc f in Hs. rewrite Hrf in Hs. destruct Hs as (_ & Hz & Hfin); [by destruct b.2|].
  destruct (Hfin eq_refl) as (payload' & evs' & rsp' & Ht' & Han' & Hd' & Hout). cbn [globals trace new_operation opHandle_] in *.
  rewrite Hop in Han'. exists g, setup, payload, evs, rspb, (mint_ipc (globals b.2)), payload', evs', rsp'.
  split; [by rewrite Ht', Ht, <- !app_assoc|]. split; [exact Hp|]. split; [exact Han|]. split; [done|]. split; [done|]. split; [exact Han'|].
  split; [done|]. split; [done|]. unfold destroy, mbind, M_bind, gets. by rewrite Hz.
Qed.

Lemma operation_lifecycle_witness :
  let b := begin (I := small_ipc) 3 rsp0 rsp0 rsp0 patch_req patch_req 13 202212 20221205 rsp0 2 [5] [] None mint_start in
  let f := finish (I := small_ipc) finish_req abort_req rsp0 (Some [1; 2]) None None true
             (Proc (new_operation (globals b.2) 7) (world b.2) (errno b.2) (trace b.2)) in
  exists g setup payload evs rspb g' payload' evs' rsp',
    trace f.2 = [] ++ setup ++ evs ++ evs' /\
    told (L := small_laws) patch_req patch_req 13 202212 20221205 ([] ++ setup) /\
    heard 1024 (zeros 1024) g (command_id KM_BEGIN_OPERATION) (le_enc 4 2) payload evs /\
    Deserialize rsp0 payload = (true, rspb) /\ 7 = s64 (op_handle rspb) /\
    heard 1024 (zeros 1024) g' (command_id KM_FINISH_OPERATION) (le_enc 8 (op_handle rspb)) payload' evs' /\
    Deserialize rsp0 payload' = (true, rsp') /\ Some ([7; 7] ++ replicate 1018 0) = Some (output rsp') /\
    destroy (I := small_ipc) abort_req rsp0 f.2 = (Ret tt, f.2).
Proof.
  refine (operation_lifecycle false 4096 4200 1024 (zeros 1024) eq_refl 3 rsp0 rsp0 rsp0 patch_req patch_req 13 202212 20221205 rsp0 2 [5] [] None
    finish_req abort_req rsp0 (Some [1; 2]) None None (MkBeginResult [] 7 7) (Some ([7; 7] ++ replicate 1018 0)) mint_start
    _ _ _ _ _ _ _ _).
  - intros p. by apply req_of_wf.
  - intros p. by apply req_of_wf.
  - intros q. by apply req_of_wf.
  - intros q. by apply req_of_wf.
  - intros h. by apply req_of_wf.
  - apply mint_start_state.
  - vm_compute. reflexivity.
  - vm_compute. reflexivity.
Defined.
