(* ===== verification/Trustlets.v ===== *)
(** * The trusted applications and secure drivers (src/trustlets)

    Each trusted application is packaged with the files uuid.c, which gives its
    UUID as the string the loader looks for and twice as a structure, and
    manifest.c, which configures it; each secure driver has a manifest.c.  The
    directories hold no other sources. *)

From S2P Require Import Prelude Teec TeecFrames.

(** uuid.c *)
Record ta_ids := TaIds { host_name : bytes; bta_uuid : TEEC_UUID; TA_UUID : TEEC_UUID }.

(** ta/manifest.c; a TEE_UUID has the fields of a TEEC_UUID. *)
Record TA_CONFIG := TaConfig {
  ta_config_uuid : TEEC_UUID; ta_log_tag : bytes; ipc_buf_size : Z; rpmb_size : option Z
}.

(** drv/manifest.c *)
Record DRIVER_CONFIG := DriverConfig { driver_id : Z; drv_config_uuid : TEEC_UUID; drv_log_tag : bytes }.

Definition isp_drv : DRIVER_CONFIG :=
  DriverConfig 0x90111 (Uuid 0x0f5eed3c 0x3b5a 0x47af [0xac; 0xca; 0x69; 0xa8; 0x4b; 0xf0; 0xef; 0xad])
    (cstr "drv_isp").
Definition isp_ta : TA_CONFIG :=
  TaConfig (Uuid 0x85f630e0 0xf096 0x4c5f [0xa2; 0xcc; 0x26; 0x8c; 0xe0; 0x4e; 0x3d; 0xa3])
    (cstr "ta_isp") 0x100000 None.
Definition isp_ids : ta_ids :=
  TaIds (cstr "85f630e0f0964c5fa2cc268ce04e3da3")
    (Uuid 0x85f630e0 0xf096 0x4c5f [0xa2; 0xcc; 0x26; 0x8c; 0xe0; 0x4e; 0x3d; 0xa3])
    (Uuid 0x85f630e0 0xf096 0x4c5f [0xa2; 0xcc; 0x26; 0x8c; 0xe0; 0x4e; 0x3d; 0xa3]).
Definition cmdq_drv : DRIVER_CONFIG :=
  DriverConfig 0x90400 (Uuid 0x020b0000 0x0000 0x0000 [0x00; 0x00; 0x00; 0x00; 0x00; 0x00; 0x00; 0x00])
    (cstr "drv_cmdq").
Definition cmdq_ta : TA_CONFIG :=
  TaConfig (Uuid 0x09010000 0x0000 0x0000 [0x00; 0x00; 0x00; 0x00; 0x00; 0x00; 0x00; 0x00])
    (cstr "ta_cmdq") 0x400000 None.
Definition cmdq_ids : ta_ids :=
  TaIds (cstr "09010000000000000000000000000000")
    (Uuid 0x09010000 0x0000 0x0000 [0x00; 0x00; 0x00; 0x00; 0x00; 0x00; 0x00; 0x00])
    (Uuid 0x09010000 0x0000 0x0000 [0x00; 0x00; 0x00; 0x00; 0x00; 0x00; 0x00; 0x00]).
Definition dp_hdcp_ta : TA_CONFIG :=
  TaConfig (Uuid 0xabcd270e 0xa5c4 0x4c58 [0xbc; 0xd3; 0x38; 0x4a; 0x2f; 0xa2; 0x53; 0x9e])
    (cstr "taDPHdcp") 0x400000 (Some 1024).
Definition dp_hdcp_ids : ta_ids :=
  TaIds (cstr "abcd270ea5c44c58bcd3384a2fa2539e")
    (Uuid 0xabcd270e 0xa5c4 0x4c58 [0xbc; 0xd3; 0x38; 0x4a; 0x2f; 0xa2; 0x53; 0x9e])
    (Uuid 0xabcd270e 0xa5c4 0x4c58 [0xbc; 0xd3; 0x38; 0x4a; 0x2f; 0xa2; 0x53; 0x9e]).
Definition drm_hdcp_common_drv : DRIVER_CONFIG :=
  DriverConfig 0x90510 (Uuid 0x50201701 0x15e0 0x1630 [0x20; 0x17; 0x01; 0x25; 0x21; 0x30; 0x00; 0x00])
    (cstr "drv_HDCP").
Definition fod_sample_drv : DRIVER_CONFIG :=
  DriverConfig 0x91979 (Uuid 0x08070000 0x0000 0x0000 [0x00; 0x00; 0x00; 0x00; 0x19; 0x79; 0x04; 0x14])
    (cstr "drv_fod").
Definition fod_sample_ta : TA_CONFIG :=
  TaConfig (Uuid 0x08060000 0x0000 0x0000 [0x00; 0x00; 0x00; 0x00; 0x19; 0x79; 0x04; 0x14])
    (cstr "ta_fod") 0x10000 None.
Definition fod_sample_ids : ta_ids :=
  TaIds (cstr "08060000000000000000000019790414")
    (Uuid 0x08060000 0x0000 0x0000 [0x00; 0x00; 0x00; 0x00; 0x19; 0x79; 0x04; 0x14])
    (Uuid 0x08060000 0x0000 0x0000 [0x00; 0x00; 0x00; 0x00; 0x19; 0x79; 0x04; 0x14]).
Definition imgsensor_drv : DRIVER_CONFIG :=
  DriverConfig 0x90222 (Uuid 0x07407000 0x0000 0x0000 [0x00; 0x00; 0x00; 0x00; 0x00; 0x00; 0x00; 0x00])
    (cstr "drv_imgsensor").
Definition imgsensor_ta : TA_CONFIG :=
  TaConfig (Uuid 0x7b665120 0x2121 0x4487 [0xba; 0x71; 0x0a; 0x51; 0xd7; 0xea; 0x78; 0xfe])
    (cstr "ta_imgsensor") 0x100000 None.
Definition imgsensor_ids : ta_ids :=
  TaIds (cstr "7b66512021214487ba710a51d7ea78fe")
    (Uuid 0x7b665120 0x2121 0x4487 [0xba; 0x71; 0x0a; 0x51; 0xd7; 0xea; 0x78; 0xfe])
    (Uuid 0x7b665120 0x2121 0x4487 [0xba; 0x71; 0x0a; 0x51; 0xd7; 0xea; 0x78; 0xfe]).
Definition keyinstall_drv : DRIVER_CONFIG :=
  DriverConfig 0x90310 (Uuid 0x06090000 0x0000 0x0000 [0x00; 0x00; 0x00; 0x00; 0x00; 0x00; 0x00; 0x00])
    (cstr "drv_keyinstall").
Definition keyinstall_ta : TA_CONFIG :=
  TaConfig (Uuid 0x08110000 0x0000 0x0000 [0x00; 0x00; 0x00; 0x00; 0x00; 0x00; 0x00; 0x00])
    (cstr "ta_keyinstall") 0x100000 None.
Definition keyinstall_ids : ta_ids :=
  TaIds (cstr "08110000000000000000000000000000")
    (Uuid 0x08110000 0x0000 0x0000 [0x00; 0x00; 0x00; 0x00; 0x00; 0x00; 0x00; 0x00])
    (Uuid 0x08110000 0x0000 0x0000 [0x00; 0x00; 0x00; 0x00; 0x00; 0x00; 0x00; 0x00]).
Definition m4u_drv : DRIVER_CONFIG :=
  DriverConfig 0x977aa (Uuid 0x9073f03a 0x9618 0x383b [0xb1; 0x85; 0x6e; 0xb3; 0xf9; 0x90; 0xba; 0xbd])
    (cstr "drv_m4u").
Definition m4u_ta : TA_CONFIG :=
  TaConfig (Uuid 0x98fb95bc 0xb4bf 0x42d2 [0x64; 0x73; 0xea; 0xe4; 0x86; 0x90; 0xd7; 0xea])
    (cstr "ta_m4u") 0x10000 None.
Definition m4u_ids : ta_ids :=
  TaIds (cstr "98fb95bcb4bf42d26473eae48690d7ea")
    (Uuid 0x98fb95bc 0xb4bf 0x42d2 [0x64; 0x73; 0xea; 0xe4; 0x86; 0x90; 0xd7; 0xea])
    (Uuid 0x98fb95bc 0xb4bf 0x42d2 [0x64; 0x73; 0xea; 0xe4; 0x86; 0x90; 0xd7; 0xea]).
Definition modular_drm_drv : DRIVER_CONFIG :=
  DriverConfig 0x90210 (Uuid 0x40188311 0xfaf3 0x4348 [0x8d; 0xb8; 0x88; 0xad; 0x39; 0x49; 0x6f; 0x9a])
    (cstr "drv_wvl1").
Definition modular_drm_ta : TA_CONFIG :=
  TaConfig (Uuid 0xe97c270e 0xa5c4 0x4c58 [0xbc; 0xd3; 0x38; 0x4a; 0x2f; 0xa2; 0x53; 0x9e])
    (cstr "ta_wvl1") 0x800000 (Some 1024).
Definition modular_drm_ids : ta_ids :=
  TaIds (cstr "e97c270ea5c44c58bcd3384a2fa2539e")
    (Uuid 0xe97c270e 0xa5c4 0x4c58 [0xbc; 0xd3; 0x38; 0x4a; 0x2f; 0xa2; 0x53; 0x9e])
    (Uuid 0xe97c270e 0xa5c4 0x4c58 [0xbc; 0xd3; 0x38; 0x4a; 0x2f; 0xa2; 0x53; 0x9e]).
Definition pmem_drv : DRIVER_CONFIG :=
  DriverConfig 0x93419 (Uuid 0x08050000 0x0000 0x0000 [0x00; 0x00; 0x00; 0x00; 0x00; 0x00; 0x34; 0x19])
    (cstr "drv_pmem").
Definition pmem_ta : TA_CONFIG :=
  TaConfig (Uuid 0x08040000 0x0000 0x0000 [0x00; 0x00; 0x00; 0x00; 0x00; 0x00; 0x34; 0x19])
    (cstr "ta_pmem") 0x10000 None.
Definition pmem_ids : ta_ids :=
  TaIds (cstr "08040000000000000000000000003419")
    (Uuid 0x08040000 0x0000 0x0000 [0x00; 0x00; 0x00; 0x00; 0x00; 0x00; 0x34; 0x19])
    (Uuid 0x08040000 0x0000 0x0000 [0x00; 0x00; 0x00; 0x00; 0x00; 0x00; 0x34; 0x19]).
Definition sec_drv : DRIVER_CONFIG :=
  DriverConfig 0x90300 (Uuid 0x05120000 0x0000 0x0000 [0x00; 0x00; 0x00; 0x00; 0x00; 0x00; 0x00; 0x00])
    (cstr "drv_sec").
Definition sec_ta : TA_CONFIG :=
  TaConfig (Uuid 0x05110000 0x0000 0x0000 [0x00; 0x00; 0x00; 0x00; 0x00; 0x00; 0x00; 0x00])
    (cstr "ta_sec") 0x10000 None.
Definition sec_ids : ta_ids :=
  TaIds (cstr "05110000000000000000000000000000")
    (Uuid 0x05110000 0x0000 0x0000 [0x00; 0x00; 0x00; 0x00; 0x00; 0x00; 0x00; 0x00])
    (Uuid 0x05110000 0x0000 0x0000 [0x00; 0x00; 0x00; 0x00; 0x00; 0x00; 0x00; 0x00]).
Definition secmem_drv : DRIVER_CONFIG :=
  DriverConfig 0x90727 (Uuid 0x020f0000 0x0000 0x0000 [0x00; 0x00; 0x00; 0x00; 0x00; 0x00; 0x00; 0x00])
    (cstr "drv_secmem").
Definition secmem_ta : TA_CONFIG :=
  TaConfig (Uuid 0x08030000 0x0000 0x0000 [0x00; 0x00; 0x00; 0x00; 0x00; 0x00; 0x00; 0x00])
    (cstr "ta_secmem") 0x10000 None.
Definition secmem_ids : ta_ids :=
  TaIds (cstr "08030000000000000000000000000000")
    (Uuid 0x08030000 0x0000 0x0000 [0x00; 0x00; 0x00; 0x00; 0x00; 0x00; 0x00; 0x00])
    (Uuid 0x08030000 0x0000 0x0000 [0x00; 0x00; 0x00; 0x00; 0x00; 0x00; 0x00; 0x00]).
Definition tee_sanity_drv : DRIVER_CONFIG :=
  DriverConfig 0x90305 (Uuid 0x05160000 0x0000 0x0000 [0x00; 0x00; 0x00; 0x00; 0x00; 0x00; 0x00; 0x00])
    (cstr "drv_sanity").
Definition tee_sanity_ta : TA_CONFIG :=
  TaConfig (Uuid 0x05150000 0x0000 0x0000 [0x00; 0x00; 0x00; 0x00; 0x00; 0x00; 0x00; 0x00])
    (cstr "ta_sanity") 0x401000 (Some 1024).
Definition tee_sanity_ids : ta_ids :=
  TaIds (cstr "05150000000000000000000000000000")
    (Uuid 0x05150000 0x0000 0x0000 [0x00; 0x00; 0x00; 0x00; 0x00; 0x00; 0x00; 0x00])
    (Uuid 0x05150000 0x0000 0x0000 [0x00; 0x00; 0x00; 0x00; 0x00; 0x00; 0x00; 0x00]).
Definition MtkAV1Vdec_drv : DRIVER_CONFIG :=
  DriverConfig 0x90207 (Uuid 0x09080000 0x0000 0x0000 [0x00; 0x00; 0x00; 0x00; 0x00; 0x00; 0x93; 0x81])
    (cstr "av1_drv_decoder").
Definition MtkAV1Vdec_ta : TA_CONFIG :=
  TaConfig (Uuid 0x00040000 0x0000 0x0000 [0x00; 0x00; 0x00; 0x00; 0x00; 0x00; 0x93; 0x81])
    (cstr "ta_decoder") 0x100000 None.
Definition MtkAV1Vdec_ids : ta_ids :=
  TaIds (cstr "00040000000000000000000000009381")
    (Uuid 0x00040000 0x0000 0x0000 [0x00; 0x00; 0x00; 0x00; 0x00; 0x00; 0x93; 0x81])
    (Uuid 0x00040000 0x0000 0x0000 [0x00; 0x00; 0x00; 0x00; 0x00; 0x00; 0x93; 0x81]).
Definition MtkH264Vdec_drv : DRIVER_CONFIG :=
  DriverConfig 0x90203 (Uuid 0x07060000 0x0000 0x0000 [0x00; 0x00; 0x00; 0x00; 0x00; 0x00; 0x71; 0x69])
    (cstr "drv_decoder").
Definition MtkH264Vdec_ta : TA_CONFIG :=
  TaConfig (Uuid 0x08020000 0x0000 0x0000 [0x00; 0x00; 0x00; 0x00; 0x00; 0x00; 0x71; 0x69])
    (cstr "ta_decoder") 0x100000 None.
Definition MtkH264Vdec_ids : ta_ids :=
  TaIds (cstr "08020000000000000000000000007169")
    (Uuid 0x08020000 0x0000 0x0000 [0x00; 0x00; 0x00; 0x00; 0x00; 0x00; 0x71; 0x69])
    (Uuid 0x08020000 0x0000 0x0000 [0x00; 0x00; 0x00; 0x00; 0x00; 0x00; 0x71; 0x69]).
Definition MtkH264Venc_drv : DRIVER_CONFIG :=
  DriverConfig 0x90204 (Uuid 0x07070000 0x0000 0x0000 [0x00; 0x00; 0x00; 0x00; 0x00; 0x00; 0x00; 0x00])
    (cstr "drv_encoder").
Definition MtkH264Venc_ta : TA_CONFIG :=
  TaConfig (Uuid 0x08090000 0x0000 0x0000 [0x00; 0x00; 0x00; 0x00; 0x00; 0x00; 0x00; 0x00])
    (cstr "ta_encoder") 0x100000 None.
Definition MtkH264Venc_ids : ta_ids :=
  TaIds (cstr "08090000000000000000000000000000")
    (Uuid 0x08090000 0x0000 0x0000 [0x00; 0x00; 0x00; 0x00; 0x00; 0x00; 0x00; 0x00])
    (Uuid 0x08090000 0x0000 0x0000 [0x00; 0x00; 0x00; 0x00; 0x00; 0x00; 0x00; 0x00]).
Definition MtkH265Vdec_drv : DRIVER_CONFIG :=
  DriverConfig 0x90205 (Uuid 0x4be4f7dc 0x1f2c 0x11e5 [0xb5; 0xf7; 0x72; 0x72; 0x83; 0x24; 0x7c; 0x7f])
    (cstr "h265_drv_decoder").
Definition MtkH265Vdec_ta : TA_CONFIG :=
  TaConfig (Uuid 0x4be4fd22 0x1f2c 0x11e5 [0xb5; 0xf7; 0x72; 0x72; 0x83; 0x24; 0x7c; 0x7f])
    (cstr "ta_decoder") 0x100000 None.
Definition MtkH265Vdec_ids : ta_ids :=
  TaIds (cstr "4be4fd221f2c11e5b5f7727283247c7f")
    (Uuid 0x4be4fd22 0x1f2c 0x11e5 [0xb5; 0xf7; 0x72; 0x72; 0x83; 0x24; 0x7c; 0x7f])
    (Uuid 0x4be4fd22 0x1f2c 0x11e5 [0xb5; 0xf7; 0x72; 0x72; 0x83; 0x24; 0x7c; 0x7f]).
Definition MtkVP9Vdec_drv : DRIVER_CONFIG :=
  DriverConfig 0x90206 (Uuid 0x08070000 0x0000 0x0000 [0x00; 0x00; 0x00; 0x00; 0x00; 0x00; 0x82; 0x70])
    (cstr "vp9_drv_decoder").
Definition MtkVP9Vdec_ta : TA_CONFIG :=
  TaConfig (Uuid 0x09030000 0x0000 0x0000 [0x00; 0x00; 0x00; 0x00; 0x00; 0x00; 0x82; 0x70])
    (cstr "ta_decoder") 0x100000 None.
Definition MtkVP9Vdec_ids : ta_ids :=
  TaIds (cstr "09030000000000000000000000008270")
    (Uuid 0x09030000 0x0000 0x0000 [0x00; 0x00; 0x00; 0x00; 0x00; 0x00; 0x82; 0x70])
    (Uuid 0x09030000 0x0000 0x0000 [0x00; 0x00; 0x00; 0x00; 0x00; 0x00; 0x82; 0x70]).

(** What the repository packages. *)
Definition trusted_applications : list (ta_ids * TA_CONFIG) :=
  [(isp_ids, isp_ta);
   (cmdq_ids, cmdq_ta);
   (dp_hdcp_ids, dp_hdcp_ta);
   (fod_sample_ids, fod_sample_ta);
   (imgsensor_ids, imgsensor_ta);
   (keyinstall_ids, keyinstall_ta);
   (m4u_ids, m4u_ta);
   (modular_drm_ids, modular_drm_ta);
   (pmem_ids, pmem_ta);
   (sec_ids, sec_ta);
   (secmem_ids, secmem_ta);
   (tee_sanity_ids, tee_sanity_ta);
   (MtkAV1Vdec_ids, MtkAV1Vdec_ta);
   (MtkH264Vdec_ids, MtkH264Vdec_ta);
   (MtkH264Venc_ids, MtkH264Venc_ta);
   (MtkH265Vdec_ids, MtkH265Vdec_ta);
   (MtkVP9Vdec_ids, MtkVP9Vdec_ta)].
Definition drivers : list DRIVER_CONFIG :=
  [isp_drv; cmdq_drv; drm_hdcp_common_drv; fod_sample_drv; imgsensor_drv; keyinstall_drv; m4u_drv; modular_drm_drv; pmem_drv; sec_drv; secmem_drv; tee_sanity_drv; MtkAV1Vdec_drv; MtkH264Vdec_drv; MtkH264Venc_drv; MtkH265Vdec_drv; MtkVP9Vdec_drv].

(** The auxiliary element ta/manifest.c of tee_sanity adds to its image: tag,
    size of the element, requested stack size. *)
Record ta_elf_aux_mword_t := AuxMword { aux_type : Z; aux_length : Z; aux_value : Z }.
Definition TA_ELF_AUX_T_STACK_SIZE := 2.
Definition sanity_stack : ta_elf_aux_mword_t := AuxMword TA_ELF_AUX_T_STACK_SIZE 12 0x100000.

(** ** Names of UUIDs *)

(** Lower-case hexadecimal digits of a byte string. *)
Definition hex_digit (d : Z) : Z := if d <? 10 then 48 + d else 87 + d.
Definition hex (b : bytes) : bytes := b ≫= fun x => [hex_digit (x / 16); hex_digit (x mod 16)].

#[export] Instance uuid_eq_dec : EqDecision TEEC_UUID.
Proof. solve_decision. Defined.

(** The checks on one application, and on the whole table, as tests. *)
Definition uuid_ok (u : TEEC_UUID) : bool :=
  (0 <=? timeLow u) && (timeLow u <? 2 ^ 32) && (0 <=? timeMid u) && (timeMid u <? 2 ^ 16) &&
  (0 <=? timeHiAndVersion u) && (timeHiAndVersion u <? 2 ^ 16) &&
  (length (clockSeqAndNode u) =? 8)%nat && forallb (fun x => (0 <=? x) && (x <? 2 ^ 8)) (clockSeqAndNode u).

Definition ta_consistent (t : ta_ids * TA_CONFIG) : bool :=
  bool_decide (TA_UUID t.1 = bta_uuid t.1) && bool_decide (ta_config_uuid t.2 = bta_uuid t.1) &&
  bool_decide (host_name t.1 = hex (uuid_to_octets (bta_uuid t.1))) && uuid_ok (bta_uuid t.1) &&
  (0 <? ipc_buf_size t.2) && (ipc_buf_size t.2 mod 4096 =? 0).

Lemma uuid_ok_wf u : uuid_ok u = true -> uuid_wf u.
Proof.
  unfold uuid_ok. rewrite !andb_true_iff, !Z.leb_le, !Z.ltb_lt, Nat.eqb_eq.
  intros [[[[[[[? ?] ?] ?] ?] ?] ?] Hb]. split_and!; try done.
  apply Forall_forall. intros x Hx. rewrite forallb_forall in Hb.
  specialize (Hb x ltac:(by apply list_elem_of_In)). apply andb_true_iff in Hb as [??]. unfold is_u8. lia.
Qed.

(** The packages are consistent: every trusted application's string is the
    hexadecimal form of the octets the client library sends for its UUID, both
    structures and the manifest agree with it, and its IPC buffer is a positive
    number of pages; no two applications or drivers share a UUID, and no two
    drivers share a driver id. *)
Theorem packages_consistent :
  (forall ids cfg, (ids, cfg) ∈ trusted_applications ->
     host_name ids = hex (uuid_to_octets (bta_uuid ids)) /\ TA_UUID ids = bta_uuid ids /\
     ta_config_uuid cfg = bta_uuid ids /\ uuid_wf (bta_uuid ids) /\
     0 < ipc_buf_size cfg /\ ipc_buf_size cfg mod 4096 = 0) /\
  NoDup (((bta_uuid ∘ fst) <$> trusted_applications) ++ (drv_config_uuid <$> drivers)) /\
  NoDup (driver_id <$> drivers).
Proof.
  split.
  - assert (forallb ta_consistent trusted_applications = true) as H by (vm_compute; reflexivity).
    intros ids cfg Hin. rewrite forallb_forall in H.
    specialize (H (ids, cfg) ltac:(by apply list_elem_of_In)). unfold ta_consistent in H. simpl in H.
    rewrite !andb_true_iff in H. destruct H as [[[[[H1 H2] H3] H4] H5] H6].
    apply bool_decide_eq_true in H1, H2, H3. apply uuid_ok_wf in H4. split_and!; try done; lia.
  - split; apply (bool_decide_unpack _); vm_compute; reflexivity.
Qed.
