(* ===== verification/KmParams.v ===== *)
(** * Key parameters of the keymaster HAL (km4.1/40/BeanpodKeymaster4Device.cpp)

    The HAL's clients pass key parameters as HIDL structures, the keymaster
    library works on tagged unions.  [KmParamSet] and [kmParamSet2Hidl] convert
    between the two; which member of the union is meant is decided by the type
    of the tag. *)

From S2P Require Import Prelude.

(** ** hardware/keymaster_defs.h *)

(** keymaster_tag_type_t; the last constructor stands for every other number. *)
Inductive keymaster_tag_type_t :=
| KM_INVALID | KM_ENUM | KM_ENUM_REP | KM_UINT | KM_UINT_REP | KM_ULONG | KM_DATE | KM_BOOL | KM_BIGNUM | KM_BYTES
| KM_ULONG_REP | KM_TYPE_UNKNOWN.

(** The header's inline functions and its [keymaster_key_param_t]: a tag and a
    union of values. *)
Class KeymasterDefs (P : Type) := {
  keymaster_tag_get_type : Z -> keymaster_tag_type_t;
  KM_TAG_INVALID : Z; TAG_APPLICATION_ID : Z; TAG_APPLICATION_DATA : Z; TAG_AUTH_TOKEN : Z;
  tag : P -> Z;
  set_tag : Z -> P -> P;
  enumerated : P -> Z; integer : P -> Z; long_integer : P -> Z; date_time : P -> Z; boolean : P -> bool;
  blob : P -> bytes;
  keymaster_param_enum : Z -> Z -> P;
  keymaster_param_int : Z -> Z -> P;
  keymaster_param_long : Z -> Z -> P;
  keymaster_param_date : Z -> Z -> P;
  keymaster_param_bool : Z -> P;
  keymaster_param_blob : Z -> bytes -> P;
}.

(** What the header documents of them: a constructor stores its tag and its
    value in the member it is named after, and a boolean parameter is true. *)
Class KeymasterDefsLaws (P : Type) `{D : KeymasterDefs P} := {
  type_of_invalid : keymaster_tag_get_type KM_TAG_INVALID = KM_INVALID;
  tag_set_tag : forall t p, tag (set_tag t p) = t;
  tag_enum : forall t v, tag (keymaster_param_enum t v) = t;
  tag_int : forall t v, tag (keymaster_param_int t v) = t;
  tag_long : forall t v, tag (keymaster_param_long t v) = t;
  tag_date : forall t v, tag (keymaster_param_date t v) = t;
  tag_bool : forall t, tag (keymaster_param_bool t) = t;
  tag_blob : forall t b, tag (keymaster_param_blob t b) = t;
  enumerated_enum : forall t v, enumerated (keymaster_param_enum t v) = v;
  integer_int : forall t v, integer (keymaster_param_int t v) = v;
  long_long : forall t v, long_integer (keymaster_param_long t v) = v;
  date_date : forall t v, date_time (keymaster_param_date t v) = v;
  boolean_bool : forall t, boolean (keymaster_param_bool t) = true;
  blob_blob : forall t b, blob (keymaster_param_blob t b) = b;
}.
Create Rewrite HintDb kmparams.
#[export] Hint Rewrite @type_of_invalid @tag_set_tag @tag_enum @tag_int @tag_long @tag_date @tag_bool @tag_blob
  @enumerated_enum @integer_int @long_long @date_date @boolean_bool @blob_blob using typeclasses eauto : kmparams.

(** keymaster_key_param_set_t: the array with its length; [None] is the null
    pointer. *)
Definition keymaster_key_param_set_t (P : Type) := option (list P).

(** ** The HIDL side *)

(** KeyParameter of the HIDL interface: [f] is a union of eight bytes, read and
    written in little-endian order. *)
Record KeyParameter := MkKeyParameter { kp_tag : Z; kp_f : Z; kp_blob : bytes }.

Definition f_integer (f : Z) : Z := u32 f.
Definition f_longInteger (f : Z) : Z := u64 f.
Definition f_dateTime (f : Z) : Z := u64 f.
Definition f_boolValue (f : Z) : bool := negb (f mod 2 ^ 8 =? 0).

(** An assignment to a member leaves the other bytes of the union. *)
Definition put_integer (v f : Z) : Z := f - u32 f + u32 v.
Definition put_longInteger (v f : Z) : Z := f - u64 f + u64 v.
Definition put_dateTime (v f : Z) : Z := f - u64 f + u64 v.
Definition put_boolValue (v : bool) (f : Z) : Z := f - f mod 2 ^ 8 + (if v then 1 else 0).

(** legacy_enum_conversion: enumerations keep their number. *)
Definition legacy_enum_conversion (value : Z) : Z := value.

Section Conversion.
Context {P : Type} `{D : KeymasterDefs P}.

Definition typeFromTag (tag : Z) : keymaster_tag_type_t := keymaster_tag_get_type tag.

(** What [new keymaster_key_param_t\[n\]] leaves in the elements, and the union
    of a fresh HIDL parameter. *)
Context (uninit : nat -> P) (fresh_f : Z).

(** One round of the loop of the constructor, for [params\[i\]]. *)
Definition KmParam (i : nat) (p : KeyParameter) : P :=
  let tag := legacy_enum_conversion (kp_tag p) in
  match typeFromTag tag with
  | KM_ENUM | KM_ENUM_REP => keymaster_param_enum tag (f_integer (kp_f p))
  | KM_UINT | KM_UINT_REP => keymaster_param_int tag (f_integer (kp_f p))
  | KM_ULONG | KM_ULONG_REP => keymaster_param_long tag (f_longInteger (kp_f p))
  | KM_DATE => keymaster_param_date tag (f_dateTime (kp_f p))
  | KM_BOOL => if f_boolValue (kp_f p) then keymaster_param_bool tag else set_tag KM_TAG_INVALID (uninit i)
  | KM_BIGNUM | KM_BYTES => keymaster_param_blob tag (kp_blob p)
  | KM_INVALID | KM_TYPE_UNKNOWN => set_tag KM_TAG_INVALID (uninit i)
  end.
Definition KmParamSet (keyParams : list KeyParameter) : list P := imap KmParam keyParams.

(** One round of the loop back: the HIDL parameter and what [params\[i\]] is
    afterwards (a tag without a type is overwritten in the source). *)
Definition kmParam2Hidl (param : P) : KeyParameter * P :=
  let t := tag param in
  let result := MkKeyParameter (legacy_enum_conversion t) fresh_f [] in
  let with_f f := MkKeyParameter (kp_tag result) f (kp_blob result) in
  match typeFromTag t with
  | KM_ENUM | KM_ENUM_REP => (with_f (put_integer (enumerated param) (kp_f result)), param)
  | KM_UINT | KM_UINT_REP => (with_f (put_integer (integer param) (kp_f result)), param)
  | KM_ULONG | KM_ULONG_REP => (with_f (put_longInteger (long_integer param) (kp_f result)), param)
  | KM_DATE => (with_f (put_dateTime (date_time param) (kp_f result)), param)
  | KM_BOOL => (with_f (put_boolValue (boolean param) (kp_f result)), param)
  | KM_BIGNUM | KM_BYTES => (MkKeyParameter (kp_tag result) (kp_f result) (blob param), param)
  | KM_INVALID | KM_TYPE_UNKNOWN => (result, set_tag KM_TAG_INVALID param)
  end.
Definition kmParamSet2Hidl (set : keymaster_key_param_set_t P)
    : list KeyParameter * keymaster_key_param_set_t P :=
  match set with
  | None | Some [] => ([], set)
  | Some params => let r := map kmParam2Hidl params in (r.*1, Some (r.*2))
  end.

(** A chain of certificates; [None] is the null pointer. *)
Definition kmCertChain2Hidl (cert_chain : option (list bytes)) : list bytes :=
  match cert_chain with
  | None | Some [] => []
  | Some entries => entries
  end.
End Conversion.

(** ** What a parameter says *)

(** A HIDL parameter as its tag tells a reader to take it. *)
Inductive reading :=
| RInteger (v : Z) | RLong (v : Z) | RDate (v : Z) | RBool (b : bool) | RBlob (b : bytes) | RNothing.
#[export] Instance reading_eq_dec : EqDecision reading.
Proof. solve_decision. Defined.

Section Reading.
Context {P : Type} `{L : KeymasterDefsLaws P} (uninit : nat -> P) (fresh_f : Z).

Definition read_param (p : KeyParameter) : Z * reading :=
  (kp_tag p,
   match keymaster_tag_get_type (kp_tag p) with
   | KM_ENUM | KM_ENUM_REP | KM_UINT | KM_UINT_REP => RInteger (f_integer (kp_f p))
   | KM_ULONG | KM_ULONG_REP => RLong (f_longInteger (kp_f p))
   | KM_DATE => RDate (f_dateTime (kp_f p))
   | KM_BOOL => RBool (f_boolValue (kp_f p))
   | KM_BIGNUM | KM_BYTES => RBlob (kp_blob p)
   | KM_INVALID | KM_TYPE_UNKNOWN => RNothing
   end).

(** A false boolean and a tag without a type cannot be expressed in the
    library's parameters: the entry becomes the invalid tag. *)
Definition expressible (r : Z * reading) : Z * reading :=
  match r.2 with RBool false | RNothing => (KM_TAG_INVALID, RNothing) | _ => r end.

Lemma f_integer_put v f : f_integer (put_integer v f) = u32 v.
Proof. unfold f_integer, put_integer, u32. Z.div_mod_to_equations. lia. Qed.
Lemma f_longInteger_put v f : f_longInteger (put_longInteger v f) = u64 v.
Proof. unfold f_longInteger, put_longInteger, u64. Z.div_mod_to_equations. lia. Qed.
Lemma f_dateTime_put v f : f_dateTime (put_dateTime v f) = u64 v.
Proof. apply f_longInteger_put. Qed.
Lemma f_boolValue_put v f : f_boolValue (put_boolValue v f) = v.
Proof. unfold f_boolValue, put_boolValue. destruct v; Z.div_mod_to_equations; lia. Qed.

Lemma u32_u32 v : u32 (u32 v) = u32 v.
Proof. unfold u32. by rewrite Zmod_mod. Qed.
Lemma u64_u64 v : u64 (u64 v) = u64 v.
Proof. unfold u64. by rewrite Zmod_mod. Qed.

(** There and back, for one entry. *)
Lemma param_roundtrip i p :
  read_param (kmParam2Hidl fresh_f (KmParam uninit i p)).1 = expressible (read_param p).
Proof.
  unfold read_param, expressible, KmParam, typeFromTag, legacy_enum_conversion. simpl.
  destruct (keymaster_tag_get_type (kp_tag p)) eqn:Ht; simpl;
    try (destruct (f_boolValue (kp_f p)) eqn:Hb); unfold kmParam2Hidl, typeFromTag, legacy_enum_conversion;
    autorewrite with kmparams; rewrite ?Ht; simpl; autorewrite with kmparams; rewrite ?Ht; simpl;
    rewrite ?f_integer_put, ?f_longInteger_put, ?f_dateTime_put, ?f_boolValue_put;
    unfold f_integer, f_longInteger, f_dateTime; by rewrite ?u32_u32, ?u64_u64.
Qed.
End Reading.
