(* ===== verification/Keymaster4Device.v ===== *)
(** * The keymaster device classes (lite and 400, km4.1/40 and km4.1/41)

    BeanpodKeymaster4Device.cpp and BeanpodKeymaster41Device.cpp: the classes
    behind the HIDL interfaces IKeymasterDevice 4.0 and 4.1.  A method builds
    the library's request, has it forwarded by [BeanpodKeymaster.v] and calls
    the client back with the converted response; the arguments of the callback
    are the result of the definition.  The requests and responses are indexed by
    their command, so that how the library writes and reads them is one pair of
    functions.  The two copies of the sources agree in all of this. *)

From S2P Require Import Prelude Kernel KmLib BeanpodKeymaster KeyMintOperation KmParams.

(** ** Messages of the keymaster library *)

(** keymaster::AuthorizationSet as the device uses it, next to what
    [GenerateKey] needs: copying an array of parameters in, clearing it,
    appending a blob, and its array. *)
Class ParamSet (P A : Type) := {
  param_set :: AuthorizationSet A;
  Reinitialize : list P -> A;
  Clear : A -> A;
  push_back_blob : Z -> bytes -> A -> A;
  set_params : A -> keymaster_key_param_set_t P;
}.

Record HmacSharingParameters := MkHmacParams { hp_seed : bytes; hp_nonce : bytes }.
Record VerificationToken (L : Type) := MkVerification {
  vt_challenge : Z; vt_timestamp : Z; vt_params : L; vt_security : Z; vt_mac : bytes
}.
Arguments MkVerification {L}.
Arguments vt_challenge {L} v.
Arguments vt_timestamp {L} v.
Arguments vt_params {L} v.
Arguments vt_security {L} v.
Arguments vt_mac {L} v.

Section Messages.
Context (A : Type).

Record VerifyRequest := MkVerify { vr_challenge : Z; vr_params : A; vr_token : HardwareAuthToken }.
Record KeyRequest := MkKeyReq { kr_key : bytes; kr_params : A }.
Record ImportRequest := MkImportReq { ir_description : A; ir_format : Z; ir_data : bytes }.
Record WrappedRequest := MkWrappedReq {
  wr_wrapped : bytes; wr_wrapping : bytes; wr_masking : bytes; wr_params : A; wr_password_sid : Z; wr_biometric_sid : Z
}.
Record ExportRequest := MkExportReq { er_format : Z; er_key : bytes; er_params : A }.
Record BeginRequest := MkBeginReq { br_purpose : Z; br_key : bytes; br_params : A }.
Record UpdateRequest := MkUpdateReq { ur_handle : Z; ur_input : bytes; ur_params : A }.
Record FinishRequest := MkFinishReq { fr_handle : Z; fr_input : bytes; fr_signature : bytes; fr_params : A }.
Record LockedRequest := MkLockedReq { lr_passwordOnly : bool; lr_token : VerificationToken A }.

(** The fields of the request class of a command. *)
Definition request_fields (c : keymaster_command) : Type :=
  match c with
  | KM_COMPUTE_SHARED_HMAC => list HmacSharingParameters
  | KM_VERIFY_AUTHORIZATION => VerifyRequest
  | KM_ADD_RNG_ENTROPY => bytes
  | KM_GENERATE_KEY => GenerateKeyRequest A
  | KM_GET_KEY_CHARACTERISTICS | KM_ATTEST_KEY | KM_UPGRADE_KEY => KeyRequest
  | KM_IMPORT_KEY => ImportRequest
  | KM_IMPORT_WRAPPED_KEY => WrappedRequest
  | KM_EXPORT_KEY => ExportRequest
  | KM_BEGIN_OPERATION => BeginRequest
  | KM_UPDATE_OPERATION => UpdateRequest
  | KM_FINISH_OPERATION => FinishRequest
  | KM_ABORT_OPERATION => Z
  | KM_DEVICE_LOCKED => LockedRequest
  | _ => unit
  end.

Record CreatedKey := MkCreated { key_blob : bytes; enforced : A; unenforced : A }.
Record Characteristics := MkChars { ch_enforced : A; ch_unenforced : A }.
Record BegunOperation := MkBegun { op_handle : Z; begin_output : A }.
Record UpdatedOperation := MkUpdated { input_consumed : Z; update_params : A; update_output : bytes }.
Record FinishedOperation := MkFinished { finish_params : A; finish_output : bytes }.

(** The fields of its response class, besides the error. *)
Definition response_fields (c : keymaster_command) : Type :=
  match c with
  | KM_GET_HMAC_SHARING_PARAMETERS => HmacSharingParameters
  | KM_COMPUTE_SHARED_HMAC => bytes
  | KM_VERIFY_AUTHORIZATION => VerificationToken A
  | KM_GENERATE_KEY | KM_IMPORT_KEY | KM_IMPORT_WRAPPED_KEY => CreatedKey
  | KM_GET_KEY_CHARACTERISTICS => Characteristics
  | KM_EXPORT_KEY => bytes
  | KM_ATTEST_KEY => option (list bytes)
  | KM_UPGRADE_KEY => bytes
  | KM_BEGIN_OPERATION => BegunOperation
  | KM_UPDATE_OPERATION => UpdatedOperation
  | KM_FINISH_OPERATION => FinishedOperation
  | _ => unit
  end.
Record Response (c : keymaster_command) := MkResponse { error : Z; fields : response_fields c }.

(** How the library writes a request, makes a response and reads it, for the
    message version [ver]. *)
Class KeymasterWire := {
  write_request : Z -> forall c, request_fields c -> Serializable;
  new_response : Z -> forall c, Response c;
  read_response : forall c, Response c -> bytes -> bool * Response c;
}.
End Messages.
Arguments MkVerify {A}.
Arguments MkKeyReq {A}.
Arguments MkImportReq {A}.
Arguments MkWrappedReq {A}.
Arguments MkExportReq {A}.
Arguments MkBeginReq {A}.
Arguments MkUpdateReq {A}.
Arguments MkFinishReq {A}.
Arguments MkLockedReq {A}.
Arguments MkCreated {A}.
Arguments key_blob {A} c.
Arguments enforced {A} c.
Arguments unenforced {A} c.
Arguments MkChars {A}.
Arguments ch_enforced {A} c.
Arguments ch_unenforced {A} c.
Arguments MkBegun {A}.
Arguments op_handle {A} b.
Arguments begin_output {A} b.
Arguments MkUpdated {A}.
Arguments input_consumed {A} u.
Arguments update_params {A} u.
Arguments update_output {A} u.
Arguments MkFinished {A}.
Arguments finish_params {A} f.
Arguments finish_output {A} f.
Arguments MkResponse {A c} error fields.
Arguments error {A c} r.
Arguments fields {A c} r.
Arguments write_request {A _} ver c fields.
Arguments new_response {A _} ver c.
Arguments read_response {A _ c} r b.

#[export] Instance wire_response {A c} `{KeymasterWire A} : KeymasterResponse (Response A c) :=
  {| Deserialize := read_response; rsp_error := error;
     set_error := fun r e => MkResponse e (fields r); rsp_error_set := fun r e => eq_refl |}.

(** ** The 4.0 device *)

Definition ver := 3.

(** SecurityLevel, and the member the constructor sets. *)
Definition SECURITY_LEVEL_TRUSTED_ENVIRONMENT := 1.
Record device := Device { securityLevel_ : Z }.
Definition BeanpodKeymaster4Device : device := Device SECURITY_LEVEL_TRUSTED_ENVIRONMENT.

Record KeyCharacteristics := MkCharacteristics {
  hardwareEnforced : list KeyParameter; softwareEnforced : list KeyParameter
}.
Definition no_characteristics : KeyCharacteristics := MkCharacteristics [] [].

Section Device.
Context {W G : Type} `{K : Kernel W} `{I : !KeymasterIpc W G}.
Abbreviation DM := (M W G).
Context {P A : Type} `{D : KeymasterDefs P} `{S : !ParamSet P A} `{N : KeymasterWire A}.
(** The contents of fresh arrays, see [KmParams.v], and the library's clock. *)
Context (uninit : nat -> P) (fresh_f : Z) (fresh_nonce : bytes) (java_time : Z -> Z).

Abbreviation params_in ps := (Reinitialize (KmParamSet uninit ps)).
Abbreviation params_out a := (kmParamSet2Hidl fresh_f (set_params a)).1.
Abbreviation reply c r := (r : Response A c).

Definition addClientAndAppData (clientId appData : bytes) (params : A) : A :=
  let params := Clear params in
  let params := if negb (zlen clientId =? 0) then push_back_blob TAG_APPLICATION_ID clientId params else params in
  if negb (zlen appData =? 0) then push_back_blob TAG_APPLICATION_DATA appData params else params.

Definition getHardwareInfo (self : device) : Z * bytes * bytes :=
  (securityLevel_ self, cstr "BeanpodwareKeymasterDevice", cstr "Beanpod").

(** The local structure, handed out as it is when there is no answer; nothing
    was written to its nonce then. *)
Definition no_sharing_parameters : HmacSharingParameters := MkHmacParams [] fresh_nonce.

Definition getHmacSharingParameters : DM (Z * HmacSharingParameters) :=
  response ← GetHmacSharingParameters (new_response ver KM_GET_HMAC_SHARING_PARAMETERS);
  let response := reply KM_GET_HMAC_SHARING_PARAMETERS response in
  mret (legacy_enum_conversion (error response),
        if error response =? KM_ERROR_OK then fields response else no_sharing_parameters).

Definition computeSharedHmac (params : list HmacSharingParameters) : DM (Z * bytes) :=
  response ← ComputeSharedHmac (write_request ver KM_COMPUTE_SHARED_HMAC params) (new_response ver KM_COMPUTE_SHARED_HMAC);
  let response := reply KM_COMPUTE_SHARED_HMAC response in
  mret (legacy_enum_conversion (error response), if error response =? KM_ERROR_OK then fields response else []).

(** The token is handed out whatever the error. *)
Definition verifyAuthorization (challenge : Z) (parametersToVerify : list KeyParameter) (authToken : HardwareAuthToken)
    : DM (Z * VerificationToken (list KeyParameter)) :=
  response ← VerifyAuthorization
               (write_request ver KM_VERIFY_AUTHORIZATION (MkVerify challenge (params_in parametersToVerify) authToken))
               (new_response ver KM_VERIFY_AUTHORIZATION);
  let response := reply KM_VERIFY_AUTHORIZATION response in
  let t := fields response in
  mret (legacy_enum_conversion (error response),
        MkVerification (vt_challenge t) (vt_timestamp t) (params_out (vt_params t)) (legacy_enum_conversion (vt_security t))
          (vt_mac t)).

Definition addRngEntropy (data : bytes) : DM Z :=
  if zlen data =? 0 then mret KM_ERROR_OK
  else
    response ← AddRngEntropy (write_request ver KM_ADD_RNG_ENTROPY data) (new_response ver KM_ADD_RNG_ENTROPY);
    let response := reply KM_ADD_RNG_ENTROPY response in
    mret (legacy_enum_conversion (error response)).

(** What the three ways to create a key call the client back with. *)
Definition created (err : Z) (k : CreatedKey A) : Z * bytes * KeyCharacteristics :=
  if err =? KM_ERROR_OK
  then (legacy_enum_conversion err, key_blob k, MkCharacteristics (params_out (enforced k)) (params_out (unenforced k)))
  else (legacy_enum_conversion err, [], no_characteristics).

Definition generateKey (keyParams : list KeyParameter) : DM (Z * bytes * KeyCharacteristics) :=
  response ← GenerateKey java_time (write_request ver KM_GENERATE_KEY)
               (MkGenerateKeyRequest ver (params_in keyParams)) (new_response ver KM_GENERATE_KEY);
  let response := reply KM_GENERATE_KEY response in
  mret (created (error response) (fields response)).

Definition getKeyCharacteristics (keyBlob clientId appData : bytes) : DM (Z * KeyCharacteristics) :=
  response ← GetKeyCharacteristics
               (write_request ver KM_GET_KEY_CHARACTERISTICS
                  (MkKeyReq keyBlob (addClientAndAppData clientId appData (Reinitialize []))))
               (new_response ver KM_GET_KEY_CHARACTERISTICS);
  let response := reply KM_GET_KEY_CHARACTERISTICS response in
  let k := fields response in
  mret (legacy_enum_conversion (error response),
        if error response =? KM_ERROR_OK
        then MkCharacteristics (params_out (ch_enforced k)) (params_out (ch_unenforced k)) else no_characteristics).

Definition importKey (params : list KeyParameter) (keyFormat : Z) (keyData : bytes) : DM (Z * bytes * KeyCharacteristics) :=
  response ← ImportKey
               (write_request ver KM_IMPORT_KEY (MkImportReq (params_in params) (legacy_enum_conversion keyFormat) keyData))
               (new_response ver KM_IMPORT_KEY);
  let response := reply KM_IMPORT_KEY response in
  mret (created (error response) (fields response)).

Definition importWrappedKey (wrappedKeyData wrappingKeyBlob maskingKey : bytes) (unwrappingParams : list KeyParameter)
    (passwordSid biometricSid : Z) : DM (Z * bytes * KeyCharacteristics) :=
  response ← ImportWrappedKey
               (write_request ver KM_IMPORT_WRAPPED_KEY
                  (MkWrappedReq wrappedKeyData wrappingKeyBlob maskingKey (params_in unwrappingParams) passwordSid biometricSid))
               (new_response ver KM_IMPORT_WRAPPED_KEY);
  let response := reply KM_IMPORT_WRAPPED_KEY response in
  mret (created (error response) (fields response)).

Definition exportKey (exportFormat : Z) (keyBlob clientId appData : bytes) : DM (Z * bytes) :=
  response ← ExportKey
               (write_request ver KM_EXPORT_KEY
                  (MkExportReq (legacy_enum_conversion exportFormat) keyBlob
                     (addClientAndAppData clientId appData (Reinitialize []))))
               (new_response ver KM_EXPORT_KEY);
  let response := reply KM_EXPORT_KEY response in
  mret (legacy_enum_conversion (error response), if error response =? KM_ERROR_OK then fields response else []).

Definition attestKey (keyToAttest : bytes) (attestParams : list KeyParameter) : DM (Z * list bytes) :=
  response ← AttestKey (write_request ver KM_ATTEST_KEY (MkKeyReq keyToAttest (params_in attestParams)))
               (new_response ver KM_ATTEST_KEY);
  let response := reply KM_ATTEST_KEY response in
  mret (legacy_enum_conversion (error response),
        if error response =? KM_ERROR_OK then kmCertChain2Hidl (fields response) else []).

Definition upgradeKey (keyBlobToUpgrade : bytes) (upgradeParams : list KeyParameter) : DM (Z * bytes) :=
  response ← UpgradeKey (write_request ver KM_UPGRADE_KEY (MkKeyReq keyBlobToUpgrade (params_in upgradeParams)))
               (new_response ver KM_UPGRADE_KEY);
  let response := reply KM_UPGRADE_KEY response in
  if error response =? KM_ERROR_OK then mret (KM_ERROR_OK, fields response)
  else mret (legacy_enum_conversion (error response), []).

Definition deleteKey (keyBlob : bytes) : DM Z := mret KM_ERROR_UNIMPLEMENTED.
Definition deleteAllKeys : DM Z := mret KM_ERROR_UNIMPLEMENTED.
Definition destroyAttestationIds : DM Z := mret KM_ERROR_UNIMPLEMENTED.

(** ** Operations *)

(** The packed token the three methods append to their parameters; the
    [memcpy] of the client's [mac] into its 32 bytes is not bounded. *)
Definition push_auth_token (authToken : HardwareAuthToken) (params : A) : DM A :=
  if sizeof_hmac <? zlen (mac authToken) then halt Undefined
  else
    let token := hw_auth_token_enc authToken (splice (replicate (Z.to_nat sizeof_hmac) 0) 0 (mac authToken)) in
    mret (push_back_blob TAG_AUTH_TOKEN token params).

(** The handle is handed out whatever the error. *)
Definition begin (purpose : Z) (key : bytes) (inParams : list KeyParameter) (authToken : HardwareAuthToken)
    : DM (Z * list KeyParameter * Z) :=
  additional_params ← push_auth_token authToken (params_in inParams);
  response ← BeginOperation
               (write_request ver KM_BEGIN_OPERATION (MkBeginReq (legacy_enum_conversion purpose) key additional_params))
               (new_response ver KM_BEGIN_OPERATION);
  let response := reply KM_BEGIN_OPERATION response in
  let b := fields response in
  mret (legacy_enum_conversion (error response),
        (if error response =? KM_ERROR_OK then params_out (begin_output b) else []), op_handle b).

Definition abort (operationHandle : Z) : DM Z :=
  response ← AbortOperation (write_request ver KM_ABORT_OPERATION operationHandle) (new_response ver KM_ABORT_OPERATION);
  let response := reply KM_ABORT_OPERATION response in
  mret (legacy_enum_conversion (error response)).

(** Calling [abort] is a virtual call: [abort_] is the method of the object's
    own class.  A request that was too long for the transport ends the
    operation. *)
Section Virtual.
Context (abort_ : Z -> DM Z).

Definition too_long (operationHandle err : Z) : DM Z :=
  if err =? BEANPOD_KM_INVALID_INPUT_LENGTH then abort_ operationHandle;; mret KM_ERROR_INVALID_INPUT_LENGTH
  else mret err.

Definition update (operationHandle : Z) (inParams : list KeyParameter) (input : bytes) (authToken : HardwareAuthToken)
    (verificationToken : VerificationToken (list KeyParameter)) : DM (Z * Z * list KeyParameter * bytes) :=
  additional_params ← push_auth_token authToken (params_in inParams);
  response ← UpdateOperation (write_request ver KM_UPDATE_OPERATION (MkUpdateReq operationHandle input additional_params))
               (new_response ver KM_UPDATE_OPERATION);
  let response := reply KM_UPDATE_OPERATION response in
  let u := fields response in
  if error response =? KM_ERROR_OK then
    mret (legacy_enum_conversion (error response), input_consumed u, params_out (update_params u), update_output u)
  else
    err ← too_long operationHandle (error response);
    mret (legacy_enum_conversion err, 0, [], []).

Definition finish (operationHandle : Z) (inParams : list KeyParameter) (input signature : bytes)
    (authToken : HardwareAuthToken) (verificationToken : VerificationToken (list KeyParameter))
    : DM (Z * list KeyParameter * bytes) :=
  additional_params ← push_auth_token authToken (params_in inParams);
  response ← FinishOperation
               (write_request ver KM_FINISH_OPERATION (MkFinishReq operationHandle input signature additional_params))
               (new_response ver KM_FINISH_OPERATION);
  let response := reply KM_FINISH_OPERATION response in
  let u := fields response in
  if error response =? KM_ERROR_OK then
    mret (legacy_enum_conversion (error response), params_out (finish_params u), finish_output u)
  else
    err ← too_long operationHandle (error response);
    mret (legacy_enum_conversion err, [], []).
End Virtual.
End Device.
