(* ===== verification/Keymaster41Device.v ===== *)
(** * The HIDL interfaces and the services (km4.1/41, km4.1/40/service.cpp, km4.1/41/service.cpp)

    The methods of [Keymaster4Device.v] gathered in the object a service
    registers, the 4.1 class that derives from it, and the [main] of the two
    services.  A client's call is a value of [device_call], indexed by what it
    is answered with. *)

From S2P Require Import Prelude Kernel KmLib BeanpodKeymaster KeyMintOperation KmParams Keymaster4Device.

(** ** The interfaces *)

Abbreviation hidl_token := (VerificationToken (list KeyParameter)).

(** IKeymasterDevice 4.0 as BeanpodKeymaster4Device.h declares it: what a call
    of each method does. *)
Record IKeymasterDevice (W G : Type) := MkDevice {
  d_getHardwareInfo : M W G (Z * bytes * bytes);
  d_getHmacSharingParameters : M W G (Z * HmacSharingParameters);
  d_computeSharedHmac : list HmacSharingParameters -> M W G (Z * bytes);
  d_verifyAuthorization : Z -> list KeyParameter -> HardwareAuthToken -> M W G (Z * hidl_token);
  d_addRngEntropy : bytes -> M W G Z;
  d_generateKey : list KeyParameter -> M W G (Z * bytes * KeyCharacteristics);
  d_getKeyCharacteristics : bytes -> bytes -> bytes -> M W G (Z * KeyCharacteristics);
  d_importKey : list KeyParameter -> Z -> bytes -> M W G (Z * bytes * KeyCharacteristics);
  d_importWrappedKey : bytes -> bytes -> bytes -> list KeyParameter -> Z -> Z -> M W G (Z * bytes * KeyCharacteristics);
  d_exportKey : Z -> bytes -> bytes -> bytes -> M W G (Z * bytes);
  d_attestKey : bytes -> list KeyParameter -> M W G (Z * list bytes);
  d_upgradeKey : bytes -> list KeyParameter -> M W G (Z * bytes);
  d_deleteKey : bytes -> M W G Z;
  d_deleteAllKeys : M W G Z;
  d_destroyAttestationIds : M W G Z;
  d_begin : Z -> bytes -> list KeyParameter -> HardwareAuthToken -> M W G (Z * list KeyParameter * Z);
  d_update : Z -> list KeyParameter -> bytes -> HardwareAuthToken -> hidl_token -> M W G (Z * Z * list KeyParameter * bytes);
  d_finish : Z -> list KeyParameter -> bytes -> bytes -> HardwareAuthToken -> hidl_token -> M W G (Z * list KeyParameter * bytes);
  d_abort : Z -> M W G Z;
}.
Arguments MkDevice {W G}.
Arguments d_getHardwareInfo {W G} i.
Arguments d_getHmacSharingParameters {W G} i.
Arguments d_computeSharedHmac {W G} i.
Arguments d_verifyAuthorization {W G} i.
Arguments d_addRngEntropy {W G} i.
Arguments d_generateKey {W G} i.
Arguments d_getKeyCharacteristics {W G} i.
Arguments d_importKey {W G} i.
Arguments d_importWrappedKey {W G} i.
Arguments d_exportKey {W G} i.
Arguments d_attestKey {W G} i.
Arguments d_upgradeKey {W G} i.
Arguments d_deleteKey {W G} i.
Arguments d_deleteAllKeys {W G} i.
Arguments d_destroyAttestationIds {W G} i.
Arguments d_begin {W G} i.
Arguments d_update {W G} i.
Arguments d_finish {W G} i.
Arguments d_abort {W G} i.

(** IKeymasterDevice 4.1 adds two methods. *)
Record IKeymasterDevice41 (W G : Type) := MkDevice41 {
  base : IKeymasterDevice W G;
  d_deviceLocked : bool -> hidl_token -> M W G Z;
  d_earlyBootEnded : M W G Z;
}.
Arguments MkDevice41 {W G}.
Arguments base {W G} i.
Arguments d_deviceLocked {W G} i.
Arguments d_earlyBootEnded {W G} i.

Section Classes.
Context {W G : Type} `{K : Kernel W} `{I : !KeymasterIpc W G}.
Context {P A : Type} `{D : KeymasterDefs P} `{S : !ParamSet P A} `{N : KeymasterWire A}.
Context (uninit : nat -> P) (fresh_f : Z) (fresh_nonce : bytes) (java_time : Z -> Z).

(** The class 4.0 whose virtual [abort] is [abort_]. *)
Definition device_with (abort_ : Z -> M W G Z) : IKeymasterDevice W G :=
  MkDevice (mret (getHardwareInfo BeanpodKeymaster4Device)) (getHmacSharingParameters fresh_nonce) computeSharedHmac
    (verifyAuthorization uninit fresh_f) addRngEntropy (generateKey uninit fresh_f java_time)
    (getKeyCharacteristics fresh_f) (importKey uninit fresh_f) (importWrappedKey uninit fresh_f) exportKey
    (attestKey uninit) (upgradeKey uninit) deleteKey deleteAllKeys destroyAttestationIds (begin uninit fresh_f)
    (update uninit fresh_f abort_) (finish uninit fresh_f abort_) abort_.
Definition device40 : IKeymasterDevice W G := device_with abort.

(** ** BeanpodKeymaster41Device *)

(** Declared by BeanpodKeymaster4Device.h, defined by the library. *)
Context (hidlKeyParams2Km : list KeyParameter -> list P).

Definition deviceLocked (passwordOnly : bool) (verificationToken : hidl_token) : M W G Z :=
  let serializableToken := MkVerification (vt_challenge verificationToken) (vt_timestamp verificationToken)
    (Reinitialize (hidlKeyParams2Km (vt_params verificationToken))) (vt_security verificationToken)
    (vt_mac verificationToken) in
  response ← BeanpodKeymaster.deviceLocked
               (write_request ver KM_DEVICE_LOCKED (MkLockedReq passwordOnly serializableToken))
               (new_response ver KM_DEVICE_LOCKED);
  mret (legacy_enum_conversion (error (response : Response A KM_DEVICE_LOCKED))).

Definition earlyBootEnded : M W G Z :=
  response ← BeanpodKeymaster.earlyBootEnded (new_response ver KM_EARLY_BOOT_ENDED);
  mret (legacy_enum_conversion (error (response : Response A KM_EARLY_BOOT_ENDED))).

(** [super::abort] is what the overriding [abort] calls. *)
Definition abort41 (operationHandle : Z) : M W G Z := d_abort device40 operationHandle.

(** Each method of 4.0 hands its arguments to [super]; within [super] a virtual
    call of [abort] comes back to this class. *)
Definition device41 : IKeymasterDevice41 W G :=
  let super := device_with abort41 in
  MkDevice41
    (MkDevice
       (d_getHardwareInfo super)
       (d_getHmacSharingParameters super)
       (fun params => d_computeSharedHmac super params)
       (fun challenge parametersToVerify authToken => d_verifyAuthorization super challenge parametersToVerify authToken)
       (fun data => d_addRngEntropy super data)
       (fun keyParams => d_generateKey super keyParams)
       (fun keyBlob clientId appData => d_getKeyCharacteristics super keyBlob clientId appData)
       (fun params keyFormat keyData => d_importKey super params keyFormat keyData)
       (fun wrappedKeyData wrappingKeyBlob maskingKey unwrappingParams passwordSid biometricSid =>
          d_importWrappedKey super wrappedKeyData wrappingKeyBlob maskingKey unwrappingParams passwordSid biometricSid)
       (fun exportFormat keyBlob clientId appData => d_exportKey super exportFormat keyBlob clientId appData)
       (fun keyToAttest attestParams => d_attestKey super keyToAttest attestParams)
       (fun keyBlobToUpgrade upgradeParams => d_upgradeKey super keyBlobToUpgrade upgradeParams)
       (fun keyBlob => d_deleteKey super keyBlob)
       (d_deleteAllKeys super)
       (d_destroyAttestationIds super)
       (fun purpose key inParams authToken => d_begin super purpose key inParams authToken)
       (fun operationHandle inParams input authToken verificationToken =>
          d_update super operationHandle inParams input authToken verificationToken)
       (fun operationHandle inParams input signature authToken verificationToken =>
          d_finish super operationHandle inParams input signature authToken verificationToken)
       abort41)
    deviceLocked earlyBootEnded.
End Classes.

(** ** Clients' calls *)

Inductive device_call : Type -> Type :=
| CGetHardwareInfo : device_call (Z * bytes * bytes)
| CGetHmacSharingParameters : device_call (Z * HmacSharingParameters)
| CComputeSharedHmac (params : list HmacSharingParameters) : device_call (Z * bytes)
| CVerifyAuthorization (challenge : Z) (ps : list KeyParameter) (t : HardwareAuthToken) : device_call (Z * hidl_token)
| CAddRngEntropy (data : bytes) : device_call Z
| CGenerateKey (ps : list KeyParameter) : device_call (Z * bytes * KeyCharacteristics)
| CGetKeyCharacteristics (key clientId appData : bytes) : device_call (Z * KeyCharacteristics)
| CImportKey (ps : list KeyParameter) (format : Z) (data : bytes) : device_call (Z * bytes * KeyCharacteristics)
| CImportWrappedKey (wrapped wrapping masking : bytes) (ps : list KeyParameter) (password biometric : Z)
    : device_call (Z * bytes * KeyCharacteristics)
| CExportKey (format : Z) (key clientId appData : bytes) : device_call (Z * bytes)
| CAttestKey (key : bytes) (ps : list KeyParameter) : device_call (Z * list bytes)
| CUpgradeKey (key : bytes) (ps : list KeyParameter) : device_call (Z * bytes)
| CDeleteKey (key : bytes) : device_call Z
| CDeleteAllKeys : device_call Z
| CDestroyAttestationIds : device_call Z
| CBegin (purpose : Z) (key : bytes) (ps : list KeyParameter) (t : HardwareAuthToken) : device_call (Z * list KeyParameter * Z)
| CUpdate (handle : Z) (ps : list KeyParameter) (input : bytes) (t : HardwareAuthToken) (v : hidl_token)
    : device_call (Z * Z * list KeyParameter * bytes)
| CFinish (handle : Z) (ps : list KeyParameter) (input signature : bytes) (t : HardwareAuthToken) (v : hidl_token)
    : device_call (Z * list KeyParameter * bytes)
| CAbort (handle : Z) : device_call Z
| CDeviceLocked (passwordOnly : bool) (v : hidl_token) : device_call Z
| CEarlyBootEnded : device_call Z.

Definition call_device {W G T} (d : IKeymasterDevice41 W G) (c : device_call T) : M W G T :=
  match c with
  | CGetHardwareInfo => d_getHardwareInfo (base d)
  | CGetHmacSharingParameters => d_getHmacSharingParameters (base d)
  | CComputeSharedHmac params => d_computeSharedHmac (base d) params
  | CVerifyAuthorization ch ps t => d_verifyAuthorization (base d) ch ps t
  | CAddRngEntropy data => d_addRngEntropy (base d) data
  | CGenerateKey ps => d_generateKey (base d) ps
  | CGetKeyCharacteristics key clientId appData => d_getKeyCharacteristics (base d) key clientId appData
  | CImportKey ps format data => d_importKey (base d) ps format data
  | CImportWrappedKey w1 w2 m ps p b => d_importWrappedKey (base d) w1 w2 m ps p b
  | CExportKey format key clientId appData => d_exportKey (base d) format key clientId appData
  | CAttestKey key ps => d_attestKey (base d) key ps
  | CUpgradeKey key ps => d_upgradeKey (base d) key ps
  | CDeleteKey key => d_deleteKey (base d) key
  | CDeleteAllKeys => d_deleteAllKeys (base d)
  | CDestroyAttestationIds => d_destroyAttestationIds (base d)
  | CBegin purpose key ps t => d_begin (base d) purpose key ps t
  | CUpdate h ps input t v => d_update (base d) h ps input t v
  | CFinish h ps input signature t v => d_finish (base d) h ps input signature t v
  | CAbort h => d_abort (base d) h
  | CDeviceLocked po v => d_deviceLocked d po v
  | CEarlyBootEnded => d_earlyBootEnded d
  end.

(** The thread pool has one thread: the calls are served one after the other. *)
Definition served := {T : Type & device_call T}.
Fixpoint serve {W G} (d : IKeymasterDevice41 W G) (calls : list served) : M W G unit :=
  match calls with
  | [] => mret tt
  | existT _ c :: rest => call_device d c;; serve d rest
  end.

(** ** The services *)

Section Service.
Context {W G : Type} `{K : Kernel W} `{I : !KeymasterIpc W G}.

Definition android_OK := 0.

(** [main] of both services: [initialize] is [bpKeymaster->Initialize()],
    [requests] what the registered object does until the pool is left.
    [LOG(FATAL)] ends the process. *)
Definition service_main (initialize : M W G Z) (requests : M W G unit) : M W G Z :=
  sys (Lib_extern (cstr "configureRpcThreadpool"));;
  err ← initialize;
  if negb (err =? 0) then halt AssertFailed
  else
    status ← sys (Lib_extern (cstr "registerAsService"));
    if negb (sr_ret status =? android_OK) then halt AssertFailed
    else
      sys (Lib_extern (cstr "joinRpcThreadpool"));;
      requests;;
      mret (-1).
End Service.
