(* ===== verification/Keymaster4Theorems.v ===== *)
(** * What the keymaster devices guarantee

    Over any transport that keeps its promise ([KmLib.KeymasterIpcLaws]): a
    client that is told OK got the conversion of the secure keymaster's own
    answer to the request built from its arguments, whichever of the 21 methods
    it called; a request too long for the transport ends the operation it
    belongs to; and a service registers only after the secure side was
    configured. *)

From S2P Require Import Prelude Kernel KmLib BeanpodKeymaster KeyMintOperation KmParams Keymaster4Device Keymaster41Device.

(** ** The specification of a call *)

Section Spec.
Context {W G : Type} `{L : KeymasterIpcLaws W G}.
Context {P A : Type} `{D : KeymasterDefs P} `{S : !ParamSet P A} `{N : KeymasterWire A}.
Context (uninit : nat -> P) (fresh_f : Z) (fresh_nonce : bytes) (java_time : Z -> Z)
  (hidlKeyParams2Km : list KeyParameter -> list P).
Context (request_wf : forall c (q : request_fields A c), serializable_wf (write_request ver c q)).
Implicit Types s : proc W G.

Abbreviation params_in ps := (Reinitialize (KmParamSet uninit ps)).
Abbreviation params_out a := (kmParamSet2Hidl fresh_f (set_params a)).1.

(** The bytes a command is sent with; two commands have no request. *)
Definition request_bytes (c : keymaster_command) (q : request_fields A c) : bytes :=
  match c with
  | KM_GET_HMAC_SHARING_PARAMETERS | KM_EARLY_BOOT_ENDED => []
  | _ => let m := write_request ver c q in Serialize m (SerializedSize m)
  end.

(** Between [s] and [s'] the secure keymaster was sent command [c] with request
    [q], and [rsp] is what its answer decodes to. *)
Definition answered_in s s' (c : keymaster_command) (q : request_fields A c) (rsp : Response A c) : Prop :=
  exists payload pre evs, trace s' = trace s ++ pre ++ evs /\
    ipc_answered (globals s) (command_id c) (request_bytes c q) payload evs /\
    read_response (new_response ver c) payload = (true, rsp) /\ error rsp = KM_ERROR_OK.

(** The error code of an answer. *)
Definition status {T} (c : device_call T) : T -> Z :=
  match c in device_call T return T -> Z with
  | CGetHardwareInfo => fun _ => KM_ERROR_OK
  | CGetHmacSharingParameters => fun v => v.1
  | CComputeSharedHmac _ => fun v => v.1
  | CVerifyAuthorization _ _ _ => fun v => v.1
  | CGenerateKey _ => fun v => v.1.1
  | CGetKeyCharacteristics _ _ _ => fun v => v.1
  | CImportKey _ _ _ => fun v => v.1.1
  | CImportWrappedKey _ _ _ _ _ _ => fun v => v.1.1
  | CExportKey _ _ _ _ => fun v => v.1
  | CAttestKey _ _ => fun v => v.1
  | CUpgradeKey _ _ => fun v => v.1
  | CBegin _ _ _ _ => fun v => v.1.1
  | CUpdate _ _ _ _ _ => fun v => v.1.1.1
  | CFinish _ _ _ _ _ _ => fun v => v.1.1
  | CAddRngEntropy _ => id | CDeleteKey _ => id | CDeleteAllKeys => id | CDestroyAttestationIds => id
  | CAbort _ => id | CDeviceLocked _ _ => id | CEarlyBootEnded => id
  end.

(** The parameters of an operation with the packed token. *)
Definition with_token (t : HardwareAuthToken) (a : A) : A :=
  push_back_blob TAG_AUTH_TOKEN
    (hw_auth_token_enc t (splice (replicate (Z.to_nat sizeof_hmac) 0) 0 (mac t))) a.
Definition fits (t : HardwareAuthToken) : Prop := zlen (mac t) <= sizeof_hmac.

(** A key description that carries a creation date. *)
Definition dated (a a' : A) : Prop :=
  if contains_creation a then a' = a else exists now, a' = push_creation (java_time now) a.

(** What the client of a call answered with OK may rely on, in terms of the
    exchanges [Ans] with the secure keymaster. *)
Definition justified (Ans : forall c, request_fields A c -> Response A c -> Prop) {T} (c : device_call T) : T -> Prop :=
  match c in device_call T return T -> Prop with
  | CGetHardwareInfo => fun v => v.1.1 = SECURITY_LEVEL_TRUSTED_ENVIRONMENT
  | CGetHmacSharingParameters => fun v => exists rsp, Ans KM_GET_HMAC_SHARING_PARAMETERS tt rsp /\ v.2 = fields rsp
  | CComputeSharedHmac ps => fun v => exists rsp, Ans KM_COMPUTE_SHARED_HMAC ps rsp /\ v.2 = fields rsp
  | CVerifyAuthorization ch ps t => fun v => exists rsp : Response A KM_VERIFY_AUTHORIZATION,
      Ans KM_VERIFY_AUTHORIZATION (MkVerify ch (params_in ps) t) rsp /\
      vt_challenge v.2 = vt_challenge (fields rsp) /\ vt_timestamp v.2 = vt_timestamp (fields rsp) /\
      vt_params v.2 = params_out (vt_params (fields rsp)) /\ vt_security v.2 = vt_security (fields rsp) /\
      vt_mac v.2 = vt_mac (fields rsp)
  | CAddRngEntropy data => fun _ => data = [] \/ exists rsp, Ans KM_ADD_RNG_ENTROPY data rsp
  | CGenerateKey ps => fun v => exists desc rsp, dated (params_in ps) desc /\
      Ans KM_GENERATE_KEY (MkGenerateKeyRequest ver desc) rsp /\ v = created fresh_f KM_ERROR_OK (fields rsp)
  | CGetKeyCharacteristics key ci ad => fun v => exists rsp : Response A KM_GET_KEY_CHARACTERISTICS,
      Ans KM_GET_KEY_CHARACTERISTICS (MkKeyReq key (addClientAndAppData ci ad (Reinitialize []))) rsp /\
      v.2 = MkCharacteristics (params_out (ch_enforced (fields rsp))) (params_out (ch_unenforced (fields rsp)))
  | CImportKey ps format data => fun v => exists rsp,
      Ans KM_IMPORT_KEY (MkImportReq (params_in ps) format data) rsp /\ v = created fresh_f KM_ERROR_OK (fields rsp)
  | CImportWrappedKey w1 w2 m ps p b => fun v => exists rsp,
      Ans KM_IMPORT_WRAPPED_KEY (MkWrappedReq w1 w2 m (params_in ps) p b) rsp /\
      v = created fresh_f KM_ERROR_OK (fields rsp)
  | CExportKey format key ci ad => fun v => exists rsp,
      Ans KM_EXPORT_KEY (MkExportReq format key (addClientAndAppData ci ad (Reinitialize []))) rsp /\ v.2 = fields rsp
  | CAttestKey key ps => fun v => exists rsp, Ans KM_ATTEST_KEY (MkKeyReq key (params_in ps)) rsp /\
      v.2 = default [] (fields rsp)
  | CUpgradeKey key ps => fun v => exists rsp, Ans KM_UPGRADE_KEY (MkKeyReq key (params_in ps)) rsp /\ v.2 = fields rsp
  | CDeleteKey _ => fun _ => False
  | CDeleteAllKeys => fun _ => False
  | CDestroyAttestationIds => fun _ => False
  | CBegin purpose key ps t => fun v => fits t /\ exists rsp : Response A KM_BEGIN_OPERATION,
      Ans KM_BEGIN_OPERATION (MkBeginReq purpose key (with_token t (params_in ps))) rsp /\
      v.1.2 = params_out (begin_output (fields rsp)) /\ v.2 = op_handle (fields rsp)
  | CUpdate h ps input t _ => fun v => fits t /\ exists rsp : Response A KM_UPDATE_OPERATION,
      Ans KM_UPDATE_OPERATION (MkUpdateReq h input (with_token t (params_in ps))) rsp /\
      v = (KM_ERROR_OK, input_consumed (fields rsp), params_out (update_params (fields rsp)), update_output (fields rsp))
  | CFinish h ps input signature t _ => fun v => fits t /\ exists rsp : Response A KM_FINISH_OPERATION,
      Ans KM_FINISH_OPERATION (MkFinishReq h input signature (with_token t (params_in ps))) rsp /\
      v = (KM_ERROR_OK, params_out (finish_params (fields rsp)), finish_output (fields rsp))
  | CAbort h => fun _ => exists rsp, Ans KM_ABORT_OPERATION h rsp
  | CDeviceLocked po v => fun _ => exists rsp, Ans KM_DEVICE_LOCKED
      (MkLockedReq po (MkVerification (vt_challenge v) (vt_timestamp v) (Reinitialize (hidlKeyParams2Km (vt_params v)))
                         (vt_security v) (vt_mac v))) rsp
  | CEarlyBootEnded => fun _ => exists rsp, Ans KM_EARLY_BOOT_ENDED tt rsp
  end.

(** What a client that is told of an error is given: nothing.  The token of
    [verifyAuthorization] and the handle of [begin] are exceptions. *)
Definition nothing_given {T} (c : device_call T) : T -> Prop :=
  match c in device_call T return T -> Prop with
  | CGetHmacSharingParameters => fun v => v.2 = no_sharing_parameters fresh_nonce
  | CComputeSharedHmac _ => fun v => v.2 = []
  | CGenerateKey _ => fun v => v.1.2 = [] /\ v.2 = no_characteristics
  | CGetKeyCharacteristics _ _ _ => fun v => v.2 = no_characteristics
  | CImportKey _ _ _ => fun v => v.1.2 = [] /\ v.2 = no_characteristics
  | CImportWrappedKey _ _ _ _ _ _ => fun v => v.1.2 = [] /\ v.2 = no_characteristics
  | CExportKey _ _ _ _ => fun v => v.2 = []
  | CAttestKey _ _ => fun v => v.2 = []
  | CUpgradeKey _ _ => fun v => v.2 = []
  | CBegin _ _ _ _ => fun v => v.1.2 = []
  | CUpdate _ _ _ _ _ => fun v => v.1.1.2 = 0 /\ v.1.2 = [] /\ v.2 = []
  | CFinish _ _ _ _ _ _ => fun v => v.1.2 = [] /\ v.2 = []
  | _ => fun _ => True
  end.

(** The outcome of a call made in state [s]. *)
Definition call_ok {T} (c : device_call T) s (o : outcome T) s' : Prop :=
  returned ipc_ready o s' /\
  forall v, o = Ret v -> (status c v = KM_ERROR_OK -> justified (answered_in s s') c v) /\
                         (status c v <> KM_ERROR_OK -> nothing_given c v).

(** ** One method *)

(** A method forwards a request and goes on with the response. *)
Lemma ask_spec {T} c (q : request_fields A c) (k : Response A c -> M W G T) (Q : outcome T -> proc W G -> Prop) s0 pre s :
  request_bytes c q = Serialize (write_request ver c q) (SerializedSize (write_request ver c q)) ->
  ipc_ready s -> trace s = trace s0 ++ pre -> globals s = globals s0 ->
  (forall e s', Q (Stop e) s') ->
  (forall rsp s', ipc_ready s' -> (error rsp = KM_ERROR_OK -> answered_in s0 s' c q rsp) -> wp (k rsp) Q s') ->
  wp (BeanpodKeymaster.ForwardCommand c (write_request ver c q) (new_response ver c) ≫= k) Q s.
Proof.
  intros Hb Hr Ht Hg Hstop Hk. apply wp_bind. eapply wp_mono; [by apply ForwardCommand_spec|].
  intros [rsp|e] s' [Hr' Hok]; [|apply Hstop]. apply Hk; [exact Hr'|]. intros He.
  destruct (Hok rsp eq_refl He) as (payload & evs & Ht' & Ha & Hd). exists payload, pre, evs.
  rewrite Ht', Ht, <- app_assoc. rewrite Hg in Ha. rewrite Hb. done.
Qed.

Lemma ask_no_request_spec {T} c (q : request_fields A c) (k : Response A c -> M W G T)
    (Q : outcome T -> proc W G -> Prop) s :
  request_bytes c q = [] -> ipc_ready s -> (forall e s', Q (Stop e) s') ->
  (forall rsp s', ipc_ready s' -> (error rsp = KM_ERROR_OK -> answered_in s s' c q rsp) -> wp (k rsp) Q s') ->
  wp (BeanpodKeymaster.ForwardCommandNoRequest c (new_response ver c) ≫= k) Q s.
Proof.
  intros Hb Hr Hstop Hk. apply wp_bind. eapply wp_mono; [by apply ForwardCommandNoRequest_spec|].
  intros [rsp|e] s' [Hr' Hok]; [|apply Hstop]. apply Hk; [exact Hr'|]. intros He.
  destruct (Hok rsp eq_refl He) as (payload & evs & Ht' & Ha & Hd). exists payload, [], evs. rewrite Hb. done.
Qed.

Lemma call_ok_stop {T} (c : device_call T) s e s' : call_ok c s (Stop e) s'.
Proof. by split. Qed.

(** A call that returned without OK. *)
Lemma call_ok_error {T} (c : device_call T) s v s' :
  ipc_ready s' -> status c v <> KM_ERROR_OK -> nothing_given c v -> call_ok c s (Ret v) s'.
Proof. intros Hr Hv Hn. split; [exact Hr|]. by intros v' [= <-]. Qed.

Lemma push_auth_token_spec t a (Q : outcome A -> proc W G -> Prop) s :
  (forall e s', Q (Stop e) s') -> (fits t -> Q (Ret (with_token t a)) s) -> wp (push_auth_token t a) Q s.
Proof.
  intros Hs HQ. unfold push_auth_token. apply wp_if; intros Hl; [apply wp_halt, Hs|apply wp_ret, HQ]. unfold fits. lia.
Qed.

Lemma abort_ready h s : ipc_ready s ->
  wp (abort h) (fun o s' => call_ok (CAbort h) s o s') s.
Proof.
  intros Hr. unfold abort, AbortOperation. eapply (ask_spec KM_ABORT_OPERATION h _ _ s []);
    [done|done|by rewrite app_nil_r|done|intros; apply call_ok_stop|].
  intros rsp s' Hr' Ha. apply wp_ret. split; [exact Hr'|]. intros v [= <-]. split; [|done]. intros Hv. exists rsp. by apply Ha.
Qed.

Lemma too_long_spec h err s :
  ipc_ready s -> err <> KM_ERROR_OK ->
  wp (too_long abort h err) (fun o s' => returned ipc_ready o s' /\ forall e, o = Ret e -> e <> KM_ERROR_OK) s.
Proof.
  intros Hr He. unfold too_long. apply wp_if; intros Ht.
  - apply wp_bind. eapply wp_mono; [by apply abort_ready|]. intros [v|e] s' [Hr' _]; [|by split].
    apply wp_ret. split; [done|]. by intros e [= <-].
  - apply wp_ret. split; [done|]. by intros e [= <-].
Qed.

(** ** Every method *)

(** Send the command of a method called in [s]; what is left is its tail. *)
Ltac ask s := match goal with
  | |- wp (_ (write_request ver ?c ?q) _ ≫= _) _ _ =>
      unfold ComputeSharedHmac, VerifyAuthorization, AddRngEntropy, GetKeyCharacteristics, ImportKey, ImportWrappedKey,
        ExportKey, AttestKey, UpgradeKey, BeginOperation, UpdateOperation, FinishOperation, BeanpodKeymaster.deviceLocked;
      eapply (ask_spec c q _ _ s []);
        [done|done|by rewrite app_nil_r|done|intros; apply call_ok_stop|intros rsp s' Hr' Ha]
  end.
(** The tail of a method that converts the response and nothing else. *)
Ltac refused := intros Hv; simpl in Hv |- *; unfold legacy_enum_conversion in Hv;
  first [done | lia | by rewrite (proj2 (Z.eqb_neq _ _) Hv)].
Ltac answer := apply wp_ret; split; [done|]; intros ? [= <-]; split;
  [intros Hv; simpl in Hv; unfold legacy_enum_conversion in Hv|refused].

Lemma created_status err (k : CreatedKey A) : (created fresh_f err k).1.1 = err.
Proof. unfold created. by case_match. Qed.
Lemma created_refused err (k : CreatedKey A) :
  err <> KM_ERROR_OK -> (created fresh_f err k).1.2 = [] /\ (created fresh_f err k).2 = no_characteristics.
Proof. intros He. unfold created. by rewrite (proj2 (Z.eqb_neq _ _) He). Qed.

(** The tail of the two ways to import a key. *)
Lemma created_ok c (k : Response A c -> CreatedKey A) (d : device_call (Z * bytes * KeyCharacteristics)) rsp s s' :
  (forall v, status d v = v.1.1) -> (forall v, v.1.2 = [] /\ v.2 = no_characteristics -> nothing_given d v) ->
  (error rsp = KM_ERROR_OK -> justified (answered_in s s') d (created fresh_f KM_ERROR_OK (k rsp))) ->
  ipc_ready s' -> wp (mret (created fresh_f (error rsp) (k rsp))) (call_ok d s) s'.
Proof.
  intros Hs Hn Hj Hr. apply wp_ret. split; [done|]. intros v [= <-]. rewrite Hs, created_status.
  split; [|by intros He; apply Hn, created_refused]. intros He. rewrite He. by apply Hj.
Qed.

Lemma generateKey_ok ps s : ipc_ready s ->
  wp (generateKey uninit fresh_f java_time ps) (call_ok (CGenerateKey ps) s) s.
Proof.
  intros Hr. unfold generateKey, GenerateKey.
  assert (forall desc pre s1, dated (params_in ps) desc -> ipc_ready s1 -> trace s1 = trace s ++ pre -> globals s1 = globals s ->
    wp (BeanpodKeymaster.ForwardCommand KM_GENERATE_KEY (write_request ver KM_GENERATE_KEY (MkGenerateKeyRequest ver desc))
          (new_response ver KM_GENERATE_KEY) ≫= fun response : Response A KM_GENERATE_KEY => mret (created fresh_f (error response) (fields response)))
      (call_ok (CGenerateKey ps) s) s1) as Hsend.
  { intros desc pre s1 Hd Hr1 Ht Hg. eapply ask_spec; [done|done|done|done|intros; apply call_ok_stop|]. intros rsp s' Hr' Ha.
    apply wp_ret. split; [done|]. intros v [= <-]. cbn [status]. rewrite created_status. split; [|apply created_refused].
    intros Hv. exists desc, rsp. rewrite Hv. split; [done|]. split; [by apply Ha|done]. }
  apply wp_unassoc, wp_bind. unfold dated in Hsend. cbn [key_description message_version] in *.
  destruct (contains_creation (params_in ps)) eqn:Hc; cbn [negb].
  - apply wp_ret. by apply (Hsend _ [] s); rewrite ?app_nil_r.
  - apply wp_bind, wp_sys. intros r w _. apply wp_ret.
    eapply (Hsend _ [Ev (Lib_extern (cstr "time")) r]); [by exists (sr_ret r)| |done|done].
    by eapply (ipc_ready_quiet s _ [_]); [..|repeat constructor].
Qed.

Lemma update_ok h ps input t v s : ipc_ready s ->
  wp (update uninit fresh_f abort h ps input t v) (call_ok (CUpdate h ps input t v) s) s.
Proof.
  intros Hr. unfold update. apply wp_bind, push_auth_token_spec; [intros; apply call_ok_stop|]. intros Hf. ask s.
  apply wp_if; intros He.
  - answer. split; [done|]. exists rsp. split; [apply Ha; lia|]. simpl. unfold legacy_enum_conversion. by rewrite Hv.
  - apply wp_bind. eapply wp_mono; [apply too_long_spec; [done|lia]|]. intros [e|x] s2 [Hr2 He2]; [|apply call_ok_stop].
    by apply wp_ret, call_ok_error; [done|apply He2|].
Qed.

Lemma finish_ok h ps input signature t v s : ipc_ready s ->
  wp (finish uninit fresh_f abort h ps input signature t v) (call_ok (CFinish h ps input signature t v) s) s.
Proof.
  intros Hr. unfold finish. apply wp_bind, push_auth_token_spec; [intros; apply call_ok_stop|]. intros Hf. ask s.
  apply wp_if; intros He.
  - answer. split; [done|]. exists rsp. split; [apply Ha; lia|]. simpl. unfold legacy_enum_conversion. by rewrite Hv.
  - apply wp_bind. eapply wp_mono; [apply too_long_spec; [done|lia]|]. intros [e|x] s2 [Hr2 He2]; [|apply call_ok_stop].
    by apply wp_ret, call_ok_error; [done|apply He2|].
Qed.

Lemma begin_ok purpose key ps t s : ipc_ready s ->
  wp (begin uninit fresh_f purpose key ps t) (call_ok (CBegin purpose key ps t) s) s.
Proof.
  intros Hr. unfold begin. apply wp_bind, push_auth_token_spec; [intros; apply call_ok_stop|]. intros Hf. ask s.
  answer. split; [done|]. exists rsp. split; [by apply Ha|]. simpl. by rewrite Hv.
Qed.

Lemma dispatch_ok {T} (c : device_call T) s : ipc_ready s ->
  wp (call_device (device41 uninit fresh_f fresh_nonce java_time hidlKeyParams2Km) c) (call_ok c s) s.
Proof.
  intros Hr. destruct c; cbn [call_device device41 base d_getHardwareInfo d_getHmacSharingParameters d_computeSharedHmac
    d_verifyAuthorization d_addRngEntropy d_generateKey d_getKeyCharacteristics d_importKey d_importWrappedKey d_exportKey
    d_attestKey d_upgradeKey d_deleteKey d_deleteAllKeys d_destroyAttestationIds d_begin d_update d_finish d_abort
    d_deviceLocked d_earlyBootEnded device_with].
  - apply wp_ret. split; [done|]. by intros v [= <-].
  - unfold getHmacSharingParameters, GetHmacSharingParameters.
    eapply (ask_no_request_spec KM_GET_HMAC_SHARING_PARAMETERS tt); [done|done|intros; apply call_ok_stop|]. intros rsp s' Hr' Ha.
    answer. exists rsp. split; [by apply Ha|]. simpl. by rewrite Hv.
  - unfold computeSharedHmac. ask s. answer. exists rsp. split; [by apply Ha|]. simpl. by rewrite Hv.
  - unfold verifyAuthorization. ask s. answer. exists rsp. split; [by apply Ha|]. done.
  - unfold addRngEntropy. apply wp_if; intros Hz.
    + answer. left. destruct data; [done|]. unfold zlen in Hz. simpl in Hz. lia.
    + ask s. answer. right. exists rsp. by apply Ha.
  - by apply generateKey_ok.
  - unfold getKeyCharacteristics. ask s. answer. exists rsp. split; [by apply Ha|]. simpl. by rewrite Hv.
  - unfold importKey. ask s. apply (created_ok KM_IMPORT_KEY fields); [done|done| |done]. intros He. exists rsp. by split; [apply Ha|].
  - unfold importWrappedKey. ask s. apply (created_ok KM_IMPORT_WRAPPED_KEY fields); [done|done| |done]. intros He. exists rsp.
    by split; [apply Ha|].
  - unfold exportKey. ask s. answer. exists rsp. split; [by apply Ha|]. simpl. by rewrite Hv.
  - unfold attestKey. ask s. answer. exists rsp. split; [by apply Ha|]. simpl. rewrite Hv.
    by destruct (fields rsp) as [[|? ?]|].
  - unfold upgradeKey. ask s. apply wp_if; intros He; answer; [|by rewrite Hv in He]. exists rsp. split; [apply Ha; lia|done].
  - by apply wp_ret, call_ok_error.
  - by apply wp_ret, call_ok_error.
  - by apply wp_ret, call_ok_error.
  - by apply begin_ok.
  - by apply update_ok.
  - by apply finish_ok.
  - by apply abort_ready.
  - unfold deviceLocked. ask s. answer. exists rsp. by apply Ha.
  - unfold earlyBootEnded, BeanpodKeymaster.earlyBootEnded.
    eapply (ask_no_request_spec KM_EARLY_BOOT_ENDED tt); [done|done|intros; apply call_ok_stop|]. intros rsp s' Hr' Ha.
    answer. exists rsp. by apply Ha.
Qed.
End Spec.
