(* ===== verification/Keymaster4Claims.v ===== *)
(** * The claims on the keymaster devices, with concrete runs

    The parameters of the model are instantiated by the layout the header
    hardware/keymaster_defs.h documents and by a small wire format; the runs use
    the tipc transport of [KmTipc.v]. *)

From S2P Require Import Prelude Kernel Libtrusty MemKernel KmLib KmTipc KmTipcSpec BeanpodKeymaster KmTheorems Teec KmTeec KmTeecTheorems KeyMintOperation KmParams Keymaster4Device Keymaster41Device Keymaster4Theorems.

(** ** Transports with a limit *)

(** A transport that refuses a request longer than its buffer, before it talks
    to anyone. *)
Class KeymasterIpcBounded (W G : Type) `{I : KeymasterIpc W G} := {
  ipc_limit : Z;
  ipc_refuses : forall {R} `{KeymasterResponse R} c q (rsp : R) s,
    is_u32 (SerializedSize q) -> ipc_limit < SerializedSize q ->
    ipc_send c q rsp s = (Ret (BEANPOD_KM_INVALID_INPUT_LENGTH, rsp), s);
}.

Definition tipc_bounded {W} `{K : Kernel W} erase fuel : KeymasterIpcBounded W km_st (I := tipc_ipc erase fuel).
Proof.
  refine {| ipc_limit := BP_KEYMASTER_SEND_BUF_SIZE |}. intros R HR c q rsp s Hu Hl.
  cbn [ipc_send tipc_ipc]. unfold KmTipc.bp_keymaster_send, u32. rewrite Z.mod_small by exact Hu.
  by replace (BP_KEYMASTER_SEND_BUF_SIZE <? SerializedSize q) with true by lia.
Defined.

Definition teec_bounded {W} `{K : Kernel W} gptee context session buf_size stops garbage
    : KeymasterIpcBounded W kt_st (I := teec_ipc gptee context session buf_size stops garbage).
Proof.
  refine {| ipc_limit := buf_size |}. intros R HR c q rsp s Hu Hl.
  cbn [ipc_send teec_ipc]. unfold KmTeec.bp_keymaster_send, u32. rewrite Z.mod_small by exact Hu.
  by replace (buf_size <? SerializedSize q) with true by lia.
Defined.

Section Oversized.
Context {W G : Type} `{K : Kernel W} `{I : !KeymasterIpc W G} `{B : !KeymasterIpcBounded W G}.
Context {P A : Type} `{D : KeymasterDefs P} `{S : !ParamSet P A} `{N : KeymasterWire A}.

Lemma forward_refused c (q : request_fields A c) (s : proc W G) :
  is_u32 (SerializedSize (write_request ver c q)) -> ipc_limit < SerializedSize (write_request ver c q) ->
  BeanpodKeymaster.ForwardCommand c (write_request ver c q) (new_response ver c) s =
    (Ret (MkResponse BEANPOD_KM_INVALID_INPUT_LENGTH (fields (new_response ver c))), s).
Proof.
  intros Hu Hl. unfold BeanpodKeymaster.ForwardCommand, mbind, M_bind. by rewrite (ipc_refuses _ _ _ _ Hu Hl).
Qed.

Lemma push_token_fits t a : fits t -> push_auth_token t a = mret (M := M W G) (with_token t a).
Proof. unfold fits, push_auth_token. intros H. by replace (sizeof_hmac <? zlen (mac t)) with false by lia. Qed.
End Oversized.

(** C21. A request that is too long for the transport ends its operation: [update]
    and [finish] send exactly what [abort] sends, nothing of the request, and
    tell the client that the input length is invalid, with nothing consumed and
    no output. *)
Theorem oversized_request_aborts {W G} `{K : Kernel W} `{I : !KeymasterIpc W G} `{B : !KeymasterIpcBounded W G}
    {P A : Type} `{D : KeymasterDefs P} `{S : !ParamSet P A} `{N : KeymasterWire A}
    (uninit : nat -> P) fresh_f h ps input signature t v (s : proc W G) :
  fits t ->
  let params := with_token t (Reinitialize (KmParamSet uninit ps)) in
  let update_size := SerializedSize (write_request ver KM_UPDATE_OPERATION (MkUpdateReq h input params)) in
  let finish_size := SerializedSize (write_request ver KM_FINISH_OPERATION (MkFinishReq h input signature params)) in
  (is_u32 update_size -> ipc_limit < update_size ->
   update uninit fresh_f abort h ps input t v s =
     (abort h;; mret (KM_ERROR_INVALID_INPUT_LENGTH, 0, [], [])) s) /\
  (is_u32 finish_size -> ipc_limit < finish_size ->
   finish uninit fresh_f abort h ps input signature t v s =
     (abort h;; mret (KM_ERROR_INVALID_INPUT_LENGTH, [], [])) s).
Proof.
  intros Hf params update_size finish_size.
  split; intros Hu Hl; [unfold update, UpdateOperation|unfold finish, FinishOperation];
    rewrite (push_token_fits t _ Hf); fold params; unfold mbind, M_bind at 1, mret, M_ret;
    unfold mbind, M_bind at 1; rewrite forward_refused by assumption;
    unfold too_long, mbind, M_bind; simpl; by destruct (abort h s) as [[r|e] s'].
Qed.

(** ** Parameters *)

(** C28. Parameters survive the way to the library and back: read by the type of
    its tag, each entry of the list a client passed comes back as it was, in
    its place; only a false boolean and a tag without a type, which the library
    cannot express, come back as the invalid tag. *)
Theorem key_parameters_roundtrip {P} `{L : KeymasterDefsLaws P} (uninit : nat -> P) fresh_f (ps : list KeyParameter) :
  read_param <$> (kmParamSet2Hidl fresh_f (Some (KmParamSet uninit ps))).1 = expressible <$> (read_param <$> ps).
Proof.
  assert ((kmParamSet2Hidl fresh_f (Some (KmParamSet uninit ps))).1 = (fun x => (kmParam2Hidl fresh_f x).1) <$> KmParamSet uninit ps) as ->.
  { destruct (KmParamSet uninit ps) as [|x l]; [done|]. simpl. f_equal. by rewrite <- list_fmap_compose. }
  apply list_eq. intros i. unfold KmParamSet. rewrite !list_lookup_fmap, list_lookup_imap.
  destruct (ps !! i) as [p|]; [|done]. simpl. f_equal. apply param_roundtrip.
Qed.

(** ** Tokens *)


(** ** Calls *)

Section Service.
Context {W G : Type} `{L : KeymasterIpcLaws W G}.
Context {P A : Type} `{D : KeymasterDefs P} `{S : !ParamSet P A} `{N : KeymasterWire A}.
Context (uninit : nat -> P) (fresh_f : Z) (fresh_nonce : bytes) (java_time : Z -> Z)
  (hidlKeyParams2Km : list KeyParameter -> list P).
Context (request_wf : forall c (q : request_fields A c), serializable_wf (write_request ver c q)).
Abbreviation keymaster41 := (device41 uninit fresh_f fresh_nonce java_time hidlKeyParams2Km).

(** Serving clients leaves the transport ready for the next one. *)
Lemma serve_ready calls s : ipc_ready s -> wp (serve keymaster41 calls) (fun o s' => returned ipc_ready o s') s.
Proof.
  revert s. induction calls as [|[T c] calls IH]; intros s Hr; cbn [serve]; [by apply wp_ret|].
  apply wp_bind. eapply wp_mono; [by apply dispatch_ok|]. intros [v|e] s' [Hr' _]; [by apply IH|done].
Qed.
End Service.

(** C20. What a client of the keymaster service may rely on.  After any calls of any
    clients, a call that is answered with OK was backed by the secure keymaster:
    it was sent the request built from the call's arguments, and what the client
    got is the conversion of its decoded answer (see [justified], method by
    method); a call that needs no secure side is empty entropy or the hardware
    information.  The three methods that delete keys never answer OK.  A client
    that is told of an error is given no key, no output and no certificate (see
    [nothing_given]). *)
Theorem served_calls_authentic {W G} `{L : KeymasterIpcLaws W G}
    {P A : Type} `{D : KeymasterDefs P} `{S : !ParamSet P A} `{N : KeymasterWire A}
    (uninit : nat -> P) fresh_f fresh_nonce java_time hidlKeyParams2Km calls {T} (c : device_call T) v (s s1 s2 : proc W G) :
  (forall c (q : request_fields A c), serializable_wf (write_request ver c q)) ->
  ipc_ready s ->
  let keymaster := device41 uninit fresh_f fresh_nonce java_time hidlKeyParams2Km in
  serve keymaster calls s = (Ret tt, s1) -> call_device keymaster c s1 = (Ret v, s2) ->
  ipc_ready s2 /\
  (status c v = KM_ERROR_OK -> justified uninit fresh_f java_time hidlKeyParams2Km (answered_in s1 s2) c v) /\
  (status c v <> KM_ERROR_OK -> nothing_given fresh_nonce c v).
Proof.
  intros Hw Hr keymaster Hserve Hcall.
  pose proof (serve_ready uninit fresh_f fresh_nonce java_time hidlKeyParams2Km Hw calls s Hr) as H1. unfold wp in H1. fold keymaster in H1.
  rewrite Hserve in H1. simpl in H1.
  pose proof (dispatch_ok uninit fresh_f fresh_nonce java_time hidlKeyParams2Km Hw c s1 H1) as H2. unfold wp in H2.
  fold keymaster in H2. rewrite Hcall in H2. destruct H2 as [H2 H3]. split; [exact H2|]. by apply H3.
Qed.

(** ** Starting the service *)

Section Startup.
Context {W G : Type} `{L : KeymasterIpcLaws W G} {CR : Type} `{KeymasterResponse CR}.
Context (configure_request : Z -> Z -> Serializable) (configure_response : CR) (os_version os_patchlevel : Z).
Implicit Types s : proc W G.

(** [main] up to the requests. *)
Definition startup (initialize : M W G Z) : M W G unit :=
  sys (Lib_extern (cstr "configureRpcThreadpool"));;
  err ← initialize;
  if negb (err =? 0) then halt AssertFailed
  else
    status ← sys (Lib_extern (cstr "registerAsService"));
    if negb (sr_ret status =? android_OK) then halt AssertFailed
    else sys (Lib_extern (cstr "joinRpcThreadpool"));; mret tt.

Lemma main_startup initialize requests s :
  service_main initialize requests s = (startup initialize;; requests;; mret (-1)) s.
Proof.
  unfold service_main, startup, mbind, M_bind. destruct (sys _ s) as [[r|e] s1]; [|done].
  destruct (initialize s1) as [[err|e] s2]; [|done]. destruct (negb (err =? 0)); [done|].
  destruct (sys _ s2) as [[st|e] s3]; [|done]. destruct (negb _); [done|]. by destruct (sys _ s3) as [[j|e] s4].
Qed.

(** The secure side was reached and accepted its configuration before the
    service was registered, which was the last thing before the pool. *)
Definition registered_after_configuration s3 : Prop :=
  exists s1 payload evs rsp status join, ipc_ready s1 /\
    ipc_answered (globals s1) (command_id KM_CONFIGURE)
      (Serialize (configure_request os_version os_patchlevel) (SerializedSize (configure_request os_version os_patchlevel)))
      payload evs /\
    Deserialize configure_response payload = (true, rsp) /\ rsp_error rsp = KM_ERROR_OK /\
    trace s3 = (trace s1 ++ evs) ++ [Ev (Lib_extern (cstr "registerAsService")) status; Ev (Lib_extern (cstr "joinRpcThreadpool")) join] /\
    sr_ret status = android_OK /\ ipc_ready s3.

Lemma startup_spec s :
  ipc_idle s -> serializable_wf (configure_request os_version os_patchlevel) ->
  wp (startup (Initialize configure_request configure_response os_version os_patchlevel))
    (fun o s' => returned registered_after_configuration o s') s.
Proof.
  intros Hi Hw. unfold startup, Initialize, Configure. apply wp_bind, wp_sys. intros r0 w0 _.
  assert (ipc_idle (after s (Lib_extern (cstr "configureRpcThreadpool")) r0 w0)) as Hi1
    by (by eapply (ipc_idle_quiet s _ [_]); [..|repeat constructor]).
  apply wp_bind, wp_bind. eapply wp_mono; [by apply ipc_connect_ok|]. intros o s1 (rc & -> & _ & Hr1).
  apply wp_if; intros Hc; [by apply wp_ret, wp_if; intros ?; [apply wp_halt|lia]|].
  apply wp_bind. eapply wp_mono; [by apply ForwardCommand_spec|]. intros [rsp|e] s2 [Hr2 Hok]; [|done].
  apply wp_if; intros He; apply wp_ret; cbn [negb Z.eqb]; [by apply wp_halt|].
  destruct (Hok rsp eq_refl ltac:(lia)) as (payload & evs & Ht & Ha & Hd).
  apply wp_bind, wp_sys. intros st w1 _. apply wp_if; intros Hs; [by apply wp_halt|].
  apply wp_bind, wp_sys. intros j w2 _. apply wp_ret.
  exists s1, payload, evs, rsp, st, j. split_and!; try done; [lia| |unfold android_OK in *; lia|].
  - cbn [trace after]. by rewrite Ht, <- !app_assoc.
  - apply (ipc_ready_quiet s2 _ [Ev (Lib_extern (cstr "registerAsService")) st; Ev (Lib_extern (cstr "joinRpcThreadpool")) j]);
      [done|done| |repeat constructor]. cbn [trace after]. by rewrite <- app_assoc.
Qed.
End Startup.

(** C22. A keymaster service starts in order.  Either [main] ends the process and no
    client is ever served, whatever they would have asked; or it connected to
    the secure keymaster, had its configuration accepted, registered itself, and
    serves the clients from there over a transport that is ready, to return -1
    when the pool is left. *)
Theorem service_starts_configured {W G} `{L : KeymasterIpcLaws W G} {CR} `{KeymasterResponse CR}
    configure_request (configure_response : CR) os_version os_patchlevel (s : proc W G) :
  ipc_idle s -> serializable_wf (configure_request os_version os_patchlevel) ->
  let start := Initialize configure_request configure_response os_version os_patchlevel in
  (exists e s', forall requests, service_main start requests s = (Stop e, s')) \/
  (exists s3, registered_after_configuration configure_request configure_response os_version os_patchlevel s3 /\
     forall requests, service_main start requests s = (requests;; mret (-1)) s3).
Proof.
  intros Hi Hw start. pose proof (startup_spec configure_request configure_response os_version os_patchlevel s Hi Hw) as Hs.
  unfold wp in Hs. fold start in Hs. destruct (startup start s) as [[[]|e] s3] eqn:Es; [right|left].
  - exists s3. split; [exact Hs|]. intros requests. rewrite main_startup. unfold mbind at 1, M_bind at 1. by rewrite Es.
  - exists e, s3. intros requests. rewrite main_startup. unfold mbind at 1, M_bind at 1. by rewrite Es.
Qed.

(** ** Concrete runs *)

(** keymaster_key_param_t with the values of the union side by side. *)
Record demo_param := DemoParam { dp_tag : Z; dp_value : Z; dp_blob : bytes }.

(** The type is in the four topmost bits of a tag. *)
Definition demo_type (t : Z) : keymaster_tag_type_t :=
  match t / 2 ^ 28 with
  | 0 => KM_INVALID | 1 => KM_ENUM | 2 => KM_ENUM_REP | 3 => KM_UINT | 4 => KM_UINT_REP | 5 => KM_ULONG
  | 6 => KM_DATE | 7 => KM_BOOL | 8 => KM_BIGNUM | 9 => KM_BYTES | 10 => KM_ULONG_REP | _ => KM_TYPE_UNKNOWN
  end.
#[export] Instance demo_defs : KeymasterDefs demo_param := {|
  keymaster_tag_get_type := demo_type;
  KM_TAG_INVALID := 0; TAG_APPLICATION_ID := 9 * 2 ^ 28 + 601; TAG_APPLICATION_DATA := 9 * 2 ^ 28 + 700;
  TAG_AUTH_TOKEN := 9 * 2 ^ 28 + 1002;
  tag := dp_tag; set_tag := fun t p => DemoParam t (dp_value p) (dp_blob p);
  enumerated := dp_value; integer := dp_value; long_integer := dp_value; date_time := dp_value;
  boolean := fun p => negb (dp_value p =? 0); blob := dp_blob;
  keymaster_param_enum := fun t v => DemoParam t v []; keymaster_param_int := fun t v => DemoParam t v [];
  keymaster_param_long := fun t v => DemoParam t v []; keymaster_param_date := fun t v => DemoParam t v [];
  keymaster_param_bool := fun t => DemoParam t 1 []; keymaster_param_blob := fun t b => DemoParam t 0 b |}.
#[export] Instance demo_defs_laws : KeymasterDefsLaws demo_param.
Proof. by split. Qed.

Definition demo_garbage (i : nat) : demo_param := DemoParam 7 7 [].

(** A purpose, a key size, a user id, a date, two booleans, a blob and an unknown tag. *)
Definition demo_params : list KeyParameter :=
  [MkKeyParameter (2 * 2 ^ 28 + 1) 3 []; MkKeyParameter (3 * 2 ^ 28 + 3) (2 ^ 40 + 256) [];
   MkKeyParameter (10 * 2 ^ 28 + 502) (2 ^ 40 + 256) []; MkKeyParameter (6 * 2 ^ 28 + 400) 1000 [];
   MkKeyParameter (7 * 2 ^ 28 + 503) 1 []; MkKeyParameter (7 * 2 ^ 28 + 305) 0 [];
   MkKeyParameter (9 * 2 ^ 28 + 601) 5 [1; 2]; MkKeyParameter (12 * 2 ^ 28) 1 []].

Example demo_roundtrip :
  expressible <$> (read_param <$> demo_params) =
    [(2 * 2 ^ 28 + 1, RInteger 3); (3 * 2 ^ 28 + 3, RInteger 256); (10 * 2 ^ 28 + 502, RLong (2 ^ 40 + 256));
     (6 * 2 ^ 28 + 400, RDate 1000); (7 * 2 ^ 28 + 503, RBool true); (0, RNothing); (9 * 2 ^ 28 + 601, RBlob [1; 2]);
     (0, RNothing)].
Proof. vm_compute. reflexivity. Qed.

#[export] Instance demo_set : ParamSet demo_param (list demo_param).
Proof.
  refine {| param_set := {| contains_creation := existsb (fun p => dp_tag p =? 6 * 2 ^ 28 + 701);
                            push_creation := fun t a => a ++ [DemoParam (6 * 2 ^ 28 + 701) t []] |};
            Reinitialize := id; Clear := fun _ => []; push_back_blob := fun t b a => a ++ [DemoParam t 0 b];
            set_params := Some |}.
  intros t a. rewrite existsb_app. simpl. by rewrite orb_true_r.
Defined.

(** A wire format: the handle and the input of an operation, nothing of other
    requests; a response is its error and its data. *)
Definition demo_write (c : keymaster_command) : request_fields (list demo_param) c -> bytes :=
  match c with
  | KM_UPDATE_OPERATION => fun q => le_enc 8 (ur_handle _ q) ++ take (Z.to_nat 100000) (ur_input _ q)
  | KM_FINISH_OPERATION => fun q => le_enc 8 (fr_handle _ q) ++ take (Z.to_nat 100000) (fr_input _ q)
  | KM_ABORT_OPERATION => fun h => le_enc 8 h
  | _ => fun _ => []
  end.
Definition demo_fields (c : keymaster_command) (b : bytes) : response_fields (list demo_param) c :=
  match c with
  | KM_GET_HMAC_SHARING_PARAMETERS => MkHmacParams b []
  | KM_COMPUTE_SHARED_HMAC => b
  | KM_VERIFY_AUTHORIZATION => MkVerification 0 0 [] 0 b
  | KM_GENERATE_KEY => MkCreated b [] [] | KM_IMPORT_KEY => MkCreated b [] [] | KM_IMPORT_WRAPPED_KEY => MkCreated b [] []
  | KM_GET_KEY_CHARACTERISTICS => MkChars [] []
  | KM_EXPORT_KEY => b
  | KM_ATTEST_KEY => Some [b]
  | KM_UPGRADE_KEY => b
  | KM_BEGIN_OPERATION => MkBegun (get_u64 b 0) []
  | KM_UPDATE_OPERATION => MkUpdated (zlen b) [] b
  | KM_FINISH_OPERATION => MkFinished [] b
  | _ => tt
  end.
#[export] Instance demo_wire : KeymasterWire (list demo_param) := {|
  write_request := fun v c q => req_of (demo_write c q);
  new_response := fun v c => MkResponse (-1000) (demo_fields c []);
  read_response := fun c r b => (4 <=? zlen b, MkResponse (get_s32 b 0) (demo_fields c (drop 4 b)));
|}.

Lemma demo_wire_wf c (q : request_fields (list demo_param) c) : serializable_wf (write_request ver c q).
Proof.
  apply req_of_wf. unfold is_u32, zlen.
  assert (length (demo_write c q) <= 8 + Z.to_nat 100000)%nat; [|lia].
  destruct c; cbn [demo_write]; rewrite ?length_app, ?length_le_enc, ?length_take; simpl (length []); lia.
Qed.

Definition demo_token : HardwareAuthToken := MkToken 1 2 3 4 5 (replicate 32 9).
Definition demo_verification : hidl_token := MkVerification 0 0 [] 0 [].

(** Two calls that send nothing, then the end of operation 77, answered with one byte. *)
Definition demo_calls : list served := [existT _ (CAddRngEntropy []); existT _ (CDeleteKey [1])].
Definition demo_finish : device_call (Z * list KeyParameter * bytes) :=
  CFinish 77 demo_params [1; 2; 3] [] demo_token demo_verification.
Definition demo_device : IKeymasterDevice41 mem_world km_st :=
  device41 (I := lite_ipc) demo_garbage 0 [] id (KmParamSet demo_garbage).
Definition demo_start : proc mem_world km_st := km_connected [le_enc 4 15 ++ le_enc 4 0 ++ [42]].

Lemma served_calls_authentic_witness :
  ipc_ready (KeymasterIpcLaws := lite_laws) (call_device demo_device demo_finish demo_start).2 /\
  (KM_ERROR_OK = KM_ERROR_OK ->
   justified demo_garbage 0 id (KmParamSet demo_garbage)
     (answered_in (L := lite_laws) demo_start (call_device demo_device demo_finish demo_start).2)
     demo_finish (KM_ERROR_OK, [], [42])) /\
  (KM_ERROR_OK <> KM_ERROR_OK -> nothing_given [] demo_finish (KM_ERROR_OK, [], [42])).
Proof.
  refine (served_calls_authentic (L := lite_laws) demo_garbage 0 [] id (KmParamSet demo_garbage) demo_calls demo_finish
    (KM_ERROR_OK, [], [42]) demo_start demo_start _ demo_wire_wf _ _ _).
  - apply km_connected_inv.
  - reflexivity.
  - apply injective_projections; [vm_compute; reflexivity|exact eq_refl].
Defined.

Definition demo_long : bytes := replicate (Z.to_nat 70000) 0.

Lemma oversized_request_aborts_witness :
  update (I := lite_ipc) demo_garbage 0 (abort (I := lite_ipc)) 77 [] demo_long demo_token demo_verification demo_start =
    (abort (I := lite_ipc) 77;; mret (KM_ERROR_INVALID_INPUT_LENGTH, 0, [], [])) demo_start.
Proof.
  refine (proj1 (oversized_request_aborts (I := lite_ipc) (B := tipc_bounded zero_all 5) demo_garbage 0 77 [] demo_long []
    demo_token demo_verification demo_start _) _ _).
  - by vm_compute.
  - apply demo_wire_wf.
  - by vm_compute.
Defined.

Lemma key_parameters_roundtrip_witness :
  read_param <$> (kmParamSet2Hidl 0 (Some (KmParamSet demo_garbage demo_params))).1 =
    expressible <$> (read_param <$> demo_params).
Proof. apply (key_parameters_roundtrip demo_garbage 0 demo_params). Defined.

(** A device that is not connected yet; the service answers the configuration. *)
Definition demo_idle : proc mem_world km_st :=
  Proc km_st0 (km_world [le_enc 4 75 ++ le_enc 4 0]) 0 [].
Definition demo_configure (v p : Z) : Serializable := req_of (le_enc 4 v ++ le_enc 4 p).

Lemma service_starts_configured_witness :
  let start := Initialize (I := lite_ipc) demo_configure rsp0 11 202103 in
  (exists e s', forall requests, service_main start requests demo_idle = (Stop e, s')) \/
  (exists s3, registered_after_configuration (L := lite_laws) demo_configure rsp0 11 202103 s3 /\
     forall requests, service_main start requests demo_idle = (requests;; mret (-1)) s3).
Proof.
  refine (service_starts_configured (L := lite_laws) demo_configure rsp0 11 202103 demo_idle _ _).
  - split; [|reflexivity]. split_and!; [by vm_compute..|reflexivity].
  - apply req_of_wf. vm_compute. intuition congruence.
Defined.

(** The second case is what happens here. *)
Example demo_service_runs :
  (service_main (Initialize (I := lite_ipc) demo_configure rsp0 11 202103) (serve demo_device demo_calls) demo_idle).1 = Ret (-1).
Proof. vm_compute. reflexivity. Qed.


(** The same device over the transport of the client library: connect, then
    export a key; the answer is the 1020 bytes behind the error word. *)
Definition demo_device400 : IKeymasterDevice41 echo_world kt_st :=
  device41 (I := small_ipc) demo_garbage 0 [] id (KmParamSet demo_garbage).

Example device400_runs :
  (call_device demo_device400 (CExportKey 0 [1] [] []) (ipc_connect (KeymasterIpc := small_ipc) (kt_start false)).2).1 =
    Ret (KM_ERROR_OK, [7; 7] ++ replicate 1018 0).
Proof. vm_compute. reflexivity. Qed.
