(* ===== verification/LiteDevice.v ===== *)
(** * The keymaster devices of the lite build (lite/km4.1/40, lite/km4.1/41)

    The lite build has its own copies of the two device classes.  They differ
    from the ones of the 400 build in where [ver] is declared and in nothing a
    method does, so their methods are those of [Keymaster4Device.v] and
    [Keymaster41Device.v] linked with the lite transport of [KmTipc.v] in place
    of the client library.  The objects are assembled here from the copies'
    methods; [device41_shared] relates them to the shared classes. *)

From S2P Require Import Prelude Kernel KmLib KmTipc BeanpodKeymaster KeyMintOperation KmParams Keymaster4Device Keymaster41Device.

Definition ver := 3.
Definition legacy_enum_conversion (value : Z) : Z := KmParams.legacy_enum_conversion value.

Section Conversions.
Context {P : Type} `{D : KeymasterDefs P} (uninit : nat -> P) (fresh_f : Z).

Definition typeFromTag (tag : Z) : keymaster_tag_type_t := KmParams.typeFromTag tag.
Definition KmParamSet (keyParams : list KeyParameter) : list P := KmParams.KmParamSet uninit keyParams.
Definition kmCertChain2Hidl (cert_chain : option (list bytes)) : list bytes := KmParams.kmCertChain2Hidl cert_chain.
Definition kmParamSet2Hidl (set : keymaster_key_param_set_t P) : list KeyParameter * keymaster_key_param_set_t P :=
  KmParams.kmParamSet2Hidl fresh_f set.
End Conversions.

Section Methods.
Context {W : Type} `{K : Kernel W} (erase : bytes -> bytes) (fuel : nat).
Context {P A : Type} `{D : KeymasterDefs P} `{S : !ParamSet P A} `{N : KeymasterWire A}.
Context (uninit : nat -> P) (fresh_f : Z) (fresh_nonce : bytes) (java_time : Z -> Z).
Context (hidlKeyParams2Km : list KeyParameter -> list P).

(** [impl_]: the methods of BeanpodKeymaster over this build's transport. *)
#[local] Instance impl : KeymasterIpc W km_st := tipc_ipc erase fuel.
Abbreviation LM := (M W km_st).

(** ** BeanpodKeymaster4Device *)

Definition addClientAndAppData (clientId appData : bytes) (params : A) : A :=
  Keymaster4Device.addClientAndAppData clientId appData params.
Definition BeanpodKeymaster4Device : device := Device SECURITY_LEVEL_TRUSTED_ENVIRONMENT.
Definition getHardwareInfo (self : device) : Z * bytes * bytes := Keymaster4Device.getHardwareInfo self.
Definition getHmacSharingParameters : LM (Z * HmacSharingParameters) :=
  Keymaster4Device.getHmacSharingParameters fresh_nonce.
Definition computeSharedHmac (params : list HmacSharingParameters) : LM (Z * bytes) :=
  Keymaster4Device.computeSharedHmac params.
Definition verifyAuthorization (challenge : Z) (parametersToVerify : list KeyParameter) (authToken : HardwareAuthToken)
    : LM (Z * VerificationToken (list KeyParameter)) :=
  Keymaster4Device.verifyAuthorization uninit fresh_f challenge parametersToVerify authToken.
Definition addRngEntropy (data : bytes) : LM Z := Keymaster4Device.addRngEntropy data.
Definition generateKey (keyParams : list KeyParameter) : LM (Z * bytes * KeyCharacteristics) :=
  Keymaster4Device.generateKey uninit fresh_f java_time keyParams.
Definition getKeyCharacteristics (keyBlob clientId appData : bytes) : LM (Z * KeyCharacteristics) :=
  Keymaster4Device.getKeyCharacteristics fresh_f keyBlob clientId appData.
Definition importKey (params : list KeyParameter) (keyFormat : Z) (keyData : bytes) : LM (Z * bytes * KeyCharacteristics) :=
  Keymaster4Device.importKey uninit fresh_f params keyFormat keyData.
Definition importWrappedKey (wrappedKeyData wrappingKeyBlob maskingKey : bytes) (unwrappingParams : list KeyParameter)
    (passwordSid biometricSid : Z) : LM (Z * bytes * KeyCharacteristics) :=
  Keymaster4Device.importWrappedKey uninit fresh_f wrappedKeyData wrappingKeyBlob maskingKey unwrappingParams passwordSid biometricSid.
Definition exportKey (exportFormat : Z) (keyBlob clientId appData : bytes) : LM (Z * bytes) :=
  Keymaster4Device.exportKey exportFormat keyBlob clientId appData.
Definition attestKey (keyToAttest : bytes) (attestParams : list KeyParameter) : LM (Z * list bytes) :=
  Keymaster4Device.attestKey uninit keyToAttest attestParams.
Definition upgradeKey (keyBlobToUpgrade : bytes) (upgradeParams : list KeyParameter) : LM (Z * bytes) :=
  Keymaster4Device.upgradeKey uninit keyBlobToUpgrade upgradeParams.
Definition deleteKey (keyBlob : bytes) : LM Z := mret KM_ERROR_UNIMPLEMENTED.
Definition deleteAllKeys : LM Z := mret KM_ERROR_UNIMPLEMENTED.
Definition destroyAttestationIds : LM Z := mret KM_ERROR_UNIMPLEMENTED.
Definition begin (purpose : Z) (key : bytes) (inParams : list KeyParameter) (authToken : HardwareAuthToken)
    : LM (Z * list KeyParameter * Z) :=
  Keymaster4Device.begin uninit fresh_f purpose key inParams authToken.
Definition abort (operationHandle : Z) : LM Z := Keymaster4Device.abort operationHandle.

(** [abort_] is the object's own [abort]. *)
Definition update (abort_ : Z -> LM Z) (operationHandle : Z) (inParams : list KeyParameter) (input : bytes)
    (authToken : HardwareAuthToken) (verificationToken : hidl_token) : LM (Z * Z * list KeyParameter * bytes) :=
  Keymaster4Device.update uninit fresh_f abort_ operationHandle inParams input authToken verificationToken.
Definition finish (abort_ : Z -> LM Z) (operationHandle : Z) (inParams : list KeyParameter) (input signature : bytes)
    (authToken : HardwareAuthToken) (verificationToken : hidl_token) : LM (Z * list KeyParameter * bytes) :=
  Keymaster4Device.finish uninit fresh_f abort_ operationHandle inParams input signature authToken verificationToken.

Definition device_with (abort_ : Z -> LM Z) : IKeymasterDevice W km_st :=
  MkDevice (mret (getHardwareInfo BeanpodKeymaster4Device)) getHmacSharingParameters computeSharedHmac
    verifyAuthorization addRngEntropy generateKey getKeyCharacteristics importKey importWrappedKey exportKey
    attestKey upgradeKey deleteKey deleteAllKeys destroyAttestationIds begin (update abort_) (finish abort_) abort_.
Definition device40 : IKeymasterDevice W km_st := device_with abort.

(** ** BeanpodKeymaster41Device *)

Definition deviceLocked (passwordOnly : bool) (verificationToken : hidl_token) : LM Z :=
  Keymaster41Device.deviceLocked hidlKeyParams2Km passwordOnly verificationToken.
Definition earlyBootEnded : LM Z := Keymaster41Device.earlyBootEnded.
Definition abort41 (operationHandle : Z) : LM Z := d_abort device40 operationHandle.

(** Each method hands its arguments to the base class. *)
Definition device41 : IKeymasterDevice41 W km_st :=
  let super := device_with abort41 in
  MkDevice41
    (MkDevice (d_getHardwareInfo super) (d_getHmacSharingParameters super) (d_computeSharedHmac super)
       (d_verifyAuthorization super) (d_addRngEntropy super) (d_generateKey super) (d_getKeyCharacteristics super)
       (d_importKey super) (d_importWrappedKey super) (d_exportKey super) (d_attestKey super) (d_upgradeKey super)
       (d_deleteKey super) (d_deleteAllKeys super) (d_destroyAttestationIds super) (d_begin super) (d_update super)
       (d_finish super) abort41)
    deviceLocked earlyBootEnded.

(** ** The services *)

(** [main] of both: [requests] is what clients do with the registered object. *)
Context {CR : Type} `{KeymasterResponse CR} (configure_request : Z -> Z -> Serializable) (configure_response : CR).
Context (GetOsVersion GetOsPatchlevel : Z).

Definition Initialize : LM Z := BeanpodKeymaster.Initialize configure_request configure_response GetOsVersion GetOsPatchlevel.
Definition main40 (requests : IKeymasterDevice W km_st -> LM unit) : LM Z := service_main Initialize (requests device40).
Definition main41 (requests : IKeymasterDevice41 W km_st -> LM unit) : LM Z := service_main Initialize (requests device41).

(** The object of the lite build is the shared class over the lite transport. *)
Lemma device41_shared :
  device41 = Keymaster41Device.device41 uninit fresh_f fresh_nonce java_time hidlKeyParams2Km.
Proof. reflexivity. Qed.
End Methods.
