(* ===== verification/Km400.v ===== *)
(** * The keymaster client of the 400 build (400/km4.1/common/BeanpodKeymaster.cpp, 400/km4.1/40/service.cpp)

    The file is a copy of the lite one of [BeanpodKeymaster.v], linked with the
    transport of [KmTeec.v]: every method is one command of the session with the
    keymaster application. *)

From S2P Require Import Prelude Kernel Teec KmLib KmTeec BeanpodKeymaster KeyMintOperation KmParams Keymaster4Device Keymaster41Device.

Section Client.
Context {W : Type} `{K : Kernel W} (gptee : bool) (context session : Z) (garbage : bytes).
#[local] Instance transport : KeymasterIpc W kt_st := km41_ipc gptee context session garbage.
Abbreviation KM := (M W kt_st).

Section Methods.
Context {R : Type} `{KeymasterResponse R}.

Definition ForwardCommand (command : keymaster_command) (req : Serializable) (rsp : R) : KM R :=
  BeanpodKeymaster.ForwardCommand command req rsp.
Definition ForwardCommandNoRequest (command : keymaster_command) (rsp : R) : KM R :=
  BeanpodKeymaster.ForwardCommandNoRequest command rsp.

Definition GetVersion (request : Serializable) (response : R) : KM R :=
  ForwardCommand KM_GET_VERSION request response.
Definition SupportedAlgorithms (request : Serializable) (response : R) : KM R :=
  ForwardCommand KM_GET_SUPPORTED_ALGORITHMS request response.
Definition SupportedBlockModes (request : Serializable) (response : R) : KM R :=
  ForwardCommand KM_GET_SUPPORTED_BLOCK_MODES request response.
Definition SupportedPaddingModes (request : Serializable) (response : R) : KM R :=
  ForwardCommand KM_GET_SUPPORTED_PADDING_MODES request response.
Definition SupportedDigests (request : Serializable) (response : R) : KM R :=
  ForwardCommand KM_GET_SUPPORTED_DIGESTS request response.
Definition SupportedImportFormats (request : Serializable) (response : R) : KM R :=
  ForwardCommand KM_GET_SUPPORTED_IMPORT_FORMATS request response.
Definition SupportedExportFormats (request : Serializable) (response : R) : KM R :=
  ForwardCommand KM_GET_SUPPORTED_EXPORT_FORMATS request response.
Definition AddRngEntropy (request : Serializable) (response : R) : KM R :=
  ForwardCommand KM_ADD_RNG_ENTROPY request response.
Definition Configure (request : Serializable) (response : R) : KM R :=
  ForwardCommand KM_CONFIGURE request response.
Definition GetKeyCharacteristics (request : Serializable) (response : R) : KM R :=
  ForwardCommand KM_GET_KEY_CHARACTERISTICS request response.
Definition ImportKey (request : Serializable) (response : R) : KM R :=
  ForwardCommand KM_IMPORT_KEY request response.
Definition ImportWrappedKey (request : Serializable) (response : R) : KM R :=
  ForwardCommand KM_IMPORT_WRAPPED_KEY request response.
Definition ExportKey (request : Serializable) (response : R) : KM R :=
  ForwardCommand KM_EXPORT_KEY request response.
Definition AttestKey (request : Serializable) (response : R) : KM R :=
  ForwardCommand KM_ATTEST_KEY request response.
Definition UpgradeKey (request : Serializable) (response : R) : KM R :=
  ForwardCommand KM_UPGRADE_KEY request response.
Definition DeleteKey (request : Serializable) (response : R) : KM R :=
  ForwardCommand KM_DELETE_KEY request response.
Definition DeleteAllKeys (request : Serializable) (response : R) : KM R :=
  ForwardCommand KM_DELETE_ALL_KEYS request response.
Definition BeginOperation (request : Serializable) (response : R) : KM R :=
  ForwardCommand KM_BEGIN_OPERATION request response.
Definition UpdateOperation (request : Serializable) (response : R) : KM R :=
  ForwardCommand KM_UPDATE_OPERATION request response.
Definition FinishOperation (request : Serializable) (response : R) : KM R :=
  ForwardCommand KM_FINISH_OPERATION request response.
Definition AbortOperation (request : Serializable) (response : R) : KM R :=
  ForwardCommand KM_ABORT_OPERATION request response.
Definition GetHmacSharingParameters (response : R) : KM R :=
  ForwardCommandNoRequest KM_GET_HMAC_SHARING_PARAMETERS response.
Definition ComputeSharedHmac (request : Serializable) (response : R) : KM R :=
  ForwardCommand KM_COMPUTE_SHARED_HMAC request response.
Definition VerifyAuthorization (request : Serializable) (response : R) : KM R :=
  ForwardCommand KM_VERIFY_AUTHORIZATION request response.
Definition deviceLocked (request : Serializable) (response : R) : KM R :=
  ForwardCommand KM_DEVICE_LOCKED request response.
Definition earlyBootEnded (response : R) : KM R :=
  ForwardCommandNoRequest KM_EARLY_BOOT_ENDED response.

Context {A : Type} `{AuthorizationSet A}.
Context (java_time : Z -> Z) (ser_generate : GenerateKeyRequest A -> Serializable).

Definition GenerateKey (request : GenerateKeyRequest A) (response : R) : KM R :=
  let datedRequest := MkGenerateKeyRequest (message_version request) (key_description request) in
  datedRequest ← (if negb (contains_creation (key_description request)) then
                    t ← sys (Lib_extern (cstr "time"));
                    mret (MkGenerateKeyRequest (message_version datedRequest)
                            (push_creation (java_time (sr_ret t)) (key_description datedRequest)))
                  else mret datedRequest);
  ForwardCommand KM_GENERATE_KEY (ser_generate datedRequest) response.
End Methods.

Context {CR : Type} `{KeymasterResponse CR} (configure_request : Z -> Z -> Serializable) (configure_response : CR).
Context (GetOsVersion GetOsPatchlevel : Z).

Definition Initialize : KM Z :=
  err ← ipc_connect;
  if negb (err =? 0) then mret err
  else
    rsp ← Configure (configure_request GetOsVersion GetOsPatchlevel) configure_response;
    if negb (rsp_error rsp =? KM_ERROR_OK) then mret (-1) else mret 0.

Definition BeanpodKeymaster_destroy : KM unit := ipc_disconnect.

(** ** The services *)

Context {P A : Type} `{D : KeymasterDefs P} `{S : !ParamSet P A} `{N : KeymasterWire A}.
Context (uninit : nat -> P) (fresh_f : Z) (fresh_nonce : bytes) (java_time : Z -> Z).
Context (hidlKeyParams2Km : list KeyParameter -> list P).

Definition main40 (requests : IKeymasterDevice W kt_st -> KM unit) : KM Z :=
  service_main Initialize (requests (device40 uninit fresh_f fresh_nonce java_time)).
Definition main41 (requests : IKeymasterDevice41 W kt_st -> KM unit) : KM Z :=
  service_main Initialize (requests (device41 uninit fresh_f fresh_nonce java_time hidlKeyParams2Km)).
End Client.
