(* ===== verification/Services.v ===== *)
(** * The other services (lite/gatekeeper/service.cpp, 400/keymint1.0/service.cpp)

    The [main] functions of the gatekeeper service and of the KeyMint service;
    those of the keymaster services are in [Keymaster41Device.v].  The requests
    a service answers between joining the thread pool and leaving it are an
    argument. *)

From S2P Require Import Prelude Kernel Gatekeeper.

(** A call of a library function with a name for its argument. *)
Definition extern_with (name arg : bytes) : syscall := Lib_extern (name ++ cstr "(" ++ arg ++ cstr ")").

(** ** The gatekeeper service *)

Section GatekeeperService.
Context {W : Type} `{K : Kernel W}.

(** The constructor of the device connects and keeps the result in [error_];
    the requests are answered by an object with that value. *)
Definition TrustyGateKeeperDevice : M W gk_st Z :=
  rc ← trusty_gatekeeper_connect;
  mret rc.

(** The destructor. *)
Definition TrustyGateKeeperDevice_destroy : M W gk_st unit := trusty_gatekeeper_disconnect.

Definition gatekeeper_main (requests : Z -> M W gk_st unit) : M W gk_st Z :=
  sys (Lib_extern (cstr "configureRpcThreadpool"));;
  error_ ← TrustyGateKeeperDevice;
  status ← sys (Lib_extern (cstr "registerAsService"));
  if negb (sr_ret status =? 0) then halt AssertFailed
  else
    sys (Lib_extern (cstr "joinRpcThreadpool"));;
    requests error_;;
    mret (-1).
End GatekeeperService.

(** ** The KeyMint service *)

Section KeyMintService.
Context {W G : Type} `{K : Kernel W}.
(** The interface descriptors of the generated classes. *)
Context (keymint_descriptor secureclock_descriptor sharedsecret_descriptor rkp_descriptor : bytes).

Definition STATUS_OK := 0.
Definition EXIT_FAILURE := 1.
Definition km_init_prop : bytes := cstr "vendor.soter.teei.km.init".
Definition add_call (descriptor : bytes) : syscall :=
  extern_with (cstr "AServiceManager_addService") (descriptor ++ cstr "/default").

Definition addService (descriptor : bytes) : M W G unit :=
  status ← sys (add_call descriptor);
  assert_ (sr_ret status =? STATUS_OK).

Definition property (value : bytes) : M W G unit := sys (Lib_property_set km_init_prop value);; mret tt.

Definition keymint_main (requests : M W G unit) : M W G Z :=
  property (cstr "start");;
  sys (extern_with (cstr "ABinderProcess_setThreadPoolMaxThreadCount") (cstr "0"));;
  property (cstr "add_service");;
  addService keymint_descriptor;;
  addService secureclock_descriptor;;
  addService sharedsecret_descriptor;;
  addService rkp_descriptor;;
  property (cstr "finish");;
  sys (Lib_extern (cstr "ABinderProcess_joinThreadPool"));;
  requests;;
  mret EXIT_FAILURE.

(** The four services are registered, in this order, and announced before and
    after. *)
Definition services_added (s s3 : proc W G) : Prop :=
  globals s3 = globals s /\
  exists p1 c p2 a1 a2 a3 a4 p3 j, trace s3 = trace s ++
    [Ev (Lib_property_set km_init_prop (cstr "start")) p1;
     Ev (extern_with (cstr "ABinderProcess_setThreadPoolMaxThreadCount") (cstr "0")) c;
     Ev (Lib_property_set km_init_prop (cstr "add_service")) p2;
     Ev (add_call keymint_descriptor) a1; Ev (add_call secureclock_descriptor) a2;
     Ev (add_call sharedsecret_descriptor) a3; Ev (add_call rkp_descriptor) a4;
     Ev (Lib_property_set km_init_prop (cstr "finish")) p3;
     Ev (Lib_extern (cstr "ABinderProcess_joinThreadPool")) j] /\
    Forall (fun a => sr_ret a = STATUS_OK) [a1; a2; a3; a4].

(** The service either ends the process, because one of its interfaces could
    not be registered, or answers requests after all four were. *)
Lemma keymint_main_spec requests (Q : outcome Z -> proc W G -> Prop) s :
  (forall s', Q (Stop AssertFailed) s') ->
  (forall s3, services_added s s3 -> wp (requests;; mret EXIT_FAILURE) Q s3) ->
  wp (keymint_main requests) Q s.
Proof.
  intros Hstop HQ. unfold keymint_main, addService, property.
  repeat first [apply wp_unassoc | apply wp_bind, wp_sys; intros ? ? _ | apply wp_bind, wp_ret | apply wp_bind, wp_assert; intros ?;
    [|apply Hstop]].
  apply HQ. split; [done|]. do 9 eexists. split; [cbn [trace after]; rewrite <- !app_assoc; simpl; reflexivity|].
  unfold STATUS_OK in *. repeat constructor; lia.
Qed.
End KeyMintService.
