(* ===== verification/KmsetkeyModule.v ===== *)
(** * The key installation module (lite/kmsetkey, module.c and HalAdaptationLayer.cpp)

    The HAL module around [Kmsetkey.v]: its descriptor, opening and closing the
    device, the device object, and the built-in public keys the installation
    starts with. *)

From S2P Require Import Prelude Kernel Libtrusty MemKernel Kmsetkey ClientTheorems.

(** ** The built-in keys *)

Definition Input_Ekkb_pub : bytes :=
  [84; 203; 205; 179; 255; 205; 204; 221; 163; 255; 93; 48; 149; 3; 45; 42; 42; 18; 230; 144; 11; 63; 247; 133;
   229; 179; 221; 142; 75; 39; 157; 88; 200; 36; 122; 176; 131; 139; 177; 212; 164; 146; 23; 14; 242; 207; 25; 154;
   171; 206; 251; 104; 203; 134; 148; 110; 22; 142; 61; 204; 248; 12; 166; 48; 28; 71; 166; 182; 80; 47; 104; 148;
   35; 12; 98; 175; 225; 68; 164; 39; 216; 121; 5; 104; 81; 137; 4; 73; 97; 147; 122; 239; 181; 185; 23; 114;
   40; 135; 186; 148; 74; 184; 241; 70; 207; 231; 83; 10; 2; 90; 238; 89; 71; 190; 194; 65; 152; 217; 91; 23;
   175; 16; 11; 224; 146; 186; 101; 48; 99; 118; 148; 42; 38; 125; 63; 148; 46; 159; 6; 184; 211; 176; 118; 233;
   189; 186; 7; 110; 225; 61; 31; 198; 219; 127; 52; 193; 180; 237; 139; 0; 54; 174; 30; 187; 101; 129; 56; 148;
   119; 226; 78; 92; 193; 159; 147; 45; 41; 163; 48; 41; 247; 236; 252; 204; 135; 63; 250; 9; 173; 30; 229; 175;
   78; 207; 14; 68; 140; 227; 191; 141; 91; 235; 214; 160; 234; 198; 191; 177; 86; 213; 201; 230; 184; 225; 185; 148;
   133; 173; 56; 56; 221; 226; 87; 204; 254; 237; 240; 42; 16; 182; 142; 60; 162; 77; 151; 96; 62; 236; 146; 226;
   193; 114; 182; 56; 226; 192; 168; 202; 214; 235; 12; 53; 233; 62; 141; 145].

Definition InputPkb : bytes :=
  [0; 5; 20; 36; 20; 47; 225; 252; 97; 177; 11; 151; 175; 92; 102; 176; 246; 21; 38; 246; 28; 150; 200; 186;
   150; 119; 213; 78; 251; 164; 145; 253; 251; 22; 51; 237; 110; 204; 65; 15; 207; 194; 148; 194; 100; 28; 250; 18;
   102; 4; 227; 76; 240; 180; 95; 21; 75; 219; 244; 41; 31; 152; 211; 245; 78; 168; 210; 161; 14; 139; 89; 191;
   23; 222; 183; 167; 80; 2; 47; 20; 156; 122; 229; 36; 109; 14; 159; 222; 69; 77; 106; 117; 6; 179; 218; 136;
   134; 141; 166; 17; 67; 168; 23; 169; 111; 112; 39; 1; 218; 250; 175; 246; 168; 71; 236; 239; 41; 102; 78; 168;
   124; 153; 250; 64; 184; 212; 138; 44; 177].

(** Both go to the service in one message, which has room for them. *)
Lemma built_in_keys :
  zlen Input_Ekkb_pub = 256 /\ zlen InputPkb = 129 /\ zlen (Input_Ekkb_pub ++ InputPkb) <= kmsetkey_max_payload.
Proof. by vm_compute. Qed.

(** ** Module and device *)

Definition KMSETKEY_HARDWARE_MODULE_NAME : bytes := cstr "Hardware kmsetkey HAL".
Definition KMSETKEY_HARDWARE_MODULE_ID : bytes := cstr "kmsetkey".

(** hw_module_t of the framework, the fields that are set or compared; [name] is
    the memory the pointer points to, with its terminating zero. *)
Record hw_module_t := HwModule {
  tag : Z; module_api_version : Z; hal_api_version : Z; id : bytes; name : bytes; author : bytes
}.

(** struct kmsetkey_device: its function pointers are [nv_kmsetkey_close] and
    [attest_key_install] below. *)
Record kmsetkey_device := KmsetkeyDevice { dev_tag : Z; dev_version : Z; dev_module : hw_module_t }.

Section Module.
Context {W : Type} `{K : Kernel W}.
(** Constants of hardware/hardware.h, and the size of the device object. *)
Context (HARDWARE_MODULE_TAG HARDWARE_HAL_API_VERSION : Z) (HARDWARE_MODULE_API_VERSION : Z -> Z -> Z) (sizeof_device : Z).

Definition KMSETKEY_MODULE_API_VERSION_0_1 : Z := HARDWARE_MODULE_API_VERSION 0 1.
Definition HAL_MODULE_INFO_SYM : hw_module_t :=
  HwModule HARDWARE_MODULE_TAG KMSETKEY_MODULE_API_VERSION_0_1 HARDWARE_HAL_API_VERSION
    KMSETKEY_HARDWARE_MODULE_ID (KMSETKEY_HARDWARE_MODULE_NAME ++ [0]) (cstr "MediaTek").

(** The constructor. *)
Definition HalAdaptationLayer (module : hw_module_t) : kmsetkey_device :=
  KmsetkeyDevice HARDWARE_MODULE_TAG 1 module.

Definition known_module (module : hw_module_t) : bool :=
  (tag module =? tag HAL_MODULE_INFO_SYM)
  && (module_api_version module =? module_api_version HAL_MODULE_INFO_SYM)
  && (hal_api_version module =? hal_api_version HAL_MODULE_INFO_SYM)
  && bool_decide (slice 0 (zlen KMSETKEY_HARDWARE_MODULE_NAME) (name module)
                  = slice 0 (zlen KMSETKEY_HARDWARE_MODULE_NAME) (name HAL_MODULE_INFO_SYM)).

(** Status and [*device] ([None] while it was not written).  A failing [new]
    throws, which nothing catches. *)
Definition nv_kmsetkey_open (module : hw_module_t) (id : option bytes) : M W unit (Z * option kmsetkey_device) :=
  match id with
  | None => mret (- EINVAL, None)
  | Some _ =>
      if negb (known_module module) then mret (- EINVAL, None)
      else
        ok ← malloc sizeof_device;
        if negb ok then halt AssertFailed else mret (0, Some (HalAdaptationLayer module))
  end.

Definition nv_kmsetkey_close (hw : option kmsetkey_device) : M W unit Z :=
  match hw with
  | None => mret 0
  | Some _ => free;; mret 0
  end.

(** The device's [attest_key_install] with the built-in keys; [out0] is its
    uninitialised buffer and [n] the fuel of its loop. *)
Definition device_attest_key_install (out0 : bytes) (n : nat) (peakb : bytes) : M W unit Z :=
  attest_key_install Input_Ekkb_pub InputPkb out0 n peakb.

(** A client of the module: open the device, install a key block, close it. *)
Definition install_through_module (module : hw_module_t) (id : option bytes) (out0 : bytes) (peakb : bytes) : M W unit Z :=
  '(rc, device) ← nv_kmsetkey_open module id;
  match device with
  | None => mret rc
  | Some d =>
      rc ← device_attest_key_install out0 (S (length peakb)) peakb;
      nv_kmsetkey_close (Some d);;
      mret rc
  end.

(** Opening succeeds for a module of the same kind and for nothing else. *)
Lemma open_known_module module id s :
  wp (nv_kmsetkey_open module id) (fun o s' =>
    (exists r, sr_ret r < 0 /\ o = Stop AssertFailed /\ trace s' = trace s ++ [Ev (Lib_malloc sizeof_device) r]) \/
    (is_Some id /\ known_module module = true /\ o = Ret (0, Some (HalAdaptationLayer module)) /\
       exists r, trace s' = trace s ++ [Ev (Lib_malloc sizeof_device) r]) \/
    ((id = None \/ known_module module = false) /\ o = Ret (- EINVAL, None) /\ s' = s)) s.
Proof.
  unfold nv_kmsetkey_open, malloc. destruct id as [i|]; [|apply wp_ret; naive_solver].
  destruct (known_module module); cbn [negb]; [|apply wp_ret; naive_solver].
  apply wp_bind, wp_bind, wp_sys. intros r w _. apply wp_ret. apply wp_if; intros Hm; [apply wp_halt; left|apply wp_ret; right; left].
  - exists r. split_and!; [lia|done|done].
  - split_and!; [by eexists|done|done|by exists r].
Qed.
End Module.

(** ** Installing a key through the module *)

(** The commands of an installation with the built-in keys. *)
Definition commands (peakb : bytes) : list command :=
  script Input_Ekkb_pub InputPkb peakb (chunks (length peakb) peakb).

(** They carry the key block, in parts, and each fits into a message of the
    channel. *)
Definition carries (l : list command) (peakb : bytes) : Prop :=
  exists parts, mjoin parts = peakb /\
    l = [Command SET_DECRYPT_KEY true (Input_Ekkb_pub ++ InputPkb); Command KEY_LEN true (le_enc 4 (zlen peakb))]
        ++ part_commands parts ++ [Command SET_KEY true []] /\
    Forall (fun c => zlen (c_frame c) <= MAX_MSG_SIZE - IPC_MSG_SIZE) l.

Lemma commands_carry peakb : carries (commands peakb) peakb.
Proof.
  destruct (chunks_spec (length peakb) peakb) as [Hj Hf]; [unfold zlen; lia|].
  exists (chunks (length peakb) peakb). split_and!; [done|done|].
  assert (forall c, zlen (c_payload c) <= kmsetkey_max_payload -> zlen (c_frame c) <= MAX_MSG_SIZE - IPC_MSG_SIZE) as Hfit.
  { intros c Hp. unfold c_frame, kmsetkey_msg_enc. rewrite zlen_app, zlen_le_enc.
    unfold kmsetkey_max_payload, MAX_MSG_SIZE, IPC_MSG_SIZE, sizeof_kmsetkey_msg in *. lia. }
  constructor; [apply Hfit, built_in_keys|]. constructor; [apply Hfit; cbn [c_payload]; by rewrite zlen_le_enc|].
  apply Forall_app. split; [|constructor; [by apply Hfit|done]].
  clear Hj. induction Hf as [|p l [_ Hp] _ IH]; [done|]. rewrite part_commands_cons. constructor; [by apply Hfit|exact IH].
Qed.

(** C26. A client of the key installation module.  A module of another kind, or no
    identifier, is refused without a system call.  Otherwise, unless the process
    dies for lack of memory, the module connects to the key service and sends on
    that connection the built-in decryption keys, the length of the key block,
    the block in parts that concatenate to it, the last one marked, and the
    commit command, each in a message that fits the channel, each only after the
    service acknowledged the one before; it returns 0 exactly when all of them
    were acknowledged and a negative status when it could not connect or stopped
    at a command that could not be sent, or was answered with an error, a short
    message or a word other than its acknowledgement.  The connection, unless it
    is descriptor 0, and the device are given back. *)
Theorem module_installs_keybox {W} `{K : Kernel W} `{KE : !KernelErrno W} `{KB : !KernelBounds W}
    TAG HAL VERSION sizeof_device module i out0 peakb (s : proc W unit) :
  let run := install_through_module TAG HAL VERSION sizeof_device module i out0 peakb s in
  if known_module TAG HAL VERSION module && bool_decide (is_Some i) then
    exists r, (run.1 = Stop AssertFailed /\ trace run.2 = trace s ++ [Ev (Lib_malloc sizeof_device) r]) \/
      exists rc evs r', run.1 = Ret rc /\
        trace run.2 = trace s ++ [Ev (Lib_malloc sizeof_device) r] ++ evs ++ [Ev Lib_free r'] /\
        (open_fds evs = [] \/ open_fds evs = [0]) /\
        exists h connect, tipc_outcome TRUSTY_DEVICE_NAME KMSETKEY_PORT h connect /\
        if h <? 0 then rc = h /\ evs = connect
        else exists l talk ok, carries l peakb /\ Forall memory_or_io talk /\ exchanges h l ok (io talk) /\
          (if ok then rc = 0 else rc < 0) /\
          (if h =? 0 then evs = connect ++ talk else exists c, evs = connect ++ talk ++ [Ev (Sys_close h) c])
  else run = (Ret (- EINVAL), s).
Proof.
  cbn zeta. unfold install_through_module, nv_kmsetkey_open. destruct i as [i|]; [|by rewrite bool_decide_eq_false_2, andb_false_r by (by intros [? ?])].
  rewrite bool_decide_eq_true_2, andb_true_r by (by eexists). destruct (known_module TAG HAL VERSION module); cbn [negb]; [|done].
  unfold malloc. match goal with |- context [(?m s).1] => enough (wp m (fun o s' => exists r,
    (o = Stop AssertFailed /\ trace s' = trace s ++ [Ev (Lib_malloc sizeof_device) r]) \/
      exists rc evs r', o = Ret rc /\ trace s' = trace s ++ [Ev (Lib_malloc sizeof_device) r] ++ evs ++ [Ev Lib_free r'] /\
        installation Input_Ekkb_pub InputPkb peakb rc evs) s) as (r & [H|(rc & evs & r' & H1 & H2 & H3)]) end.
  { exists r. by left. }
  { exists r. right. exists rc, evs, r'. split; [done|]. split; [done|]. split; [by eapply installation_fds|].
    destruct H3 as (h & connect & Hout & H). exists h, connect. split; [done|]. destruct (h <? 0); [done|].
    destruct H as (talk & ok & Hm & Hx & Hrc & He). exists (commands peakb), talk, ok. split; [apply commands_carry|done]. }
  apply wp_bind, wp_bind, wp_bind, wp_sys. intros r w _. apply wp_ret. apply wp_if; intros Hm.
  { apply wp_halt. exists r. by left. }
  apply wp_ret. apply wp_bind. eapply wp_mono; [apply (attest_key_install_spec _ _ out0 _ peakb); unfold zlen; lia|].
  intros o s1 (rc & evs & -> & Ht & Hi).
  unfold nv_kmsetkey_close, free. apply wp_bind, wp_bind, wp_bind, wp_sys. intros r' w' _. apply wp_ret, wp_ret, wp_ret.
  exists r. right. exists rc, evs, r'. split_and!; [done| |done].
  cbn [trace after]. rewrite Ht. cbn [trace after]. by rewrite <- !app_assoc.
Qed.

(** A device the service acknowledges every command of. *)
Definition demo_version (major minor : Z) : Z := major * 256 + minor.
Definition demo_module : hw_module_t := HAL_MODULE_INFO_SYM 1 2 demo_version.
Definition demo_acks : proc mem_world unit :=
  Proc tt (inbox_world [le_enc 4 3221225488; le_enc 4 3221225472; le_enc 4 3221225473; le_enc 4 3221225474]) 0 [].
Definition demo_install : M mem_world unit Z :=
  install_through_module 1 2 demo_version 32 demo_module (Some [107]) (replicate (Z.to_nat 4096) 0) [7; 8; 9].

Example module_install_runs : (demo_install demo_acks).1 = Ret 0.
Proof. vm_compute. reflexivity. Qed.


Lemma module_installs_keybox_witness :
  let run := demo_install demo_acks in
  (exists r, (run.1 = Stop AssertFailed /\ trace run.2 = [] ++ [Ev (Lib_malloc 32) r]) \/
    exists rc evs r', run.1 = Ret rc /\
      trace run.2 = [] ++ [Ev (Lib_malloc 32) r] ++ evs ++ [Ev Lib_free r'] /\
      (open_fds evs = [] \/ open_fds evs = [0]) /\
      exists h connect, tipc_outcome TRUSTY_DEVICE_NAME KMSETKEY_PORT h connect /\
      if h <? 0 then rc = h /\ evs = connect
      else exists l talk ok, carries l [7; 8; 9] /\ Forall memory_or_io talk /\ exchanges h l ok (io talk) /\
        (if ok then rc = 0 else rc < 0) /\
        (if h =? 0 then evs = connect ++ talk else exists c, evs = connect ++ talk ++ [Ev (Sys_close h) c])) /\
  run.1 = Ret 0.
Proof.
  split; [|exact module_install_runs].
  exact (module_installs_keybox 1 2 demo_version 32 demo_module (Some [107]) (replicate (Z.to_nat 4096) 0) [7; 8; 9] demo_acks).
Defined.
