(* ===== verification/DaemonLog.v ===== *)
(** * The log collector of teei_daemon (400/teei_daemon/main.c, SAVE_TEE_LOG)

    With SAVE_TEE_LOG defined, the thread that initialised the secure side stays
    in [get_tee_log]: it copies what the driver hands out into the file
    teei_log_current and, when two megabytes are reached, keeps the last five
    files under the names teei_log_LAST_1 to teei_log_LAST_5. *)

From S2P Require Import Prelude Kernel Libtrusty TeeiList Daemon.

Definition MAX_LOG_SIZE := 4096.
Definition MAX_NAME_SIZE := 100.
Definition MAX_LOG_CNT := 5%nat.
Definition MAX_FILE_SIZE := 2 * 1024 * 1024.
Definition F_OK := 0.
Definition S_IRWXU := 448.

(** ** Formatted numbers *)

(** The decimal digits of a number below ten to the [n]. *)
Fixpoint digits (n : nat) (z : Z) : bytes :=
  match n with
  | O => []
  | S n' => (if z <? 10 then [] else digits n' (z / 10)) ++ [48 + z mod 10]
  end.

(** [%d], [%4d] and [%02d] of an [int]. *)
Definition fmt_d (z : Z) : bytes := (if z <? 0 then [45] else []) ++ digits 10 (Z.abs z).
Definition fmt_4d (z : Z) : bytes := let s := fmt_d z in replicate (4 - length s) 32 ++ s.
Definition fmt_02d (z : Z) : bytes :=
  let sign := if z <? 0 then [45] else [] in
  let s := digits 10 (Z.abs z) in
  sign ++ replicate (2 - length sign - length s) 48 ++ s.

(** struct tm of the C library, the fields that are read. *)
Record tm := Tm { tm_sec : Z; tm_min : Z; tm_hour : Z; tm_mday : Z; tm_mon : Z; tm_year : Z }.
Definition tm_dec (b : bytes) : tm :=
  Tm (get_s32 b 0) (get_s32 b 4) (get_s32 b 8) (get_s32 b 12) (get_s32 b 16) (get_s32 b 20).

Definition log_path : bytes := cstr "/data/vendor/thh/tee_log".
Definition log_current : bytes := log_path ++ cstr "/teei_log_current".
Definition log_last (i : nat) : bytes := log_path ++ cstr "/teei_log_LAST_" ++ fmt_d (Z.of_nat i).

(** The second line of the header is written with its terminating zero. *)
Definition header_end : bytes := cstr " <<<<<" ++ [10; 10; 10] ++ [0].

Definition log_date (t : tm) : bytes :=
  cstr ">>>>> Date: " ++ fmt_4d (s32 (tm_year t + 1900)) ++ fmt_02d (s32 (tm_mon t + 1)) ++ fmt_02d (tm_mday t)
  ++ cstr "_" ++ fmt_02d (tm_hour t) ++ fmt_02d (tm_min t) ++ fmt_02d (tm_sec t).

Section Log.
Context {W G : Type} `{K : Kernel W}.
Abbreviation LM := (M W G).

(** [sprintf] into an array of [MAX_NAME_SIZE] bytes. *)
Definition sprintf (s : bytes) : LM bytes :=
  if MAX_NAME_SIZE <=? zlen s then halt Undefined else mret s.

(** [access] and, if the file is there, [rename], whose result is not looked at. *)
Definition move_log (from to : bytes) : LM unit :=
  from_name ← sprintf from;
  retVal ← sys (Sys_access from_name F_OK);
  if sr_ret retVal =? 0 then
    to_name ← sprintf to;
    sys (Sys_rename from_name to_name);;
    mret tt
  else mret tt.

(** The loop from [i] down to 2. *)
Fixpoint rename_loop (i : nat) : LM unit :=
  match i with
  | S (S _ as j) => move_log (log_last j) (log_last i);; rename_loop j
  | _ => mret tt
  end.

Definition rename_last_log : LM unit :=
  rename_loop MAX_LOG_CNT;;
  move_log log_current (log_last 1).

(** [retry_access_dir] up to the directory being there. *)
Fixpoint wait_log_dir (n : nat) : LM tm :=
  match n with
  | O => halt OutOfFuel
  | S n' =>
      sys (Lib_extern (cstr "time"));;
      t ← sys (Lib_extern (cstr "localtime"));
      if sr_ret t <? 0 then halt Undefined
      else
        retVal ← sys (Sys_access log_path F_OK);
        if negb (sr_ret retVal =? 0) then
          sys (Sys_usleep 1000);;
          wait_log_dir n'
        else mret (tm_dec (sr_data t))
  end.

(** [retry_open_file] *)
Fixpoint open_log (n : nat) : LM Z :=
  match n with
  | O => halt OutOfFuel
  | S n' =>
      fd ← sys (Sys_open log_current (Z.lor O_RDWR (Z.lor O_SYNC O_CREAT)) S_IRWXU);
      if sr_ret fd <? 0 then
        sys (Sys_usleep 1000);;
        open_log n'
      else mret (sr_ret fd)
  end.

(** The copying loop: it is left when the file is full. *)
Fixpoint copy_log (n : nat) (config_fd log_file_fd total_wr_len : Z) : LM unit :=
  match n with
  | O => halt OutOfFuel
  | S n' =>
      rd ← sys (Sys_read config_fd MAX_LOG_SIZE);
      if sr_ret rd <? 0 then copy_log n' config_fd log_file_fd total_wr_len
      else
        wr ← sys (Sys_write log_file_fd (sr_data rd));
        if sr_ret wr <? 0 then copy_log n' config_fd log_file_fd total_wr_len
        else
          let total_wr_len := u32 (total_wr_len + sr_ret wr) in
          if MAX_FILE_SIZE <=? total_wr_len then
            sys (Sys_close log_file_fd);;
            mret tt
          else copy_log n' config_fd log_file_fd total_wr_len
  end.

(** One file, from [retry_access_dir] to the jump back there. *)
Definition log_one_file (fuel : nat) (config_fd : Z) : LM unit :=
  timeinfo ← wait_log_dir fuel;
  rename_last_log;;
  log_file_date ← sprintf (log_date timeinfo);
  log_file_fd ← open_log fuel;
  sys (Sys_write log_file_fd log_file_date);;
  sys (Sys_write log_file_fd header_end);;
  copy_log fuel config_fd log_file_fd 0.

(** The function never returns. *)
Fixpoint get_tee_log (n fuel : nat) (config_fd : Z) : LM Z :=
  match n with
  | O => halt OutOfFuel
  | S n' => log_one_file fuel config_fd;; get_tee_log n' fuel config_fd
  end.
End Log.

(** [init_soter_fn] of a build that collects the log. *)
Definition init_soter_fn_log {W} `{K : Kernel W} (n fuel : nat) : M W daemon_st Z :=
  fd ← sys (Sys_open TEEI_CONFIG O_RDWR 0);
  if sr_ret fd <? 0 then mret (-1)
  else
    p ← gets d_param;
    r ← sys (Sys_ioctl (sr_ret fd) TEEI_CONFIG_IOCTL_INIT_TEEI (Arg_buf (init_param_enc p)));
    (if sr_ret r =? 0 then sys (Lib_property_set (cstr "vendor.soter.teei.init") (cstr "INIT_OK"));; mret tt else mret tt);;
    get_tee_log n fuel (sr_ret fd);;
    sys (Sys_close (sr_ret fd));;
    mret 0.
