(* ===== verification/DaemonLogTheorems.v ===== *)
(** * What the log collector guarantees

    Rotating the logs moves each one place on and loses only the fifth; a file
    holds what was read from the driver and stays below two megabytes and one
    block. *)

From S2P Require Import Prelude Kernel Libtrusty Storage StorageFiles MemKernel TeeiList Daemon DaemonLog.

(** ** Rotation *)

(** Of the kernel: the files by path, and that [access] tells whether there is
    one and [rename] moves it, or fails and changes nothing. *)
Class KernelDir (W : Type) `{K : Kernel W} := {
  files : W -> gmap bytes bytes;
  kd_access : forall p w r w', kcall (Sys_access p F_OK) w = (r, w') ->
    files w' = files w /\ (sr_ret r = 0 <-> is_Some (files w !! p));
  kd_rename : forall p q w r w' c, kcall (Sys_rename p q) w = (r, w') -> p <> q -> files w !! p = Some c ->
    files w' = if sr_ret r =? 0 then <[q := c]> (delete p (files w)) else files w;
}.

(** The effect of [move_log] on the directory. *)
Definition move (p q : bytes) (m : gmap bytes bytes) : gmap bytes bytes :=
  match m !! p with Some c => <[q := c]> (delete p m) | None => m end.

Lemma lookup_move_from p q m : p <> q -> move p q m !! p = None.
Proof. intros H. unfold move. destruct (m !! p) eqn:E; [|done]. by rewrite lookup_insert_ne, lookup_delete_eq by done. Qed.
Lemma lookup_move_to p q m : p <> q -> move p q m !! q = match m !! p with Some c => Some c | None => m !! q end.
Proof. intros H. unfold move. destruct (m !! p) eqn:E; [|done]. by rewrite lookup_insert_eq. Qed.
Lemma lookup_move_ne p q m r : r <> p -> r <> q -> move p q m !! r = m !! r.
Proof. intros H1 H2. unfold move. destruct (m !! p) eqn:E; [|done]. by rewrite lookup_insert_ne, lookup_delete_ne by done. Qed.

(** Nothing is read or written. *)
Definition silent (evs : list event) : Prop :=
  Forall (fun e => match ev_call e with Sys_read _ _ | Sys_write _ _ => False | _ => True end) evs.

(** All renames among [evs] succeeded. *)
Definition renames_ok (evs : list event) : Prop :=
  Forall (fun e => match ev_call e with Sys_rename _ _ => sr_ret (ev_res e) = 0 | _ => True end) evs.

Section Rotation.
Context {W G : Type} `{K : Kernel W} `{KD : !KernelDir W}.
Implicit Types s : proc W G.

(** [m] always returns; if its renames succeed, the directory changes by [f]. *)
Definition arranges (m : M W G unit) (f : gmap bytes bytes -> gmap bytes bytes) : Prop :=
  forall s, wp m (fun o s' => o = Ret tt /\ globals s' = globals s /\ exists evs, trace s' = trace s ++ evs /\
    silent evs /\ (renames_ok evs -> files (world s') = f (files (world s)))) s.

Lemma arranges_bind m1 m2 f1 f2 :
  arranges m1 f1 -> arranges m2 f2 -> arranges (m1;; m2) (fun d => f2 (f1 d)).
Proof.
  intros H1 H2 s. apply wp_bind. eapply wp_mono; [apply H1|]. intros o s1 (-> & Hg & evs & Ht & Hn & Hf).
  eapply wp_mono; [apply H2|]. intros o s2 (-> & Hg2 & evs2 & Ht2 & Hn2 & Hf2).
  split; [done|]. split; [congruence|]. exists (evs ++ evs2). split; [by rewrite Ht2, Ht, app_assoc|].
  split; [by apply Forall_app|]. intros Hok. apply Forall_app in Hok as [Hok1 Hok2]. by rewrite Hf2, Hf.
Qed.

Lemma sprintf_spec {A} b (k : bytes -> M W G A) Q s :
  zlen b < MAX_NAME_SIZE -> wp (k b) Q s -> wp (sprintf b ≫= k) Q s.
Proof.
  intros Hb Hk. unfold sprintf. replace (MAX_NAME_SIZE <=? zlen b) with false by (unfold MAX_NAME_SIZE in *; lia).
  by apply wp_bind, wp_ret.
Qed.

Lemma move_log_arranges p q :
  zlen p < MAX_NAME_SIZE -> zlen q < MAX_NAME_SIZE -> p <> q -> arranges (move_log p q) (move p q).
Proof.
  intros Hp Hq Hne s. unfold move_log. apply sprintf_spec; [done|]. apply wp_bind, wp_sys. intros r w Hk.
  destruct (kd_access _ _ _ _ Hk) as [Hw Hr]. apply wp_if; intros He.
  - destruct (proj1 Hr ltac:(lia)) as [c Hc]. apply sprintf_spec; [done|]. apply wp_bind, wp_sys. intros r2 w2 Hk2. apply wp_ret.
    split; [done|]. split; [done|]. eexists [_; _]. split; [cbn [trace after]; by rewrite <- app_assoc|].
    split; [by repeat constructor|]. intros Hok. inversion Hok as [|? ? _ Hok2]; subst. inversion Hok2 as [|? ? H0 _]; subst.
    simpl in H0. cbn [world after] in *. rewrite (kd_rename _ _ _ _ _ c Hk2 Hne) by (by rewrite Hw).
    replace (sr_ret r2 =? 0) with true by lia. unfold move. by rewrite Hw, Hc.
  - apply wp_ret. split; [done|]. split; [done|]. eexists [_]. split; [done|]. split; [by repeat constructor|]. intros _.
    cbn [world after]. rewrite Hw. unfold move. destruct (files (world s) !! p) eqn:E; [|done].
    assert (sr_ret r = 0) by (apply Hr; by eexists). lia.
Qed.

(** The names are different and fit their arrays. *)
Lemma log_names : NoDup (log_current :: map log_last (seq 1 5)) /\
  Forall (fun p => zlen p < MAX_NAME_SIZE) (log_current :: map log_last (seq 1 5)).
Proof. split; apply (bool_decide_unpack _); by vm_compute. Qed.

Definition rotate (m : gmap bytes bytes) : gmap bytes bytes :=
  move log_current (log_last 1) (move (log_last 1) (log_last 2) (move (log_last 2) (log_last 3)
    (move (log_last 3) (log_last 4) (move (log_last 4) (log_last 5) m)))).

Lemma rename_last_log_arranges : arranges rename_last_log rotate.
Proof.
  destruct log_names as [Hd Hl].
  assert (forall i j p q, (log_current :: map log_last (seq 1 5)) !! i = Some p ->
    (log_current :: map log_last (seq 1 5)) !! j = Some q -> i <> j -> arranges (move_log p q) (move p q)) as Hmove.
  { intros i j p q Hi Hj Hne. apply move_log_arranges.
    - rewrite Forall_forall in Hl. apply (Hl p). by eapply list_elem_of_lookup_2.
    - rewrite Forall_forall in Hl. apply (Hl q). by eapply list_elem_of_lookup_2.
    - intros ->. apply Hne. by eapply NoDup_lookup. }
  unfold rename_last_log, MAX_LOG_CNT. cbn [rename_loop].
  assert (arranges (mret tt) id) as Hid.
  { intros s. apply wp_ret. split; [done|]. split; [done|]. exists [].
    rewrite app_nil_r. by split_and!; [|constructor|]. }
  exact (arranges_bind _ _ _ _ (arranges_bind _ _ _ _ (Hmove 4 5 _ _ eq_refl eq_refl ltac:(done))%nat
    (arranges_bind _ _ _ _ (Hmove 3 4 _ _ eq_refl eq_refl ltac:(done))%nat
    (arranges_bind _ _ _ _ (Hmove 2 3 _ _ eq_refl eq_refl ltac:(done))%nat
    (arranges_bind _ _ _ _ (Hmove 1 2 _ _ eq_refl eq_refl ltac:(done))%nat Hid))))
    (Hmove 0 1 _ _ eq_refl eq_refl ltac:(done))%nat).
Qed.
End Rotation.

(** Where each log is after a rotation. *)
Definition rotated (m m' : gmap bytes bytes) : Prop :=
  m' !! log_current = None /\ m' !! log_last 1 = m !! log_current /\ m' !! log_last 2 = m !! log_last 1 /\
  m' !! log_last 3 = m !! log_last 2 /\ m' !! log_last 4 = m !! log_last 3 /\
  m' !! log_last 5 = match m !! log_last 4 with Some c => Some c | None => m !! log_last 5 end /\
  forall p, p ∉ log_current :: map log_last (seq 1 5) -> m' !! p = m !! p.

Ltac log_ne := by vm_compute.

Lemma rotate_rotated m : rotated m (rotate m).
Proof.
  unfold rotated, rotate. split_and!.
  - by rewrite lookup_move_from by log_ne.
  - rewrite lookup_move_to by log_ne. rewrite !(lookup_move_ne _ _ _ log_current) by log_ne.
    rewrite lookup_move_from by log_ne. by destruct (m !! log_current).
  - rewrite (lookup_move_ne log_current) by log_ne. rewrite lookup_move_to by log_ne.
    rewrite !(lookup_move_ne _ _ _ (log_last 1)) by log_ne. rewrite lookup_move_from by log_ne. by destruct (m !! log_last 1).
  - rewrite (lookup_move_ne log_current), (lookup_move_ne (log_last 1)) by log_ne. rewrite lookup_move_to by log_ne.
    rewrite !(lookup_move_ne _ _ _ (log_last 2)) by log_ne. rewrite lookup_move_from by log_ne. by destruct (m !! log_last 2).
  - rewrite (lookup_move_ne log_current), (lookup_move_ne (log_last 1)), (lookup_move_ne (log_last 2)) by log_ne.
    rewrite lookup_move_to by log_ne. rewrite !(lookup_move_ne _ _ _ (log_last 3)) by log_ne.
    rewrite lookup_move_from by log_ne. by destruct (m !! log_last 3).
  - rewrite (lookup_move_ne log_current), (lookup_move_ne (log_last 1)), (lookup_move_ne (log_last 2)),
      (lookup_move_ne (log_last 3)) by log_ne. by rewrite lookup_move_to by log_ne.
  - intros p Hp. cbn [map seq] in Hp. rewrite !not_elem_of_cons in Hp. destruct Hp as (H0 & H1 & H2 & H3 & H4 & H5 & _).
    by rewrite !lookup_move_ne by done.
Qed.

(** ** The size of a file *)

(** A [write] takes at most what it is given. *)
Class KernelWrite (W : Type) `{K : Kernel W} := {
  kw_write : forall fd d w, sr_ret (kcall (Sys_write fd d) w).1 <= zlen d
}.

(** What the writes among [evs] took, and what the reads delivered. *)
Fixpoint taken (evs : list event) : list bytes :=
  match evs with
  | [] => []
  | Ev (Sys_write _ d) r :: evs' => if sr_ret r <? 0 then taken evs' else take (Z.to_nat (sr_ret r)) d :: taken evs'
  | _ :: evs' => taken evs'
  end.
Fixpoint delivered (evs : list event) : list bytes :=
  match evs with
  | [] => []
  | Ev (Sys_read _ _) r :: evs' => if sr_ret r <? 0 then delivered evs' else sr_data r :: delivered evs'
  | _ :: evs' => delivered evs'
  end.
Definition size (l : list bytes) : Z := foldr (fun b n => zlen b + n) 0 l.

(** No write failed or was short. *)
Definition writes_full (evs : list event) : Prop :=
  Forall (fun e => match ev_call e with Sys_write _ d => sr_ret (ev_res e) = zlen d | _ => True end) evs.

Lemma taken_app a b : taken (a ++ b) = taken a ++ taken b.
Proof. induction a as [|[k q] a IH]; [done|]. simpl. destruct k; try apply IH. case_match; [apply IH|]. simpl. by rewrite IH. Qed.
Lemma delivered_app a b : delivered (a ++ b) = delivered a ++ delivered b.
Proof. induction a as [|[k q] a IH]; [done|]. simpl. destruct k; try apply IH. case_match; [apply IH|]. simpl. by rewrite IH. Qed.
Lemma size_app a b : size (a ++ b) = size a + size b.
Proof. induction a as [|x a IH]; simpl; [done|]. rewrite IH. lia. Qed.
Lemma size_nonneg l : 0 <= size l.
Proof. induction l as [|x l IH]; simpl; [done|]. pose proof (zlen_nonneg x). lia. Qed.

Lemma silent_nothing evs : silent evs -> taken evs = [] /\ delivered evs = [].
Proof. induction 1 as [|[c r] evs He _ [IH1 IH2]]; [done|]. simpl in *. by destruct c. Qed.

(** Blocks are read from [config_fd] and written to [fd], which may be closed;
    no other call is made. *)
Definition on (config_fd fd : Z) (e : event) : Prop :=
  match ev_call e with
  | Sys_read f _ => f = config_fd
  | Sys_write f _ | Sys_close f => f = fd
  | _ => False
  end.

Section Copy.
Context {W G : Type} `{K : Kernel W} `{KB : !KernelBounds W} `{KW : !KernelWrite W}.
Implicit Types s : proc W G.

(** The loop: what it wrote beyond [total] is less than a full file and a
    block; it ends only when the file is full, and closes it; nothing is lost if
    no write fails or falls short. *)
Definition copies (config_fd fd total : Z) s (o : outcome unit) s' : Prop :=
  exists evs, trace s' = trace s ++ evs /\ Forall (on config_fd fd) evs /\
    total + size (taken evs) < MAX_FILE_SIZE + MAX_LOG_SIZE /\
    (writes_full evs -> taken evs = delivered evs) /\
    ((o = Ret tt /\ MAX_FILE_SIZE <= total + size (taken evs) /\ exists c, last evs = Some (Ev (Sys_close fd) c))
     \/ o = Stop OutOfFuel).

(** A round that goes on. *)
Lemma copies_after config_fd fd total evs1 s s1 o s' :
  trace s1 = trace s ++ evs1 -> Forall (on config_fd fd) evs1 -> (writes_full evs1 -> taken evs1 = delivered evs1) ->
  copies config_fd fd (total + size (taken evs1)) s1 o s' -> copies config_fd fd total s o s'.
Proof.
  intros Ht Hon Hc (evs & Ht' & Hon' & Hb & Hl & Ho). exists (evs1 ++ evs). rewrite taken_app, delivered_app, size_app, !Z.add_assoc.
  split; [by rewrite Ht', Ht, app_assoc|]. split; [by apply Forall_app|]. split; [lia|]. split.
  - intros Hf. apply Forall_app in Hf as [Hf1 Hf2]. by rewrite Hc, Hl.
  - destruct Ho as [(-> & Hm & c & Hlast)| ->]; [left|by right]. split_and!; [done|done|]. exists c. by rewrite last_app, Hlast.
Qed.

Lemma copy_log_spec n config_fd fd total s :
  0 <= total < MAX_FILE_SIZE -> wp (copy_log n config_fd fd total) (copies config_fd fd total s) s.
Proof.
  revert total s. induction n as [|n IH]; intros total s Ht; cbn [copy_log].
  { apply wp_halt. exists []. rewrite app_nil_r. split; [done|]. split; [constructor|]. simpl. unfold MAX_LOG_SIZE. split; [lia|]. by split; [|right]. }
  apply wp_bind, wp_sys. intros rd w1 Hk1. apply wp_if; intros Hr.
  { eapply wp_mono; [by apply (IH total)|]. intros o s' Hc. apply (copies_after config_fd fd total [Ev (Sys_read config_fd MAX_LOG_SIZE) rd] s
      (after s (Sys_read config_fd MAX_LOG_SIZE) rd w1)); [done|by repeat constructor|intros _; simpl; by rewrite Hr|simpl; by rewrite Z.add_0_r]. }
  destruct (kb_read config_fd MAX_LOG_SIZE (world s)) as [Hle Hlen]; [done|]. simpl in Hk1. rewrite Hk1 in Hle, Hlen.
  simpl in Hle, Hlen. destruct (Hlen ltac:(lia)) as [Hl _].
  apply wp_bind, wp_sys. intros wr w2 Hk2. pose proof (kw_write fd (sr_data rd) w1) as Hw. simpl in Hk2. rewrite Hk2 in Hw. simpl in Hw.
  set (s2 := after (after s (Sys_read config_fd MAX_LOG_SIZE) rd w1) (Sys_write fd (sr_data rd)) wr w2).
  set (evs := [Ev (Sys_read config_fd MAX_LOG_SIZE) rd; Ev (Sys_write fd (sr_data rd)) wr]).
  assert (writes_full evs -> taken evs = delivered evs) as Hfull.
  { intros Hf. inversion Hf as [|? ? _ Hf2]; subst. inversion Hf2 as [|? ? H0 _]; subst. simpl in H0.
    pose proof (zlen_nonneg (sr_data rd)). simpl. replace (sr_ret rd <? 0) with false by lia.
    replace (sr_ret wr <? 0) with false by lia. rewrite H0. f_equal. apply take_ge. unfold zlen. lia. }
  assert (sr_ret wr < 0 -> size (taken evs) = 0) as Hno.
  { intros H. simpl. by replace (sr_ret wr <? 0) with true by lia. }
  assert (0 <= sr_ret wr -> size (taken evs) = sr_ret wr) as Hyes.
  { intros H. simpl. replace (sr_ret wr <? 0) with false by lia. simpl. unfold zlen in *. rewrite length_take. lia. }
  apply wp_if; intros Hn.
  { eapply wp_mono; [by apply (IH total)|]. intros o s' Hc. apply (copies_after config_fd fd total evs s s2);
      [unfold s2; cbn [trace after]; by rewrite <- app_assoc|by repeat constructor|done|]. rewrite Hno by lia. by rewrite Z.add_0_r. }
  rewrite u32_small by (unfold MAX_FILE_SIZE, MAX_LOG_SIZE in *; wide_lia).
  apply wp_if; intros Hfile.
  - apply wp_bind, wp_sys. intros cl w3 _. apply wp_ret. exists (evs ++ [Ev (Sys_close fd) cl]).
    rewrite taken_app, delivered_app, size_app, !app_nil_r. rewrite Hyes by lia. simpl size.
    split; [unfold s2, evs; cbn [trace after]; by rewrite <- !app_assoc|]. split; [by repeat constructor|]. split; [unfold MAX_LOG_SIZE, MAX_FILE_SIZE in *; lia|].
    split; [|left; split_and!; [done|unfold MAX_FILE_SIZE in *; lia|by exists cl]]. intros Hf. apply Forall_app in Hf as [Hf _]. by apply Hfull.
  - eapply wp_mono; [apply (IH (total + sr_ret wr)); unfold MAX_FILE_SIZE in *; lia|]. intros o s' Hc.
    apply (copies_after config_fd fd total evs s s2); [unfold s2; cbn [trace after]; by rewrite <- app_assoc|by repeat constructor|done|]. by rewrite Hyes by lia.
Qed.
End Copy.

(** ** One file *)

Definition localtime_failed (e : event) : Prop :=
  ev_call e = Lib_extern (cstr "localtime") /\ sr_ret (ev_res e) < 0.

(** The clock said [t]. *)
Definition told_time (t : tm) (e : event) : Prop :=
  ev_call e = Lib_extern (cstr "localtime") /\ 0 <= sr_ret (ev_res e) /\ t = tm_dec (sr_data (ev_res e)).

Lemma digits_length n z : zlen (digits n z) <= Z.of_nat n.
Proof.
  revert z. induction n as [|n IH]; intros z; cbn [digits]; [done|]. rewrite zlen_app. change (zlen [48 + z mod 10]) with 1.
  specialize (IH (z / 10)). destruct (z <? 10); [change (zlen []) with 0; lia|lia].
Qed.

Lemma zlen_pad (n : nat) (x : Z) : zlen (replicate n x) = Z.of_nat n.
Proof. unfold zlen. by rewrite length_replicate. Qed.

Lemma fmt_length z : zlen (fmt_d z) <= 11 /\ zlen (fmt_4d z) <= 11 /\ zlen (fmt_02d z) <= 11.
Proof.
  assert (forall b : bool, zlen (if b then [45] else []) <= 1 /\ (length (if b then [45] else []) <= 1)%nat) as Hs
    by (intros []; unfold zlen; simpl; lia).
  destruct (Hs (z <? 0)) as [H1 H2]. pose proof (digits_length 10 (Z.abs z)) as Hd.
  assert (zlen (fmt_d z) <= 11) as Hf by (unfold fmt_d; rewrite zlen_app; lia).
  split; [done|]. unfold fmt_4d, fmt_02d. rewrite !zlen_app, !zlen_pad. unfold zlen in *. split; lia.
Qed.

(** The date fits its array, whatever the fields are. *)
Lemma log_date_fits t : zlen (log_date t) < MAX_NAME_SIZE.
Proof.
  unfold log_date, MAX_NAME_SIZE. rewrite !zlen_app. change (zlen (cstr ">>>>> Date: ")) with 12. change (zlen (cstr "_")) with 1.
  pose proof (fmt_length (s32 (tm_year t + 1900))). pose proof (fmt_length (s32 (tm_mon t + 1))). pose proof (fmt_length (tm_mday t)).
  pose proof (fmt_length (tm_hour t)). pose proof (fmt_length (tm_min t)). pose proof (fmt_length (tm_sec t)). lia.
Qed.

Section OneFile.
Context {W G : Type} `{K : Kernel W} `{KB : !KernelBounds W} `{KW : !KernelWrite W} `{KD : !KernelDir W}.
Implicit Types s : proc W G.

Lemma wait_log_dir_spec n s :
  wp (wait_log_dir n) (fun o s' => exists evs, trace s' = trace s ++ evs /\ silent evs /\
    match o with Ret t => Exists (told_time t) evs | Stop e => e = OutOfFuel \/ e = Undefined /\ Exists localtime_failed evs end) s.
Proof.
  revert s. induction n as [|n IH]; intros s; cbn [wait_log_dir].
  { apply wp_halt. exists []. rewrite app_nil_r. split; [done|]. by split; [constructor|left]. }
  apply wp_bind, wp_sys. intros r0 w0 _. apply wp_bind, wp_sys. intros r1 w1 _. apply wp_if; intros Hl.
  { apply wp_halt. eexists [_; _]. split; [cbn [trace after]; by rewrite <- app_assoc|]. split; [by repeat constructor|].
    right. split; [done|]. right. left. split; [done|]. simpl. lia. }
  apply wp_bind, wp_sys. intros r2 w2 _. apply wp_if; intros Ha.
  - apply wp_bind, wp_sys. intros r3 w3 _. eapply wp_mono; [apply IH|]. intros o s' (evs & Ht & Hs & Ho).
    eexists ([_; _; _; _] ++ evs). split; [rewrite Ht; cbn [trace after]; by rewrite <- !app_assoc|].
    split; [apply Forall_app; split; [by repeat constructor|done]|]. destruct o as [t|e]; [by apply Exists_app; right|].
    destruct Ho as [->|[-> Hx]]; [by left|right]. split; [done|]. by do 4 right.
  - apply wp_ret. eexists [_; _; _]. split; [cbn [trace after]; by rewrite <- !app_assoc|]. split; [by repeat constructor|].
    right. left. split_and!; [done|simpl; lia|done].
Qed.

(** The call that opens the log. *)
Definition opens_log (r : sysret) : event := Ev (Sys_open log_current (Z.lor O_RDWR (Z.lor O_SYNC O_CREAT)) S_IRWXU) r.

Lemma open_log_spec n s :
  wp (open_log n) (fun o s' => exists evs, trace s' = trace s ++ evs /\ silent evs /\
    match o with
    | Ret fd => exists pre r, evs = pre ++ [opens_log r] /\ fd = sr_ret r /\ 0 <= fd
    | Stop e => e = OutOfFuel
    end) s.
Proof.
  revert s. induction n as [|n IH]; intros s; cbn [open_log].
  { apply wp_halt. exists []. rewrite app_nil_r. split; [done|]. by split; [constructor|]. }
  apply wp_bind, wp_sys. intros r0 w0 _. apply wp_if; intros Hf.
  - apply wp_bind, wp_sys. intros r3 w3 _. eapply wp_mono; [apply IH|]. intros o s' (evs & Ht & Hs & Ho).
    eexists ([_; _] ++ evs). split; [rewrite Ht; cbn [trace after]; by rewrite <- !app_assoc|].
    split; [apply Forall_app; split; [by repeat constructor|done]|]. destruct o as [fd|e]; [|done].
    destruct Ho as (pre & r & -> & H1 & H2). eexists (_ :: _ :: pre), r. by split_and!.
  - apply wp_ret. exists [opens_log r0]. split; [done|]. split; [by repeat constructor|]. exists [], r0. split_and!; [done|done|lia].
Qed.

(** One file: after calls that neither read nor write, the current log is
    opened; then blocks are read from the driver and written to that file and
    nothing else is done.  It stays below the limit and one block, header
    included; it is full, and closed, when the function goes on to the next one;
    and then, if no write failed or fell short, it holds the header with the
    time the clock said, followed by all the driver delivered. *)
Definition log_file_ok (config_fd : Z) s (o : outcome unit) s' : Prop :=
  (exists evs, trace s' = trace s ++ evs /\ silent evs /\
     (o = Stop OutOfFuel \/ o = Stop Undefined /\ Exists localtime_failed evs)) \/
  exists before r talk, trace s' = trace s ++ before ++ opens_log r :: talk /\ silent before /\ 0 <= sr_ret r /\
    Forall (on config_fd (sr_ret r)) talk /\
    size (taken talk) < MAX_NAME_SIZE + zlen header_end + MAX_FILE_SIZE + MAX_LOG_SIZE /\
    match o with
    | Ret _ => MAX_FILE_SIZE <= size (taken talk) /\ (exists c, last talk = Some (Ev (Sys_close (sr_ret r)) c)) /\
        (writes_full talk -> exists t, Exists (told_time t) before /\ taken talk = [log_date t; header_end] ++ delivered talk)
    | Stop e => e = OutOfFuel
    end.

(** What one write takes. *)
Lemma write_taken fd d r w w' :
  kcall (Sys_write fd d) w = (r, w') ->
  0 <= size (taken [Ev (Sys_write fd d) r]) <= zlen d /\
  (writes_full [Ev (Sys_write fd d) r] -> taken [Ev (Sys_write fd d) r] = [d]).
Proof.
  intros Hk. pose proof (kw_write fd d w) as Hw. simpl in Hw, Hk. rewrite Hk in Hw. simpl in Hw.
  pose proof (zlen_nonneg d). split.
  - simpl. destruct (Z.ltb_spec (sr_ret r) 0); simpl; [lia|]. unfold zlen in *. rewrite length_take. lia.
  - intros Hf. inversion Hf as [|? ? H0 _]; subst. simpl in H0 |- *. replace (sr_ret r <? 0) with false by lia.
    f_equal. rewrite H0. apply take_ge. unfold zlen. lia.
Qed.

Lemma log_one_file_spec fuel config_fd s : wp (log_one_file fuel config_fd) (log_file_ok config_fd s) s.
Proof.
  unfold log_one_file. apply wp_bind. eapply wp_mono; [apply wait_log_dir_spec|].
  intros [t|e] s1 (evs1 & Ht1 & Hs1 & Ho1); [|left; exists evs1; split_and!; [done|done|]; destruct Ho1 as [->|[-> ?]]; [by left|by right]].
  apply wp_bind. eapply wp_mono; [apply rename_last_log_arranges|]. intros o s2 (-> & _ & evs2 & Ht2 & Hs2 & _).
  apply sprintf_spec; [apply log_date_fits|].
  apply wp_bind. eapply wp_mono; [apply open_log_spec|]. intros [fd|e] s3 (evs3 & Ht3 & Hs3 & Ho3).
  2:{ left. exists (evs1 ++ evs2 ++ evs3). split_and!; [by rewrite Ht3, Ht2, Ht1, <- !app_assoc| |subst; by left].
      by apply Forall_app; split; [|apply Forall_app; split]. }
  destruct Ho3 as (pre & r & -> & -> & Hr). apply Forall_app in Hs3 as [Hs3 _].
  apply wp_bind, wp_sys. intros r4 w4 Hk4. apply wp_bind, wp_sys. intros r5 w5 Hk5.
  eapply wp_mono; [by apply copy_log_spec|]. intros o s' (evs6 & Ht6 & Hon & Hb & Hl & Ho).
  destruct (write_taken _ _ _ _ _ Hk4) as [[Hn4 Hw4] Hf4]. destruct (write_taken _ _ _ _ _ Hk5) as [[Hn5 Hw5] Hf5].
  set (e4 := [Ev (Sys_write (sr_ret r) (log_date t)) r4]) in *. set (e5 := [Ev (Sys_write (sr_ret r) header_end) r5]) in *.
  assert (delivered e4 = [] /\ delivered e5 = []) as [Hd4 Hd5] by done.
  right. exists (evs1 ++ evs2 ++ pre), r, (e4 ++ e5 ++ evs6). rewrite !taken_app, !size_app, !delivered_app, Hd4, Hd5.
  split; [rewrite Ht6; unfold e4, e5; cbn [trace after]; rewrite Ht3, Ht2, Ht1, <- !app_assoc; done|].
  split; [by apply Forall_app; split; [|apply Forall_app; split]|]. split; [done|].
  split; [by do 2 (apply Forall_app; split; [by repeat constructor|])|].
  pose proof (log_date_fits t). clearbody e4 e5. split; [lia|].
  destruct Ho as [(-> & Hfull & c & Hlast)| ->]; [|done]. split; [lia|]. split; [exists c; by rewrite !last_app, Hlast|]. intros Hf.
  apply Forall_app in Hf as [H4 Hf]. apply Forall_app in Hf as [H5 H6].
  exists t. split; [by apply Exists_app; left|]. rewrite (Hf4 H4), (Hf5 H5), (Hl H6). done.
Qed.
End OneFile.

(** ** The claims *)

(** C39. Rotating the logs.  [rename_last_log] always returns; if its renames
    succeed, the current log has become the first of the kept ones, the first to
    fourth have each moved one place on, only the fifth has been given up (and
    only for the fourth), and no other file was touched. *)
Theorem log_rotation {W G} `{K : Kernel W} `{KD : !KernelDir W} (s : proc W G) :
  let run := rename_last_log s in
  run.1 = Ret tt /\ exists evs, trace run.2 = trace s ++ evs /\ silent evs /\
    (renames_ok evs -> rotated (files (world s)) (files (world run.2))).
Proof.
  cbn zeta. destruct (rename_last_log_arranges s) as (Ho & _ & evs & Ht & Hs & Hf). split; [exact Ho|].
  exists evs. split; [exact Ht|]. split; [exact Hs|]. intros Hok. rewrite (Hf Hok). apply rotate_rotated.
Qed.


(** ** Concrete runs *)

#[export] Instance mem_dir : KernelDir mem_world.
Proof.
  refine {| files := mw_files |}.
  - intros p w r w' Hk. simpl in Hk. unfold kcall, mem_kernel, slow, mem_answer in Hk.
    destruct (mw_signals w); destruct (mw_files w !! p) eqn:E; injection Hk as <- <-;
      (split; [done|]); (split; [|intros [? ?]; done]); simpl; eauto; done.
  - intros p q w r w' c Hk Hne Hc. unfold kcall, mem_kernel, slow, mem_answer in Hk. rewrite Hc in Hk.
    destruct (mw_signals w); injection Hk as <- <-; done.
Defined.
#[export] Instance mem_write : KernelWrite mem_world.
Proof. split. intros fd d w. unfold kcall, mem_kernel, slow. simpl. by destruct (mw_signals w). Qed.

(** Three logs and the current one; the driver has two blocks waiting. *)
Definition demo_files : gmap bytes bytes :=
  {[ log_path := []; log_current := [0]; log_last 1 := [1]; log_last 2 := [2]; log_last 4 := [4]; log_last 5 := [5] ]}.
Definition demo_logs : proc mem_world unit := Proc tt (MemWorld demo_files ∅ [[65; 66]; [67]] 0 4095 []) 0 [].

Lemma log_rotation_witness :
  rotated demo_files (mw_files (world (rename_last_log demo_logs).2)).
Proof.
  destruct (log_rotation demo_logs) as (_ & evs & Ht & _ & H). apply H. clear H.
  assert (evs = drop 0 (trace (rename_last_log demo_logs).2)) as -> by (rewrite Ht; done). clear Ht.
  vm_compute. repeat constructor.
Defined.

(** A driver with two megabytes to deliver: the file is filled and closed. *)
Definition demo_full : proc mem_world unit :=
  Proc tt (MemWorld demo_files ∅ (replicate 520 (replicate (Z.to_nat 4096) 65)) 0 4095 []) 0 [].


(** ** A rename that fails *)

(** A directory in which one file cannot be renamed. *)
Record stubborn := Stubborn { st_files : gmap bytes bytes; st_stuck : bytes }.
Definition stubborn_kernel : Kernel stubborn := fun c w =>
  match c with
  | Sys_access p _ => (match st_files w !! p with Some _ => SysRet 0 0 [] | None => SysRet (-1) ENOENT [] end, w)
  | Sys_rename p q =>
      if bool_decide (p = st_stuck w) then (SysRet (-1) EACCES [], w)
      else (SysRet 0 0 [], Stubborn (move p q (st_files w)) (st_stuck w))
  | _ => (SysRet 0 0 [], w)
  end.

(** The result of [rename] is not looked at: when the fourth log cannot be
    moved, the third is moved over it and its contents are in no file any more. *)
Example rename_failure_loses_log :
  let before := {[ log_last 3 := [3]; log_last 4 := [4] ]} in
  let after := st_files (world (rename_last_log (K := stubborn_kernel) (Proc tt (Stubborn before (log_last 4)) 0 [])).2) in
  after !! log_last 4 = Some [3] /\ after !! log_last 5 = None.
Proof. by vm_compute. Qed.
