(* ===== verification/LogHelpers.v ===== *)
(** * Log output (400/libimsg_log/imsg_log.c, 400/optee_client/libteec/src/teec_trace.cpp)

    The kernel log and the Android log of libimsg_log, and the trace output of
    the TEE client library: [_dprintf] and the hex dump of a buffer.  The text a
    format and its arguments expand to is an argument; what is cut off, padded
    and written is modelled. *)

From S2P Require Import Prelude Kernel Libtrusty DaemonLog.

(** [vsnprintf(buf, size, ...)]: at most [size - 1] characters are kept. *)
Definition vsnprintf (size : Z) (text : bytes) : bytes := take (Z.to_nat (size - 1)) text.

(** The characters before the first zero. *)
Fixpoint c_text (b : bytes) : bytes :=
  match b with
  | [] => []
  | x :: b' => if x =? 0 then [] else x :: c_text b'
  end.

(** ** imsg_log.c *)

Definition KMSG_DEV_FILE : bytes := cstr "/dev/kmsg".
Definition LOG_BUF_MAX := 512.
Definition O_WRONLY := 1.
Definition ANDROID_LOG_ERROR := 6.

Record imsg_st := ImsgSt { kernel_log_fd : Z }.
Definition imsg_st0 : imsg_st := ImsgSt (-1).

(** A call of the Android log library. *)
Definition android_log (prio : Z) (tag buf : bytes) : syscall :=
  Lib_extern (cstr "__android_log_write(" ++ fmt_d prio ++ cstr "," ++ tag ++ cstr "," ++ buf ++ cstr ")").

Section Imsg.
Context {W : Type} `{K : Kernel W} (IMSG_TAG : bytes).
Abbreviation IM := (M W imsg_st).

Definition imsg_log_write (prio : Z) (tag text : bytes) : IM Z :=
  let buf := vsnprintf LOG_BUF_MAX text in
  r ← sys (android_log prio tag (c_text buf));
  mret (sr_ret r).

Definition kernel_log_init : IM unit :=
  fd ← gets kernel_log_fd;
  if 0 <=? fd then mret tt
  else
    fd ← sys (Sys_open KMSG_DEV_FILE O_WRONLY 0);
    modify (fun _ => ImsgSt (sr_ret fd));;
    if sr_ret fd <? 0 then
      imsg_log_write ANDROID_LOG_ERROR IMSG_TAG (cstr "fail to open /dev/kmsg!" ++ [10]);;
      mret tt
    else
      ret ← sys (Lib_extern (cstr "fcntl(F_SETFD,FD_CLOEXEC)"));
      if sr_ret ret <? 0 then
        imsg_log_write ANDROID_LOG_ERROR IMSG_TAG (cstr "fcntl to set file /dev/kmsg failed!" ++ [10]);;
        mret tt
      else mret tt.

(** The message goes to [kernel_log_fd] also when it could not be opened. *)
Definition kernel_log_write (text : bytes) : IM unit :=
  kernel_log_init;;
  let buf := vsnprintf LOG_BUF_MAX text in
  fd ← gets kernel_log_fd;
  sys (Sys_write fd (c_text buf));;
  mret tt.

(** Any number of messages. *)
Fixpoint kernel_log_all (texts : list bytes) : IM unit :=
  match texts with
  | [] => mret tt
  | t :: texts' => kernel_log_write t;; kernel_log_all texts'
  end.
End Imsg.

Lemma c_text_le b : zlen (c_text b) <= zlen b.
Proof. unfold zlen. induction b as [|x b IH]; simpl; [done|]. destruct (x =? 0); simpl; lia. Qed.

(** ** teec_trace.cpp *)

Definition MAX_PRINT_SIZE := 256.
Definition MAX_FUNC_PRINT_SIZE := 32.

Definition trace_level_strings : list bytes := [[]; cstr "ERR"; cstr "INF"; cstr "DBG"; cstr "FLW"].

(** [strncpy(dst, src, n)] into an array: [src] is a terminated string, and is
    filled up with zeros. *)
Definition strncpy (dst src : bytes) (n : Z) : bytes :=
  splice dst 0 (take (Z.to_nat n) (c_text src ++ replicate (Z.to_nat n) 0)).

(** The function name as it is printed in a build with TRACE_FUNC_LENGTH_CST;
    [func_buf] are the bytes of the uninitialised array. *)
Definition func_name (func_buf function : bytes) (flen : Z) : bytes :=
  let func_buf := strncpy func_buf function
                    (if MAX_FUNC_PRINT_SIZE <? flen then MAX_FUNC_PRINT_SIZE - 1 else flen) in
  let func_buf := if flen <? MAX_FUNC_PRINT_SIZE - 1
                  then splice func_buf flen (replicate (Z.to_nat (MAX_FUNC_PRINT_SIZE - flen)) 32) else func_buf in
  c_text (splice func_buf (MAX_FUNC_PRINT_SIZE - 1) [0]).

(** The result and what is printed: [cst] is TRACE_FUNC_LENGTH_CST, [gettid] the
    thread; [None] is an access outside [trace_level_strings]. *)
Definition _dprintf (cst : bool) (func_buf : bytes) (gettid : Z) (function : option bytes) (flen line level : Z)
    (prefix text : bytes) : option (Z * bytes) :=
  let raw := vsnprintf MAX_PRINT_SIZE text in
  let err := zlen text in
  match function with
  | Some function =>
      if level <? 0 then None
      else
        level_string ← trace_level_strings !! Z.to_nat level;
        let func := if cst then func_name func_buf function flen else function in
        let prefixed := vsnprintf MAX_PRINT_SIZE
          (level_string ++ cstr " [" ++ fmt_d gettid ++ cstr "] " ++ prefix ++ cstr ":" ++ func ++ cstr ":"
           ++ fmt_d line ++ cstr ": " ++ raw) in
        Some (err, prefixed)
  | None => Some (err, raw)
  end.

(** ** dump_buffer *)

Definition hex_digit (n : Z) : Z := if n <? 10 then 48 + n else 87 + n.
(** ["%02x "] of a byte. *)
Definition hex_cell (b : Z) : bytes := [hex_digit (b / 16); hex_digit (b mod 16); 32].
(** [isprint] in the C locale. *)
Definition isprint (b : Z) : bool := (32 <=? b) && (b <? 127).

(** The first inner loop, from column [n] on with [k] columns to go. *)
Fixpoint hex_columns (k : nat) (n : nat) (buffer : bytes) : bytes :=
  match k with
  | O => []
  | S k' => (match buffer !! n with Some b => hex_cell b | None => cstr "   " end)
            ++ (if (n =? 7)%nat then [32] else []) ++ hex_columns k' (S n) buffer
  end.
(** The second. *)
Fixpoint text_columns (k : nat) (n : nat) (buffer : bytes) : bytes :=
  match k with
  | O => []
  | S k' => (match buffer !! n with Some b => if isprint b then [b] else cstr "." | None => [] end)
            ++ text_columns k' (S n) buffer
  end.
Definition dump_line (buffer : bytes) : bytes :=
  hex_columns 16 0 buffer ++ cstr " |" ++ text_columns 16 0 buffer ++ cstr "|" ++ [10].

(** The outer loop, what is left of the buffer. *)
Fixpoint dump_loop (n : nat) (buffer : bytes) : bytes :=
  match n, buffer with
  | S n', _ :: _ => dump_line buffer ++ dump_loop n' (drop 16 buffer)
  | _, _ => []
  end.
(** What is printed to stderr; [debug] is a build with DEBUGLEVEL 3, 4 or true. *)
Definition dump_buffer (debug : bool) (bname buffer : bytes) : bytes :=
  if debug then cstr "#### " ++ bname ++ [10] ++ dump_loop (length buffer) buffer else [].

(** ** The kernel log *)

Section KernelLog.
Context {W : Type} `{K : Kernel W} (IMSG_TAG : bytes).
Implicit Types s : proc W imsg_st.

(** The log has been opened, by the last of the opens among [evs], and is the
    only descriptor they leave. *)
Definition log_state (evs : list event) (st : imsg_st) : Prop :=
  open_fds evs = if 0 <=? kernel_log_fd st then [kernel_log_fd st] else [].

(** Every message is a prefix of its text that fits the buffer. *)
Definition messages_cut (evs : list event) : Prop :=
  Forall (fun e => match ev_call e with Sys_write _ d => zlen d < LOG_BUF_MAX | _ => True end) evs.

Lemma kernel_log_write_spec text pre s :
  log_state pre (globals s) ->
  wp (kernel_log_write IMSG_TAG text) (fun o s' => o = Ret tt /\ exists evs, trace s' = trace s ++ evs /\
    log_state (pre ++ evs) (globals s') /\ messages_cut evs /\
    (0 <= kernel_log_fd (globals s) -> globals s' = globals s)) s.
Proof.
  intros Hl. assert (zlen (c_text (vsnprintf LOG_BUF_MAX text)) < LOG_BUF_MAX) as Hcut.
  { pose proof (c_text_le (vsnprintf LOG_BUF_MAX text)) as H. unfold vsnprintf, zlen in *. rewrite length_take in H.
    unfold LOG_BUF_MAX in *. lia. }
  unfold kernel_log_write, kernel_log_init, imsg_log_write. apply wp_bind, wp_bind, wp_gets. apply wp_if; intros Hfd.
  - apply wp_ret, wp_bind, wp_gets, wp_bind, wp_sys. intros r w _. apply wp_ret. split; [done|]. eexists [_].
    split; [done|]. split; [|split; [by repeat constructor|done]]. unfold log_state. cbn [globals after].
    rewrite open_fds_quiet by (by repeat constructor). exact Hl.
  - unfold log_state in Hl. rewrite Hfd in Hl.
    apply wp_bind, wp_sys. intros r w _. apply wp_bind, wp_modify. apply wp_if; intros Ho.
    + apply wp_bind, wp_bind, wp_sys. intros r2 w2 _. apply wp_ret, wp_ret, wp_bind, wp_gets, wp_bind, wp_sys. intros r3 w3 _.
      apply wp_ret. split; [done|]. eexists [_; _; _]. split; [cbn [trace after]; by rewrite <- !app_assoc|].
      split; [|split; [by repeat constructor|lia]]. unfold log_state. cbn [globals after kernel_log_fd].
      replace (0 <=? sr_ret r) with false by lia. rewrite open_fds_app, Hl. simpl. by replace (0 <=? sr_ret r) with false by lia.
    + apply wp_bind, wp_sys. intros r2 w2 _.
      assert (forall evs, Forall no_fd evs ->
        log_state (pre ++ Ev (Sys_open KMSG_DEV_FILE O_WRONLY 0) r :: evs) (ImsgSt (sr_ret r))) as Hlog.
      { intros evs Hn. unfold log_state. cbn [kernel_log_fd]. replace (0 <=? sr_ret r) with true by lia.
        rewrite open_fds_app, Hl. simpl. replace (0 <=? sr_ret r) with true by lia. rewrite existsb_no_fd by done.
        rewrite <- (app_nil_r evs), open_fds_no_fd by done. done. }
      apply wp_if; intros Hc.
      * apply wp_bind, wp_bind, wp_sys. intros r4 w4 _. apply wp_ret, wp_ret, wp_bind, wp_gets, wp_bind, wp_sys. intros r3 w3 _.
        apply wp_ret. split; [done|]. eexists [_; _; _; _]. split; [cbn [trace after]; by rewrite <- !app_assoc|].
        split; [apply Hlog; by repeat constructor|]. split; [by repeat constructor|lia].
      * apply wp_ret, wp_bind, wp_gets, wp_bind, wp_sys. intros r3 w3 _.
        apply wp_ret. split; [done|]. eexists [_; _; _]. split; [cbn [trace after]; by rewrite <- !app_assoc|].
        split; [apply Hlog; by repeat constructor|]. split; [by repeat constructor|lia].
Qed.

(** However many messages are written, the kernel log is opened once, as soon
    as that succeeds, and no descriptor is lost; no message exceeds its buffer. *)
Lemma kernel_log_all_spec texts pre s :
  log_state pre (globals s) ->
  wp (kernel_log_all IMSG_TAG texts) (fun o s' => o = Ret tt /\ exists evs, trace s' = trace s ++ evs /\
    log_state (pre ++ evs) (globals s') /\ messages_cut evs) s.
Proof.
  revert pre s. induction texts as [|t texts IH]; intros pre s Hl; cbn [kernel_log_all].
  { apply wp_ret. split; [done|]. exists []. rewrite !app_nil_r. by split_and!; [| |constructor]. }
  apply wp_bind. eapply wp_mono; [by apply kernel_log_write_spec|]. intros o s1 (-> & evs & Ht & Hl1 & Hm & _).
  eapply wp_mono; [by apply IH|]. intros o s2 (-> & evs2 & Ht2 & Hl2 & Hm2). split; [done|]. exists (evs ++ evs2).
  split; [by rewrite Ht2, Ht, app_assoc|]. split; [by rewrite app_assoc|by apply Forall_app].
Qed.
End KernelLog.

(** ** Function names *)

Lemma c_text_id b : Forall (fun x => x <> 0) b -> forall r, c_text (b ++ 0 :: r) = b.
Proof. induction 1 as [|x b Hx _ IH]; intros r; simpl; [done|]. replace (x =? 0) with false by lia. by rewrite IH. Qed.

(** Whatever was in the array, a name is printed as its first 31 characters,
    filled up with spaces to that width. *)
Lemma func_name_spec func_buf function :
  zlen func_buf = MAX_FUNC_PRINT_SIZE -> Forall (fun x => x <> 0) function ->
  func_name func_buf (function ++ [0]) (zlen function) = take 31 (function ++ replicate 31 32).
Proof.
  intros Hb Hf. unfold func_name, strncpy. rewrite c_text_id by done. unfold MAX_FUNC_PRINT_SIZE in *.
  assert (length func_buf = 32%nat) as Hlen by (unfold zlen in Hb; lia).
  assert (forall b, length b = 31%nat -> Forall (fun x => x <> 0) b -> forall t, c_text (splice (b ++ t) (32 - 1) [0]) = b) as Hcut.
  { intros b Hl Hnz t. unfold splice. change (Z.to_nat (32 - 1)) with 31%nat. rewrite take_app_length' by done.
    by apply c_text_id. }
  set (n := length function). assert (zlen function = Z.of_nat n) as -> by done.
  assert (forall m, (m <= 32)%nat -> splice func_buf 0 (take m (function ++ replicate m 0)) =
    take m (function ++ replicate m 0) ++ drop m func_buf) as Hcopy.
  { intros m Hm. unfold splice. simpl. rewrite length_take, length_app, length_replicate. do 2 f_equal. lia. }
  destruct (Nat.le_gt_cases 31 n) as [Hn|Hn].
  - replace (Z.of_nat n <? 32 - 1) with false by lia.
    assert (exists t, splice func_buf 0 (take (Z.to_nat (if 32 <? Z.of_nat n then 32 - 1 else Z.of_nat n))
      (function ++ replicate (Z.to_nat (if 32 <? Z.of_nat n then 32 - 1 else Z.of_nat n)) 0)) = take 31 function ++ t) as [t ->].
    { set (m := Z.to_nat _). assert (31 <= m <= 32)%nat as Hm by (unfold m; destruct (Z.ltb_spec 32 (Z.of_nat n)); lia).
      assert (m <= n)%nat by (unfold m; destruct (Z.ltb_spec 32 (Z.of_nat n)); lia).
      rewrite Hcopy by lia. rewrite take_app_le by done.
      exists (drop 31 (take m function) ++ drop m func_buf). rewrite app_assoc. f_equal.
      rewrite <- (take_drop 31 (take m function)) at 1. f_equal. rewrite take_take. f_equal. lia. }
    rewrite Hcut; [by rewrite take_app_le by lia|rewrite length_take; lia|by apply Forall_take].
  - replace (Z.of_nat n <? 32 - 1) with true by lia. replace (32 <? Z.of_nat n) with false by lia. rewrite Nat2Z.id.
    rewrite Hcopy by lia. rewrite take_app_length' by done. unfold splice at 2. rewrite Nat2Z.id, length_replicate.
    rewrite take_app_length' by done. rewrite drop_ge by (rewrite length_app, length_drop; lia). rewrite app_nil_r.
    replace (Z.to_nat (32 - Z.of_nat n)) with (31 - n + 1)%nat by lia. rewrite replicate_add, app_assoc.
    rewrite Hcut.
    + rewrite take_app_ge by lia. f_equal. by rewrite take_replicate, Nat.min_l by lia.
    + rewrite length_app, length_replicate. lia.
    + apply Forall_app. split; [done|]. by apply Forall_replicate.
Qed.

(** ** The dump *)

Definition hex_value (c : Z) : Z := if c <? 58 then c - 48 else c - 87.

(** Reading the hexadecimal columns of a line back. *)
Fixpoint read_cells (k n : nat) (text : bytes) : bytes :=
  match k, text with
  | S k', h :: l :: _ :: rest =>
      if h =? 32 then []
      else (16 * hex_value h + hex_value l) :: read_cells k' (S n) (if (n =? 7)%nat then drop 1 rest else rest)
  | _, _ => []
  end.
(** A line has 53 characters besides the printable column. *)
Fixpoint undump (n : nat) (text : bytes) : bytes :=
  match n, text with
  | S n', _ :: _ => let b := read_cells 16 0 text in b ++ undump n' (drop (53 + length b) text)
  | _, _ => []
  end.

Lemma hex_cell_value b : is_u8 b ->
  hex_digit (b / 16) <> 32 /\ 16 * hex_value (hex_digit (b / 16)) + hex_value (hex_digit (b mod 16)) = b.
Proof.
  unfold is_u8. intros Hb. assert (0 <= b / 16 < 16) as Hd by (Z.div_mod_to_equations; lia).
  pose proof (Z.mod_pos_bound b 16 ltac:(lia)). pose proof (Z.div_mod b 16 ltac:(lia)).
  assert (forall n, 0 <= n < 16 -> hex_digit n <> 32 /\ hex_value (hex_digit n) = n) as Hh.
  { intros n Hn. unfold hex_digit, hex_value. destruct (Z.ltb_spec n 10);
      [replace (48 + n <? 58) with true by lia|replace (87 + n <? 58) with false by lia]; lia. }
  destruct (Hh _ Hd) as [H1 ->]. destruct (Hh (b mod 16) ltac:(done)) as [_ ->]. lia.
Qed.

Lemma read_hex_columns k n b rest :
  Forall is_u8 b -> read_cells k n (hex_columns k n b ++ rest) = take k (drop n b).
Proof.
  intros Hb. revert n. induction k as [|k IH]; intros n; [done|]. cbn [hex_columns].
  destruct (b !! n) as [x|] eqn:E.
  - destruct (hex_cell_value x) as [H1 H2]; [by eapply Forall_lookup_1|].
    rewrite (drop_S b x n E). cbn [take]. unfold hex_cell. cbn [app read_cells].
    replace (hex_digit (x / 16) =? 32) with false by lia. rewrite H2. f_equal.
    rewrite <- (IH (S n)), <- app_assoc. by destruct (n =? 7)%nat.
  - rewrite drop_ge by (by apply lookup_ge_None_1). done.
Qed.

Lemma hex_columns_length k n b :
  length (hex_columns k n b) = (3 * k + (if (n <=? 7)%nat && (8 <=? n + k)%nat then 1 else 0))%nat.
Proof.
  revert n. induction k as [|k IH]; intros n; cbn [hex_columns].
  { by destruct (Nat.leb_spec n 7), (Nat.leb_spec 8 (n + 0)); simpl; try lia. }
  rewrite !length_app, IH. assert (length (match b !! n with Some x => hex_cell x | None => cstr "   " end) = 3%nat) as ->
    by (by destruct (b !! n)).
  destruct (Nat.eqb_spec n 7), (Nat.leb_spec n 7), (Nat.leb_spec (S n) 7), (Nat.leb_spec 8 (n + S k)), (Nat.leb_spec 8 (S n + k));
    simpl; lia.
Qed.

Lemma text_columns_length k n b : length (text_columns k n b) = Nat.min k (length b - n).
Proof.
  revert n. induction k as [|k IH]; intros n; cbn [text_columns]; [done|]. rewrite length_app, IH.
  destruct (b !! n) as [x|] eqn:E.
  - apply lookup_lt_Some in E. assert (length (if isprint x then [x] else cstr ".") = 1%nat) as -> by (by destruct (isprint x)). lia.
  - apply lookup_ge_None_1 in E. change (length (@nil Z)) with 0%nat. lia.
Qed.

(** The dump of a buffer shows all of it: reading the hexadecimal columns of the
    lines back gives the buffer, whatever its length. *)
Lemma dump_loop_roundtrip n b :
  Forall is_u8 b -> (length b <= n)%nat -> undump n (dump_loop n b) = b.
Proof.
  revert b. induction n as [|n IH]; intros b Hb Hn; [by destruct b; [|simpl in Hn; lia]|].
  destruct b as [|x b]; [done|]. cbn [dump_loop]. set (c := x :: b) in *.
  assert (read_cells 16 0 (dump_line c ++ dump_loop n (drop 16 c)) = take 16 c) as Hr.
  { unfold dump_line. rewrite <- !app_assoc. by rewrite read_hex_columns. }
  assert (length (dump_line c) = (53 + length (take 16 c))%nat) as Hl.
  { unfold dump_line. rewrite !length_app, hex_columns_length, text_columns_length, length_take.
    change (length (cstr " |")) with 2%nat. change (length (cstr "|")) with 1%nat. change (length [10]) with 1%nat.
    change ((0 <=? 7)%nat && (8 <=? 0 + 16)%nat) with true. cbv iota. lia. }
  destruct (dump_line c ++ dump_loop n (drop 16 c)) as [|y t] eqn:Et.
  { apply (f_equal length) in Et. rewrite length_app, Hl in Et. change (length []) with 0%nat in Et. lia. }
  cbn [undump]. cbv zeta. rewrite Hr, <- Et. rewrite drop_app_length' by (by rewrite Hl).
  rewrite IH; [apply take_drop|by apply Forall_drop|]. rewrite length_drop. unfold c in *. simpl in *. lia.
Qed.
