(* ===== verification/KmBuffer.v ===== *)
(** * The keymaster buffer and the hardware information of the provisioning component

    400/km4.1/common/ut_km_ioctl.cpp (and its copy under keymint1.0): a buffer
    that is allocated on first use and zeroed on every use; and
    BeanpodRemotelyProvisionedComponent::getHardwareInfo. *)

From S2P Require Import Prelude Kernel KmLib.

(** [keymaster_buffer]; [None] is the null pointer. *)
Record km_buffer_st := KmBufferSt { keymaster_buffer : option bytes }.

Section Buffer.
Context {W : Type} `{K : Kernel W}.
(** KEYMASTER_MAX_BUFFER_LENGTH of the copy. *)
Context (buf_size : Z).

Definition TEE_Alloc_KM_Buffer_And_Reset : M W km_buffer_st Z :=
  b ← gets keymaster_buffer;
  ok ← (match b with Some _ => mret true | None => malloc buf_size end);
  if negb ok then mret (-1)
  else
    modify (fun _ => KmBufferSt (Some (replicate (Z.to_nat buf_size) 0)));;
    mret 0.

Definition TEE_Free_KM_Buffer : M W km_buffer_st unit :=
  b ← gets keymaster_buffer;
  match b with
  | Some _ => free;; modify (fun _ => KmBufferSt None)
  | None => mret tt
  end.

(** A sequence of uses: [true] is a reset, [false] a release. *)
Fixpoint buffer_uses (l : list bool) : M W km_buffer_st unit :=
  match l with
  | [] => mret tt
  | u :: l' => (if u then TEE_Alloc_KM_Buffer_And_Reset;; mret tt else TEE_Free_KM_Buffer);; buffer_uses l'
  end.

(** Blocks obtained and not given back. *)
Fixpoint live (evs : list event) : Z :=
  match evs with
  | [] => 0
  | Ev (Lib_malloc _) r :: evs' => (if sr_ret r <? 0 then 0 else 1) + live evs'
  | Ev Lib_free _ :: evs' => live evs' - 1
  | _ :: evs' => live evs'
  end.

Lemma live_app a b : live (a ++ b) = live a + live b.
Proof. induction a as [|[c r] a IH]; [done|]. simpl. destruct c; try exact IH; rewrite IH; lia. Qed.

Definition held (st : km_buffer_st) : Z := match keymaster_buffer st with Some _ => 1 | None => 0 end.

Lemma buffer_reset_spec s :
  wp TEE_Alloc_KM_Buffer_And_Reset (fun o s' => exists rc evs, o = Ret rc /\ trace s' = trace s ++ evs /\
    held (globals s') = held (globals s) + live evs /\
    (rc = 0 -> keymaster_buffer (globals s') = Some (replicate (Z.to_nat buf_size) 0)) /\
    (rc <> 0 -> globals s' = globals s)) s.
Proof.
  unfold TEE_Alloc_KM_Buffer_And_Reset, held, malloc. apply wp_bind, wp_gets, wp_bind.
  destruct (keymaster_buffer (globals s)) as [b|] eqn:Eb.
  - apply wp_ret, wp_bind, wp_modify, wp_ret. exists 0, []. rewrite app_nil_r. by split_and!.
  - apply wp_bind, wp_sys. intros r w _. apply wp_ret. apply wp_if; intros Hm.
    + apply wp_ret. eexists _, [_]. split_and!; [done|done| |done|done]. cbn [globals after live]. rewrite Eb.
      by replace (sr_ret r <? 0) with true by lia.
    + apply wp_bind, wp_modify, wp_ret. eexists _, [_]. split_and!; [done|done| |done|done]. cbn [globals keymaster_buffer live].
      by replace (sr_ret r <? 0) with false by lia.
Qed.

(** However it is used, the module holds exactly the one block it has not given
    back: nothing leaks and nothing is freed twice. *)
Lemma buffer_uses_balanced l s :
  wp (buffer_uses l) (fun o s' => o = Ret tt /\ exists evs, trace s' = trace s ++ evs /\
    held (globals s') = held (globals s) + live evs) s.
Proof.
  revert s. induction l as [|u l IH]; intros s; cbn [buffer_uses].
  { apply wp_ret. split; [done|]. exists []. rewrite app_nil_r. simpl. split; [done|lia]. }
  apply wp_bind.
  assert (wp (if u then TEE_Alloc_KM_Buffer_And_Reset;; mret tt else TEE_Free_KM_Buffer)
    (fun o s' => o = Ret tt /\ exists evs, trace s' = trace s ++ evs /\ held (globals s') = held (globals s) + live evs) s) as H1.
  { destruct u.
    - apply wp_bind. eapply wp_mono; [apply buffer_reset_spec|]. intros o s1 (rc & evs & -> & Ht & Hl & _). apply wp_ret.
      split; [done|]. by exists evs.
    - unfold TEE_Free_KM_Buffer, held, free. apply wp_bind, wp_gets. destruct (keymaster_buffer (globals s)) as [b|] eqn:Eb.
      + apply wp_bind, wp_bind, wp_sys. intros r w _. apply wp_ret, wp_modify. split; [done|]. by eexists [_].
      + apply wp_ret. split; [done|]. exists []. rewrite app_nil_r, Eb. done. }
  eapply wp_mono; [exact H1|]. intros o s1 (-> & evs & Ht & Hl). eapply wp_mono; [apply IH|].
  intros o s2 (-> & evs2 & Ht2 & Hl2). split; [done|]. exists (evs ++ evs2).
  rewrite live_app. split; [by rewrite Ht2, Ht, app_assoc|lia].
Qed.
End Buffer.

(** ** The provisioning component *)

(** RpcHardwareInfo; the curve is a constant of the generated interface. *)
Record RpcHardwareInfo := MkRpcInfo { rpc_versionNumber : Z; rpcAuthorName : bytes; supportedEekCurve : Z }.
Definition rpc_getHardwareInfo (CURVE_25519 : Z) : RpcHardwareInfo := MkRpcInfo 1 (cstr "Beanpod") CURVE_25519.
