(* ===== verification/LogMacros.v ===== *)
(** * The log macros (400/optee_client/public/teec_trace.h, 400/libimsg_log/include/imsg_log.h)

    Which messages of the client library and of the daemons reach the output
    functions of [LogHelpers.v], by the level of the message and the build.  As
    there, the text a format and its arguments expand to is an argument. *)

From S2P Require Import Prelude Kernel Libtrusty DaemonLog LogHelpers.

(** ** teec_trace.h *)

Definition TRACE_ERROR := 1.
Definition TRACE_INFO := 2.
Definition TRACE_DEBUG := 3.
Definition TRACE_FLOW := 4.

(** [defined n]: the build defines DEBUGLEVEL_n. *)
Definition DEBUGLEVEL (defined : Z -> bool) : Z :=
  if defined 0 then TRACE_ERROR
  else if defined 1 then TRACE_ERROR
  else if defined 2 then TRACE_INFO
  else if defined 3 then TRACE_DEBUG
  else if defined 4 then TRACE_FLOW
  else TRACE_INFO.

Section Trace.
Context (defined : Z -> bool) (cst : bool) (func_buf : bytes) (gettid : Z) (BINARY_PREFIX : bytes).
(** [__func__] and [__LINE__] of the message. *)
Context (func : bytes) (line : Z).

(** [Some None]: nothing is printed. *)
Definition dprintf (level : Z) (text : bytes) : option (option (Z * bytes)) :=
  if level <=? DEBUGLEVEL defined
  then r ← _dprintf cst func_buf gettid (Some func) (zlen func) line level BINARY_PREFIX text; Some (Some r)
  else Some None.
Definition dprintf_raw (level : Z) (text : bytes) : option (option (Z * bytes)) :=
  if level <=? DEBUGLEVEL defined
  then r ← _dprintf cst func_buf gettid None 0 0 level BINARY_PREFIX text; Some (Some r)
  else Some None.

Definition EMSG (text : bytes) := dprintf TRACE_ERROR (text ++ [10]).
Definition IMSG (text : bytes) := dprintf TRACE_INFO (text ++ [10]).
Definition DMSG (text : bytes) := dprintf TRACE_DEBUG (text ++ [10]).
Definition FMSG (text : bytes) := dprintf TRACE_FLOW (text ++ [10]).
Definition INMSG (text : bytes) := FMSG (cstr "> " ++ text).
Definition OUTMSG (text : bytes) := FMSG (cstr "< " ++ text).

Definition EMSG_RAW (text : bytes) := dprintf_raw TRACE_ERROR text.
Definition IMSG_RAW (text : bytes) := dprintf_raw TRACE_INFO text.
Definition DMSG_RAW (text : bytes) := dprintf_raw TRACE_DEBUG text.
Definition FMSG_RAW (text : bytes) := dprintf_raw TRACE_FLOW text.

(** Every level has its string: no message reads outside the table. *)
Lemma dprintf_in_table level text : TRACE_ERROR <= level <= TRACE_FLOW -> is_Some (dprintf level text).
Proof.
  unfold TRACE_ERROR, TRACE_FLOW. intros H. unfold dprintf. destruct (level <=? _); [|by eexists]. unfold _dprintf.
  replace (level <? 0) with false by lia.
  assert (level = 1 \/ level = 2 \/ level = 3 \/ level = 4) as [-> | [-> | [-> | ->]]] by lia; by eexists.
Qed.

(** The library is built with DEBUGLEVEL_1: only errors are printed. *)
Lemma errors_only text : defined 0 = false -> defined 1 = true ->
  is_Some (EMSG text ≫= id) /\ IMSG text = Some None /\ DMSG text = Some None /\ FMSG text = Some None.
Proof. intros H0 H1. unfold EMSG, IMSG, DMSG, FMSG, dprintf, DEBUGLEVEL. rewrite H0, H1. split_and!; [by eexists|done..]. Qed.
End Trace.

(** ** imsg_log.h *)

Inductive imsg_level := WARN | ERROR | INFO | DEBUG | TRACE | ENTER | LEAVE | PROFILE.

(** android/log.h *)
Definition ANDROID_LOG_VERBOSE := 2.
Definition ANDROID_LOG_DEBUG := 3.
Definition ANDROID_LOG_INFO := 4.
Definition ANDROID_LOG_WARN := 5.

Definition android_level (l : imsg_level) : Z :=
  match l with
  | ERROR => ANDROID_LOG_ERROR
  | WARN => ANDROID_LOG_WARN
  | INFO => ANDROID_LOG_INFO
  | DEBUG => ANDROID_LOG_DEBUG
  | TRACE | PROFILE | ENTER | LEAVE => ANDROID_LOG_VERBOSE
  end.
Definition level_name (l : imsg_level) : bytes :=
  match l with
  | WARN => cstr "WARN" | ERROR => cstr "ERROR" | INFO => cstr "INFO" | DEBUG => cstr "DEBUG"
  | TRACE => cstr "TRACE" | ENTER => cstr "ENTER" | LEAVE => cstr "LEAVE" | PROFILE => cstr "PROFILE"
  end.

(** 0 in either build. *)
Definition IMSG_KLOG (debug_build : bool) : Z := if debug_build then 0 else 0.

Section Macros.
Context {W : Type} `{K : Kernel W} (IMSG_TAG : bytes) (debug_build : bool).
Abbreviation IM := (M W imsg_st).

Definition IMSG_KLOG_WRITE (text : bytes) : IM unit :=
  if IMSG_KLOG debug_build =? 1 then kernel_log_write IMSG_TAG text else mret tt.
Definition imsg_print_wrapper (android_level : Z) (text : bytes) : IM unit :=
  imsg_log_write android_level IMSG_TAG text;;
  IMSG_KLOG_WRITE (IMSG_TAG ++ text).
Definition IMSG_PRINT (l : imsg_level) (text : bytes) : IM unit :=
  imsg_print_wrapper (android_level l) (cstr "[" ++ level_name l ++ cstr "]: " ++ text).

(** IMSG_WARN, IMSG_ERROR, IMSG_INFO and so on. *)
Definition imsg (l : imsg_level) (text : bytes) : IM unit :=
  match l with
  | WARN | ERROR => IMSG_PRINT l text
  | _ => if debug_build then IMSG_PRINT l text else mret tt
  end.

(** Logging makes one call of the log library or none, and never touches the
    kernel log: the program behaves the same with it. *)
Lemma imsg_quiet l text (s : proc W imsg_st) :
  wp (imsg l text) (fun o s' => o = Ret tt /\ globals s' = globals s /\
    exists evs, trace s' = trace s ++ evs /\ (length evs <= 1)%nat /\ Forall (fun e => exists n, ev_call e = Lib_extern n) evs) s.
Proof.
  assert (forall t, wp (IMSG_PRINT l t) (fun o s' => o = Ret tt /\ globals s' = globals s /\
    exists evs, trace s' = trace s ++ evs /\ (length evs <= 1)%nat /\ Forall (fun e => exists n, ev_call e = Lib_extern n) evs) s) as Hp.
  { intros t. unfold IMSG_PRINT, imsg_print_wrapper, imsg_log_write, IMSG_KLOG_WRITE, IMSG_KLOG. apply wp_bind, wp_bind. wp_sys_intro.
    apply wp_ret. replace ((if debug_build then 0 else 0) =? 1) with false by (by destruct debug_build). apply wp_ret.
    split_and!; [done|done|]. eexists [_]. split_and!; [done|done|]. constructor; [|constructor]. by eexists. }
  assert (wp (mret tt) (fun o s' => o = Ret tt /\ globals s' = globals s /\
    exists evs, trace s' = trace s ++ evs /\ (length evs <= 1)%nat /\ Forall (fun e => exists n, ev_call e = Lib_extern n) evs) s) as Hn.
  { apply wp_ret. split_and!; [done|done|]. exists []. rewrite app_nil_r. split_and!; [done|simpl; lia|constructor]. }
  destruct l; cbn [imsg]; auto; by destruct debug_build.
Qed.
End Macros.
