(* ===== verification/KmSim.v ===== *)
(** * Transport independence of the keymaster devices

    A simulation between a device over one transport and kernel and a device
    over another: related states give the same results and related states.  The
    devices use their transport only through its interface, so two transports
    that agree on every exchange give two devices that agree on every call. *)

From S2P Require Import Prelude Kernel KmLib BeanpodKeymaster KeyMintOperation KmParams Keymaster4Device Keymaster41Device.

Section Sim.
Context {W1 G1 W2 G2 : Type}.
Context (Rel : proc W1 G1 -> proc W2 G2 -> Prop).

(** Same outcome, and related states where both return. *)
Definition agree {T} (r1 : outcome T * proc W1 G1) (r2 : outcome T * proc W2 G2) : Prop :=
  r1.1 = r2.1 /\ forall v, r1.1 = Ret v -> Rel r1.2 r2.2.
Definition sim {T} (m1 : M W1 G1 T) (m2 : M W2 G2 T) : Prop :=
  forall s1 s2, Rel s1 s2 -> agree (m1 s1) (m2 s2).

Lemma sim_ret {T} (v : T) : sim (mret v) (mret v).
Proof. by intros s1 s2 H. Qed.

Lemma sim_halt {T} e : sim (T := T) (halt e) (halt e).
Proof. by intros s1 s2 H. Qed.

Lemma sim_bind {T U} (m1 : M W1 G1 T) (m2 : M W2 G2 T) (f1 : T -> M W1 G1 U) f2 :
  sim m1 m2 -> (forall v, sim (f1 v) (f2 v)) -> sim (m1 ≫= f1) (m2 ≫= f2).
Proof.
  intros Hm Hf s1 s2 H. destruct (Hm s1 s2 H) as [E HR]. unfold mbind, M_bind.
  destruct (m1 s1) as [[v|e] s1'], (m2 s2) as [o2 s2']; simpl in E; subst o2; [|by split]. by apply Hf, (HR v).
Qed.

Lemma sim_if {T} (b : bool) (m1 m1' : M W1 G1 T) m2 m2' :
  (b = true -> sim m1 m2) -> (b = false -> sim m1' m2') -> sim (if b then m1 else m1') (if b then m2 else m2').
Proof. destruct b; auto. Qed.
End Sim.

(** ** Two transports that agree *)

Section Devices.
Context {W1 G1 W2 G2 : Type} `{K1 : Kernel W1} `{K2 : Kernel W2}.
Context `{I1 : !KeymasterIpc W1 G1} `{I2 : !KeymasterIpc W2 G2}.

(** Every exchange has the same result, and both clocks read the same. *)
Record ipc_agree (Rel : proc W1 G1 -> proc W2 G2 -> Prop) : Prop := {
  agree_send : forall R (H : KeymasterResponse R) c q (rsp : R), serializable_wf q ->
    sim Rel (ipc_send (KeymasterIpc := I1) (command_id c) q rsp) (ipc_send (KeymasterIpc := I2) (command_id c) q rsp);
  agree_send_no_request : forall R (H : KeymasterResponse R) c (rsp : R),
    sim Rel (ipc_send_no_request (KeymasterIpc := I1) (command_id c) rsp)
      (ipc_send_no_request (KeymasterIpc := I2) (command_id c) rsp);
  agree_time : forall s1 s2, Rel s1 s2 ->
    let r1 := kcall (Lib_extern (cstr "time")) (world s1) in let r2 := kcall (Lib_extern (cstr "time")) (world s2) in
    sr_ret r1.1 = sr_ret r2.1 /\
    Rel (after s1 (Lib_extern (cstr "time")) r1.1 r1.2) (after s2 (Lib_extern (cstr "time")) r2.1 r2.2);
}.

Context (Rel : proc W1 G1 -> proc W2 G2 -> Prop) (HI : ipc_agree Rel).
Context {P A : Type} `{D : KeymasterDefs P} `{S : !ParamSet P A} `{N : KeymasterWire A}.
Context (wire_wf : forall c (q : request_fields A c), serializable_wf (write_request ver c q)).
Context (uninit : nat -> P) (fresh_f : Z) (fresh_nonce : bytes) (java_time : Z -> Z) (hidlKeyParams2Km : list KeyParameter -> list P).

Lemma forward_sim c (q : request_fields A c) (rsp : Response A c) :
  sim Rel (ForwardCommand (I := I1) c (write_request ver c q) rsp) (ForwardCommand (I := I2) c (write_request ver c q) rsp).
Proof. apply sim_bind; [by apply (agree_send _ HI)|]. intros [err r]. apply sim_ret. Qed.

Lemma forward_no_request_sim c (rsp : Response A c) :
  sim Rel (ForwardCommandNoRequest (I := I1) c rsp) (ForwardCommandNoRequest (I := I2) c rsp).
Proof. apply sim_bind; [by apply (agree_send_no_request _ HI)|]. intros [err r]. apply sim_ret. Qed.

Lemma generate_sim (rq : GenerateKeyRequest A) (rsp : Response A KM_GENERATE_KEY) :
  sim Rel (GenerateKey (I := I1) java_time (write_request ver KM_GENERATE_KEY) rq rsp)
    (GenerateKey (I := I2) java_time (write_request ver KM_GENERATE_KEY) rq rsp).
Proof.
  apply sim_bind; [|intros d; apply (forward_sim KM_GENERATE_KEY)]. apply sim_if; intros _; [|apply sim_ret].
  intros s1 s2 H. destruct (agree_time _ HI s1 s2 H) as [E HR]. unfold mbind, M_bind, sys.
  destruct (kcall _ (world s1)) as [r1 w1], (kcall _ (world s2)) as [r2 w2]. cbn in E, HR |- *. rewrite E. by split.
Qed.

Lemma token_sim t a : sim Rel (push_auth_token t a) (push_auth_token t a).
Proof. apply sim_if; intros _; [apply sim_halt|apply sim_ret]. Qed.

Lemma abort_sim h : sim Rel (abort (I := I1) h) (abort (I := I2) h).
Proof. apply sim_bind; [apply (forward_sim KM_ABORT_OPERATION)|intros r; apply sim_ret]. Qed.

Lemma too_long_sim h e : sim Rel (too_long (abort (I := I1)) h e) (too_long (abort (I := I2)) h e).
Proof. apply sim_if; intros _; [|apply sim_ret]. apply sim_bind; [apply abort_sim|intros r; apply sim_ret]. Qed.

(** One exchange and a result computed from the response. *)
Ltac exchange c :=
  apply sim_bind; [first [apply (forward_sim c)|apply (forward_no_request_sim c)|apply generate_sim]|intros ?; apply sim_ret].

Lemma update_sim h ps input t v :
  sim Rel (update (I := I1) uninit fresh_f (abort (I := I1)) h ps input t v)
    (update (I := I2) uninit fresh_f (abort (I := I2)) h ps input t v).
Proof.
  apply sim_bind; [apply token_sim|intros a]. apply sim_bind; [apply (forward_sim KM_UPDATE_OPERATION)|intros r].
  apply sim_if; intros _; [apply sim_ret|]. apply sim_bind; [apply too_long_sim|intros e; apply sim_ret].
Qed.

Lemma finish_sim h ps input signature t v :
  sim Rel (finish (I := I1) uninit fresh_f (abort (I := I1)) h ps input signature t v)
    (finish (I := I2) uninit fresh_f (abort (I := I2)) h ps input signature t v).
Proof.
  apply sim_bind; [apply token_sim|intros a]. apply sim_bind; [apply (forward_sim KM_FINISH_OPERATION)|intros r].
  apply sim_if; intros _; [apply sim_ret|]. apply sim_bind; [apply too_long_sim|intros e; apply sim_ret].
Qed.

Abbreviation device_of I := (device41 (I := I) uninit fresh_f fresh_nonce java_time hidlKeyParams2Km).

Lemma call_sim {T} (c : device_call T) : sim Rel (call_device (device_of I1) c) (call_device (device_of I2) c).
Proof.
  destruct c; cbn [call_device device41 device_with base d_getHardwareInfo d_getHmacSharingParameters d_computeSharedHmac
    d_verifyAuthorization d_addRngEntropy d_generateKey d_getKeyCharacteristics d_importKey d_importWrappedKey d_exportKey
    d_attestKey d_upgradeKey d_deleteKey d_deleteAllKeys d_destroyAttestationIds d_begin d_update d_finish d_abort
    d_deviceLocked d_earlyBootEnded]; try apply sim_ret.
  - exchange KM_GET_HMAC_SHARING_PARAMETERS.
  - exchange KM_COMPUTE_SHARED_HMAC.
  - exchange KM_VERIFY_AUTHORIZATION.
  - apply sim_if; intros _; [apply sim_ret|exchange KM_ADD_RNG_ENTROPY].
  - exchange KM_GENERATE_KEY.
  - exchange KM_GET_KEY_CHARACTERISTICS.
  - exchange KM_IMPORT_KEY.
  - exchange KM_IMPORT_WRAPPED_KEY.
  - exchange KM_EXPORT_KEY.
  - exchange KM_ATTEST_KEY.
  - apply sim_bind; [apply (forward_sim KM_UPGRADE_KEY)|intros r]. apply sim_if; intros _; apply sim_ret.
  - apply sim_bind; [apply token_sim|intros a]. exchange KM_BEGIN_OPERATION.
  - apply update_sim.
  - apply finish_sim.
  - apply abort_sim.
  - exchange KM_DEVICE_LOCKED.
  - exchange KM_EARLY_BOOT_ENDED.
Qed.
End Devices.

(** ** Calls that return *)

(** The tokens of a call fit the structure they are packed into. *)
Definition tokens_fit {T} (c : device_call T) : Prop :=
  match c with
  | CBegin _ _ _ t | CUpdate _ _ _ t _ | CFinish _ _ _ _ t _ => zlen (mac t) <= sizeof_hmac
  | _ => True
  end.

Section Returns.
Context {W G : Type} `{K : Kernel W}.

Definition returns {T} (m : M W G T) : Prop := forall s, exists v s', m s = (Ret v, s').

Lemma returns_ret {T} (v : T) : returns (mret v).
Proof. intros s. by exists v, s. Qed.
Lemma returns_bind {T U} (m : M W G T) (f : T -> M W G U) : returns m -> (forall v, returns (f v)) -> returns (m ≫= f).
Proof. intros Hm Hf s. destruct (Hm s) as (v & s' & E). unfold mbind, M_bind. rewrite E. apply Hf. Qed.
Lemma returns_if {T} (b : bool) (m1 m2 : M W G T) : returns m1 -> returns m2 -> returns (if b then m1 else m2).
Proof. by destruct b. Qed.

Context `{I : !KeymasterIpc W G}.
Context (Hsend : forall R (H : KeymasterResponse R) c q (rsp : R), returns (ipc_send c q rsp)).
Context (Hnone : forall R (H : KeymasterResponse R) c (rsp : R), returns (ipc_send_no_request c rsp)).
Context {P A : Type} `{D : KeymasterDefs P} `{S : !ParamSet P A} `{N : KeymasterWire A}.
Context (uninit : nat -> P) (fresh_f : Z) (fresh_nonce : bytes) (java_time : Z -> Z) (hidlKeyParams2Km : list KeyParameter -> list P).

Lemma forward_returns c (q : request_fields A c) (rsp : Response A c) : returns (ForwardCommand c (write_request ver c q) rsp).
Proof. apply returns_bind; [apply Hsend|]. intros [err x]. apply returns_ret. Qed.
Lemma forward_no_request_returns c (rsp : Response A c) : returns (ForwardCommandNoRequest c rsp).
Proof. apply returns_bind; [apply Hnone|]. intros [err x]. apply returns_ret. Qed.
Lemma generate_returns (rq : GenerateKeyRequest A) (rsp : Response A KM_GENERATE_KEY) :
  returns (GenerateKey java_time (write_request ver KM_GENERATE_KEY) rq rsp).
Proof.
  apply returns_bind; [|intros d; apply (forward_returns KM_GENERATE_KEY)]. apply returns_if; [|apply returns_ret].
  apply returns_bind; [|intros ?; apply returns_ret]. intros s. unfold sys. destruct (kcall _ _) as [x w]. eauto.
Qed.
Lemma token_returns t (a : A) : zlen (mac t) <= sizeof_hmac -> returns (push_auth_token t a).
Proof. intros Ht. unfold push_auth_token. replace (sizeof_hmac <? zlen (mac t)) with false by lia. apply returns_ret. Qed.
Lemma abort_returns h : returns (abort h).
Proof. apply returns_bind; [apply (forward_returns KM_ABORT_OPERATION)|intros x; apply returns_ret]. Qed.
Lemma too_long_returns h e : returns (too_long abort h e).
Proof. apply returns_if; [|apply returns_ret]. apply returns_bind; [apply abort_returns|intros x; apply returns_ret]. Qed.

Ltac returning c :=
  apply returns_bind; [first [apply (forward_returns c)|apply (forward_no_request_returns c)|apply generate_returns]|intros ?; apply returns_ret].

(** Over a transport that returns, every call whose tokens fit returns. *)
Lemma call_returns {T} (c : device_call T) : tokens_fit c ->
  returns (call_device (device41 uninit fresh_f fresh_nonce java_time hidlKeyParams2Km) c).
Proof.
  destruct c; intros Hf; cbn [call_device device41 device_with base d_getHardwareInfo d_getHmacSharingParameters d_computeSharedHmac
    d_verifyAuthorization d_addRngEntropy d_generateKey d_getKeyCharacteristics d_importKey d_importWrappedKey d_exportKey
    d_attestKey d_upgradeKey d_deleteKey d_deleteAllKeys d_destroyAttestationIds d_begin d_update d_finish d_abort
    d_deviceLocked d_earlyBootEnded]; try apply returns_ret.
  - returning KM_GET_HMAC_SHARING_PARAMETERS.
  - returning KM_COMPUTE_SHARED_HMAC.
  - returning KM_VERIFY_AUTHORIZATION.
  - apply returns_if; [apply returns_ret|returning KM_ADD_RNG_ENTROPY].
  - returning KM_GENERATE_KEY.
  - returning KM_GET_KEY_CHARACTERISTICS.
  - returning KM_IMPORT_KEY.
  - returning KM_IMPORT_WRAPPED_KEY.
  - returning KM_EXPORT_KEY.
  - returning KM_ATTEST_KEY.
  - apply returns_bind; [apply (forward_returns KM_UPGRADE_KEY)|intros x]. apply returns_if; apply returns_ret.
  - apply returns_bind; [by apply token_returns|intros a]. returning KM_BEGIN_OPERATION.
  - apply returns_bind; [by apply token_returns|intros a]. apply returns_bind; [apply (forward_returns KM_UPDATE_OPERATION)|intros x].
    apply returns_if; [apply returns_ret|]. apply returns_bind; [apply too_long_returns|intros e; apply returns_ret].
  - apply returns_bind; [by apply token_returns|intros a]. apply returns_bind; [apply (forward_returns KM_FINISH_OPERATION)|intros x].
    apply returns_if; [apply returns_ret|]. apply returns_bind; [apply too_long_returns|intros e; apply returns_ret].
  - apply abort_returns.
  - returning KM_DEVICE_LOCKED.
  - returning KM_EARLY_BOOT_ENDED.
Qed.
End Returns.

(** ** Sequences of calls *)

(** The answers the clients get, each with its type. *)
Definition reply_to := {T : Type & T}.
Fixpoint replies {W G} (d : IKeymasterDevice41 W G) (calls : list served) : M W G (list reply_to) :=
  match calls with
  | [] => mret []
  | existT T c :: rest => v ← call_device d c; vs ← replies d rest; mret (existT T v :: vs)
  end.

Section Replies.
Context {W1 G1 W2 G2 : Type} (Rel : proc W1 G1 -> proc W2 G2 -> Prop).

Lemma replies_sim d1 d2 calls :
  (forall T (c : device_call T), sim Rel (call_device d1 c) (call_device d2 c)) -> sim Rel (replies d1 calls) (replies d2 calls).
Proof.
  intros H. induction calls as [|[T c] calls IH]; [apply sim_ret|]. apply sim_bind; [apply H|intros v].
  apply sim_bind; [exact IH|intros vs; apply sim_ret].
Qed.
End Replies.

Lemma replies_return {W G} (d : IKeymasterDevice41 W G) calls :
  (forall T (c : device_call T), tokens_fit c -> returns (call_device d c)) ->
  Forall (fun c => tokens_fit (projT2 c)) calls -> returns (replies d calls).
Proof.
  intros H. induction 1 as [|[T c] calls Hc _ IH]; [apply returns_ret|]. apply returns_bind; [by apply H|intros v].
  apply returns_bind; [exact IH|intros vs; apply returns_ret].
Qed.
