(* ===== verification/KmService.v ===== *)
(** * The lite keymaster HAL against a secure service

    The secure keymaster is not in the repository.  It is a parameter: a state
    and a function [answer] that gives, for a command and a request, the new
    state and the answer.  [TipcService] states how such a service behaves on its
    channel: it gathers the messages of a request as [KmTipcSpec.gather] does,
    and sends its answer in messages that [KmTipcSpec.assemble] puts together.
    Against any such service the HAL is shown to do exactly what it would do if
    it called [answer] directly: fragmentation, buffers, header checks and
    erasing do not show, and every call with tokens of the right size returns. *)

From S2P Require Import LiteDevice Prelude Kernel Libtrusty MemKernel KmLib KmTipc KmTipcSpec BeanpodKeymaster KmTheorems KeyMintOperation KmParams Keymaster4Device Keymaster41Device Keymaster4Claims KmSim.

(** ** The service on its channel *)

Record svc (X : Type) := Svc {
  svc_state : X;
  inbox : list bytes;         (* messages of the request received so far *)
  outbox : list bytes;        (* messages of the answer that were not read yet *)
  clock : nat -> Z            (* what the clock of the process reads from now on *)
}.
Arguments Svc {X}.
Arguments svc_state {X} s.
Arguments inbox {X} s.
Arguments outbox {X} s.
Arguments clock {X} s.

(** What a message does to the service: the answer is sent once the request of
    a command is complete, in at most [limit] messages of the size the client can
    take. *)
Definition receives {X} (answer : X -> Z -> bytes -> X * bytes) (limit : nat) (sv : svc X) (m : bytes) (sv' : svc X) : Prop :=
  match gather (inbox sv ++ [m]) with
  | None => sv' = Svc (svc_state sv) (inbox sv ++ [m]) [] (clock sv)
  | Some (c, req) => plain_cmd c ->
      let r := answer (svc_state sv) c req in
      svc_state sv' = r.1 /\ inbox sv' = [] /\ clock sv' = clock sv /\ assemble c (outbox sv') = Some r.2 /\
      (length (outbox sv') <= limit)%nat /\ Forall (fun m => zlen m <= 4 + KEYMASTER_MAX_BUFFER_LENGTH) (outbox sv')
  end.

(** The kernel's side of the descriptor [h], and of the library calls made
    between two messages. *)
Class TipcService (W X : Type) `{K : Kernel W} (h : Z) (answer : X -> Z -> bytes -> X * bytes) (limit : nat) := {
  service : W -> svc X;
  service_malloc : forall n w, let r := kcall (Lib_malloc n) w in 0 <= sr_ret r.1 /\ service r.2 = service w;
  service_free : forall w, service (kcall Lib_free w).2 = service w;
  service_time : forall w, let r := kcall (Lib_extern (cstr "time")) w in
    sr_ret r.1 = clock (service w) 0 /\
    service r.2 = Svc (svc_state (service w)) (inbox (service w)) (outbox (service w)) (fun n => clock (service w) (S n));
  service_write : forall m w, outbox (service w) = [] ->
    let r := kcall (Sys_write h m) w in 0 <= sr_ret r.1 /\ receives answer limit (service w) m (service r.2);
  service_read : forall m ms n w, outbox (service w) = m :: ms -> zlen m <= 4 + n ->
    let r := kcall (Sys_readv h [4; n]) w in
    sr_ret r.1 = zlen m /\ sr_data r.1 = m /\
    service r.2 = Svc (svc_state (service w)) (inbox (service w)) ms (clock (service w));
}.

(** ** Calling the service directly *)

(** A kernel that is only a clock. *)
#[export] Instance clock_kernel : Kernel (nat -> Z) := fun c w =>
  match c with Lib_extern _ => (SysRet (w O) 0 [], fun n => w (S n)) | _ => (SysRet 0 0 [], w) end.

Section Direct.
Context {W X : Type} (max : Z) (answer : X -> Z -> bytes -> X * bytes).

Definition decode {R} `{KeymasterResponse R} (rsp : R) (payload : bytes) : Z * R :=
  let r := Deserialize rsp payload in
  if negb r.1 then (KM_ERROR_UNKNOWN_ERROR, r.2) else (rsp_error r.2, r.2).

Definition direct_call {R} `{KeymasterResponse R} (c : Z) (req : bytes) (rsp : R) : M W X (Z * R) :=
  x ← gets id;
  let r := answer x c req in
  modify (fun _ => r.1);;
  mret (decode rsp r.2).

(** The transport that calls [answer], but refuses requests of more than [max]
    bytes; there is nothing to connect to. *)
Definition direct_ipc : KeymasterIpc W X := {|
  ipc_connect := mret 0;
  ipc_disconnect := mret tt;
  ipc_send := fun R H c q rsp =>
    if max <? u32 (SerializedSize q) then mret (BEANPOD_KM_INVALID_INPUT_LENGTH, rsp)
    else direct_call c (Serialize q (u32 (SerializedSize q))) rsp;
  ipc_send_no_request := fun R H c rsp => direct_call c [] rsp;
|}.

Lemma direct_call_returns {R} `{KeymasterResponse R} c req (rsp : R) : returns (direct_call c req rsp).
Proof. intros s. unfold direct_call, mbind, M_bind, gets, modify, mret, M_ret. simpl. eauto. Qed.
Lemma direct_send_returns R (H : KeymasterResponse R) c q (rsp : R) : returns (ipc_send (KeymasterIpc := direct_ipc) c q rsp).
Proof. apply returns_if; [apply returns_ret|apply direct_call_returns]. Qed.
Lemma direct_none_returns R (H : KeymasterResponse R) c (rsp : R) : returns (ipc_send_no_request (KeymasterIpc := direct_ipc) c rsp).
Proof. apply direct_call_returns. Qed.
End Direct.

(** ** Requests *)

(** A service that has seen all but the last message of a request waits. *)
Lemma gather_parts cmd parts :
  plain_cmd cmd ->
  gather (map (keymaster_message_enc (Z.lor cmd KEYMASTER_STOP_BIT)) parts) = None /\
  forall p, gather (map (keymaster_message_enc (Z.lor cmd KEYMASTER_STOP_BIT)) parts ++ [keymaster_message_enc cmd p]) =
    Some (cmd, mjoin parts ++ p).
Proof.
  intros Hc. destruct (plain_cmd_stop cmd Hc) as (Hf0 & Hf1 & Hu). pose proof Hc as [_ Hu0].
  induction parts as [|q parts [IH1 IH2]]; [split; [done|intros p]|split; [|intros p]]; cbn [map app gather].
  - destruct (message_fields cmd p Hu0) as (-> & -> & _). by rewrite Hf0.
  - destruct (message_fields _ q Hu) as (-> & -> & _). by rewrite Hf1, IH1.
  - destruct (message_fields _ q Hu) as (-> & -> & _). rewrite Hf1, IH2, Z.eqb_refl. by rewrite app_assoc.
Qed.

Section Service.
Context {W X : Type} `{K : Kernel W} (h : Z) (answer : X -> Z -> bytes -> X * bytes) (limit : nat).
Context `{T : !TipcService W X h answer limit}.
Context (erase : bytes -> bytes) (fuel : nat).
Hypothesis erase_length : forall b, length (erase b) = length b.
Hypothesis fuel_enough : (limit <= fuel)%nat.
Hypothesis handle_ok : 0 <= h.
Hypothesis answer_fits : forall x c q, zlen (answer x c q).2 <= BP_KEYMASTER_RECV_BUF_SIZE.
Implicit Types s : proc W km_st.

(** One message is handed to the service. *)
Lemma send_part_service cmd payload s :
  handle_ (globals s) = h -> outbox (service (world s)) = [] ->
  wp (send_part cmd payload) (fun o s' => o = Ret None /\ globals s' = globals s /\
    receives answer limit (service (world s)) (keymaster_message_enc cmd payload) (service (world s'))) s.
Proof.
  intros Hh Ho. unfold send_part, malloc, free. apply wp_bind, wp_bind, wp_sys. intros r0 w0 E0. apply wp_ret.
  pose proof (service_malloc (zlen payload + sizeof_keymaster_message) (world s)) as [H0 S0]. rewrite E0 in H0, S0. cbn in H0, S0.
  replace (negb (0 <=? sr_ret r0)) with false by lia. apply wp_bind, wp_gets, wp_bind, wp_sys. cbn [globals after world].
  rewrite Hh. intros r1 w1 E1.
  pose proof (service_write (keymaster_message_enc cmd payload) w0) as H1. rewrite S0 in H1. specialize (H1 Ho). rewrite E1 in H1.
  destruct H1 as [H1 S1]. cbn in H1. apply wp_bind, wp_bind, wp_sys. cbn [world after]. intros r2 w2 E2. apply wp_ret.
  pose proof (service_free w1) as S2. rewrite E2 in S2. cbn in S2, S1.
  replace (sr_ret r1 <? 0) with false by lia. apply wp_ret. cbn. rewrite S2. done.
Qed.

(** The whole request is, and the service answers it. *)
Lemma send_loop_service cmd n parts send s :
  plain_cmd cmd -> zlen send < Z.of_nat n -> handle_ (globals s) = h ->
  outbox (service (world s)) = [] ->
  inbox (service (world s)) = map (keymaster_message_enc (Z.lor cmd KEYMASTER_STOP_BIT)) parts ->
  wp (send_loop n cmd send) (fun o s' => o = Ret None /\ globals s' = globals s /\
    let r := answer (svc_state (service (world s))) cmd (mjoin parts ++ send) in
    let sv' := service (world s') in
    svc_state sv' = r.1 /\ inbox sv' = [] /\ clock sv' = clock (service (world s)) /\ assemble cmd (outbox sv') = Some r.2 /\
    (length (outbox sv') <= limit)%nat /\ Forall (fun m => zlen m <= 4 + KEYMASTER_MAX_BUFFER_LENGTH) (outbox sv')) s.
Proof.
  intros Hc. revert parts send s. induction n as [|n IH]; intros parts send s Hn Hh Ho Hi; [pose proof (zlen_nonneg send); lia|].
  cbn [send_loop]. apply wp_if; intros Hl.
  2:{ eapply wp_mono; [by apply send_part_service|]. intros o s' (-> & Hg & Hr). unfold receives in Hr.
      rewrite Hi, (proj2 (gather_parts cmd parts Hc) send) in Hr. split; [done|]. split; [done|]. by apply Hr. }
  set (part := take (Z.to_nat MAX_SEND_BUF_SIZE) send). set (rest := drop (Z.to_nat MAX_SEND_BUF_SIZE) send).
  assert (zlen rest < Z.of_nat n) as Hn' by (unfold rest, zlen, MAX_SEND_BUF_SIZE in *; rewrite length_drop; lia).
  apply wp_bind. eapply wp_mono; [by apply send_part_service|]. intros o s1 (-> & Hg & Hr). unfold receives in Hr. rewrite Hi in Hr.
  change [keymaster_message_enc (Z.lor cmd KEYMASTER_STOP_BIT) part] with
    (map (keymaster_message_enc (Z.lor cmd KEYMASTER_STOP_BIT)) [part]) in Hr.
  rewrite <- map_app, (proj1 (gather_parts cmd (parts ++ [part]) Hc)) in Hr.
  eapply wp_mono; [apply (IH (parts ++ [part]) rest s1); [done|by rewrite Hg|by rewrite Hr|by rewrite Hr]|].
  intros o s2 (-> & Hg2 & Hs). rewrite Hr in Hs. cbn [svc_state clock] in Hs.
  split; [done|]. split; [congruence|]. replace (mjoin parts ++ send) with (mjoin (parts ++ [part]) ++ rest); [exact Hs|].
  unfold mjoin. rewrite join_app. simpl. rewrite app_nil_r, <- app_assoc. unfold part, rest. by rewrite take_drop.
Qed.

(** ** Answers *)

Lemma recv_part_service cmd out sz m ms s :
  handle_ (globals s) = h -> outbox (service (world s)) = m :: ms -> answers_cmd cmd m = true ->
  zlen m <= 4 + KEYMASTER_MAX_BUFFER_LENGTH -> 0 <= sz -> sz + zlen (drop 4 m) <= zlen out -> zlen out < 2 ^ 31 ->
  wp (recv_part cmd out (zlen out) sz) (fun o s' =>
    let out' := splice out sz (drop 4 m) in let sz' := sz + zlen (drop 4 m) in
    o = Ret (if last_part m then Return (zlen m) out' sz' else Continue out' sz') /\ globals s' = globals s /\
    service (world s') = Svc (svc_state (service (world s))) (inbox (service (world s))) ms (clock (service (world s)))) s.
Proof.
  intros Hh Ho Ha Hm Hsz Hfit Hmax. unfold answers_cmd in Ha. apply andb_true_iff in Ha as [H4 Hcmd].
  assert (zlen (drop 4 m) = zlen m - 4) as Hd by (unfold zlen in *; rewrite length_drop; lia).
  unfold recv_part. apply wp_bind, wp_gets, wp_bind, wp_sys. rewrite Hh, (u32_small (zlen out - sz)) by wide_lia.
  unfold sizeof_keymaster_message. intros r w E.
  pose proof (service_read m ms (Z.min KEYMASTER_MAX_BUFFER_LENGTH (zlen out - sz)) (world s) Ho ltac:(lia)) as Hr.
  rewrite E in Hr. destruct Hr as (Hret & Hdata & Hs). cbn [fst snd] in Hret, Hdata, Hs. rewrite Hret, Hdata.
  replace (zlen m <? 0) with false by lia. replace (zlen m <? 4) with false by lia.
  rewrite Z.eqb_sym, Hcmd. cbn [negb]. change (Z.to_nat 4) with 4%nat. fold (last_part m).
  rewrite u32_small by wide_lia. replace (sz + (zlen m - 4)) with (sz + zlen (drop 4 m)) by lia.
  apply wp_if; intros ->; apply wp_ret; [|done]. rewrite s32_small; [done|]. unfold KEYMASTER_MAX_BUFFER_LENGTH in Hm. wide_lia.
Qed.

Lemma recv_loop_service cmd n : forall ms p out sz s,
  handle_ (globals s) = h -> outbox (service (world s)) = ms -> assemble cmd ms = Some p -> (length ms <= n)%nat ->
  Forall (fun m => zlen m <= 4 + KEYMASTER_MAX_BUFFER_LENGTH) ms -> 0 <= sz -> sz + zlen p <= zlen out -> zlen out < 2 ^ 31 ->
  wp (recv_loop n cmd out (zlen out) sz) (fun o s' => exists rc out', o = Ret (rc, out', sz + zlen p) /\ 0 <= rc /\
    zlen out' = zlen out /\ slice 0 (sz + zlen p) out' = slice 0 sz out ++ p /\ globals s' = globals s /\
    service (world s') = Svc (svc_state (service (world s))) (inbox (service (world s))) [] (clock (service (world s)))) s.
Proof.
  induction n as [|n IH]; intros ms p out sz s Hh Ho Ha Hn Hall Hsz Hfit Hmax; (destruct ms as [|m ms]; [done|]); [simpl in Hn; lia|].
  cbn [assemble] in Ha. destruct (answers_cmd cmd m) eqn:Eans; [|done]. cbn [negb] in Ha.
  inversion_clear Hall as [|? ? Hm Hall']. cbn [recv_loop]. apply wp_bind. simpl in Hn.
  assert (sz + zlen (drop 4 m) <= zlen out) as Hpart.
  { destruct (last_part m); [destruct ms; [|done]; injection Ha as <-; lia|].
    destruct (assemble cmd ms) as [q|]; [|done]. injection Ha as <-. rewrite zlen_app in Hfit. pose proof (zlen_nonneg q). lia. }
  destruct (splice_part out sz (drop 4 m) Hsz Hpart) as [Hl Hsl]. pose proof (zlen_nonneg (drop 4 m)) as Hpos.
  eapply wp_mono; [by apply (recv_part_service cmd out sz m ms)|]. intros o s1 (-> & Hg & Hs). destruct (last_part m).
  - destruct ms; [|done]. injection Ha as <-. apply wp_ret. eexists _, _. split; [done|]. split_and!; try done. apply zlen_nonneg.
  - destruct (assemble cmd ms) as [q|] eqn:Eq; [|done]. injection Ha as <-. rewrite zlen_app in *. rewrite <- Hl.
    eapply wp_mono; [apply (IH ms q); try done; rewrite ?Hg, ?Hs; try done; lia|].
    intros o s2 (rc & out2 & -> & Hrc & Hl2 & Hsl2 & Hg2 & Hs2). exists rc, out2. rewrite Hs in Hs2. cbn [svc_state inbox clock] in Hs2.
    split_and!; [by rewrite Z.add_assoc|done|congruence| |congruence|done].
    by rewrite Z.add_assoc, Hsl2, Hsl, app_assoc.
Qed.

(** ** Sends *)

(** The HAL is connected and the service has nothing under way. *)
Definition attached (s : proc W km_st) (s2 : proc (nat -> Z) X) : Prop :=
  handle_ (globals s) = h /\ zlen (send_buf (globals s)) = BP_KEYMASTER_SEND_BUF_SIZE /\
  zlen (recv_buf (globals s)) = BP_KEYMASTER_RECV_BUF_SIZE /\ service (world s) = Svc (globals s2) [] [] (world s2).

Lemma call_service {R} `{KeymasterResponse R} cmd inb (rsp : R) s (s2 : proc (nat -> Z) X) :
  plain_cmd cmd -> attached s s2 ->
  wp (call_and_handle fuel cmd inb rsp) (fun o s' =>
    let r := answer (globals s2) cmd inb in
    o = Ret (decode rsp r.2) /\ attached s' (Proc r.1 (world s2) (errno s2) (trace s2))) s.
Proof.
  intros Hc (Hh & Hsb & Hrb & Hs). unfold call_and_handle. apply wp_bind, wp_gets, wp_bind. unfold bp_keymaster_call.
  apply wp_bind, wp_gets. replace (handle_ (globals s) <? 0) with false by lia. apply wp_bind.
  eapply wp_mono; [apply (send_loop_service cmd (S (length inb)) [] inb s Hc); rewrite ?Hs; unfold zlen; try done; lia|].
  intros o s1 (-> & Hg & Hsv). rewrite Hs in Hsv. cbn [svc_state clock mjoin] in Hsv.
  destruct Hsv as (Hst & Hin & Hck & Has & Hlim & Hall). rewrite <- Hrb. eapply wp_mono.
  { apply (recv_loop_service cmd fuel (outbox (service (world s1))) (answer (globals s2) cmd inb).2); try done.
    - by rewrite Hg.
    - etransitivity; [exact Hlim|done].
    - rewrite Hrb. apply answer_fits.
    - by rewrite Hrb. }
  intros o s3 (rc & out & -> & Hrc & Hl & Hsl & Hg3 & Hs3). apply wp_bind, wp_modify. unfold handle_response.
  replace (rc <? 0) with false by lia. apply wp_bind, wp_gets. cbn [globals recv_buf set_recv_buf].
  rewrite Z.add_0_l in *. rewrite Hsl, slice_0. cbn [app]. unfold decode.
  destruct (Deserialize rsp _) as [ok rsp1] eqn:Ed. cbn [fst snd].
  assert (attached (Proc (set_recv_buf out (globals s3)) (world s3) (errno s3) (trace s3))
    (Proc (answer (globals s2) cmd inb).1 (world s2) (errno s2) (trace s2))) as Hat.
  { split_and!; cbn; [congruence|congruence|lia|]. by rewrite Hs3, Hst, Hin, Hck. }
  apply wp_if; intros Hok; apply wp_ret; (split; [|exact Hat]); by rewrite Hok.
Qed.

(** Erasing the buffers does not change their sizes. *)
Lemma erase_attached s (s2 : proc (nat -> Z) X) (fs fr : bool) :
  attached s s2 ->
  attached (Proc (KmSt (handle_ (globals s)) (if fs then erase (send_buf (globals s)) else send_buf (globals s))
    (if fr then erase (recv_buf (globals s)) else recv_buf (globals s))) (world s) (errno s) (trace s)) s2.
Proof.
  intros (H1 & H2 & H3 & H4). unfold attached, zlen in *. cbn. split_and!; [done| | |done]; destruct fs, fr; rewrite ?erase_length; done.
Qed.

(** What [wp] says of the concrete run, compared with the direct one. *)
Lemma agree_wp {V} (m : M W km_st V) s (r : outcome V * proc (nat -> Z) X) :
  wp m (fun o s' => o = r.1 /\ attached s' r.2) s -> agree attached (m s) r.
Proof. intros [H1 H2]. split; [done|]. by intros v _. Qed.

#[local] Instance direct : KeymasterIpc (nat -> Z) X := direct_ipc BP_KEYMASTER_SEND_BUF_SIZE answer.
#[local] Instance over_tipc : KeymasterIpc W km_st := tipc_ipc erase fuel.

Lemma tipc_agrees : ipc_agree attached.
Proof.
  split.
  - intros R HR c q rsp [Hu Hlen] s s2 Hat. apply agree_wp. cbn [ipc_send direct direct_ipc over_tipc tipc_ipc].
    unfold bp_keymaster_send. rewrite u32_small by done. apply wp_if; intros Hl; rewrite Hl; [by apply wp_ret|].
    apply wp_bind, wp_modify, wp_bind, wp_gets, wp_bind. cbn [globals send_buf set_send_buf].
    assert (forall b, slice 0 (SerializedSize q) (splice b 0 (Serialize q (SerializedSize q))) = Serialize q (SerializedSize q)) as ->.
    { intros b. rewrite <- Hlen at 1. apply slice_splice_here; [done|apply zlen_nonneg]. }
    eapply wp_mono; [apply call_service; [apply plain_cmd_id|]|].
    { destruct Hat as (H1 & H2 & H3 & H4). split_and!; [done| |done|exact H4]. cbn [globals send_buf set_send_buf].
      rewrite <- H2. unfold zlen at 1. rewrite length_splice; [done|lia|lia]. }
    intros o s1 [-> Hs1]. apply wp_bind, wp_modify, wp_bind, wp_modify, wp_ret. split; [done|]. exact (erase_attached s1 _ true true Hs1).
  - intros R HR c rsp s s2 Hat. apply agree_wp. cbn [ipc_send_no_request direct direct_ipc over_tipc tipc_ipc].
    unfold bp_keymaster_send_no_request. apply wp_bind. eapply wp_mono; [by apply call_service; [apply plain_cmd_id|]|].
    intros o s1 [-> Hs1]. apply wp_bind, wp_modify, wp_ret. split; [done|]. exact (erase_attached s1 _ false true Hs1).
  - intros s s2 (H1 & H2 & H3 & H4). cbn zeta. pose proof (service_time (world s)) as [Ht Hs].
    destruct (kcall (Lib_extern (cstr "time")) (world s)) as [r w]. cbn [fst snd] in Ht, Hs |- *. rewrite H4 in Ht, Hs.
    split; [exact Ht|]. split_and!; [done|done|done|]. exact Hs.
Qed.
End Service.


(** ** A service *)

(** Its state counts the requests; it answers with no error, the count and the
    beginning of the request, in two messages. *)
Definition demo_answer (x c : Z) (req : bytes) : Z * bytes := (x + 1, le_enc 4 0 ++ u8 x :: take 100 req).

Definition two_messages (c : Z) (p : bytes) : list bytes :=
  [keymaster_message_enc (Z.lor c KEYMASTER_RESP_BIT) (take 5 p);
   keymaster_message_enc (Z.lor (Z.lor c KEYMASTER_RESP_BIT) KEYMASTER_STOP_BIT) (drop 5 p)].

#[export] Instance demo_kernel : Kernel (svc Z) := fun call w =>
  match call with
  | Lib_extern _ => (SysRet (clock w O) 0 [], Svc (svc_state w) (inbox w) (outbox w) (fun n => clock w (S n)))
  | Sys_write 3 m =>
      (SysRet (zlen m) 0 [],
       match gather (inbox w ++ [m]) with
       | None => Svc (svc_state w) (inbox w ++ [m]) [] (clock w)
       | Some (c, req) => Svc (demo_answer (svc_state w) c req).1 [] (two_messages c (demo_answer (svc_state w) c req).2) (clock w)
       end)
  | Sys_readv 3 _ =>
      match outbox w with
      | [] => (SysRet (-1) EIO [], w)
      | m :: ms => (SysRet (zlen m) 0 m, Svc (svc_state w) (inbox w) ms (clock w))
      end
  | _ => (SysRet 0 0 [], w)
  end.

(** Clearing the stop bit of a word without it, or with it set. *)
Lemma stop_cleared c :
  is_u32 c -> Z.testbit c 1 = false ->
  Z.land c (u32 (Z.lnot KEYMASTER_STOP_BIT)) = c /\
  Z.land (Z.lor c KEYMASTER_STOP_BIT) (u32 (Z.lnot KEYMASTER_STOP_BIT)) = c.
Proof.
  intros Hu Hb. assert (forall i, 0 <= i -> Z.testbit c i = Z.testbit c i && (i <? 32)) as Hhi.
  { intros i Hi. destruct (Z.ltb_spec i 32); [by rewrite andb_true_r|]. rewrite andb_false_r.
    rewrite <- (Z.mod_small c (2 ^ 32)) by exact Hu. apply Z.mod_pow2_bits_high. lia. }
  assert (forall i, 0 <= i -> Z.testbit (u32 (Z.lnot KEYMASTER_STOP_BIT)) i = (i <? 32) && negb (i =? 1)) as Hm.
  { intros i Hi. unfold u32, KEYMASTER_STOP_BIT. rewrite Z.testbit_mod_pow2, Z.lnot_spec by lia.
    f_equal. f_equal. change 2 with (2 ^ 1). rewrite Z.pow2_bits_eqb by lia. apply Z.eqb_sym. }
  assert (forall i, 0 <= i -> Z.testbit KEYMASTER_STOP_BIT i = (i =? 1)) as Hs.
  { intros i Hi. change KEYMASTER_STOP_BIT with (2 ^ 1). rewrite Z.pow2_bits_eqb by lia. apply Z.eqb_sym. }
  split; apply Z.bits_inj'; intros i Hi.
  - rewrite Z.land_spec, Hm by done. rewrite (Hhi i Hi) at 2. destruct (Z.eqb_spec i 1) as [->|_]; [by rewrite Hb|].
    by rewrite andb_true_r.
  - rewrite Z.land_spec, Z.lor_spec, Hm, Hs by done. rewrite (Hhi i Hi) at 2.
    destruct (Z.eqb_spec i 1) as [->|_]; [by rewrite Hb|]. by rewrite orb_false_r, andb_true_r.
Qed.

Lemma two_messages_assemble c p : plain_cmd c -> assemble c (two_messages c p) = Some p.
Proof.
  intros Hc. pose proof Hc as [Hm Hu]. set (c1 := Z.lor c KEYMASTER_RESP_BIT).
  assert (c1 = c + 1) as E1 by (by apply plain_cmd_lor).
  assert (is_u32 c1) as Hu1 by (rewrite E1; unfold is_u32 in *; lia).
  assert (Z.testbit c1 1 = false) as Hb.
  { rewrite <- stop_flag. unfold c1. rewrite stop_flag, Z.lor_spec, <- stop_flag, (proj1 (plain_cmd_stop c Hc)). done. }
  destruct (stop_cleared c1 Hu1 Hb) as [H1 H2].
  assert (is_u32 (Z.lor c1 KEYMASTER_STOP_BIT)) as Hu2.
  { unfold c1. rewrite <- Z.lor_assoc. change (Z.lor KEYMASTER_RESP_BIT KEYMASTER_STOP_BIT) with 3.
    rewrite plain_cmd_lor by (done || lia). unfold is_u32 in *. lia. }
  assert (has_flag (Z.lor c1 KEYMASTER_STOP_BIT) KEYMASTER_STOP_BIT = true) as Hf by (by rewrite stop_flag, Z.lor_spec, orb_true_r).
  unfold two_messages. fold c1. cbn [assemble]. unfold answers_cmd, last_part.
  destruct (message_fields c1 (take 5 p) Hu1) as (-> & -> & ->). destruct (message_fields _ (drop 5 p) Hu2) as (-> & -> & ->).
  pose proof (zlen_nonneg (take 5 p)). pose proof (zlen_nonneg (drop 5 p)).
  rewrite H1, H2, Hf, stop_flag, Hb, Z.eqb_refl.
  replace (4 <=? 4 + zlen (take 5 p)) with true by lia. replace (4 <=? 4 + zlen (drop 5 p)) with true by lia.
  cbn. by rewrite take_drop.
Qed.

Lemma demo_answer_length x c q : zlen (demo_answer x c q).2 <= 105.
Proof.
  unfold demo_answer, zlen. cbn [snd]. rewrite length_app, length_le_enc. cbn [length]. rewrite length_take. lia.
Qed.

#[export] Instance demo_tipc_service : TipcService (svc Z) Z 3 demo_answer 2.
Proof.
  refine {| service := id |}.
  - done.
  - done.
  - done.
  - intros m w Ho. split; [apply zlen_nonneg|]. unfold receives, id. cbn [kcall demo_kernel snd].
    destruct (gather (inbox w ++ [m])) as [[c req]|]; [|done]. intros Hc. cbn [svc_state inbox outbox clock].
    split_and!; [done|done|done|by apply two_messages_assemble|done|].
    pose proof (demo_answer_length (svc_state w) c req) as Hl. unfold zlen in Hl.
    repeat constructor; unfold keymaster_message_enc, zlen, KEYMASTER_MAX_BUFFER_LENGTH;
      rewrite length_app, length_le_enc, ?length_take, ?length_drop; lia.
  - intros m ms n w Ho _. unfold id in *. cbn [kcall demo_kernel fst snd]. by rewrite Ho.
Defined.

(** A connected HAL; the clock reads 7, 8, and so on. *)
Definition demo_clock (n : nat) : Z := 7 + Z.of_nat n.
Definition demo_attached : proc (svc Z) km_st := Proc (set_handle 3 km_st0) (Svc 0 [] [] demo_clock) 0 [].
Definition demo_direct : proc (nat -> Z) Z := Proc 0 demo_clock 0 [].

(** A key is made, data goes through an operation, and a key is exported. *)
Definition demo_session : list served :=
  [existT _ (CGenerateKey demo_params); existT _ (CUpdate 77 [] [1; 2; 3] demo_token demo_verification);
   existT _ demo_finish; existT _ (CDeleteKey [1]); existT _ (CExportKey 0 [1] [] [])].
Definition demo_hal : IKeymasterDevice41 (svc Z) km_st :=
  LiteDevice.device41 zero_all 2 demo_garbage 0 [] id (KmParamSet demo_garbage).
Definition demo_reference : IKeymasterDevice41 (nat -> Z) Z :=
  device41 (I := direct_ipc BP_KEYMASTER_SEND_BUF_SIZE demo_answer) demo_garbage 0 [] id (KmParamSet demo_garbage).


(** Five replies; the service saw four requests. *)
Example demo_session_runs :
  match replies demo_reference demo_session demo_direct with
  | (Ret vs, d) => (length vs, globals d)
  | _ => (0%nat, 0)
  end = (5%nat, 4).
Proof. vm_compute. reflexivity. Qed.
