(* ===== verification/KmAppService.v ===== *)
(** * The 400 keymaster HAL against the keymaster application

    The counterpart of [KmService.v] for the transport over the client library:
    the keymaster application answers a command from one block of shared memory
    into another.  [AppService] states how it behaves behind the driver.  Against
    any such application the HAL does what it would do if it called the
    application's function directly, so that the two builds of the HAL give their
    clients the same replies. *)

From S2P Require Import Prelude Kernel Libtrusty Teec TeecSession TeecFrames TeecInout TeecDirect KmLib KmTipc KmTeec KmTeecSpec BeanpodKeymaster KmTheorems KeyMintOperation KmParams Keymaster4Device Keymaster41Device Keymaster4Claims KmSim KmService.

(** ** The application behind the driver *)

Record app (X : Type) := App {
  app_state : X;
  in_block : bytes;           (* the shared blocks *)
  out_block : bytes;
  app_clock : nat -> Z        (* what the clock of the process reads from now on *)
}.
Arguments App {X}.
Arguments app_state {X} a.
Arguments in_block {X} a.
Arguments out_block {X} a.
Arguments app_clock {X} a.

(** The session [sid] over the descriptor [fd]; the blocks are mapped at [ia] and
    [oa] and known to the driver as [ii] and [oi]. *)
Class AppService (W X : Type) `{K : Kernel W} (fd sid ia ii oa oi buf_size : Z) (answer : X -> Z -> bytes -> X * bytes) := {
  app_of : W -> app X;
  app_lock : forall w, app_of (kcall Lib_mutex_lock w).2 = app_of w;
  app_unlock : forall w, app_of (kcall Lib_mutex_unlock w).2 = app_of w;
  app_time : forall w, let r := kcall (Lib_extern (cstr "time")) w in let a := app_of w in
    sr_ret r.1 = app_clock a 0 /\ app_of r.2 = App (app_state a) (in_block a) (out_block a) (fun n => app_clock a (S n));
  app_store_in : forall d w, let a := app_of w in zlen d <= zlen (in_block a) ->
    app_of (kcall (Mem_store ia d) w).2 = App (app_state a) (splice (in_block a) 0 d) (out_block a) (app_clock a);
  app_store_out : forall d w, let a := app_of w in zlen d <= zlen (out_block a) ->
    app_of (kcall (Mem_store oa d) w).2 = App (app_state a) (in_block a) (splice (out_block a) 0 d) (app_clock a);
  app_load : forall n w, 0 <= n <= zlen (out_block (app_of w)) ->
    let r := kcall (Mem_load oa n) w in sr_data r.1 = slice 0 n (out_block (app_of w)) /\ app_of r.2 = app_of w;
  (** A command is answered with success, its answer's size and the answer. *)
  app_invoke : forall c req prms w, let a := app_of w in
    (prms = request_params buf_size (zlen req) ii oi /\ slice 0 (zlen req) (in_block a) = req \/
     prms = plain_params buf_size oi /\ req = []) ->
    let frame := invoke_enc (command_id c) sid prms in
    let r := kcall (Sys_ioctl fd TEE_IOC_INVOKE (Arg_buf frame)) w in
    let buf := copy_out frame (sr_data r.1) in
    let v := answer (app_state a) (command_id c) req in
    sr_ret r.1 = 0 /\ get_u32 buf 12 = TEEC_SUCCESS /\ ans_code buf = 0 /\ ans_size buf = zlen v.2 /\
    app_of r.2 = App v.1 (in_block a) (splice (out_block a) 0 v.2) (app_clock a);
}.

Section App.
Context {W X : Type} `{K : Kernel W} (fd sid ia ii oa oi buf_size : Z) (answer : X -> Z -> bytes -> X * bytes).
Context `{T : !AppService W X fd sid ia ii oa oi buf_size answer}.
Context (gptee : bool) (context session : Z) (stops : bool) (garbage : bytes).
Hypothesis handle_ok : 0 <= fd.
Hypothesis garbage_length : zlen garbage = buf_size.
Hypothesis answer_fits : forall x c q, zlen (answer x c q).2 <= buf_size.
Hypothesis answer_bytes : forall x c q, Forall is_u8 (answer x c q).2.
Implicit Types s : proc W kt_st.

(** The HAL has its session and its blocks. *)
Definition opened (g : kt_st) : Prop :=
  kt_handle g = fd /\ contexts (kt_teec g) !! context = Some fd /\
  sessions (kt_teec g) !! session = Some (Session context sid) /\
  shm_buffer (inputSM g) = PMap ia /\ shm_id (inputSM g) = ii /\ block_ok TEEC_MEM_INPUT (inputSM g) /\
  shm_buffer (outputSM g) = PMap oa /\ shm_id (outputSM g) = oi /\ block_ok TEEC_MEM_OUTPUT (outputSM g).
Definition serving s (d : proc (nat -> Z) X) : Prop :=
  opened (globals s) /\ exists ib ob, app_of (world s) = App (globals d) ib ob (world d) /\
    zlen ib = buf_size /\ zlen ob = buf_size.

Lemma zlen_splice0 b d : zlen d <= zlen b -> zlen (splice b 0 d) = zlen b.
Proof. intros. unfold zlen at 1. by rewrite length_splice. Qed.

(** Writing into a mapped block. *)
Lemma wp_store_map a d Q s :
  (forall r w, kcall (Mem_store a d) (world s) = (r, w) -> Q (Ret tt) (after s (Mem_store a d) r w)) ->
  wp (teec (store (PMap a) 0 d)) Q s.
Proof.
  intros HQ. apply wp_teec. cbn [store]. rewrite Z.add_0_r. apply wp_bind. apply wp_sys; intros r w Hk. apply wp_ret.
  specialize (HQ r w Hk). by destruct s as [[] ? ? ?].
Qed.

(** An invocation hands out the answer. *)
Lemma invoke_service c op code prms req out s x ib ob ck :
  opened (globals s) -> answer_op op code -> (code = ans_code \/ code = fun _ => 0) ->
  km_frame (command_id c) sid op = invoke_enc (command_id c) sid prms ->
  app_of (world s) = App x ib ob ck -> zlen ob = buf_size -> zlen out = buf_size ->
  (prms = request_params buf_size (zlen req) ii oi /\ slice 0 (zlen req) ib = req \/ prms = plain_params buf_size oi /\ req = []) ->
  wp (invoke_and_copy session (command_id c) op out buf_size) (fun o s' =>
    let v := answer x (command_id c) req in
    o = Ret (0, splice out 0 v.2, zlen v.2) /\ globals s' = globals s /\
    app_of (world s') = App v.1 ib (splice ob 0 v.2) ck) s.
Proof.
  intros (Hh & Hc & Hs & _ & _ & _ & Hob & _) (Hpt & Hlen & Hsl & Hans) Hcode Hfr Happ Hzo Hout Hprms.
  set (v := answer x (command_id c) req). unfold invoke_and_copy. apply wp_bind, wp_teec.
  eapply wp_mono; [by apply (invoke_direct session (command_id c) op (Session context sid) fd)|].
  intros o t (r1 & r2 & r & res & eorig & op' & -> & Hg & Ht & (w1 & w2 & Hk1 & Hk2 & Hk) & _ & Hok).
  cbn [session_id] in Hk, Hok. fold (km_frame (command_id c) sid op) in Hk, Hok. cbn [view globals world] in Hg, Hk1. rewrite Hfr in Hk, Hok.
  pose proof (app_lock (world s)) as A1. rewrite Hk1 in A1. pose proof (app_unlock w1) as A2. rewrite Hk2 in A2. cbn [snd] in A1, A2.
  rewrite A1, Happ in A2. pose proof (app_invoke c req prms w2) as Hi. cbn zeta in Hi, Hok. rewrite A2 in Hi. specialize (Hi Hprms).
  rewrite Hk in Hi. cbn [fst snd app_state in_block out_block app_clock] in Hi. fold v in Hi.
  destruct Hi as (Hr & H12 & Hcd & Hsz & Happ'). destruct (Hok Hr) as [-> Hop]. rewrite H12. cbn [TEEC_SUCCESS]. change (negb (s32 0 =? 0)) with false.
  destruct (Hans _ op' Hop) as (p0 & p2 & E0 & E2 & Ec & Es). rewrite Hg, set_kt_teec_same.
  apply wp_bind, wp_teec_deref. rewrite E0, E2. apply wp_bind, wp_teec_deref, wp_bind, wp_teec_deref. rewrite Ec, Es, Hsz.
  assert (code (copy_out (invoke_enc (command_id c) sid prms) (sr_data r)) = 0) as -> by (destruct Hcode as [->| ->]; done).
  cbn [Z.eqb negb]. apply wp_bind, wp_gets. cbn [globals]. rewrite Hob.
  pose proof (answer_fits x (command_id c) req) as Hfit. fold v in Hfit. pose proof (zlen_nonneg v.2) as Hpos.
  apply wp_bind, wp_teec. cbn [load]. rewrite Z.add_0_r. apply wp_bind. apply wp_sys; intros rl wl Hl. apply wp_ret. cbn [view world] in Hl.
  pose proof (app_load (zlen v.2) (world t)) as Hload. rewrite Happ' in Hload. cbn [out_block] in Hload.
  rewrite zlen_splice0 in Hload by lia. specialize (Hload ltac:(lia)). rewrite Hl in Hload. destruct Hload as [Hd Ha]. cbn [fst snd] in Hd, Ha.
  rewrite slice_splice_here in Hd by (rewrite ?Hzo; lia). rewrite Hd.
  rewrite copy_out_full; [|rewrite length_replicate; unfold zlen; by rewrite Nat2Z.id|apply answer_bytes].
  replace (zlen out <? zlen v.2) with false by lia. apply wp_ret. split_and!; [done|by destruct (globals s)|exact Ha].
Qed.

(** Clearing the output block. *)
Lemma reset_service s x ib ob ck :
  opened (globals s) -> app_of (world s) = App x ib ob ck -> zlen ob = buf_size -> 0 <= buf_size ->
  wp (reset_output buf_size) (fun o s' => o = Ret (with_size buf_size (outputSM (globals s))) /\
    opened (globals s') /\ globals s' = set_outputSM (with_size buf_size (outputSM (globals s))) (globals s) /\
    exists ob', app_of (world s') = App x ib ob' ck /\ zlen ob' = buf_size) s.
Proof.
  intros Ho Happ Hzo Hb. pose proof Ho as (_ & _ & _ & _ & _ & _ & Hob & _). unfold reset_output.
  apply wp_bind, wp_modify, wp_bind, wp_gets. cbn [globals outputSM set_outputSM shm_buffer with_size]. rewrite Hob.
  apply wp_bind, wp_store_map. intros r w Hk. cbn [world] in Hk. apply wp_ret.
  assert (zlen (replicate (Z.to_nat buf_size) 0) = buf_size) as Hz by (unfold zlen; rewrite length_replicate; lia).
  pose proof (app_store_out (replicate (Z.to_nat buf_size) 0) (world s)) as Hs. cbn zeta in Hs. rewrite Happ in Hs. cbn [out_block] in Hs.
  specialize (Hs ltac:(lia)). rewrite Hk in Hs. split_and!; [done|exact Ho|done|].
  eexists. split; [exact Hs|]. by rewrite zlen_splice0 by lia.
Qed.

Lemma call_serving c req s (d : proc (nat -> Z) X) :
  serving s d -> zlen req <= buf_size ->
  wp (bp_keymaster_call session buf_size (command_id c) req garbage buf_size) (fun o s' =>
    let v := answer (globals d) (command_id c) req in
    o = Ret (0, splice garbage 0 v.2, zlen v.2) /\ serving s' (Proc v.1 (world d) (errno d) (trace d))) s.
Proof.
  intros (Ho & ib & ob & Happ & Hzi & Hzo) Hl. pose proof Ho as (Hh & _ & _ & Hib & Hii & Hbi & _ & Hoi & Hbo).
  pose proof (zlen_nonneg req) as Hpos. unfold bp_keymaster_call. apply wp_bind, wp_gets. rewrite Hh.
  replace (fd <? 0) with false by lia. replace ((buf_size <? zlen req) || (buf_size <? buf_size)) with false by lia.
  apply wp_bind, wp_modify, wp_bind, wp_gets. cbn [globals inputSM set_inputSM shm_buffer with_size]. rewrite Hib.
  apply wp_bind, wp_store_map. intros r w Hk. cbn [world] in Hk. pose proof (app_store_in req (world s)) as Hs. cbn zeta in Hs.
  rewrite Happ in Hs. cbn [in_block] in Hs. specialize (Hs ltac:(lia)). rewrite Hk in Hs.
  cbn [snd app_state out_block app_clock] in Hs.
  apply wp_bind. eapply wp_mono; [apply (reset_service _ (globals d) (splice ib 0 req) ob (world d)); [exact Ho|exact Hs|done|lia]|].
  intros o s1 (-> & Ho1 & Hg1 & ob1 & Happ1 & Hzo1). cbn [globals after] in Hg1.
  eapply wp_mono; [apply (invoke_service c (request_op buf_size (with_size (zlen req) (inputSM (globals s)))
    (with_size buf_size (outputSM (globals s))) (zlen req)) ans_code
    (request_params buf_size (zlen req) ii oi) req garbage s1 (globals d) (splice ib 0 req) ob1 (world d) Ho1)|].
  - by apply request_op_answer.
  - by left.
  - rewrite request_frame. cbn [shm_id with_size]. by rewrite Hii, Hoi.
  - exact Happ1.
  - done.
  - done.
  - left. split; [done|]. apply slice_splice_here; lia.
  - intros o s2 (-> & Hg2 & Happ2). split; [done|]. split; [by rewrite Hg2|].
    eexists _, _. split; [exact Happ2|]. pose proof (answer_fits (globals d) (command_id c) req).
    rewrite !zlen_splice0 by lia. done.
Qed.

Lemma call_plain_serving c s (d : proc (nat -> Z) X) :
  serving s d -> 0 <= buf_size ->
  wp (bp_keymaster_call_no_input session buf_size (command_id c) garbage buf_size) (fun o s' =>
    let v := answer (globals d) (command_id c) [] in
    o = Ret (0, splice garbage 0 v.2, zlen v.2) /\ serving s' (Proc v.1 (world d) (errno d) (trace d))) s.
Proof.
  intros (Ho & ib & ob & Happ & Hzi & Hzo) Hb. pose proof Ho as (Hh & _ & _ & _ & _ & _ & _ & Hoi & Hbo).
  unfold bp_keymaster_call_no_input. apply wp_bind, wp_gets. rewrite Hh. replace (fd <? 0) with false by lia.
  apply wp_bind. eapply wp_mono; [by apply (reset_service s (globals d) ib ob (world d))|].
  intros o s1 (-> & Ho1 & Hg1 & ob1 & Happ1 & Hzo1).
  eapply wp_mono; [apply (invoke_service c (plain_op buf_size (with_size buf_size (outputSM (globals s)))) (fun _ => 0)
    (plain_params buf_size oi) [] garbage s1 (globals d) ib ob1 (world d) Ho1)|].
  - by apply plain_op_answer.
  - by right.
  - rewrite plain_frame. cbn [shm_id with_size]. by rewrite Hoi.
  - exact Happ1.
  - done.
  - done.
  - by right.
  - intros o s2 (-> & Hg2 & Happ2). split; [done|]. split; [by rewrite Hg2|].
    eexists _, _. split; [exact Happ2|]. pose proof (answer_fits (globals d) (command_id c) []).
    rewrite !zlen_splice0 by lia. done.
Qed.

(** The answer is decoded. *)
Lemma handle_serving {R} `{KeymasterResponse R} (rsp : R) p s (d : proc (nat -> Z) X) :
  zlen p <= buf_size -> serving s d ->
  wp (handle_response gptee context session buf_size stops 0 (splice garbage 0 p) (zlen p) rsp)
    (fun o s' => o = Ret (decode rsp p) /\ serving s' d) s.
Proof.
  intros Hp Hs. unfold handle_response, decode. cbn [Z.ltb Z.compare]. pose proof (zlen_nonneg p).
  rewrite slice_splice_here by lia. destruct (Deserialize rsp p) as [ok rsp1]. cbn [fst snd].
  apply wp_if; intros Hok; apply wp_ret; rewrite Hok; done.
Qed.

#[local] Instance app_direct : KeymasterIpc (nat -> Z) X := direct_ipc buf_size answer.
#[local] Instance over_teec : KeymasterIpc W kt_st := teec_ipc gptee context session buf_size stops garbage.

Lemma agree_serving {V} (m : M W kt_st V) s (r : outcome V * proc (nat -> Z) X) :
  wp m (fun o s' => o = r.1 /\ serving s' r.2) s -> agree serving (m s) r.
Proof. intros [H1 H2]. split; [done|]. by intros v _. Qed.

Lemma teec_agrees : 0 <= buf_size -> ipc_agree serving.
Proof.
  intros Hb. split.
  - intros R HR c q rsp [Hu Hlen] s d Hs. apply agree_serving. cbn [ipc_send app_direct direct_ipc over_teec teec_ipc].
    unfold bp_keymaster_send. rewrite u32_small by done. apply wp_if; intros Hl; rewrite Hl; [by apply wp_ret|].
    apply wp_bind. eapply wp_mono; [apply (call_serving c (Serialize q (SerializedSize q)) s d Hs); lia|].
    intros o s1 [-> Hs1]. eapply wp_mono; [apply handle_serving; [apply answer_fits|exact Hs1]|]. by intros o s2 [-> H2].
  - intros R HR c rsp s d Hs. apply agree_serving. cbn [ipc_send_no_request app_direct direct_ipc over_teec teec_ipc].
    unfold bp_keymaster_send_no_request. apply wp_bind. eapply wp_mono; [by apply (call_plain_serving c s d Hs)|].
    intros o s1 [-> Hs1]. eapply wp_mono; [apply handle_serving; [apply answer_fits|exact Hs1]|]. by intros o s2 [-> H2].
  - intros s d (Ho & ib & ob & Happ & Hzi & Hzo). cbn zeta. pose proof (app_time (world s)) as [Ht Ha].
    destruct (kcall (Lib_extern (cstr "time")) (world s)) as [r w]. cbn [fst snd] in Ht, Ha |- *. rewrite Happ in Ht, Ha.
    split; [exact Ht|]. split; [exact Ho|]. exists ib, ob. done.
Qed.
End App.


(** ** An application *)

(** It counts the commands, and answers with no error, the count and the
    command. *)
Definition demo_app_answer (x c : Z) (req : bytes) : Z * bytes := (x + 1, le_enc 4 0 ++ [u8 x; u8 c]).

#[export] Instance demo_app_kernel : Kernel (app Z) := fun call w =>
  match call with
  | Lib_extern _ => (SysRet (app_clock w O) 0 [], App (app_state w) (in_block w) (out_block w) (fun n => app_clock w (S n)))
  | Mem_store 1 d => (SysRet 0 0 [], App (app_state w) (splice (in_block w) 0 d) (out_block w) (app_clock w))
  | Mem_store 2 d => (SysRet 0 0 [], App (app_state w) (in_block w) (splice (out_block w) 0 d) (app_clock w))
  | Mem_load 2 n => (SysRet 0 0 (slice 0 n (out_block w)), w)
  | Sys_ioctl 5 _ (Arg_buf frame) =>
      let v := demo_app_answer (app_state w) (get_u32 frame 0) [] in
      (SysRet 0 0 (take 104 frame ++ le_enc 8 (zlen v.2)), App v.1 (in_block w) (splice (out_block w) 0 v.2) (app_clock w))
  | _ => (SysRet 0 0 [], w)
  end.

(** The reply of the driver: the frame with the size of memory reference 2. *)
Lemma demo_reply c prms n :
  length prms = 4%nat -> (exists p ps, prms = p :: ps /\ w0 p = 0) -> is_u32 n ->
  let frame := invoke_enc c 7 prms in
  let buf := copy_out frame (take 104 frame ++ le_enc 8 n) in
  get_u32 buf 12 = 0 /\ ans_code buf = 0 /\ ans_size buf = n.
Proof.
  intros Hl Hp Hn frame buf. destruct prms as [|p0 [|p1 [|p2 [|p3 [|]]]]]; try done.
  assert (w0 p0 = 0) as Hz by (by destruct Hp as (? & ? & [= <- <-] & ?)).
  assert (buf = take 104 frame ++ le_enc 8 n ++ drop 112 frame) as ->.
  { unfold buf, copy_out. rewrite map_u8_bytes.
    - rewrite take_ge by (rewrite length_app, length_le_enc; vm_compute; lia). by rewrite <- app_assoc.
    - apply Forall_take, Forall_app. split; [apply Forall_take, invoke_enc_bytes|apply le_enc_bytes]. }
  split_and!.
  - reflexivity.
  - unfold ans_code. change (u32 (le_dec (le_enc 8 (w0 p0))) = 0). by rewrite Hz.
  - unfold ans_size. change (u32 (le_dec (le_enc 8 n)) = n). rewrite le_dec_enc. change (256 ^ Z.of_nat 8) with (2 ^ 64).
    rewrite Z.mod_small by (unfold is_u32 in Hn; lia). by apply u32_small.
Qed.

#[export] Instance demo_app_service (n : Z) : AppService (app Z) Z 5 7 1 11 2 12 n demo_app_answer.
Proof.
  refine {| app_of := id |}; try done.
  intros c req prms w a Hprms frame r buf v.
  assert (get_u32 frame 0 = command_id c) as Hc.
  { unfold frame, invoke_enc. rewrite get_u32_app_l; [done|]. apply plain_cmd_id. }
  assert (get_u32 buf 12 = 0 /\ ans_code buf = 0 /\ ans_size buf = zlen v.2) as (H1 & H2 & H3).
  { unfold buf, r. cbn [kcall demo_app_kernel fst sr_data demo_app_answer snd]. apply demo_reply.
    - by destruct Hprms as [[-> _]|[-> _]].
    - destruct Hprms as [[-> _]|[-> _]]; eexists _, _; split; done.
    - done. }
  split_and!; [done|exact H1|exact H2|exact H3|]. unfold r, v. cbn [kcall demo_app_kernel snd]. unfold id. by rewrite Hc.
Defined.

(** The HAL with its session and blocks. *)
Definition demo_session400 : kt_st :=
  KtSt (TeecSt {[ 4096 := 5 ]} {[ 4200 := Session 4096 7 ]} ∅ [4096] [4200]) 5
    (Shm (PMap 1) 0 TEEC_MEM_INPUT 11 KM41_MAX_BUFFER_LENGTH PNull (-1)) (Shm (PMap 2) 0 TEEC_MEM_OUTPUT 12 KM41_MAX_BUFFER_LENGTH PNull (-1)).
Definition zero_block : bytes := replicate (Z.to_nat KM41_MAX_BUFFER_LENGTH) 0.
Definition demo_serving : proc (app Z) kt_st := Proc demo_session400 (App 0 zero_block zero_block demo_clock) 0 [].
Definition demo_hal400 : IKeymasterDevice41 (app Z) kt_st :=
  device41 (I := km41_ipc false 4096 4200 zero_block) demo_garbage 0 [] id (KmParamSet demo_garbage).
Definition demo_reference400 : IKeymasterDevice41 (nat -> Z) Z :=
  device41 (I := direct_ipc KM41_MAX_BUFFER_LENGTH demo_app_answer) demo_garbage 0 [] id (KmParamSet demo_garbage).


Example demo_session400_runs :
  match replies demo_reference400 demo_session demo_direct with
  | (Ret vs, d) => (length vs, globals d)
  | _ => (0%nat, 0)
  end = (5%nat, 4).
Proof. vm_compute. reflexivity. Qed.
