(* ===== verification/KeyMintHal.v ===== *)
(** * The KeyMint service as its clients see it (400/keymint1.0)

    The process of service.cpp registers four interfaces over one
    [BeanpodKeymaster], with a single thread, so that it serves one call after
    the other.  [begin] leaves an object behind for the operation; its methods
    are called like those of the interfaces, in any order and mixed with them,
    until the object is dropped.  This file puts the methods of
    [KeyMintDevice.v] and [KeyMintOperation.v] together: the state of the process,
    a client's call, and what the process does for it. *)

From S2P Require Import Prelude Kernel KmLib BeanpodKeymaster KeyMint KeyMintOperation KeyMintDevice KmBuffer.

(** The responses of the keymaster library, each with a fresh one. *)
Class KeyMintResponses (V : Type) := {
  plain : Type; plain_r :: KeymasterResponse plain; plain0 : plain;
  creation : Type; creation_r :: CreationResponse V creation; creation0 : creation;
  upgrade : Type; upgrade_r :: UpgradeResponse upgrade; upgrade0 : upgrade;
  begun : Type; begun_r :: BeginResponse V begun; begun0 : begun;
  characteristics : Type; characteristics_r :: CharacteristicsResponse V characteristics; characteristics0 : characteristics;
  hmac_parameters : Type; hmac_parameters_r :: HmacParametersResponse hmac_parameters; hmac_parameters0 : hmac_parameters;
  shared_hmac : Type; shared_hmac_r :: SharedHmacResponse shared_hmac; shared_hmac0 : shared_hmac;
  time_stamp : Type; time_stamp_r :: TimestampResponse time_stamp; time_stamp0 : time_stamp;
  rkp : Type; rkp_r :: RkpResponse rkp; rkp0 : rkp;
  csr : Type; csr_r :: CsrResponse csr; csr0 : csr;
  operated : Type; operated_r :: OperationResponse operated; operated0 : operated;
}.

(** The requests of an operation. *)
Class OperationMessages := {
  ser_update : UpdateOperationRequest -> Serializable;
  ser_finish : FinishOperationRequest -> Serializable;
  ser_abort : Z -> Serializable;
}.

(** What [Initialize] is given. *)
Record setup := MkSetup {
  polls : nat;
  configure_t : Type; configure_r :: KeymasterResponse configure_t;
  configure0 : configure_t; vendor_pl0 : configure_t; boot_pl0 : configure_t;
  vendor_pl_request : Z -> Serializable; boot_pl_request : Z -> Serializable;
  os_version_of : Z; os_patchlevel_of : Z; vendor_patchlevel_of : Z
}.

(** The implementation, and [opHandle_] of the operation objects in the order
    they were made. *)
Record hal_st (G : Type) := HalSt { hal_impl : mint_st G; objects : list Z }.
Arguments HalSt {G} hal_impl objects.
Arguments hal_impl {G} h.
Arguments objects {G} h.
Definition set_hal_impl {G} (i : mint_st G) (g : hal_st G) := HalSt i (objects g).
Definition add_object {G} (h : Z) (g : hal_st G) := HalSt (hal_impl g) (objects g ++ [h]).

(** ** Calls *)

(** The methods of IKeyMintDevice, ISharedSecret, ISecureClock,
    IRemotelyProvisionedComponent and IKeyMintOperation; an operation is named by
    the number of its object. *)
Inductive mint_call (P : Type) : Type -> Type :=
| CGetHardwareInfo : mint_call P KeyMintHardwareInfo
| CGetRpcHardwareInfo : mint_call P RpcHardwareInfo
| CAddRngEntropy (data : bytes) : mint_call P Z
| CGenerateKey (keyParams : list P) (attestationKey : option (AttestationKey P)) : mint_call P (Z * option (KeyCreationResult P))
| CImportKey (keyParams : list P) (keyFormat : Z) (keyData : bytes) (attestationKey : option (AttestationKey P))
    : mint_call P (Z * option (KeyCreationResult P))
| CImportWrappedKey (wrappedKeyData wrappingKeyBlob maskingKey : bytes) (unwrappingParams : list P) (passwordSid biometricSid : Z)
    : mint_call P (Z * option (KeyCreationResult P))
| CUpgradeKey (keyBlobToUpgrade : bytes) (upgradeParams : list P) : mint_call P (Z * option bytes)
| CDeleteKey (keyBlob : bytes) : mint_call P Z
| CDeleteAllKeys : mint_call P Z
| CDestroyAttestationIds : mint_call P Z
| CBegin (purpose : Z) (keyBlob : bytes) (params : list P) (authToken : option HardwareAuthToken)
    : mint_call P (Z * option (BeginResult P))
| CDeviceLocked (passwordOnly : bool) (timestampToken : option TimeStampToken) : mint_call P Z
| CEarlyBootEnded : mint_call P Z
| CConvertStorageKey : mint_call P Z
| CGetKeyCharacteristics (keyBlob appId appData : bytes) : mint_call P (Z * option (list (KeyCharacteristics P)))
| CGetSharedSecretParameters : mint_call P (Z * (bytes * bytes))
| CComputeSharedSecret (params : list (bytes * bytes)) : mint_call P (Z * option bytes)
| CGenerateTimeStamp (challenge : Z) : mint_call P (Z * option TimeStampToken)
| CGenerateKeyPair (testMode : bool) : mint_call P (Z * option (bytes * bytes))
| CGenerateCertificateRequest (testMode : bool) (keysToSign : list bytes) (endpointEncCertChain challenge : bytes)
    : mint_call P (Z * option (bytes * bytes * bytes))
| CUpdateAad (op : nat) (input : bytes) : mint_call P Z
| CUpdate (op : nat) (input : bytes) (authToken : option HardwareAuthToken) (has_output : bool) : mint_call P (Z * option bytes)
| CFinish (op : nat) (input signature : option bytes) (authToken : option HardwareAuthToken) (has_output : bool)
    : mint_call P (Z * option bytes)
| CAbort (op : nat) : mint_call P Z
| CDrop (op : nat) : mint_call P unit.
Arguments CGetHardwareInfo {P}.
Arguments CGetRpcHardwareInfo {P}.
Arguments CAddRngEntropy {P}.
Arguments CGenerateKey {P}.
Arguments CImportKey {P}.
Arguments CImportWrappedKey {P}.
Arguments CUpgradeKey {P}.
Arguments CDeleteKey {P}.
Arguments CDeleteAllKeys {P}.
Arguments CDestroyAttestationIds {P}.
Arguments CBegin {P}.
Arguments CDeviceLocked {P}.
Arguments CEarlyBootEnded {P}.
Arguments CConvertStorageKey {P}.
Arguments CGetKeyCharacteristics {P}.
Arguments CGetSharedSecretParameters {P}.
Arguments CComputeSharedSecret {P}.
Arguments CGenerateTimeStamp {P}.
Arguments CGenerateKeyPair {P}.
Arguments CGenerateCertificateRequest {P}.
Arguments CUpdateAad {P}.
Arguments CUpdate {P}.
Arguments CFinish {P}.
Arguments CAbort {P}.
Arguments CDrop {P}.

Section Hal.
Context {W G : Type} `{K : Kernel W} `{I : !KeymasterIpc W G}.
Abbreviation HM := (M W (hal_st G)).
Context {V P : Type} `{U : KeyMintUtils V P} `{MS : KeyMintMessages V} `{OS : OperationMessages} `{RS : KeyMintResponses V}.
Context (c0 : setup) (java_time : Z -> Z) (msg_version nonce_size curve : Z).

Definition device {A} (m : M W (mint_st G) A) : HM A := zoom hal_impl set_hal_impl m.

(** A method of object [i]. *)
Definition object_view (i : nat) (g : hal_st G) : op_st G := OpSt (hal_impl g) (default 0 (objects g !! i)).
Definition object_put (i : nat) (o : op_st G) (g : hal_st G) : hal_st G := HalSt (op_impl o) (<[i := opHandle_ o]> (objects g)).
Definition on_object {A} (i : nat) (m : M W (op_st G) A) : HM A :=
  n ← gets (fun g => length (objects g));
  if bool_decide (i < n)%nat then zoom (object_view i) (object_put i) m else halt Undefined.

(** [impl_->m] with what [Initialize] needs. *)
Abbreviation via m := (m (polls c0) _ _ (configure0 c0) (vendor_pl0 c0) (boot_pl0 c0) (vendor_pl_request c0) (boot_pl_request c0)
  (os_version_of c0) (os_patchlevel_of c0) (vendor_patchlevel_of c0)).

(** A begun operation leaves its object behind. *)
Definition begin_operation (purpose : Z) (keyBlob : bytes) (params : list P) (authToken : option HardwareAuthToken)
    : HM (Z * option (BeginResult P)) :=
  r ← device (via begin begun0 purpose keyBlob params authToken);
  match r.2 with
  | None => mret r
  | Some b => modify (add_object (operation b));; mret r
  end.

Definition call_mint {T} (c : mint_call P T) : HM T :=
  match c with
  | CGetHardwareInfo => mret getHardwareInfo
  | CGetRpcHardwareInfo => mret (rpc_getHardwareInfo curve)
  | CAddRngEntropy data => device (via addRngEntropy plain0 data)
  | CGenerateKey keyParams attestationKey =>
      device (via generateKey java_time msg_version creation0 keyParams attestationKey)
  | CImportKey keyParams keyFormat keyData attestationKey =>
      device (via importKey creation0 keyParams keyFormat keyData attestationKey)
  | CImportWrappedKey wrappedKeyData wrappingKeyBlob maskingKey unwrappingParams passwordSid biometricSid =>
      device (via importWrappedKey creation0 wrappedKeyData wrappingKeyBlob maskingKey unwrappingParams
        passwordSid biometricSid)
  | CUpgradeKey keyBlobToUpgrade upgradeParams => device (via upgradeKey upgrade0 keyBlobToUpgrade upgradeParams)
  | CDeleteKey keyBlob => device (via deleteKey plain0 keyBlob)
  | CDeleteAllKeys => device (via deleteAllKeys plain0)
  | CDestroyAttestationIds => mret destroyAttestationIds
  | CBegin purpose keyBlob params authToken => begin_operation purpose keyBlob params authToken
  | CDeviceLocked passwordOnly timestampToken => device (via deviceLocked plain0 passwordOnly timestampToken)
  | CEarlyBootEnded => device (via earlyBootEnded plain0)
  | CConvertStorageKey => mret convertStorageKeyToEphemeral
  | CGetKeyCharacteristics keyBlob appId appData =>
      device (via getKeyCharacteristics characteristics0 keyBlob appId appData)
  | CGetSharedSecretParameters => device (via getSharedSecretParameters hmac_parameters0)
  | CComputeSharedSecret params => device (via computeSharedSecret nonce_size shared_hmac0 params)
  | CGenerateTimeStamp challenge => device (via generateTimeStamp time_stamp0 challenge)
  | CGenerateKeyPair testMode => device (via generateEcdsaP256KeyPair rkp0 testMode)
  | CGenerateCertificateRequest testMode keysToSign endpointEncCertChain challenge =>
      device (via generateCertificateRequest csr0 testMode keysToSign endpointEncCertChain challenge)
  | CUpdateAad op input => on_object op (updateAad ser_update ser_abort operated0 input)
  | CUpdate op input authToken has_output => on_object op (update ser_update ser_abort operated0 input authToken has_output)
  | CFinish op input signature authToken has_output =>
      on_object op (finish ser_finish ser_abort operated0 input signature authToken has_output)
  | CAbort op => on_object op (abort ser_abort operated0)
  | CDrop op => on_object op (destroy ser_abort operated0)
  end.

(** ** Sequences of calls *)

(** Any calls in any order, with the answers, each with its type. *)
Definition mint_served := {T : Type & mint_call P T}.
Fixpoint mint_replies (calls : list mint_served) : HM (list {T : Type & T}) :=
  match calls with
  | [] => mret []
  | existT T c :: rest => v ← call_mint c; vs ← mint_replies rest; mret (existT T v :: vs)
  end.
End Hal.
