(* ===== verification/KeyMintService.v ===== *)
(** * The KeyMint service against the keymaster application

    What [KmAppService.v] shows of the 4.1 HAL, shown of KeyMint: behind its
    driver stands any application that keeps to the interface [AppService], and
    the clients of the service get what they would get from a service that
    calls the application directly.

    The first half is the counterpart of the second half of [KmSim.v] for the
    process of [KeyMintHal.v]: once it is initialised, two transports that agree
    on every exchange give two services that agree on every call, those on
    operation objects included. *)

From S2P Require Import Prelude Kernel Libtrusty Teec KmLib KmTeec BeanpodKeymaster KmTheorems KeyMint KeyMintOperation KeyMintDevice KmTeecTheorems KeyMintDeviceTheorems KeyMintHal KmSim KmService KmAppService.

(** ** Transport independence *)

(** Every request of the library fits the buffer it is written to. *)
Record messages_wf (V : Type) `{MS : KeyMintMessages V} `{OS : OperationMessages} : Prop := {
  entropy_wf : forall b, serializable_wf (ser_entropy b);
  generate_wf : forall q, serializable_wf (ser_generate q);
  import_wf : forall q, serializable_wf (ser_import q);
  import_wrapped_wf : forall q, serializable_wf (ser_import_wrapped q);
  upgrade_wf : forall k ps, serializable_wf (ser_upgrade k ps);
  delete_wf : forall k, serializable_wf (ser_delete k);
  delete_all_wf : serializable_wf ser_delete_all;
  begin_wf : forall q, serializable_wf (ser_begin q);
  locked_wf : forall p t, serializable_wf (ser_device_locked p t);
  characteristics_wf : forall k ps, serializable_wf (ser_characteristics k ps);
  shared_hmac_wf : forall ps, serializable_wf (ser_shared_hmac ps);
  timestamp_wf : forall c, serializable_wf (ser_timestamp c);
  rkp_wf : forall b, serializable_wf (ser_rkp b);
  csr_wf : forall q, serializable_wf (ser_csr q);
  update_wf : forall q, serializable_wf (ser_update q);
  finish_wf : forall q, serializable_wf (ser_finish q);
  abort_wf : forall h, serializable_wf (ser_abort h);
}.
Create HintDb messages.
#[export] Hint Resolve entropy_wf generate_wf import_wf import_wrapped_wf upgrade_wf delete_wf delete_all_wf begin_wf locked_wf
  characteristics_wf shared_hmac_wf timestamp_wf rkp_wf csr_wf update_wf finish_wf abort_wf : messages.

(** ** Parts of a state *)

(** The process that runs a part of the variables. *)
Definition part {W G G'} (get : G' -> G) (s : proc W G') : proc W G := Proc (get (globals s)) (world s) (errno s) (trace s).

Lemma sim_zoom {W1 G1 G1' W2 G2 G2' T} (Rel : proc W1 G1 -> proc W2 G2 -> Prop) (Rel' : proc W1 G1' -> proc W2 G2' -> Prop)
    (get1 : G1' -> G1) put1 (get2 : G2' -> G2) put2 (m1 : M W1 G1 T) (m2 : M W2 G2 T) :
  (forall s1 s2, Rel' s1 s2 -> Rel (part get1 s1) (part get2 s2) /\
     forall t1 t2, Rel t1 t2 ->
       Rel' (Proc (put1 (globals t1) (globals s1)) (world t1) (errno t1) (trace t1))
            (Proc (put2 (globals t2) (globals s2)) (world t2) (errno t2) (trace t2))) ->
  sim Rel m1 m2 -> sim Rel' (zoom get1 put1 m1) (zoom get2 put2 m2).
Proof.
  intros HR Hm s1 s2 H. destruct (HR s1 s2 H) as [H1 H2]. destruct (Hm _ _ H1) as [E HE]. unfold zoom, part in *.
  destruct (m1 _) as [o1 t1], (m2 _) as [o2 t2]. cbn [fst snd] in *. split; [done|]. intros v Hv. by apply H2, (HE v).
Qed.

Section Mint.
Context {W1 G1 W2 G2 : Type} `{K1 : Kernel W1} `{K2 : Kernel W2}.
Context `{I1 : !KeymasterIpc W1 G1} `{I2 : !KeymasterIpc W2 G2}.
Context (Rel : proc W1 G1 -> proc W2 G2 -> Prop) (HI : ipc_agree Rel).

(** Both are initialised, and their transports related. *)
Definition mint_rel (s1 : proc W1 (mint_st G1)) (s2 : proc W2 (mint_st G2)) : Prop :=
  Rel (part mint_ipc s1) (part mint_ipc s2) /\ initialized (globals s1) = true /\ initialized (globals s2) = true.
Definition op_rel (s1 : proc W1 (op_st G1)) (s2 : proc W2 (op_st G2)) : Prop :=
  mint_rel (part op_impl s1) (part op_impl s2) /\ opHandle_ (globals s1) = opHandle_ (globals s2).
Definition hal_rel (s1 : proc W1 (hal_st G1)) (s2 : proc W2 (hal_st G2)) : Prop :=
  mint_rel (part hal_impl s1) (part hal_impl s2) /\ objects (globals s1) = objects (globals s2).

(** ** The implementation *)

Lemma forward_with_sim {R} `{KeymasterResponse R} (m1 : M W1 G1 (Z * R)) (m2 : M W2 G2 (Z * R)) :
  sim Rel m1 m2 ->
  sim mint_rel ('(err, rsp) ← ipc m1; mret (if negb (err =? KM_ERROR_OK) then set_error rsp err else rsp))
    ('(err, rsp) ← ipc m2; mret (if negb (err =? KM_ERROR_OK) then set_error rsp err else rsp)).
Proof.
  intros Hm. apply sim_bind; [|intros [err r]; apply sim_ret].
  apply (sim_zoom Rel mint_rel); [|exact Hm]. intros s1 s2 (HR & ? & ?). split; [exact HR|]. intros [] [] Ht. by split_and!.
Qed.

Lemma mint_forward_sim {R} `{KeymasterResponse R} c q (rsp : R) :
  serializable_wf q -> sim mint_rel (KeyMint.ForwardCommand (I := I1) c q rsp) (KeyMint.ForwardCommand (I := I2) c q rsp).
Proof. intros Hq. by apply forward_with_sim, (agree_send _ HI). Qed.

Lemma mint_forward_no_request_sim {R} `{KeymasterResponse R} c (rsp : R) :
  sim mint_rel (KeyMint.ForwardCommandNoRequest (I := I1) c rsp) (KeyMint.ForwardCommandNoRequest (I := I2) c rsp).
Proof. by apply forward_with_sim, (agree_send_no_request _ HI). Qed.

Lemma guarded_sim {CR R} `{RC : KeymasterResponse CR} `{RR : KeymasterResponse R} fuel (cr vr br : CR) vreq breq ver patch vpatch
    (rsp : R) m1 m2 :
  sim mint_rel m1 m2 ->
  sim mint_rel (INITIALIZE (I := I1) fuel cr vr br vreq breq ver patch vpatch rsp m1)
    (INITIALIZE (I := I2) fuel cr vr br vreq breq ver patch vpatch rsp m2).
Proof.
  intros Hm s1 s2 H. pose proof H as (_ & E1 & E2). unfold INITIALIZE, Initialize, mbind, M_bind, gets. rewrite E1, E2.
  by apply Hm.
Qed.

Lemma time_sim java_time {A} `{AuthorizationSet A} (a : A) :
  sim mint_rel (t ← sys (Lib_extern (cstr "time")); mret (push_creation (java_time (sr_ret t)) a))
    (t ← sys (Lib_extern (cstr "time")); mret (push_creation (java_time (sr_ret t)) a)).
Proof.
  intros s1 s2 (HS & E1 & E2). destruct (agree_time _ HI _ _ HS) as [E HR]. unfold mbind, M_bind, sys, part in *. cbn [world] in *.
  destruct (kcall _ (world s1)) as [r1 w1], (kcall _ (world s2)) as [r2 w2]. cbn [fst snd] in *. unfold agree. cbn [fst snd mret M_ret].
  rewrite E. split; [done|]. intros v _. split; [exact HR|done].
Qed.

(** ** The devices *)

Context {V P : Type} `{U : KeyMintUtils V P} `{MS : KeyMintMessages V} `{OS : OperationMessages} `{RS : KeyMintResponses V}.
Context (wf : messages_wf V) (c0 : setup) (java_time : Z -> Z) (msg_version nonce_size curve : Z).

(** One guarded exchange. *)
Ltac exchanged := apply guarded_sim; first [apply mint_forward_sim; eauto with messages | apply mint_forward_no_request_sim].
(** The rest of a method, which only looks at the response. *)
Ltac result := repeat match goal with
  | |- sim _ (if _ then _ else _) (if _ then _ else _) => apply sim_if; intros _
  | |- sim _ (mret _) (mret _) => apply sim_ret
  | |- sim _ (halt _) (halt _) => apply sim_halt
  | |- sim _ (match ?x with _ => _ end) (match ?x with _ => _ end) => destruct x
  | |- sim _ (let _ := _ in _) _ => cbn zeta
  end.
Ltac simple_method := apply sim_bind; [exchanged|intros response; result].

Lemma created_sim {R} `{CreationResponse V R} ps (rsp : R) :
  sim mint_rel (created ps rsp) (created ps rsp).
Proof. unfold created. result. Qed.

Lemma mint_generate_sim {CR R} `{RC : KeymasterResponse CR} `{CreationResponse V R} fuel (cr vr br : CR) vreq breq ver patch vpatch
    (rsp : R) ps att :
  sim mint_rel (generateKey (I := I1) fuel cr vr br vreq breq ver patch vpatch java_time msg_version rsp ps att)
    (generateKey (I := I2) fuel cr vr br vreq breq ver patch vpatch java_time msg_version rsp ps att).
Proof.
  apply sim_bind; [|intros r; apply created_sim]. apply guarded_sim. apply sim_bind; [|intros a; apply mint_forward_sim; eauto with messages].
  apply sim_if; intros _; [apply time_sim|apply sim_ret].
Qed.

Lemma device_sim {T} (m1 : M W1 (mint_st G1) T) m2 : sim mint_rel m1 m2 -> sim hal_rel (device m1) (device m2).
Proof.
  intros Hm. apply (sim_zoom mint_rel hal_rel); [|exact Hm]. intros s1 s2 [H Ho]. split; [exact H|].
  intros [] [] Ht. split; [exact Ht|exact Ho].
Qed.

(** ** The operation objects *)

Lemma impl_sim {T} (m1 : M W1 (mint_st G1) T) m2 : sim mint_rel m1 m2 -> sim op_rel (impl m1) (impl m2).
Proof.
  intros Hm. apply (sim_zoom mint_rel op_rel); [|exact Hm]. intros s1 s2 [H Ho]. split; [exact H|].
  intros [] [] Ht. split; [exact Ht|exact Ho].
Qed.

Lemma handle_sim {T} (f1 : Z -> M W1 (op_st G1) T) f2 :
  (forall h, sim op_rel (f1 h) (f2 h)) -> sim op_rel (h ← gets opHandle_; f1 h) (h ← gets opHandle_; f2 h).
Proof. intros Hf s1 s2 H. unfold mbind, M_bind, gets. destruct H as [H E]. rewrite E. by apply Hf. Qed.

Lemma set_handle_sim h : sim op_rel (modify (set_opHandle h)) (modify (set_opHandle h)).
Proof. intros s1 s2 [H _]. split; [done|]. intros v _. split; [exact H|done]. Qed.

Lemma op_abort_sim {R} `{OperationResponse R} (rsp : R) :
  sim op_rel (abort (I := I1) ser_abort rsp) (abort (I := I2) ser_abort rsp).
Proof.
  apply handle_sim; intros h. apply sim_bind; [apply impl_sim, mint_forward_sim; eauto with messages|intros r].
  apply sim_bind; [apply set_handle_sim|intros []; apply sim_ret].
Qed.

Lemma failed_sim {R} `{OperationResponse R} (rsp : R) e :
  sim op_rel (failed (I := I1) ser_abort rsp e) (failed (I := I2) ser_abort rsp e).
Proof. apply sim_if; intros _; [|apply sim_ret]. apply sim_bind; [apply op_abort_sim|intros r; apply sim_ret]. Qed.

Lemma auth_params_sim t : sim op_rel (auth_params t) (auth_params t).
Proof. destruct t; cbn [auth_params]; result. Qed.

Lemma update_aad_sim {R} `{OperationResponse R} (rsp : R) input :
  sim op_rel (updateAad (I := I1) ser_update ser_abort rsp input) (updateAad (I := I2) ser_update ser_abort rsp input).
Proof.
  apply handle_sim; intros h. apply sim_bind; [apply impl_sim, mint_forward_sim; eauto with messages|intros r].
  apply sim_if; intros _; [apply failed_sim|apply sim_ret].
Qed.

Lemma op_update_sim {R} `{OperationResponse R} (rsp : R) input t b :
  sim op_rel (update (I := I1) ser_update ser_abort rsp input t b) (update (I := I2) ser_update ser_abort rsp input t b).
Proof.
  apply sim_if; intros _; [apply sim_ret|]. apply handle_sim; intros h. apply sim_bind; [apply auth_params_sim|intros ps].
  apply sim_bind; [apply impl_sim, mint_forward_sim; eauto with messages|intros r].
  apply sim_if; intros _; [|result]. apply sim_bind; [apply failed_sim|intros e; apply sim_ret].
Qed.

Lemma op_finish_sim {R} `{OperationResponse R} (rsp : R) input signature t b :
  sim op_rel (finish (I := I1) ser_finish ser_abort rsp input signature t b)
    (finish (I := I2) ser_finish ser_abort rsp input signature t b).
Proof.
  apply sim_if; intros _; [apply sim_ret|]. apply handle_sim; intros h. apply sim_bind; [apply auth_params_sim|intros ps].
  apply sim_bind; [apply impl_sim, mint_forward_sim; eauto with messages|intros r].
  apply sim_if; intros _; [apply sim_bind; [apply failed_sim|intros e]|]; (apply sim_bind; [apply set_handle_sim|intros []; apply sim_ret]).
Qed.

Lemma destroy_sim {R} `{OperationResponse R} (rsp : R) :
  sim op_rel (destroy (I := I1) ser_abort rsp) (destroy (I := I2) ser_abort rsp).
Proof.
  apply handle_sim; intros h. apply sim_if; intros _; [|apply sim_ret]. apply sim_bind; [apply op_abort_sim|intros r; apply sim_ret].
Qed.

Lemma object_sim {T} i (m1 : M W1 (op_st G1) T) m2 : sim op_rel m1 m2 -> sim hal_rel (on_object i m1) (on_object i m2).
Proof.
  intros Hm s1 s2 HS. unfold on_object, mbind, M_bind, gets. rewrite (proj2 HS). destruct (bool_decide _); [|by split].
  revert s1 s2 HS. fold (sim hal_rel (zoom (object_view i) (object_put i) m1) (zoom (object_view i) (object_put i) m2)).
  apply (sim_zoom op_rel hal_rel); [|exact Hm]. intros s1 s2 [HS E]. split.
  - split; [exact HS|]. cbn [part globals object_view opHandle_]. by rewrite E.
  - intros [g1 ? ? ?] [g2 ? ? ?] [Ht Eh]. split; [exact Ht|]. cbn [globals objects object_put] in *. by rewrite E, Eh.
Qed.

(** ** Calls *)

Lemma add_object_sim h : sim hal_rel (modify (add_object h)) (modify (add_object h)).
Proof. intros s1 s2 [HS E]. split; [done|]. intros v _. split; [exact HS|]. cbn. by rewrite E. Qed.

Lemma call_mint_sim {T} (c : mint_call P T) :
  sim hal_rel (call_mint (I := I1) c0 java_time msg_version nonce_size curve c)
    (call_mint (I := I2) c0 java_time msg_version nonce_size curve c).
Proof.
  destruct c; cbn [call_mint]; try apply sim_ret;
    try (apply device_sim; first [apply mint_generate_sim | simple_method; fail]);
    try (apply object_sim; first [apply update_aad_sim|apply op_update_sim|apply op_finish_sim|apply op_abort_sim|apply destroy_sim]).
  - apply device_sim, sim_if; intros _; [apply sim_ret|simple_method].
  - apply device_sim, sim_bind; [exchanged|intros r; apply created_sim].
  - apply device_sim, sim_bind; [exchanged|intros r; apply created_sim].
  - apply sim_bind; [apply device_sim; simple_method|intros [e [b|]]; cbn [snd]; [|apply sim_ret]].
    apply sim_bind; [apply add_object_sim|intros []; apply sim_ret].
  - apply device_sim. unfold computeSharedSecret. destruct (share_params _ _); [simple_method|apply sim_ret].
Qed.

(** All the answers to a sequence of calls. *)
Lemma mint_replies_sim calls :
  sim hal_rel (mint_replies (I := I1) c0 java_time msg_version nonce_size curve calls)
    (mint_replies (I := I2) c0 java_time msg_version nonce_size curve calls).
Proof.
  induction calls as [|[T c] calls IH]; [apply sim_ret|]. apply sim_bind; [apply call_mint_sim|intros v].
  apply sim_bind; [exact IH|intros vs; apply sim_ret].
Qed.
End Mint.

(** ** Against the application *)


(** KeyMint is its application.  With the service initialised and its session
    open to an application that answers every command from the input block into
    the output block, every sequence of calls of the four interfaces and of the
    operation objects, in whatever order the objects are used, gets exactly the
    replies it would get from a service that calls the application's function
    directly and refuses the same requests for their length.  The objects keep the
    same handles and the application goes through the same states. *)
Theorem keymint_refines_application {W X} `{K : Kernel W} fd sid ia ii oa oi (answer : X -> Z -> bytes -> X * bytes)
    `{Ap : !AppService W X fd sid ia ii oa oi KEYMINT_MAX_BUFFER_LENGTH answer} gptee context session garbage
    {V P : Type} `{U : KeyMintUtils V P} `{MS : KeyMintMessages V} `{OS : OperationMessages} `{RS : KeyMintResponses V}
    c0 java_time msg_version nonce_size curve (calls : list (mint_served (P := P)))
    (s : proc W (hal_st kt_st)) (d : proc (nat -> Z) (hal_st X)) :
  0 <= fd -> zlen garbage = KEYMINT_MAX_BUFFER_LENGTH ->
  (forall x c q, zlen (answer x c q).2 <= KEYMINT_MAX_BUFFER_LENGTH) -> (forall x c q, Forall is_u8 (answer x c q).2) ->
  messages_wf V ->
  let related := hal_rel (serving fd sid ia ii oa oi KEYMINT_MAX_BUFFER_LENGTH answer context session) in
  related s d ->
  let run := mint_replies (I := keymint_ipc gptee context session garbage) c0 java_time msg_version nonce_size curve calls s in
  let reference := mint_replies (I := direct_ipc KEYMINT_MAX_BUFFER_LENGTH answer) c0 java_time msg_version nonce_size curve calls d in
  run.1 = reference.1 /\ forall vs, run.1 = Ret vs -> related run.2 reference.2.
Proof.
  intros Hh Hg Ha Hb Hw related Hs run reference.
  assert (ipc_agree (I1 := keymint_ipc gptee context session garbage) (I2 := direct_ipc KEYMINT_MAX_BUFFER_LENGTH answer)
    (serving fd sid ia ii oa oi KEYMINT_MAX_BUFFER_LENGTH answer context session)) as Hi.
  { change (keymint_ipc gptee context session garbage)
      with (teec_ipc gptee context session KEYMINT_MAX_BUFFER_LENGTH true garbage). by apply teec_agrees. }
  exact (mint_replies_sim _ Hi Hw c0 java_time msg_version nonce_size curve calls s d Hs).
Qed.

(** ** A session *)

#[export] Instance demo_operation_messages : OperationMessages :=
  {| ser_update := fun q => req_of (le_enc 8 (up_handle q)); ser_finish := finish_req; ser_abort := abort_req |}.

#[export] Instance demo_responses : KeyMintResponses bytes :=
  {| plain := plain_rsp; plain0 := rsp0; creation := plain_rsp; creation0 := rsp0;
     upgrade := plain_rsp; upgrade_r := {| upgrade_response := plain_response; upgraded_key := pr_data |}; upgrade0 := rsp0;
     begun := plain_rsp; begun0 := rsp0;
     characteristics := plain_rsp; characteristics0 := rsp0;
     characteristics_r := {| characteristics_response := plain_response; ch_unenforced := fun _ => []; ch_enforced := fun _ => [] |};
     hmac_parameters := plain_rsp; hmac_parameters0 := rsp0;
     hmac_parameters_r := {| hmac_parameters_response := plain_response; seed := pr_data; nonce := pr_data |};
     shared_hmac := plain_rsp; shared_hmac0 := rsp0;
     shared_hmac_r := {| shared_hmac_response := plain_response; sharing_check := pr_data |};
     time_stamp := plain_rsp; time_stamp0 := rsp0;
     time_stamp_r := {| timestamp_response := plain_response; rsp_token := fun r => MkTimeStamp 0 0 (pr_data r) |};
     rkp := plain_rsp; rkp0 := rsp0;
     rkp_r := {| rkp_response := plain_response; maced_public_key := pr_data; rkp_key_blob := pr_data |};
     csr := plain_rsp; csr0 := rsp0;
     csr_r := {| csr_response := plain_response; device_info_blob := pr_data; protected_data_blob := pr_data; keys_to_sign_mac := pr_data |};
     operated := plain_rsp; operated_r := {| op_response := plain_response; input_consumed := fun _ => 2; output := pr_data |};
     operated0 := rsp0 |}.

Definition demo_setup : setup := MkSetup 3 plain_rsp plain_response rsp0 rsp0 rsp0 patch_req patch_req 13 202212 20221205.

Definition keymint_block : bytes := replicate (Z.to_nat KEYMINT_MAX_BUFFER_LENGTH) 0.
Definition keymint_session : kt_st :=
  KtSt (TeecSt {[ 4096 := 5 ]} {[ 4200 := Session 4096 7 ]} ∅ [4096] [4200]) 5
    (Shm (PMap 1) 0 TEEC_MEM_INPUT 11 KEYMINT_MAX_BUFFER_LENGTH PNull (-1))
    (Shm (PMap 2) 0 TEEC_MEM_OUTPUT 12 KEYMINT_MAX_BUFFER_LENGTH PNull (-1)).
Definition demo_keymint : proc (app Z) (hal_st kt_st) :=
  Proc (HalSt (MintSt keymint_session true) []) (App 5 keymint_block keymint_block demo_clock) 0 [].
Definition demo_keymint_direct : proc (nat -> Z) (hal_st Z) := Proc (HalSt (MintSt 5 true) []) demo_clock 0 [].

(** A key is made; two operations are begun and used in turn; one is finished,
    the other dropped. *)
Definition demo_mint_calls : list (mint_served (P := keymaster_key_param_t bytes)) :=
  [existT _ (CGenerateKey [] None); existT _ (CBegin 2 [1] [] None); existT _ (CBegin 3 [1] [] None);
   existT _ (CUpdate 1 [8; 9] None true); existT _ (CUpdateAad 0 [3]); existT _ (CFinish 0 (Some [4]) None None true);
   existT _ (CDrop 1); existT _ (CGenerateTimeStamp 77); existT _ (CDrop 0)].

Lemma keymint_refines_application_witness :
  let related := hal_rel (serving 5 7 1 11 2 12 KEYMINT_MAX_BUFFER_LENGTH demo_app_answer 4096 4200) in
  let run := mint_replies (I := keymint_ipc false 4096 4200 keymint_block) demo_setup id 4 16 1 demo_mint_calls demo_keymint in
  let reference := mint_replies (I := direct_ipc KEYMINT_MAX_BUFFER_LENGTH demo_app_answer) demo_setup id 4 16 1 demo_mint_calls
                     demo_keymint_direct in
  run.1 = reference.1 /\ forall vs, run.1 = Ret vs -> related run.2 reference.2.
Proof.
  apply (keymint_refines_application 5 7 1 11 2 12 demo_app_answer false 4096 4200 keymint_block demo_setup id 4 16 1 demo_mint_calls
    demo_keymint demo_keymint_direct).
  - lia.
  - by vm_compute.
  - intros x c q. by vm_compute.
  - intros x c q. unfold demo_app_answer. cbn [snd]. apply Forall_app. split; [apply le_enc_bytes|].
    repeat constructor; unfold u8, is_u8; lia.
  - split; intros; by apply req_of_wf.
  - split; [|done]. split; [|done]. split; [by split_and!|]. exists keymint_block, keymint_block.
    split_and!; [done|by vm_compute|by vm_compute].
Defined.

(** Eight commands reach the application: the dropped second operation is aborted,
    the finished one is not. *)
Example demo_mint_runs :
  match mint_replies (I := direct_ipc KEYMINT_MAX_BUFFER_LENGTH demo_app_answer) demo_setup id 4 16 1 demo_mint_calls demo_keymint_direct with
  | (Ret vs, d) => (length vs, mint_ipc (hal_impl (globals d)), objects (globals d))
  | _ => (0%nat, 0, [])
  end = (9%nat, 13, [0; 0]).
Proof. vm_compute. reflexivity. Qed.
