(* ===== verification/TeecApi.v ===== *)
(** * The exported functions of the TEE client library (400/optee_client/libteec/src/tee_client_api.cpp)

    The C functions clients link against: each calls the method of the same name
    of the one [Common] object, whose registries are part of [teec_st]. *)

From S2P Require Import Prelude Kernel Teec.

(** [Common::getInstance()]: a function-local static, both maps empty.  The
    structures and the memory are the application's. *)
Definition getInstance (g : teec_st) : teec_st := TeecSt (contexts g) (sessions g) (blocks g) [] [].

Section Api.
Context {W : Type} `{K : Kernel W} (gptee : bool).
Abbreviation TM := (M W teec_st).

Definition TEEC_InitializeContext (name : option bytes) (context : option Z) : TM Z :=
  Teec.TEEC_InitializeContext gptee name context.
Definition TEEC_FinalizeContext (context : Z) : TM unit := Teec.TEEC_FinalizeContext context.
Definition TEEC_RegisterSharedMemory (context : option Z) (shareMem : option TEEC_SharedMemory)
    : TM (Z * option TEEC_SharedMemory) :=
  Teec.TEEC_RegisterSharedMemory context shareMem.
Definition TEEC_AllocateSharedMemory (context : option Z) (shareMem : option TEEC_SharedMemory)
    : TM (Z * option TEEC_SharedMemory) :=
  Teec.TEEC_AllocateSharedMemory context shareMem.
Definition TEEC_RegisterSharedMemoryFileDescriptor (context : option Z) (shareMem : option TEEC_SharedMemory) (fd : Z) : TM Z :=
  Teec.TEEC_RegisterSharedMemoryFileDescriptor context shareMem fd.
Definition TEEC_ReleaseSharedMemory (shareMem : option TEEC_SharedMemory) : TM (option TEEC_SharedMemory) :=
  Teec.TEEC_ReleaseSharedMemory shareMem.
Definition TEEC_OpenSession (context session : option Z) (destination : TEEC_UUID) (connectionMethod : Z)
    (connectionData : bool) (operation : option TEEC_Operation) : TM api_ret :=
  Teec.TEEC_OpenSession context session destination connectionMethod connectionData operation.
Definition TEEC_CloseSession (session : Z) : TM unit := Teec.TEEC_CloseSession session.
Definition TEEC_InvokeCommand (session : option Z) (commandID : Z) (operation : option TEEC_Operation) : TM api_ret :=
  Teec.TEEC_InvokeCommand session commandID operation.
Definition TEEC_RequestCancellation (operation : option TEEC_Operation) : TM unit := Teec.TEEC_RequestCancellation operation.
End Api.
