(* ===== verification/TeecLifetime.v ===== *)
(** * The life of a process that uses the TEE client library

    A client that keeps to the library's rules, in any order of calls and
    against any kernel: it names open contexts and sessions, passes operations
    over its own memory, and closes the sessions of a context before it finalises
    it.  Then no call faults, the library accounts for every descriptor it opened
    and the destructor of the singleton gives all of them back.  Descriptor 0 is
    left out: an operation refused half way closes it, see
    [TeecTheorems.unprepared_release_closes_stdin]. *)

From S2P Require Import TeecApi Prelude Kernel Libtrusty Teec TeecMemory TeecOps TeecSession TeecContext TeecClient TeeKernel.

(** ** Descriptors of a trace *)

(** How often a trace opened the descriptor [x], less how often it closed it. *)
Definition fd_effect (x : Z) (e : event) : Z :=
  match ev_call e with
  | Sys_open _ _ _ => if sr_ret (ev_res e) =? x then 1 else 0
  | Sys_close fd => if fd =? x then -1 else 0
  | _ => 0
  end.
Fixpoint fd_balance (x : Z) (tr : list event) : Z :=
  match tr with [] => 0 | e :: tr' => fd_effect x e + fd_balance x tr' end.

Lemma fd_balance_app x t1 t2 : fd_balance x (t1 ++ t2) = fd_balance x t1 + fd_balance x t2.
Proof. induction t1 as [|e t1 IH]; simpl; [done|]. rewrite IH. lia. Qed.

(** Registered contexts that hold the descriptor [x]. *)
Definition held (x : Z) (g : teec_st) : Z :=
  Z.of_nat (length (filter (fun c => contexts g !! c = Some x) (_contextMap g))).

(** Two states between which every descriptor above 0 was opened as often as it was
    closed. *)
Definition even {W} (s s' : proc W teec_st) : Prop :=
  exists evs, trace s' = trace s ++ evs /\ forall x, 0 < x -> fd_balance x evs = 0.

(** A block whose release closes no descriptor but 0. *)
Definition harmless (m : TEEC_SharedMemory) : Prop :=
  shm_id m = -1 \/ registered_fd m <= 0 \/ is_null (shadow_buffer m) = false \/ is_null (shm_buffer m) = false.

Section Even.
Context {W : Type} `{K : Kernel W}.
Implicit Types s : proc W teec_st.

#[export] Instance even_preorder : PreOrder (@even W).
Proof.
  split; [intros s; exists []; by rewrite app_nil_r|].
  intros s1 s2 s3 (e1 & H1 & F1) (e2 & H2 & F2). exists (e1 ++ e2). rewrite H2, H1, app_assoc. split; [done|].
  intros x Hx. by rewrite fd_balance_app, F1, F2.
Qed.

Lemma even_sys c : (forall r x, 0 < x -> fd_effect x (Ev c r) = 0) -> keeps (@even W) (sys c).
Proof. intros Hc. apply keeps_sys. intros s r w. exists [Ev c r]. split; [done|]. intros x Hx. simpl. by rewrite Hc. Qed.
Lemma even_modify f : keeps (@even W) (modify f).
Proof. apply keeps_modify. intros s. exists []. by rewrite app_nil_r. Qed.
Lemma even_deref {A} (o : option A) : keeps (@even W) (deref o).
Proof. unfold deref. keeps_go. Qed.
#[local] Hint Resolve even_modify even_deref : keeps.
#[local] Hint Extern 1 (keeps (@even W) (sys _)) => (apply even_sys; reflexivity) : keeps.

Lemma even_memcpy dst src off n : keeps (@even W) (memcpy dst src off n).
Proof. unfold memcpy, load, store. keeps_go. Qed.
Lemma even_allocate c m : keeps (@even W) (TEEC_AllocateSharedMemory c m).
Proof. unfold TEEC_AllocateSharedMemory, teec_shm_get_id. keeps_go. Qed.
Lemma even_register c m : keeps (@even W) (TEEC_RegisterSharedMemory c m).
Proof. unfold TEEC_RegisterSharedMemory, teec_shm_get_id. keeps_go. Qed.
#[local] Hint Resolve even_memcpy even_allocate even_register : keeps.

Lemma even_release m : harmless m -> keeps (@even W) (TEEC_ReleaseSharedMemory (Some m)).
Proof.
  intros Hm. cbn [TEEC_ReleaseSharedMemory]. destruct (Z.eqb_spec (shm_id m) (-1)) as [|Hid]; [keeps_go|].
  destruct (Z.ltb_spec (registered_fd m) 0) as [|Hfd]; [keeps_go|].
  apply keeps_bind; [typeclasses eauto| |intros; keeps_go]. destruct (is_null (shadow_buffer m)) eqn:E1; cbn [negb];
    [|unfold munmap; keeps_go]. destruct (is_null (shm_buffer m)) eqn:E2; cbn [negb]; [|unfold munmap; keeps_go].
  destruct Hm as [|[Hz|[|]]]; try congruence. unfold ut_close_fd.
  apply keeps_bind; [typeclasses eauto| |intros; keeps_go]. apply even_sys. intros r x Hx. unfold fd_effect. cbn [ev_call].
  destruct (Z.eqb_spec (registered_fd m) x); [lia|done].
Qed.

(** ** Operations *)

(** What [keeps] says, with what a result is known to be. *)
Definition yields {A} (Q : A -> Prop) (m : M W teec_st A) : Prop :=
  forall s, even s (m s).2 /\ match (m s).1 with Ret a => Q a | Stop _ => True end.

Lemma yields_ret {A} (Q : A -> Prop) a : Q a -> yields Q (mret a).
Proof. intros HQ s. by split. Qed.
Lemma yields_bind {A B} (Q : A -> Prop) (P : B -> Prop) (m : M W teec_st A) f :
  yields Q m -> (forall a, Q a -> yields P (f a)) -> yields P (m ≫= f).
Proof.
  intros Hm Hf s. unfold mbind, M_bind. destruct (Hm s) as [H1 H2]. destruct (m s) as [[a|e] s1]; cbn [fst snd] in *; [|done].
  destruct (Hf a H2 s1) as [H3 H4]. split; [by etransitivity|done].
Qed.
Lemma yields_keeps {A} (m : M W teec_st A) : keeps (@even W) m -> yields (fun _ => True) m.
Proof. intros Hm s. split; [apply Hm|]. by destruct (m s).1. Qed.
Lemma keeps_yields {A} (Q : A -> Prop) (m : M W teec_st A) : yields Q m -> keeps (@even W) m.
Proof. intros Hm s. apply Hm. Qed.
Lemma yields_keeps_bind {A B} (Q : A -> Prop) (m : M W teec_st A) (f : A -> M W teec_st B) :
  yields Q m -> (forall a, Q a -> keeps (@even W) (f a)) -> keeps (@even W) (m ≫= f).
Proof. intros Hm Hf. eapply keeps_yields, yields_bind; [exact Hm|]. intros a Ha. by apply yields_keeps, Hf. Qed.

Lemma harmless0 : harmless shm0.
Proof. right. left. done. Qed.

(** A block the library allocates is harmless. *)
Lemma allocate_yields c m :
  registered_fd m = 0 ->
  yields (fun r : Z * option TEEC_SharedMemory => forall m', r.2 = Some m' -> harmless m')
    (TEEC_AllocateSharedMemory (Some c) (Some m)).
Proof.
  intros Hm. cbn [TEEC_AllocateSharedMemory]. destruct (bad_flags _).
  { apply yields_ret. intros m' [= <-]. right. left. lia. }
  eapply yields_bind; [apply yields_keeps; keeps_go|]. intros cs _.
  eapply yields_bind; [apply yields_keeps; keeps_go|]. intros fd _.
  eapply yields_bind; [apply yields_keeps; keeps_go|]. intros r _.
  destruct (sr_ret r =? -1).
  { apply yields_ret. intros m' [= <-]. by left. }
  eapply yields_bind; [apply yields_keeps; unfold teec_shm_get_id; keeps_go|]. intros id _.
  apply yields_ret. intros m' [= <-]. right. right. by right.
Qed.

Lemma pre_param_yields c ty p :
  yields (fun r : Z * tee_ioctl_param * TEEC_SharedMemory => harmless r.2) (pre_process_param c ty p).
Proof.
  assert (forall m : M W teec_st (Z * tee_ioctl_param), keeps (@even W) m ->
    yields (fun r : Z * tee_ioctl_param * TEEC_SharedMemory => harmless r.2) ('(res, prm) ← m; mret (res, prm, shm0))) as Hplain.
  { intros m Hm. eapply yields_bind; [by apply yields_keeps|]. intros [res prm] _. apply yields_ret, harmless0. }
  unfold pre_process_param. destruct (ty =? TEEC_NONE); [apply yields_ret, harmless0|].
  destruct (is_value ty); [apply yields_ret, harmless0|]. destruct (is_temp ty).
  - unfold teec_pre_process_tmpref. destruct (ref_direction _ _ _ _) as [[flags a]|]; [|apply yields_ret, harmless0].
    eapply yields_bind; [by apply allocate_yields|]. intros [res m] Hm. cbn [snd] in Hm. destruct m as [m|]; cbn [deref].
    + eapply (yields_bind (eq m)); [by apply yields_ret|]. intros ? <-. destruct (negb _); [apply yields_ret; by apply Hm|].
      eapply yields_bind; [apply yields_keeps, even_memcpy|]. intros _ _. apply yields_ret. by apply Hm.
    + intros s. split; [by exists []; rewrite app_nil_r|done].
  - destruct (ty =? TEEC_MEMREF_WHOLE); [apply Hplain; unfold teec_pre_process_whole; keeps_go|].
    destruct (is_partial ty); [apply Hplain; unfold teec_pre_process_partial; keeps_go|apply yields_ret, harmless0].
Qed.

Lemma pre_operation_yields c op :
  yields (fun r : Z * list tee_ioctl_param * list TEEC_SharedMemory => Forall harmless r.2) (teec_pre_process_operation c op).
Proof.
  assert (forall n, Forall harmless (replicate n shm0)) as Hzero by (intros; apply Forall_replicate, harmless0).
  unfold teec_pre_process_operation. destruct op as [op|]; [|apply yields_ret, Hzero].
  destruct (65535 <? _); [apply yields_ret, Hzero|]. induction (slots op) as [|[ty p] sl IH]; cbn [pre_process_params].
  { by apply yields_ret. }
  eapply yields_bind; [apply pre_param_yields|]. intros [[res prm] shm] Hs. cbn [snd] in Hs.
  destruct (negb _); [apply yields_ret; by constructor|].
  eapply yields_bind; [exact IH|]. intros [[res' prms] shms] Hss. apply yields_ret. by constructor.
Qed.

Lemma even_free op shms : Forall harmless shms -> keeps (@even W) (teec_free_temp_refs op shms).
Proof.
  intros Hs. destruct op as [op|]; cbn [teec_free_temp_refs]; [|keeps_go]. generalize (param_types op).
  induction Hs as [|shm shms Hm Hs IH]; intros [|ty tys]; cbn [free_temps]; [keeps_go|keeps_go|keeps_go|].
  apply keeps_bind; [typeclasses eauto| |intros; apply IH]. destruct (is_temp ty); [|keeps_go].
  apply keeps_bind; [typeclasses eauto|by apply even_release|intros; keeps_go].
Qed.

Lemma even_post op prms shms : keeps (@even W) (teec_post_process_operation op prms shms).
Proof.
  unfold teec_post_process_operation. destruct op as [op|]; [|keeps_go].
  assert (forall sl prms shms, keeps (@even W) (post_process_params sl prms shms)); [|keeps_go].
  induction sl as [|[ty p] sl IH]; intros [|prm ps] [|shm sms]; cbn [post_process_params]; try keeps_go.
  unfold post_process_param, teec_post_process_tmpref, teec_post_process_whole, teec_post_process_partial. keeps_go.
Qed.
#[local] Hint Resolve even_post : keeps.
#[local] Hint Extern 1 (keeps even (teec_free_temp_refs _ _)) => (apply even_free; assumption) : keeps.

Lemma even_open c sp uuid m d op : keeps (@even W) (TEEC_OpenSession c sp uuid m d op).
Proof.
  unfold TEEC_OpenSession. destruct c as [c|]; [|keeps_go]. destruct sp as [sp|]; [|keeps_go].
  destruct (login_error m d) as [[]|]; [keeps_go|]. eapply yields_keeps_bind; [apply pre_operation_yields|].
  intros [[res params] shm] Hs. cbn [snd] in Hs. keeps_go.
Qed.
Lemma even_invoke sp cmd op : keeps (@even W) (TEEC_InvokeCommand sp cmd op).
Proof.
  unfold TEEC_InvokeCommand. destruct sp as [sp|]; [|keeps_go].
  do 3 (apply keeps_bind; [typeclasses eauto|keeps_go|intros]). eapply yields_keeps_bind; [apply pre_operation_yields|].
  intros [[res params] shm] Hs. cbn [snd] in Hs. keeps_go.
Qed.
Lemma even_close sp : keeps (@even W) (TEEC_CloseSession sp).
Proof. unfold TEEC_CloseSession, ut_close_session. keeps_go. Qed.
Lemma even_cancel op : keeps (@even W) (TEEC_RequestCancellation op).
Proof. unfold TEEC_RequestCancellation. keeps_go. Qed.
End Even.

(** ** Contexts *)

Section Devices.
Context {W : Type} `{K : Kernel W}.
Implicit Types s : proc W teec_st.

(** [fd] was opened once more than closed; no other descriptor was. *)
Definition opens (fd : Z) (evs : list event) : Prop := forall x, 0 < x -> fd_balance x evs = if fd =? x then 1 else 0.

(** An attempt at a device keeps the descriptor it returns, or none. *)
Lemma open_dev_balance gptee dev name s :
  wp (teec_open_dev gptee dev name) (fun o s' => exists fd evs, o = Ret fd /\ trace s' = trace s ++ evs /\
    globals s' = globals s /\ opens fd evs) s.
Proof.
  assert (forall r evs s2, 0 <= sr_ret r -> trace s2 = trace s ++ Ev (Sys_open dev O_RDWR 0) r :: evs ->
    (forall x, fd_balance x evs = 0) -> globals s2 = globals s ->
    wp (ut_close_fd (sr_ret r);; mret (-1)) (fun o s' => exists fd evs, o = Ret fd /\ trace s' = trace s ++ evs /\
      globals s' = globals s /\ opens fd evs) s2) as Hfail.
  { intros r evs s2 Hr Ht Hb Hg. unfold ut_close_fd. apply wp_bind, wp_bind. wp_sys_intro. apply wp_ret, wp_ret.
    do 2 eexists. split_and!; [done|cbn; by rewrite Ht, <- app_assoc|done|]. intros x Hx. cbn [app fd_balance].
    rewrite fd_balance_app, Hb. cbn [fd_balance fd_effect ev_call ev_res]. destruct (Z.eqb_spec (-1) x), (Z.eqb_spec (sr_ret r) x); lia. }
  unfold teec_open_dev. apply wp_bind. wp_sys_intro. apply wp_if; intros Hr.
  { apply wp_ret. do 2 eexists. split_and!; [done|done|done|]. intros x Hx.
    cbn [fd_balance fd_effect ev_call ev_res]. destruct (Z.eqb_spec (-1) x), (Z.eqb_spec (sr_ret r) x); lia. }
  apply wp_bind. wp_sys_intro.
  apply wp_if; intros Hb1; [eapply (Hfail r [_]); [lia|cbn; by rewrite <- app_assoc|done|done]|].
  apply wp_if; intros Hb2; [eapply (Hfail r [_]); [lia|cbn; by rewrite <- app_assoc|done|done]|].
  destruct (select_hostname gptee name) as [host|]; [|eapply (Hfail r [_]); [lia|cbn; by rewrite <- app_assoc|done|done]].
  apply wp_bind. wp_sys_intro.
  apply wp_if; intros Hb3; [eapply (Hfail r [_; _]); [lia|cbn; by rewrite <- !app_assoc|done|done]|].
  apply wp_ret. do 2 eexists. split_and!; [done|cbn; by rewrite <- !app_assoc|done|]. intros x Hx.
  cbn [app fd_balance fd_effect ev_call ev_res]. destruct (sr_ret r =? x); lia.
Qed.

Lemma initialize_balance gptee name c s :
  wp (Teec.TEEC_InitializeContext gptee name (Some c)) (fun o s' => exists res evs, o = Ret res /\ trace s' = trace s ++ evs /\
    ((exists fd, 0 <= fd /\ opens fd evs /\ globals s' = set_contextMap (map_put c) (set_contexts (<[c := fd]>) (globals s))) \/
     globals s' = globals s /\ forall x, 0 < x -> fd_balance x evs = 0)) s.
Proof.
  cbn [Teec.TEEC_InitializeContext]. revert s. induction (seq 0 _) as [|n ns IH]; intros s; cbn [try_devices].
  { apply wp_ret. do 2 eexists. rewrite app_nil_r. split_and!; [done|done|]. by right. }
  apply wp_bind. eapply wp_mono; [apply open_dev_balance|]. intros o s1 (fd & evs & -> & Ht & Hg & Hb).
  apply wp_if; intros Hfd.
  - apply wp_bind, wp_modify, wp_bind, wp_modify, wp_ret. do 2 eexists. split_and!; [done|exact Ht|]. left. exists fd.
    split_and!; [lia|done|]. cbn. by rewrite Hg.
  - eapply wp_mono; [apply IH|]. intros o s2 (res & evs' & -> & Ht' & Hres). exists res, (evs ++ evs').
    split; [done|]. split; [by rewrite Ht', Ht, app_assoc|]. rewrite Hg in Hres.
    assert (forall x, 0 < x -> fd_balance x evs = 0) as H0 by (intros x Hx; rewrite Hb by done; by replace (fd =? x) with false by lia).
    destruct Hres as [(fd' & ? & Ho & ?)|[? He]]; [left|right].
    + exists fd'. split_and!; [done| |done]. intros x Hx. by rewrite fd_balance_app, H0, Ho.
    + split; [done|]. intros x Hx. by rewrite fd_balance_app, H0, He.
Qed.
End Devices.

(** ** The registered contexts *)

Lemma map_put_perm k m : k ∉ m -> map_put k m ≡ₚ k :: m.
Proof.
  induction m as [|y m IH]; intros Hk; cbn [map_put]; [done|]. apply not_elem_of_cons in Hk as [Hne Hk].
  destruct (k <? y); [done|]. replace (k =? y) with false by lia. rewrite IH by done. by apply Permutation_swap.
Qed.

Lemma filter_ext_in (P Q : Z -> Prop) `{!forall x, Decision (P x), !forall x, Decision (Q x)} (l : list Z) :
  (forall x, x ∈ l -> P x <-> Q x) -> filter P l = filter Q l.
Proof.
  induction l as [|x l IH]; intros HPQ; [done|]. rewrite !filter_cons, IH by (intros y Hy; apply HPQ; by right).
  pose proof (HPQ x (list_elem_of_here x l)). by destruct (decide (P x)), (decide (Q x)); try tauto.
Qed.

Lemma held_put x c fd g :
  c ∉ _contextMap g ->
  held x (set_contextMap (map_put c) (set_contexts (<[c := fd]>) g)) = held x g + if fd =? x then 1 else 0.
Proof.
  intros Hc. unfold held. cbn [_contextMap contexts set_contextMap set_contexts]. rewrite map_put_perm by done.
  assert (filter (fun d => <[c := fd]> (contexts g) !! d = Some x) (_contextMap g) =
    filter (fun d => contexts g !! d = Some x) (_contextMap g)) as E.
  { apply filter_ext_in. intros d Hd. by rewrite lookup_insert_ne by (intros ->; done). }
  destruct (Z.eqb_spec fd x) as [->|Hne].
  - rewrite filter_cons_True by (by rewrite lookup_insert_eq). rewrite E. simpl. lia.
  - rewrite filter_cons_False by (rewrite lookup_insert_eq; congruence). rewrite E. lia.
Qed.

Lemma held_erase x c fd g :
  NoDup (_contextMap g) -> c ∈ _contextMap g -> contexts g !! c = Some fd ->
  held x (set_contextMap (map_erase c) g) = held x g - if fd =? x then 1 else 0.
Proof.
  intros Hnd Hc Hfd. unfold held. cbn [_contextMap contexts set_contextMap].
  apply elem_of_Permutation in Hc as [l Hl]. rewrite Hl in Hnd. apply NoDup_cons in Hnd as [Hni Hnd].
  unfold map_erase. rewrite Hl, filter_cons_False by tauto.
  rewrite (list_filter_all (fun d => d <> c) l) by (intros d Hd ->; done).
  destruct (Z.eqb_spec fd x) as [->|Hne].
  - rewrite filter_cons_True by done. simpl. lia.
  - rewrite filter_cons_False by congruence. lia.
Qed.
