(* ===== verification/TeecLifetimeTheorems.v ===== *)
(** * Theorems on the life of a client of the TEE client library

    A client as a sequence of calls of the exported functions of [TeecApi.v],
    the rules it keeps to, and the invariant of the library under any such
    client. *)

From S2P Require Import TeecApi Prelude Kernel Libtrusty Teec TeecMemory TeecOps TeecSession TeecContext TeecClient TeeKernel TeecLifetime.

(** ** Clients *)

(** A call, or a write of the client to its own memory: a buffer, or a structure
    that is not in use. *)
Inductive api_call :=
| Initialize (name : option bytes) (context : Z)
| Finalize (context : Z)
| Register (context : Z) (m : TEEC_SharedMemory)
| Allocate (context : Z) (m : TEEC_SharedMemory)
| Release (m : TEEC_SharedMemory)
| Open (context session : Z) (uuid : TEEC_UUID) (login : Z) (data : bool) (op : option TEEC_Operation)
| Close (session : Z)
| Invoke (session cmd : Z) (op : option TEEC_Operation)
| Cancel (op : option TEEC_Operation)
| WriteBlocks (f : gmap Z bytes -> gmap Z bytes)
| WriteContext (context v : Z)
| WriteSession (session : Z) (v : TEEC_Session).

Section Clients.
Context {W : Type} `{K : Kernel W} (gptee : bool).

Definition run_api (a : api_call) : M W teec_st unit :=
  match a with
  | Initialize name c => TeecApi.TEEC_InitializeContext gptee name (Some c);; mret tt
  | Finalize c => TeecApi.TEEC_FinalizeContext c
  | Register c m => TeecApi.TEEC_RegisterSharedMemory (Some c) (Some m);; mret tt
  | Allocate c m => TeecApi.TEEC_AllocateSharedMemory (Some c) (Some m);; mret tt
  | Release m => TeecApi.TEEC_ReleaseSharedMemory (Some m);; mret tt
  | Open c sp uuid login data op => TeecApi.TEEC_OpenSession (Some c) (Some sp) uuid login data op;; mret tt
  | Close sp => TeecApi.TEEC_CloseSession sp
  | Invoke sp cmd op => TeecApi.TEEC_InvokeCommand (Some sp) cmd op;; mret tt
  | Cancel op => TeecApi.TEEC_RequestCancellation op
  | WriteBlocks f => modify (set_blocks f)
  | WriteContext c v => modify (set_contexts (<[c := v]>))
  | WriteSession sp v => modify (set_sessions (<[sp := v]>))
  end.

(** The block was filled in by the library, or was released. *)
Definition proper (m : TEEC_SharedMemory) : Prop :=
  shm_id m = -1 \/ registered_fd m < 0 \/ (exists a, shadow_buffer m = PMap a) \/
  (shadow_buffer m = PNull /\ exists a, shm_buffer m = PMap a).

(** The rules. *)
Definition allowed (g : teec_st) (a : api_call) : Prop :=
  match a with
  | Initialize _ c => c ∉ _contextMap g
  | Finalize c => c ∈ _contextMap g /\ Forall (foreign g c) (_sessionMap g)
  | Register c _ | Allocate c _ => c ∈ _contextMap g
  | Release m => proper m
  | Open c sp uuid _ _ op => c ∈ _contextMap g /\ (sp ∉ _sessionMap g) /\ Forall is_u8 (clockSeqAndNode uuid) /\ op_ok (blocks g) op
  | Close sp => True
  | Invoke sp _ op => sp ∈ _sessionMap g /\ op_ok (blocks g) op
  | Cancel op => forall o sp, op = Some o -> op_session o = Some sp -> sp ∈ _sessionMap g
  | WriteBlocks _ => True
  | WriteContext c _ => c ∉ _contextMap g
  | WriteSession sp _ => sp ∉ _sessionMap g
  end.

Definition client_step (s s' : proc W teec_st) : Prop :=
  exists a, allowed (globals s) a /\ run_api a s = (Ret tt, s').

(** ** The invariant *)

(** Registered structures are in place, and the descriptors they hold are those
    that were opened and not closed. *)
Definition registered (g : teec_st) : Prop :=
  NoDup (_contextMap g) /\
  (forall c, c ∈ _contextMap g -> exists fd, contexts g !! c = Some fd /\ 0 <= fd) /\
  (forall p, p ∈ _sessionMap g -> exists ss, sessions g !! p = Some ss /\ ctx ss ∈ _contextMap g).
Definition lib_inv (s : proc W teec_st) : Prop :=
  registered (globals s) /\ forall x, 0 < x -> fd_balance x (trace s) = held x (globals s).

Implicit Types s : proc W teec_st.

(** A call that leaves the contexts alone and opens as much as it closes. *)
Lemma inv_even s s' :
  lib_inv s -> even s s' -> contexts (globals s') = contexts (globals s) -> _contextMap (globals s') = _contextMap (globals s) ->
  (forall p, p ∈ _sessionMap (globals s') -> exists ss, sessions (globals s') !! p = Some ss /\ ctx ss ∈ _contextMap (globals s)) ->
  lib_inv s'.
Proof.
  intros [(Hnd & Hc & _) Hb] (evs & Ht & He) Ec Em Hs. split.
  - split_and!; rewrite ?Em, ?Ec; done.
  - intros x Hx. rewrite Ht, fd_balance_app, (He x Hx), (Hb x Hx). unfold held. rewrite Ec, Em. lia.
Qed.

Lemma inv_frame s s' : lib_inv s -> even s s' -> frame (globals s) (globals s') -> lib_inv s'.
Proof.
  intros Hi He (Ec & Es & Esm & Ecm & _). apply (inv_even s s' Hi He Ec Ecm). rewrite Es, Esm. apply Hi.
Qed.

(** [wp] of a call with its result dropped. *)
Lemma wp_drop {A} (m : M W teec_st A) (Q : proc W teec_st -> Prop) s :
  wp m (fun o s' => (exists v, o = Ret v) /\ Q s') s -> wp (m;; mret tt) (fun o s' => o = Ret tt /\ Q s') s.
Proof. intros H. apply wp_bind. eapply wp_mono; [exact H|]. by intros o s' [[v ->] HQ]; apply wp_ret. Qed.

(** Both what a call establishes and what it keeps. *)
Lemma wp_keeps {A} R (m : M W teec_st A) (Q : outcome A -> proc W teec_st -> Prop) s :
  keeps R m -> wp m Q s -> wp m (fun o s' => Q o s' /\ R s s') s.
Proof. intros Hk Hq. split; [exact Hq|apply Hk]. Qed.

Lemma initialize_inv name c s :
  lib_inv s -> c ∉ _contextMap (globals s) ->
  wp (Teec.TEEC_InitializeContext gptee name (Some c)) (fun o s' => (exists v, o = Ret v) /\ lib_inv s') s.
Proof.
  intros [(Hnd & Hc & Hs) Hb] Hni. eapply wp_mono; [apply initialize_balance|].
  intros o s' (res & evs & -> & Ht & Hg). split; [by eexists|]. destruct Hg as [(fd & Hfd & Ho & Hg)|[Hg H0]]; split.
  - rewrite Hg. unfold registered. cbn [_contextMap contexts sessions _sessionMap set_contextMap set_contexts]. split_and!.
    + rewrite map_put_perm by done. by constructor.
    + intros d Hd. apply elem_of_map_put in Hd as [->|Hd]; [exists fd; by rewrite lookup_insert_eq|].
      rewrite lookup_insert_ne by (intros ->; done). by apply Hc.
    + intros p Hp. destruct (Hs p Hp) as (ss & ? & ?). exists ss. split; [done|]. apply elem_of_map_put. by right.
  - intros x Hx. rewrite Ht, fd_balance_app, Hb, (Ho x Hx), Hg, held_put by done. done.
  - rewrite Hg. by split_and!.
  - intros x Hx. rewrite Ht, fd_balance_app, Hb, (H0 x Hx), Hg by done. lia.
Qed.

Lemma finalize_inv c s :
  lib_inv s -> c ∈ _contextMap (globals s) -> Forall (foreign (globals s) c) (_sessionMap (globals s)) ->
  wp (Teec.TEEC_FinalizeContext c) (fun o s' => o = Ret tt /\ lib_inv s') s.
Proof.
  intros [(Hnd & Hc & Hs) Hb] Hin Hf. destruct (Hc c Hin) as (fd & Hfd & Hpos).
  eapply wp_mono; [by apply (finalize_spec c fd s)|]. intros o s' [-> H]. split; [done|].
  unfold map_has in H. rewrite bool_decide_eq_true_2 in H by done. destruct H as [Hg [r Ht]]. split.
  - rewrite Hg. unfold registered. cbn [_contextMap contexts sessions _sessionMap set_contextMap]. split_and!.
    + by apply NoDup_filter.
    + intros d Hd. apply Hc. apply list_elem_of_filter in Hd. by destruct Hd.
    + intros p Hp. destruct (Hs p Hp) as (ss & Hss & Hx). exists ss. split; [done|]. apply list_elem_of_filter. split; [|done].
      rewrite Forall_forall in Hf. destruct (Hf p Hp) as (ss' & Hss' & Hne). congruence.
  - intros x Hx. rewrite Ht, fd_balance_app, Hb, Hg, (held_erase x c fd) by done. cbn [fd_balance fd_effect ev_call].
    destruct (fd =? x); lia.
Qed.

Lemma client_open_inv c sp uuid login data op s :
  lib_inv s -> c ∈ _contextMap (globals s) -> sp ∉ _sessionMap (globals s) -> Forall is_u8 (clockSeqAndNode uuid) ->
  op_ok (blocks (globals s)) op ->
  wp (Teec.TEEC_OpenSession (Some c) (Some sp) uuid login data op) (fun o s' => (exists v, o = Ret v) /\ lib_inv s') s.
Proof.
  intros Hi Hin Hni Hu Hop. pose proof Hi as [(Hnd & Hc & Hs) Hb]. destruct (Hc c Hin) as (fd & Hfd & Hpos).
  destruct (login_error login data) as [[res eo]|] eqn:El.
  { unfold Teec.TEEC_OpenSession. rewrite El. apply wp_ret. split; [by eexists|done]. }
  eapply wp_mono; [apply (wp_keeps even); [apply even_open|by apply (open_session_spec c sp uuid login data op fd s)]|].
  intros o s' [(res & eorig & op' & -> & _ & evs & _ & Hf & _) He]. split; [by eexists|]. destruct (res =? TEEC_SUCCESS).
  - destruct Hf as (buf & r & _ & Ec & Es & Esm & Ecm & _). apply (inv_even s s' Hi He Ec Ecm). rewrite Es, Esm.
    cbn [opened _sessionMap sessions set_sessionMap set_sessions]. intros p Hp. apply elem_of_map_put in Hp as [->|Hp].
    + eexists. by rewrite lookup_insert_eq.
    + rewrite lookup_insert_ne by (intros ->; done). by apply Hs.
  - by apply (inv_frame s s').
Qed.

Lemma client_close_inv sp s :
  lib_inv s -> wp (Teec.TEEC_CloseSession sp) (fun o s' => o = Ret tt /\ lib_inv s') s.
Proof.
  intros Hi. pose proof Hi as [(Hnd & Hc & Hs) Hb]. destruct (decide (sp ∈ _sessionMap (globals s))) as [Hin|Hni].
  - destruct (Hs sp Hin) as (ss & Hss & Hx). destruct (Hc _ Hx) as (fd & Hfd & Hpos).
    eapply wp_mono; [apply (wp_keeps even); [apply even_close|by apply (close_spec sp ss fd s)]|].
    intros o s' [(-> & Hg & _) He]. split; [done|]. apply (inv_even s s' Hi He); rewrite Hg; [done|done|].
    cbn [_sessionMap sessions set_sessionMap]. intros p Hp. apply list_elem_of_filter in Hp as [_ Hp]. by apply Hs.
  - unfold Teec.TEEC_CloseSession. apply wp_bind, wp_gets. unfold map_has. rewrite bool_decide_eq_false_2 by done. by apply wp_ret.
Qed.

Lemma invoke_inv sp cmd op s :
  lib_inv s -> sp ∈ _sessionMap (globals s) -> op_ok (blocks (globals s)) op ->
  wp (Teec.TEEC_InvokeCommand (Some sp) cmd op) (fun o s' => (exists v, o = Ret v) /\ lib_inv s') s.
Proof.
  intros Hi Hin Hop. pose proof Hi as [(Hnd & Hc & Hs) Hb]. destruct (Hs sp Hin) as (ss & Hss & Hx).
  destruct (Hc _ Hx) as (fd & Hfd & Hpos).
  eapply wp_mono; [apply (wp_keeps even); [apply even_invoke|by apply (invoke_spec sp cmd op ss fd s)]|].
  intros o s' [(res & eorig & op' & -> & _ & Hf & _) He]. split; [by eexists|]. by apply (inv_frame s s').
Qed.

(** Calls that change nothing the library keeps. *)
Lemma inv_same s s' : lib_inv s -> even s s' -> globals s' = globals s -> lib_inv s'.
Proof. intros Hi He Hg. apply (inv_frame s s' Hi He). by rewrite Hg. Qed.

Lemma cancel_inv op s :
  lib_inv s -> (forall o sp, op = Some o -> op_session o = Some sp -> sp ∈ _sessionMap (globals s)) ->
  wp (Teec.TEEC_RequestCancellation op) (fun o s' => o = Ret tt /\ lib_inv s') s.
Proof.
  intros Hi Ha. assert (wp (Teec.TEEC_RequestCancellation op) (fun o s' => o = Ret tt /\ globals s' = globals s) s) as Hq.
  { destruct op as [op|]; cbn [Teec.TEEC_RequestCancellation]; [|by apply wp_ret].
    apply wp_bind. wp_sys_intro. apply wp_bind. wp_sys_intro. destruct (op_session op) as [sp|] eqn:E; [|by apply wp_ret].
    destruct Hi as [(_ & Hc & Hs) _]. destruct (Hs sp (Ha op sp eq_refl E)) as (ss & Hss & Hx). destruct (Hc _ Hx) as (fd & Hfd & _).
    apply wp_bind, wp_gets. cbn [globals after]. rewrite Hss. apply wp_bind, wp_ret, wp_bind, wp_gets. cbn [globals after].
    rewrite Hfd. apply wp_bind, wp_ret, wp_bind. wp_sys_intro. by apply wp_ret. }
  eapply wp_mono; [apply (wp_keeps even _ _ _ (even_cancel op) Hq)|]. intros o s' [[-> Hg] He]. split; [done|]. by apply (inv_same s s').
Qed.

(** Mapping a block and asking for its id. *)
Ltac shared Hfd := apply wp_bind, wp_gets; rewrite Hfd; apply wp_bind, wp_ret, wp_bind; wp_sys_intro; apply wp_if; intros _;
  [apply wp_ret; by split; [eexists|]|]; apply wp_bind; unfold teec_shm_get_id; apply wp_bind; wp_sys_intro;
  apply wp_if; intros _; apply wp_ret, wp_ret; by split; [eexists|].

Lemma allocate_inv c m s :
  lib_inv s -> c ∈ _contextMap (globals s) ->
  wp (Teec.TEEC_AllocateSharedMemory (Some c) (Some m)) (fun o s' => (exists v, o = Ret v) /\ lib_inv s') s.
Proof.
  intros Hi Hin. pose proof Hi as [(_ & Hc & _) _]. destruct (Hc c Hin) as (fd & Hfd & _).
  eapply wp_mono; [apply (wp_keeps even _ (fun o s' => (exists v, o = Ret v) /\ globals s' = globals s)); [apply even_allocate|]|].
  - cbn [Teec.TEEC_AllocateSharedMemory]. apply wp_if; intros _; [apply wp_ret; by split; [eexists|]|]. shared Hfd.
  - intros o s' [[Hv Hg] He]. split; [done|]. by apply (inv_same s s').
Qed.

Lemma register_inv c m s :
  lib_inv s -> c ∈ _contextMap (globals s) ->
  wp (Teec.TEEC_RegisterSharedMemory (Some c) (Some m)) (fun o s' => (exists v, o = Ret v) /\ lib_inv s') s.
Proof.
  intros Hi Hin. pose proof Hi as [(_ & Hc & _) _]. destruct (Hc c Hin) as (fd & Hfd & _).
  eapply wp_mono; [apply (wp_keeps even _ (fun o s' => (exists v, o = Ret v) /\ globals s' = globals s)); [apply even_register|]|].
  - cbn [Teec.TEEC_RegisterSharedMemory]. apply wp_if; intros _; [apply wp_ret; by split; [eexists|]|].
    apply wp_if; intros _; [apply wp_ret; by split; [eexists|]|]. shared Hfd.
  - intros o s' [[Hv Hg] He]. split; [done|]. by apply (inv_same s s').
Qed.

Lemma proper_harmless m : proper m -> harmless m.
Proof.
  intros [?|[?|[[a Ha]|[_ [a Ha]]]]]; [by left|right; left; lia|right; right; left; by rewrite Ha|right; right; right; by rewrite Ha].
Qed.

Lemma release_inv m s :
  lib_inv s -> proper m -> wp (Teec.TEEC_ReleaseSharedMemory (Some m)) (fun o s' => (exists v, o = Ret v) /\ lib_inv s') s.
Proof.
  intros Hi Hm. eapply wp_mono.
  { apply (wp_keeps even _ (fun o s' => (exists v, o = Ret v) /\ globals s' = globals s)); [by apply even_release, proper_harmless|].
    cbn [Teec.TEEC_ReleaseSharedMemory]. destruct (Z.eqb_spec (shm_id m) (-1)); [apply wp_ret; by split; [eexists|]|].
    destruct (Z.ltb_spec (registered_fd m) 0); [apply wp_ret; by split; [eexists|]|].
    destruct Hm as [|[|[[a Ha]|[Hn [a Ha]]]]]; [lia|lia| |]; rewrite ?Hn, Ha; cbn [is_null negb munmap]; apply wp_bind, wp_bind;
      wp_sys_intro; apply wp_ret, wp_bind; wp_sys_intro; apply wp_ret; by split; [eexists|]. }
  intros o s' [[Hv Hg] He]. split; [done|]. by apply (inv_same s s').
Qed.

(** The client's own writes. *)
Lemma client_write_inv a s :
  lib_inv s -> allowed (globals s) a ->
  match a with WriteBlocks _ | WriteContext _ _ | WriteSession _ _ => True | _ => False end ->
  wp (run_api a) (fun o s' => o = Ret tt /\ lib_inv s') s.
Proof.
  intros [(Hnd & Hc & Hs) Hb] Ha. destruct a as [| | | | | | | | |f|c v|sp v]; try done; intros _; cbn [run_api allowed] in *;
    apply wp_modify; (split; [done|split]); try exact Hb.
  - split_and!; cbn [globals _contextMap _sessionMap contexts sessions set_contexts]; [done| |done].
    intros d Hd. rewrite lookup_insert_ne by (intros ->; done). by apply Hc.
  - intros x Hx. cbn [trace globals]. rewrite Hb by done. unfold held. cbn [_contextMap contexts set_contexts]. f_equal. f_equal.
    apply filter_ext_in. intros d Hd. by rewrite lookup_insert_ne by (intros ->; done).
  - split_and!; cbn [globals _contextMap _sessionMap contexts sessions set_sessions]; [done|done|].
    intros p Hp. rewrite lookup_insert_ne by (intros ->; done). by apply Hs.
Qed.

(** Every allowed call returns, and keeps the invariant. *)
Lemma api_inv a s :
  lib_inv s -> allowed (globals s) a -> wp (run_api a) (fun o s' => o = Ret tt /\ lib_inv s') s.
Proof.
  intros Hi Ha. destruct a; try (by apply client_write_inv); cbn [run_api allowed] in *.
  - by apply wp_drop, initialize_inv.
  - destruct Ha. by apply finalize_inv.
  - by apply wp_drop, register_inv.
  - by apply wp_drop, allocate_inv.
  - by apply wp_drop, release_inv.
  - destruct Ha as (? & ? & ? & ?). by apply wp_drop, client_open_inv.
  - by apply client_close_inv.
  - destruct Ha. by apply wp_drop, invoke_inv.
  - by apply cancel_inv.
Qed.

Lemma reachable_inv g w e s :
  rtc client_step (Proc (getInstance g) w e []) s -> lib_inv s.
Proof.
  intros Hr. remember (Proc (getInstance g) w e []) as s0 eqn:E0. assert (lib_inv s0) as H0.
  { subst s0. split; [split_and!|]; cbn; [constructor|intros c Hc; by apply not_elem_of_nil in Hc..|done]. }
  clear E0. induction Hr as [s|s s1 s2 (a & Ha & Hrun) _ IH]; [done|]. apply IH.
  pose proof (api_inv a s H0 Ha) as H. unfold wp in H. rewrite Hrun in H. apply H.
Qed.

(** ** The end of the process *)

Lemma close_contexts_balance cm g evs x :
  (forall c, c ∈ cm -> exists fd, contexts g !! c = Some fd /\ 0 <= fd) ->
  ev_call <$> evs = cm ≫= close_context_calls g ->
  fd_balance x evs = - Z.of_nat (length (filter (fun c => contexts g !! c = Some x) cm)).
Proof.
  revert evs. induction cm as [|c cm IH]; intros evs Hc He.
  { by destruct evs. }
  destruct (Hc c (list_elem_of_here c cm)) as (fd & Hfd & _). cbn [mbind list_bind] in He.
  unfold close_context_calls at 1 in He. rewrite Hfd in He. destruct evs as [|[call r] evs]; [done|].
  cbn in He. injection He as -> He. cbn [fd_balance fd_effect ev_call].
  rewrite (IH evs) by (done || (intros d Hd; apply Hc; by right)). rewrite filter_cons, Hfd.
  destruct (Z.eqb_spec fd x) as [->|]; [rewrite decide_True by done|rewrite decide_False by congruence]; simpl; lia.
Qed.

Lemma ioctls_balance x evs : Forall (fun c => match c with Sys_ioctl _ _ _ => True | _ => False end) (ev_call <$> evs) ->
  fd_balance x evs = 0.
Proof.
  induction evs as [|[c r] evs IH]; cbn; intros H; [done|]. inversion_clear H as [|? ? H1 H2]. rewrite IH by done.
  by destruct c.
Qed.
Lemma length_bind_one {A} (f : Z -> list A) l : (forall x, x ∈ l -> length (f x) = 1%nat) -> length (l ≫= f) = length l.
Proof.
  induction l as [|x l IH]; intros H; [done|]. cbn [mbind list_bind]. rewrite length_app, (H x) by left.
  rewrite IH by (intros y Hy; apply H; by right). done.
Qed.

Lemma session_calls_ioctl g l : Forall (fun c => match c with Sys_ioctl _ _ _ => True | _ => False end) (l ≫= close_session_calls g).
Proof.
  induction l as [|p l IH]; cbn [mbind list_bind]; [constructor|]. apply Forall_app. split; [|exact IH].
  unfold close_session_calls. destruct (sessions g !! p) as [ss|]; [|constructor]. destruct (contexts g !! ctx ss); by repeat constructor.
Qed.

(** The destructor closes everything that is left. *)
Lemma destroyed s :
  lib_inv s ->
  exists s' closed, Common_destroy s = (Ret tt, s') /\ trace s' = trace s ++ closed /\
    ev_call <$> closed = (_sessionMap (globals s) ≫= close_session_calls (globals s)) ++
                         (_contextMap (globals s) ≫= close_context_calls (globals s)) /\
    length closed = (length (_sessionMap (globals s)) + length (_contextMap (globals s)))%nat /\
    forall x, 0 < x -> fd_balance x (trace s') = 0.
Proof.
  intros [(Hnd & Hc & Hs) Hb]. destruct (destroy_spec s) as (closed & Ho & Ht & He & _).
  { split; [intros p Hp|intros c Hp; destruct (Hc c Hp) as (fd & -> & _); by eexists].
    destruct (Hs p Hp) as (ss & Hss & Hx). destruct (Hc _ Hx) as (fd & Hfd & _). by exists ss, fd. }
  destruct (Common_destroy s) as [o s']. cbn [fst snd] in *. subst o. exists s', closed. split_and!; [done|done|done| |].
  - rewrite <- (length_fmap ev_call closed), He, length_app. f_equal; apply length_bind_one.
    + intros p Hp. unfold close_session_calls. destruct (Hs p Hp) as (ss & -> & Hx). by destruct (Hc _ Hx) as (fd & -> & _).
    + intros c Hp. unfold close_context_calls. by destruct (Hc c Hp) as (fd & -> & _).
  - intros x Hx. rewrite Ht, fd_balance_app, Hb by done. apply fmap_app_inv in He as (e1 & e2 & E1 & E2 & ->).
    rewrite fd_balance_app, (ioctls_balance x e1), (close_contexts_balance (_contextMap (globals s)) (globals s) e2) by
      (done || (rewrite <- E1; apply session_calls_ioctl)). unfold held. lia.
Qed.
End Clients.

(** C12. The life of the TEE client library in a process.  Take any client that
    initialises contexts that are not open, uses open contexts and sessions,
    operations over its own memory and blocks the library gave it, and closes the
    sessions of a context before finalising it; in whatever order it does so and
    whatever the kernel answers, no call faults; every descriptor above 0 was
    opened exactly as often as it was closed, but once more for each registered
    context that holds it; and when the process ends, the destructor closes the
    sessions that are left, then the descriptors that are left, and the account of
    every descriptor is zero. *)
Theorem library_accounts_for_descriptors {W} `{K : Kernel W} gptee g w e (s : proc W teec_st) :
  rtc (client_step gptee) (Proc (getInstance g) w e []) s ->
  (forall a, allowed (globals s) a -> exists s', run_api gptee a s = (Ret tt, s')) /\
  (forall x, 0 < x -> fd_balance x (trace s) = held x (globals s)) /\
  exists s' closed, Common_destroy s = (Ret tt, s') /\ trace s' = trace s ++ closed /\
    ev_call <$> closed = (_sessionMap (globals s) ≫= close_session_calls (globals s)) ++
                         (_contextMap (globals s) ≫= close_context_calls (globals s)) /\
    length closed = (length (_sessionMap (globals s)) + length (_contextMap (globals s)))%nat /\
    forall x, 0 < x -> fd_balance x (trace s') = 0.
Proof.
  intros Hr. pose proof (reachable_inv gptee g w e s Hr) as Hi. pose proof Hi as [(Hnd & Hc & Hs) Hb]. split; [|split; [exact Hb|]].
  { intros a Ha. pose proof (api_inv gptee a s Hi Ha) as Ho. unfold wp in Ho. destruct (run_api gptee a s) as [o s']. cbn [fst snd] in Ho.
    destruct Ho as [-> _]. by exists s'. }
  by apply destroyed.
Qed.

(** ** A client *)

Fixpoint run_all {W} `{K : Kernel W} (gptee : bool) (calls : list api_call) (s : proc W teec_st) : proc W teec_st :=
  match calls with [] => s | a :: calls' => run_all gptee calls' (run_api gptee a s).2 end.

(** Two contexts; one session is left open, and so is its context. *)
Definition demo_uuid : TEEC_UUID := Uuid 0x98fb95bc 0xb4bf 0x42d2 [0x64; 0x73; 0xea; 0xe4; 0x86; 0x90; 0xd7; 0xea].
Definition demo_start : list api_call :=
  [Initialize None 100; WriteContext 101 0; Initialize None 101; Open 100 200 demo_uuid TEEC_LOGIN_PUBLIC false None;
   Open 101 201 demo_uuid TEEC_LOGIN_PUBLIC false None; Invoke 201 3 None; Close 201].
Definition demo_life : list api_call := demo_start ++ [Finalize 101; Close 777].
Definition demo_process : proc tee_world teec_st := Proc (getInstance (TeecSt ∅ ∅ ∅ [] [])) tee_world0 0 [].
Definition demo_end : proc tee_world teec_st := run_all false demo_life demo_process.

(** Every call follows the rules. *)
Fixpoint follows {W} `{K : Kernel W} (gptee : bool) (calls : list api_call) (s : proc W teec_st) : Prop :=
  match calls with [] => True | a :: calls' => allowed (globals s) a /\ follows gptee calls' (run_api gptee a s).2 end.

Lemma follows_reachable {W} `{K : Kernel W} gptee calls (s : proc W teec_st) :
  lib_inv s -> follows gptee calls s -> rtc (client_step gptee) s (run_all gptee calls s).
Proof.
  revert s. induction calls as [|a calls IH]; intros s Hi Hf; [constructor|]. destruct Hf as [Ha Hf].
  pose proof (api_inv gptee a s Hi Ha) as Ho. unfold wp in Ho. cbn [run_all follows] in *.
  destruct (run_api gptee a s) as [o s'] eqn:E. cbn [fst snd] in *. destruct Ho as [-> Hi'].
  eapply rtc_l; [by exists a|]. by apply IH.
Qed.

Lemma follows_app {W} `{K : Kernel W} gptee l1 l2 (s : proc W teec_st) :
  follows gptee l1 s -> follows gptee l2 (run_all gptee l1 s) -> follows gptee (l1 ++ l2) s.
Proof. revert s. induction l1 as [|a l1 IH]; intros s H1 H2; [exact H2|]. destruct H1 as [Ha H1]. split; [exact Ha|by apply IH]. Qed.

Ltac by_deciding := apply (bool_decide_unpack _); vm_compute; exact I.

Lemma demo_follows : follows false demo_life demo_process.
Proof.
  assert (Forall is_u8 (clockSeqAndNode demo_uuid)) as Hu by (repeat constructor; vm_compute; congruence).
  apply follows_app.
  - split; [by_deciding|]. split; [by_deciding|]. split; [by_deciding|].
    split; [split; [by_deciding|split; [by_deciding|split; [exact Hu|exact I]]]|].
    split; [split; [by_deciding|split; [by_deciding|split; [exact Hu|exact I]]]|].
    split; [split; [by_deciding|exact I]|]. split; exact I.
  - assert (_sessionMap (globals (run_all false demo_start demo_process)) = [200] /\
      sessions (globals (run_all false demo_start demo_process)) !! 200 = Some (Session 100 0) /\
      bool_decide (101 ∈ _contextMap (globals (run_all false demo_start demo_process))) = true) as (E1 & E2 & E3) by (by vm_compute).
    split; [|split; exact I]. split; [by apply bool_decide_eq_true in E3|].
    rewrite E1. constructor; [|constructor]. by exists (Session 100 0).
Qed.

Lemma library_accounts_for_descriptors_witness :
  (forall a, allowed (globals demo_end) a -> exists s', run_api false a demo_end = (Ret tt, s')) /\
  (forall x, 0 < x -> fd_balance x (trace demo_end) = held x (globals demo_end)) /\
  exists s' closed, Common_destroy demo_end = (Ret tt, s') /\ trace s' = trace demo_end ++ closed /\
    ev_call <$> closed = (_sessionMap (globals demo_end) ≫= close_session_calls (globals demo_end)) ++
                         (_contextMap (globals demo_end) ≫= close_context_calls (globals demo_end)) /\
    length closed = (length (_sessionMap (globals demo_end)) + length (_contextMap (globals demo_end)))%nat /\
    forall x, 0 < x -> fd_balance x (trace s') = 0.
Proof.
  apply (library_accounts_for_descriptors false (TeecSt ∅ ∅ ∅ [] []) tee_world0 0 demo_end).
  apply follows_reachable; [|exact demo_follows].
  apply (reachable_inv false (TeecSt ∅ ∅ ∅ [] []) tee_world0 0). constructor.
Defined.

(** One context and its session are left at the end. *)
Example demo_end_left : (held 5 (globals demo_end), _sessionMap (globals demo_end)) = (1, [200]).
Proof. vm_compute. reflexivity. Qed.
